(** * Neuromorphic learning network (claude_pyspice_net.py)

    A shallow embedding of the orchestrator of [src/claude_pyspice_net.py]:
    topology generation, circuit construction, stimulus synthesis, state
    extraction, performance evaluation, the learning loop and the
    preparation of the training and test data.

    Conventions of the embedding:
    - Python floats are modelled as exact rationals [Q]; the constants are
      written with the decimal literals of the source. Sums, products and
      quotients are exact where the code rounds, so the statements rest on
      what the rounded operations keep as well: signs, orderings, counts
      and shapes; a quotient beyond the floats is infinite, as in the
      code.
    - A raised Python exception is a value [Raise e] of the [result] type.
    - The global NumPy generator [np.random] is an abstract state threaded
      through the [Rand] monad; its draws are the fields of the [NumPy]
      class, and what NumPy documents of them is the class [NumPySpec].
    - A PySpice [Circuit] is the list of the elements and device models
      added to it, in the order of the calls.
    - The transient solver is a parameter of the learning loop.
    - Printing and plotting have no effect on the values returned and are
      left out: a run of the code returns what the model returns, unless
      a plot raises. *)

From Stdlib Require Import QArith Qabs ZArith Lia Lqa Ascii Sorted.
From stdpp Require Import base gmap strings list pretty.

(** ** Exceptions and the error monad *)

Inductive exn : Set :=
  | IndexError
  | ValueError
  | AttributeError
  | OverflowError.

Inductive result (A : Type) : Type :=
  | Ok (a : A)
  | Raise (e : exn).
Arguments Ok {A} a.
Arguments Raise {A} e.

#[global] Instance result_ret : MRet result := λ A a, Ok a.
#[global] Instance result_bind : MBind result :=
  λ A B f m, match m with Ok a => f a | Raise e => Raise e end.

(** [l[i]] for a non-negative index. *)
Definition index {A} (l : list A) (i : nat) : result A :=
  match l !! i with
  | Some x => Ok x
  | None => Raise IndexError
  end.

(** [l[-1]]. *)
Definition index_last {A} (l : list A) : result A :=
  match last l with
  | Some x => Ok x
  | None => Raise IndexError
  end.

(** ** Circuits *)

(** The ground node, [circuit.gnd]. *)
Definition gnd : string := "0".

Inductive element : Type :=
  | V (name : string) (plus minus : string) (value : Q)
  | C (name : string) (plus minus : string) (value : Q)
  | R (name : string) (plus minus : string) (value : Q)
  | MOSFET (name : string) (drain gate source bulk : string) (model : string)
  | PieceWiseLinearVoltageSource
      (name : string) (plus minus : string) (values : list (Q * Q)).

(** A [circuit.model(name, 'NMOS', LEVEL=1, VTO=.., KP=.., GAMMA=0.1,
    LAMBDA=0.01, PHI=0.6, TOX=10e-9)] card. *)
Record mos_model : Type := MosModel {
  model_name : string;
  model_type : string;
  LEVEL : Z;
  VTO : Q;
  KP : Q;
  GAMMA : Q;
  LAMBDA : Q;
  PHI : Q;
  TOX : Q;
}.

Definition nmos_level1 (name : string) (vto kp : Q) : mos_model :=
  {| model_name := name; model_type := "NMOS"; LEVEL := 1;
     VTO := vto; KP := kp;
     GAMMA := 0.1; LAMBDA := 0.01; PHI := 0.6; TOX := 10e-9 |}.

(** A netlist: its title, the raw directives ([circuit.raw_spice]), the
    elements and the device models, in the order they were added. *)
Record Circuit : Type := MkCircuit {
  title : string;
  raw_spice : string;
  elements : list element;
  models : list mos_model;
}.

Definition add (e : element) (c : Circuit) : Circuit :=
  {| title := title c; raw_spice := raw_spice c;
     elements := elements c ++ [e]; models := models c |}.

Definition add_model (m : mos_model) (c : Circuit) : Circuit :=
  {| title := title c; raw_spice := raw_spice c;
     elements := elements c; models := models c ++ [m] |}.

(** ** Cell types *)

(** The codes 0 (SRAM, stable), 1 (refreshed DRAM, slow decay), 2 (leaky
    DRAM, fast leak) and 3 (neighbor-controlled leaky DRAM, laterally
    modulated). *)
Inductive CellType : Set :=
  | CELL_TYPE_SRAM
  | CELL_TYPE_DRAM_REFRESHED
  | CELL_TYPE_DRAM_LEAKY
  | CELL_TYPE_DRAM_NEIGHBOR_CTRL_LEAKY.

#[global] Instance CellType_eq_dec : EqDecision CellType.
Proof. solve_decision. Defined.

(** ** Learning parameters *)

Definition LEARNING_RATE_BASE : Q := 1.0.
Definition LATERAL_INHIBITION_STRENGTH : Q := 0.8.

(** ** Stimulus waveforms: [generate_simulation_signals] *)

Module Stimulus.
Section WithSizes.
Variables num_inputs num_outputs : nat.

Local Open Scope Q_scope.

Definition time_step : Q := 0.05e-6.
Definition vdd : Q := 1.2.

Definition present_duration : Q := 5e-6.
Definition forward_duration : Q := 5e-6.
Definition error_duration : Q := 5e-6.
Definition update_duration : Q := 5e-6.
Definition rest_duration : Q := 5e-6.

Definition present_strength : Q := 15.0.
Definition error_strength (learning_step : nat) : Q :=
  LEARNING_RATE_BASE * (1.0 - 0.2 * inject_Z (Z.of_nat learning_step)).
Definition inhibit_strength (learning_step : nat) : Q :=
  LATERAL_INHIBITION_STRENGTH * (1.0 + 0.2 * inject_Z (Z.of_nat learning_step)).

(** The local variables of the generator. *)
Record signals : Type := Signals {
  T : list Q;
  t_current : Q;
  V_inputs : list (list Q);
  V_errors : list (list Q);
  V_neighbor_mod : list Q;
}.

(** [for i in range(len(chans)): chans[i].append(f(i, chans[i]))], the
    index of the first channel being [i]. *)
Fixpoint append_all (f : nat → list Q → result Q) (i : nat)
    (chans : list (list Q)) : result (list (list Q)) :=
  match chans with
  | [] => Ok []
  | ch :: rest =>
      v ← f i ch;
      rest' ← append_all f (S i) rest;
      Ok ((ch ++ [v]) :: rest')
  end.

(** One time sample: [t_current += dt; T.append(t_current)], then one
    value appended to every input channel, to every error channel and to
    the neighbor-modulation channel. *)
Definition sample (dt : Q)
    (v_in v_err : nat → list Q → result Q) (v_mod : list Q → result Q)
    (s : signals) : result signals :=
  let t := t_current s + dt in
  ins ← append_all v_in 0 (V_inputs s);
  errs ← append_all v_err 0 (V_errors s);
  m ← v_mod (V_neighbor_mod s);
  Ok {| T := T s ++ [t]; t_current := t; V_inputs := ins; V_errors := errs;
        V_neighbor_mod := V_neighbor_mod s ++ [m] |}.

Definition zero : nat → list Q → result Q := λ _ _, Ok 0.0.
Definition hold : nat → list Q → result Q := λ _ ch, index_last ch.

(** The body of the loop over the training samples: five phases, two
    samples each. *)
Definition process_sample (learning_step : nat) (pattern target : list Z)
    (s : signals) : result signals :=
  (* Phase 1: present input pattern *)
  s ← sample time_step
        (λ i _, p ← index pattern i;
                Ok (if (0 <? p)%Z then vdd * present_strength else 0.0))
        zero (λ _, Ok 0.0) s;
  s ← sample (present_duration - time_step) hold zero (λ _, Ok 0.0) s;
  (* Phase 2: forward propagation *)
  s ← sample time_step zero zero (λ _, Ok 0.0) s;
  s ← sample (forward_duration - time_step) zero zero (λ _, Ok 0.0) s;
  (* Phase 3: error feedback *)
  s ← sample time_step zero
        (λ o _, t ← index target o;
                Ok (if (0 <? t)%Z then - error_strength learning_step * vdd
                    else error_strength learning_step * vdd * 0.5))
        (λ _, Ok (inhibit_strength learning_step * vdd)) s;
  s ← sample (error_duration - time_step) zero hold index_last s;
  (* Phase 4: weight update *)
  s ← sample time_step zero zero index_last s;
  s ← sample (update_duration - time_step) zero zero index_last s;
  (* Phase 5: rest *)
  s ← sample time_step zero zero (λ _, Ok 0.0) s;
  sample (rest_duration - time_step) zero zero (λ _, Ok 0.0) s.

(** [for sample_idx, (pattern, target) in enumerate(zip(...))]. *)
Fixpoint process_samples (learning_step : nat)
    (samples : list (list Z * list Z)) (s : signals) : result signals :=
  match samples with
  | [] => Ok s
  | (pattern, target) :: rest =>
      s' ← process_sample learning_step pattern target s;
      process_samples learning_step rest s'
  end.

Definition initial_signals : signals :=
  {| T := [0.0]; t_current := 0.0;
     V_inputs := replicate num_inputs [0.0];
     V_errors := replicate num_outputs [0.0];
     V_neighbor_mod := [0.0] |}.

(** The three loops that add the PWL sources to the circuit. *)
Fixpoint add_input_sources (input_nodes : list string) (Ts : list Q)
    (chans : list (list Q)) (i n : nat) (c : Circuit) : result Circuit :=
  match n with
  | O => Ok c
  | S n' =>
      node ← index input_nodes i;
      let temp_node := "V_input_" +:+ pretty i +:+ "_temp" in
      ch ← index chans i;
      let c := add (PieceWiseLinearVoltageSource
                      ("V_input_" +:+ pretty i) temp_node gnd (zip Ts ch)) c in
      let c := add (R ("R_input_" +:+ pretty i) temp_node node 100) c in
      add_input_sources input_nodes Ts chans (S i) n' c
  end.

Fixpoint add_error_sources (Ts : list Q) (chans : list (list Q))
    (o n : nat) (c : Circuit) : result Circuit :=
  match n with
  | O => Ok c
  | S n' =>
      let source_node := "verror_" +:+ pretty o +:+ "_src_internal" in
      ch ← index chans o;
      let c := add (PieceWiseLinearVoltageSource
                      ("V_error_" +:+ pretty o) source_node gnd (zip Ts ch)) c in
      add_error_sources Ts chans (S o) n' c
  end.

(** The loop over the training set and the final rest period: the values
    of [T], [t_current], [V_inputs], [V_errors] and [V_neighbor_mod] when
    the sources are created. *)
Definition waveforms (train_patterns train_targets : list (list Z))
    (learning_step : nat) : result signals :=
  s ← process_samples learning_step (zip train_patterns train_targets)
        initial_signals;
  (* Final rest period *)
  sample 5e-6 zero zero (λ _, Ok 0.0) s.

Definition generate_simulation_signals (circuit : Circuit)
    (input_nodes output_nodes error_nodes : list string)
    (train_patterns train_targets : list (list Z)) (learning_step : nat)
    : result (Circuit * list Q * Q) :=
  s ← waveforms train_patterns train_targets learning_step;
  c ← add_input_sources input_nodes (T s) (V_inputs s) 0 num_inputs circuit;
  c ← add_error_sources (T s) (V_errors s) 0 num_outputs c;
  let temp_node := "V_neighbor_mod_temp" in
  let c := add (PieceWiseLinearVoltageSource
                  "V_neighbor_mod" temp_node gnd (zip (T s) (V_neighbor_mod s))) c in
  let c := add (R "R_neighbor_mod" temp_node "v_neighbor_modulate" 100) c in
  Ok (c, T s, t_current s).

End WithSizes.
End Stimulus.

(** ** The NumPy runtime: random generator and matrices *)

(** Computations that use the global generator and may raise. *)
Definition Rand (G A : Type) : Type := G → result (A * G).

#[global] Instance Rand_ret {G} : MRet (Rand G) := λ A a g, Ok (a, g).
#[global] Instance Rand_bind {G} : MBind (Rand G) :=
  λ A B f m g, match m g with Ok (a, g') => f a g' | Raise e => Raise e end.

Definition lift {G A} (r : result A) : Rand G A :=
  λ g, match r with Ok a => Ok (a, g) | Raise e => Raise e end.

(** The primitives of NumPy the program calls; [G] is the state of the
    global generator. *)
Class NumPy (G : Type) : Type := {
  (** the indices [np.random.choice(a, size, replace=False)] draws *)
  draw_choice : nat → nat → G → list nat * G;
  (** [np.random.uniform(low, high)] *)
  draw_uniform : Q → Q → G → Q * G;
  (** [np.random.normal(loc, scale)] *)
  draw_normal : Q → Q → G → Q * G;
  (** [np.random.rand()] *)
  draw_rand : G → Q * G;
  (** [np.exp] *)
  np_exp : Q → Q;
}.

(** What NumPy documents of the draws. *)
Class NumPySpec (G : Type) `{NumPy G} : Prop := {
  draw_choice_spec a size g :
    size ≤ a →
    length (draw_choice a size g).1 = size ∧
    NoDup (draw_choice a size g).1 ∧
    Forall (λ i, i < a) (draw_choice a size g).1;
  draw_uniform_spec low high g :
    (low < high)%Q →
    (low <= (draw_uniform low high g).1)%Q ∧
    ((draw_uniform low high g).1 < high)%Q;
}.

Section NumPyOps.
Context {G : Type} `{NumPy G}.

(** [np.random.choice(a, size, replace=False)]: a sample larger than the
    population raises [ValueError]. *)
Definition random_choice (a size : nat) : Rand G (list nat) :=
  λ g, if decide (size ≤ a) then Ok (draw_choice a size g)
       else Raise ValueError.

Definition random_uniform (low high : Q) : Rand G Q :=
  λ g, Ok (draw_uniform low high g).

Definition random_normal (loc scale : Q) : Rand G Q :=
  λ g, Ok (draw_normal loc scale g).

Definition random_rand : Rand G Q :=
  λ g, Ok (draw_rand g).

(** [for x in l: s = body(x, s)] *)
Fixpoint for_each {X S : Type} (l : list X) (body : X → S → Rand G S)
    (s : S) : Rand G S :=
  match l with
  | [] => mret s
  | x :: l' => s' ← body x s; for_each l' body s'
  end.

(** [for i in range(n): s = body(i, s)] *)
Definition for_range {S : Type} (n : nat) (body : nat → S → Rand G S)
    (s : S) : Rand G S :=
  for_each (seq 0 n) body s.

(** [np.random.uniform(low, high, size)], one draw after the other. *)
Fixpoint random_uniform_vector (low high : Q) (size : nat)
    : Rand G (list Q) :=
  match size with
  | O => mret []
  | S n => x ← random_uniform low high;
           xs ← random_uniform_vector low high n;
           mret (x :: xs)
  end.

(** [np.random.uniform(low, high, (rows, cols))], filled in row-major
    order. *)
Fixpoint random_uniform_matrix (low high : Q) (rows cols : nat)
    : Rand G (list (list Q)) :=
  match rows with
  | O => mret []
  | S n => r ← random_uniform_vector low high cols;
           rs ← random_uniform_matrix low high n cols;
           mret (r :: rs)
  end.

End NumPyOps.

(** Two-dimensional arrays are lists of rows. *)
Definition np_full {A} (rows cols : nat) (v : A) : list (list A) :=
  replicate rows (replicate cols v).

(** [m[r, c]] *)
Definition mat_get {A} (m : list (list A)) (r c : nat) : result A :=
  row ← index m r; index row c.

(** [m[r, c] = v] *)
Definition mat_set {A} (m : list (list A)) (r c : nat) (v : A)
    : result (list (list A)) :=
  row ← index m r;
  _ ← index row c;
  Ok (<[r := <[c := v]> row]> m).

(** ** Topology: [initialize_network_architecture] *)

Module Topology.
Section WithSizes.
Context {G : Type} `{NumPy G}.
Variables num_inputs num_hidden num_outputs : nat.

(** [if m[row, col] != CELL_TYPE_SRAM: m[row, col] = v] *)
Definition set_unless_sram (v : CellType) (row col : nat)
    (m : list (list CellType)) : result (list (list CellType)) :=
  cur ← mat_get m row col;
  if decide (cur ≠ CELL_TYPE_SRAM) then mat_set m row col v else Ok m.

Definition input_hidden : Rand G (list (list CellType)) :=
  let m := np_full num_inputs num_hidden CELL_TYPE_DRAM_LEAKY in
  m ← for_range (num_inputs `min` num_hidden)
        (λ i m, lift (mat_set m i i CELL_TYPE_SRAM)) m;
  let num_refreshed := 2 `max` (num_hidden `div` 4) in
  idx ← random_choice (num_inputs * num_hidden) num_refreshed;
  m ← for_each idx
        (λ i m, let row := i `div` num_hidden in
                let col := i `mod` num_hidden in
                lift (set_unless_sram CELL_TYPE_DRAM_REFRESHED row col m)) m;
  for_range num_hidden
    (λ h m,
       let neighbors := filter (λ n, n ≠ h) (seq 0 num_hidden) in
       if decide (neighbors = []) then mret m
       else
         input_idx ← random_choice num_inputs (2 `min` length neighbors);
         for_each input_idx
           (λ i m, lift (set_unless_sram
                           CELL_TYPE_DRAM_NEIGHBOR_CTRL_LEAKY i h m)) m) m.

Definition hidden_output : Rand G (list (list CellType)) :=
  let m := np_full num_hidden num_outputs CELL_TYPE_DRAM_LEAKY in
  m ← for_range (num_hidden `min` num_outputs)
        (λ i m, lift (mat_set m i i CELL_TYPE_SRAM)) m;
  let num_refreshed := 2 `max` (num_outputs `div` 2) in
  idx ← random_choice (num_hidden * num_outputs) num_refreshed;
  m ← for_each idx
        (λ i m, let row := i `div` num_outputs in
                let col := i `mod` num_outputs in
                lift (set_unless_sram CELL_TYPE_DRAM_REFRESHED row col m)) m;
  for_range num_outputs
    (λ o m,
       hidden_idx ← random_choice num_hidden (2 `min` num_hidden);
       for_each hidden_idx
         (λ h m, lift (set_unless_sram
                         CELL_TYPE_DRAM_NEIGHBOR_CTRL_LEAKY h o m)) m) m.

Definition initialize_network_architecture
    : Rand G (list (list CellType) * list (list CellType)) :=
  cell_types_input_hidden ← input_hidden;
  cell_types_hidden_output ← hidden_output;
  mret (cell_types_input_hidden, cell_types_hidden_output).

End WithSizes.
End Topology.

(** ** Circuit construction: [build_circuit_for_learning] *)

Module Builder.
Section WithSizes.
Context {G : Type} `{NumPy G}.
Variables num_inputs num_hidden num_outputs : nat.

Local Open Scope Q_scope.

(** Physical parameters *)
Definition temp_C : Q := 37.
Definition cell_cap_fast_nom : Q := 100e-15.
Definition cell_cap_slow_nom : Q := 500e-15.
Definition leak_res_fast_nom : Q := 1e6.
Definition leak_res_slow_nom : Q := 1e7.
Definition bl_line_cap : Q := 100e-15.
Definition wl_line_cap : Q := 100e-15.
Definition vdd : Q := 10 * 1.2.

(** The solver options assigned to [circuit.raw_spice]. *)
Definition convergence_options : string :=
  ".OPTIONS TRTOL=7 .OPTIONS RELTOL=0.01 .OPTIONS ABSTOL=1e-9 .OPTIONS VNTOL=1e-6 .OPTIONS ITL1=1000 .OPTIONS ITL2=500 .OPTIONS ITL4=100 .OPTIONS GMIN=1e-12 .TEMP 27".

Definition set_raw_spice (text : string) (c : Circuit) : Circuit :=
  {| title := title c; raw_spice := text;
     elements := elements c; models := models c |}.

(** Node names *)
Definition input_node (i : nat) : string := "input_" +:+ pretty i.
Definition hidden_node (h : nat) : string := "hidden_" +:+ pretty h.
Definition output_node (o : nat) : string := "output_" +:+ pretty o.
Definition error_node (o : nat) : string := "error_" +:+ pretty o.
Definition syn_node (layer : string) (a b : nat) (kind : string) : string :=
  layer +:+ "_syn_" +:+ pretty a +:+ "_" +:+ pretty b +:+ "_" +:+ kind.
Definition neighbor_node : string := "v_neighbor_modulate".

(** [[f(a, b) for b in range(cols)] for a in range(rows)] *)
Definition name_matrix (rows cols : nat) (f : nat → nat → string)
    : list (list string) :=
  (λ a, f a <$> seq 0 cols) <$> seq 0 rows.

(** The helper [randomize_rc]. *)
Definition randomize_rc (R_nom C_nom VTO_nom temp_C : Q)
    : Rand G (Q * Q * Q) :=
  let T := 273.15 + temp_C in
  n ← random_normal 0 0.1;
  let R := R_nom * (1 + 0.002 * (T - 298)) * np_exp n in
  u ← random_rand;
  let C := C_nom * (0.95 + 0.1 * u) in
  n' ← random_normal 0 0.01;
  let VTO := VTO_nom + n' in
  mret (R, C, VTO).

(** Default capacitances, membrane capacitances and leakage of the layer
    nodes. *)
Definition add_layer_nodes (c : Circuit) : Circuit :=
  let c := foldl (λ c i, add (C (input_node i +:+ "_gnd_cap")
                                (input_node i) gnd 1e-15) c) c
                 (seq 0 num_inputs) in
  let c := foldl (λ c h, add (C (hidden_node h +:+ "_gnd_cap")
                                (hidden_node h) gnd 1e-15) c) c
                 (seq 0 num_hidden) in
  let c := foldl (λ c o, add (C (output_node o +:+ "_gnd_cap")
                                (output_node o) gnd 1e-15) c) c
                 (seq 0 num_outputs) in
  let c := foldl (λ c node, add (C (node +:+ "_cap") node gnd wl_line_cap) c) c
                 (input_node <$> seq 0 num_inputs) in
  let c := foldl (λ c node,
                    let c := add (C (node +:+ "_cap") node gnd bl_line_cap) c in
                    add (R (node +:+ "_leak") node gnd 5e6) c) c
                 (hidden_node <$> seq 0 num_hidden) in
  foldl (λ c node,
           let c := add (C (node +:+ "_cap") node gnd bl_line_cap) c in
           add (R (node +:+ "_leak") node gnd 5e6) c) c
        (output_node <$> seq 0 num_outputs).

(** The error feedback lines: a series and a pull-down resistor each. *)
Definition add_error_nodes (c : Circuit) : Circuit :=
  foldl (λ c o,
           let c := add (R ("verror_" +:+ pretty o +:+ "_series")
                           ("verror_" +:+ pretty o +:+ "_src_internal")
                           (error_node o) 1e3) c in
           add (R ("verror_" +:+ pretty o +:+ "_pulldown")
                  (error_node o) gnd 10e6) c) c
        (seq 0 num_outputs).

(** Leakage by cell type, shared by the two layers but for the wiring of
    the neighbor-control transistor, whose drain is [ctrl_drain]. *)
Definition add_leakage (layer : string) (a b : nat) (cell_type : CellType)
    (fast_node slow_node ctrl_drain : string) (r_f_nom r_s_nom : Q)
    (c : Circuit) : Circuit :=
  let tag := pretty a +:+ "_" +:+ pretty b in
  if decide (cell_type = CELL_TYPE_SRAM ∨ cell_type = CELL_TYPE_DRAM_REFRESHED)
  then
    let effective_r_f :=
      if decide (cell_type = CELL_TYPE_SRAM) then 1e9 else r_f_nom * 5 in
    let effective_r_s :=
      if decide (cell_type = CELL_TYPE_SRAM) then 1e9 else r_s_nom * 5 in
    let c := add (R (layer +:+ "_r_fast_" +:+ tag) fast_node gnd effective_r_f) c in
    add (R (layer +:+ "_r_slow_" +:+ tag) slow_node gnd effective_r_s) c
  else
    let c := add (R (layer +:+ "_r_fast_" +:+ tag) fast_node gnd r_f_nom) c in
    let c := add (R (layer +:+ "_r_slow_" +:+ tag) slow_node gnd r_s_nom) c in
    let c := add (R (layer +:+ "_leak_" +:+ tag) fast_node gnd (r_f_nom * 5)) c in
    if decide (cell_type = CELL_TYPE_DRAM_NEIGHBOR_CTRL_LEAKY)
    then add (MOSFET (layer +:+ "_leak_ctrl_" +:+ tag)
                ctrl_drain fast_node neighbor_node gnd "nmos_leak_ctrl") c
    else c.

(** Capacitors, device model and the three transistors of a synapse. *)
Definition add_synapse_core (layer : string) (a b : nat)
    (fast_node slow_node pre_node post_node : string) (c_f c_s vth_f : Q)
    (c : Circuit) : Circuit :=
  let tag := pretty a +:+ "_" +:+ pretty b in
  let c := add (C ("ac_" +:+ layer +:+ "_fast_" +:+ tag) fast_node gnd c_f) c in
  let c := add (C ("ac_" +:+ layer +:+ "_slow_" +:+ tag) slow_node gnd c_s) c in
  let c := add (C ("ac_" +:+ layer +:+ "_fast_gnd_" +:+ tag) fast_node gnd 1e-15) c in
  let c := add (C ("ac_" +:+ layer +:+ "_slow_gnd_" +:+ tag) slow_node gnd 1e-15) c in
  let mosfet_model_name := layer +:+ "_nmos_" +:+ tag in
  let c := add_model (nmos_level1 mosfet_model_name vth_f 50e-6) c in
  let c := add (MOSFET (layer +:+ "_mf_pre_" +:+ tag)
                  "vdd" pre_node fast_node gnd mosfet_model_name) c in
  let c := add (MOSFET (layer +:+ "_mf_post_" +:+ tag)
                  "vdd" post_node fast_node gnd "nmos_learn") c in
  add (MOSFET (layer +:+ "_mf_out_" +:+ tag)
         "vdd" fast_node post_node gnd "nmos_syn") c.

(** The body of the input-to-hidden loops. *)
Definition add_ih_synapse (cell_types_input_hidden : list (list CellType))
    (i h : nat) (c : Circuit) : Rand G Circuit :=
  cell_type ← lift (mat_get cell_types_input_hidden i h);
  let fast_node := syn_node "ih" i h "fast" in
  let slow_node := syn_node "ih" i h "slow" in
  let pre_node := input_node i in
  let post_node := hidden_node h in
  '(r_f_nom, c_f, vth_f) ← randomize_rc leak_res_fast_nom cell_cap_fast_nom 0.5 temp_C;
  '(r_s_nom, c_s, vth_s) ← randomize_rc leak_res_slow_nom cell_cap_slow_nom 0.5 temp_C;
  let c := add_synapse_core "ih" i h fast_node slow_node pre_node post_node
             c_f c_s vth_f c in
  let c := add_leakage "ih" i h cell_type fast_node slow_node "vdd"
             r_f_nom r_s_nom c in
  mret (foldl (λ c o,
                 if decide (o = h `mod` num_outputs)%nat
                 then add (MOSFET ("ih_err_" +:+ pretty i +:+ "_" +:+ pretty h
                                     +:+ "_" +:+ pretty o)
                             "vdd" (error_node o) fast_node gnd "nmos_learn") c
                 else c) c (seq 0 num_outputs)).

(** The body of the hidden-to-output loops. *)
Definition add_ho_synapse (cell_types_hidden_output : list (list CellType))
    (h o : nat) (c : Circuit) : Rand G Circuit :=
  cell_type ← lift (mat_get cell_types_hidden_output h o);
  let fast_node := syn_node "ho" h o "fast" in
  let slow_node := syn_node "ho" h o "slow" in
  let pre_node := hidden_node h in
  let post_node := output_node o in
  '(r_f_nom, c_f, vth_f) ← randomize_rc leak_res_fast_nom cell_cap_fast_nom 0.5 temp_C;
  '(r_s_nom, c_s, vth_s) ← randomize_rc leak_res_slow_nom cell_cap_slow_nom 0.5 temp_C;
  let c := add_synapse_core "ho" h o fast_node slow_node pre_node post_node
             c_f c_s vth_f c in
  let c := add_leakage "ho" h o cell_type fast_node slow_node fast_node
             r_f_nom r_s_nom c in
  mret (add (MOSFET ("ho_err_" +:+ pretty h +:+ "_" +:+ pretty o)
               "vdd" (error_node o) fast_node gnd "nmos_learn") c).

(** What the builder returns. *)
Record built : Type := Built {
  circuit : Circuit;
  input_nodes : list string;
  hidden_nodes : list string;
  output_nodes : list string;
  error_nodes : list string;
  ih_cells_fast : list (list string);
  ih_cells_slow : list (list string);
  ho_cells_fast : list (list string);
  ho_cells_slow : list (list string);
}.

Definition build_circuit_for_learning
    (cell_types_input_hidden cell_types_hidden_output : list (list CellType))
    (learning_step : nat) : Rand G built :=
  let c := {| title := "Neuromorphic Learning Network (Step "
                         +:+ pretty learning_step +:+ ")";
              raw_spice := ""; elements := []; models := [] |} in
  let c := add (V "dd" "vdd" gnd vdd) c in
  let c := set_raw_spice convergence_options c in
  let c := add_layer_nodes c in
  let c := add (V "neighbor_mod" neighbor_node gnd 0.0) c in
  let c := add_error_nodes c in
  let c := add_model (nmos_level1 "nmos_syn" 0.3 50e-6) c in
  let c := add_model (nmos_level1 "nmos_leak_ctrl" 0.3 50e-6) c in
  let c := add_model (nmos_level1 "nmos_learn" 0.6 30e-6) c in
  c ← for_range num_inputs
        (λ i c, for_range num_hidden
                  (λ h c, add_ih_synapse cell_types_input_hidden i h c) c) c;
  c ← for_range num_hidden
        (λ h c, for_range num_outputs
                  (λ o c, add_ho_synapse cell_types_hidden_output h o c) c) c;
  mret {| circuit := c;
          input_nodes := input_node <$> seq 0 num_inputs;
          hidden_nodes := hidden_node <$> seq 0 num_hidden;
          output_nodes := output_node <$> seq 0 num_outputs;
          error_nodes := error_node <$> seq 0 num_outputs;
          ih_cells_fast := name_matrix num_inputs num_hidden
                             (λ i h, syn_node "ih" i h "fast");
          ih_cells_slow := name_matrix num_inputs num_hidden
                             (λ i h, syn_node "ih" i h "slow");
          ho_cells_fast := name_matrix num_hidden num_outputs
                             (λ h o, syn_node "ho" h o "fast");
          ho_cells_slow := name_matrix num_hidden num_outputs
                             (λ h o, syn_node "ho" h o "slow") |}.

End WithSizes.
End Builder.

(** ** Simulation results *)

(** A transient analysis: the time axis and the waveform of every node.
    [None] of [option Analysis] is the failure marker. *)
Record Analysis : Type := MkAnalysis {
  time : list Q;
  nodes : gmap string (list Q);
}.

(** [str.lower] on ASCII names. *)
Definition lower_ascii (a : ascii) : ascii :=
  let n := nat_of_ascii a in
  if (65 <=? n) && (n <=? 90) then ascii_of_nat (n + 32) else a.

Fixpoint lower (s : string) : string :=
  match s with
  | EmptyString => EmptyString
  | String a s' => String (lower_ascii a) (lower s')
  end.

(** ** State extraction: [extract_network_state] *)

Module Extract.
Section WithSizes.
Context {G : Type} `{NumPy G}.
Variables num_inputs num_hidden num_outputs : nat.

Local Open Scope Q_scope.

(** The body of the loops over the synapses of one layer. *)
Definition extract_weight (analysis : Analysis)
    (cells_fast cells_slow : list (list string)) (a b : nat)
    (weights : list (list Q)) : Rand G (list (list Q)) :=
  fast_name ← lift (mat_get cells_fast a b);
  let fast_node := lower fast_name in
  slow_name ← lift (mat_get cells_slow a b);
  let slow_node := lower slow_name in
  match nodes analysis !! fast_node, nodes analysis !! slow_node with
  | Some v_fast, Some v_slow =>
      match index_last v_fast, index_last v_slow with
      | Ok f, Ok s =>
          let combined_v := f + s in
          lift (mat_set weights a b combined_v)
      | _, _ =>
          (* except Exception *)
          x ← random_uniform 0.1 0.5;
          lift (mat_set weights a b x)
      end
  | _, _ =>
      (* node not found in results *)
      x ← random_uniform 0.1 0.5;
      lift (mat_set weights a b x)
  end.

Definition extract_network_state (analysis : option Analysis)
    (ih_cells_fast ih_cells_slow ho_cells_fast ho_cells_slow
       : list (list string))
    : Rand G (list (list Q) * list (list Q)) :=
  let ih_weights := np_full num_inputs num_hidden 0 in
  let ho_weights := np_full num_hidden num_outputs 0 in
  match analysis with
  | None =>
      ih_weights ← random_uniform_matrix 0.1 0.5 num_inputs num_hidden;
      ho_weights ← random_uniform_matrix 0.1 0.5 num_hidden num_outputs;
      mret (ih_weights, ho_weights)
  | Some analysis =>
      ih_weights ←
        for_range num_inputs
          (λ i w, for_range num_hidden
                    (λ h w, extract_weight analysis
                              ih_cells_fast ih_cells_slow i h w) w)
          ih_weights;
      ho_weights ←
        for_range num_hidden
          (λ h w, for_range num_outputs
                    (λ o w, extract_weight analysis
                              ho_cells_fast ho_cells_slow h o w) w)
          ho_weights;
      mret (ih_weights, ho_weights)
  end.

(** *** Activity: [extract_activity_over_time] *)

(** [m[:, i]] *)
Definition column (m : list (list Q)) (i : nat) : list Q :=
  (λ row, default 0 (row !! i)) <$> m.

(** [m[start:start+len(v), i] = v], the rows and the column in range. *)
Definition write_column (m : list (list Q)) (i start : nat) (v : list Q)
    : list (list Q) :=
  imap (λ t row, if decide (start ≤ t < start + length v)%nat
                 then <[i := default 0 (v !! (t - start)%nat)]> row
                 else row) m.

(** [m[:, i] = v] on an array of [ncols] columns: the index is checked,
    and [v] has one value per row, or a single value that is broadcast. *)
Definition set_column (ncols : nat) (m : list (list Q)) (i : nat)
    (v : list Q) : result (list (list Q)) :=
  if decide (ncols ≤ i)%nat then Raise IndexError
  else if decide (length v = length m) then Ok (write_column m i 0 v)
  else match v with
       | [x] => Ok (write_column m i 0 (replicate (length m) x))
       | _ => Raise ValueError
       end.

(** The loop over the nodes of one layer. *)
Fixpoint extract_layer (analysis : Analysis) (ncols : nat)
    (layer_nodes : list string) (i : nat) (activity : list (list Q))
    : result (list (list Q)) :=
  match layer_nodes with
  | [] => Ok activity
  | node_name :: rest =>
      let node_name_lower := lower node_name in
      activity ←
        match nodes analysis !! node_name_lower with
        | Some v => set_column ncols activity i v
        | None => Ok activity
        end;
      extract_layer analysis ncols rest (S i) activity
  end.

(** [np.linspace(start, stop, num)] for [num > 1]. *)
Definition linspace (start stop : Q) (num : nat) : list Q :=
  (λ k, start + (stop - start) * inject_Z (Z.of_nat k)
                  / inject_Z (Z.of_nat (num - 1))) <$> seq 0 num.

(** [m[:, i] += v * scale] *)
Definition add_to_column (m : list (list Q)) (i : nat) (v : list Q)
    (scale : Q) : list (list Q) :=
  write_column m i 0
    (zip_with (λ x y, x + y * scale) (column m i) v).

(** The mock activity produced when the simulation failed. *)
Definition mock_activity
    : Rand G (list Q * list (list Q) * list (list Q) * list (list Q)) :=
  let time_points := 1000%nat in
  let time_us := linspace 0 100 time_points in
  let input_activity := np_full time_points num_inputs 0 in
  let hidden_activity := np_full time_points num_hidden 0 in
  let output_activity := np_full time_points num_outputs 0 in
  input_activity ←
    for_range num_inputs
      (λ i act,
         v ← random_uniform_vector 0 0.2 time_points;
         let act := write_column act i 0 v in
         for_range 4
           (λ p act,
              let start := (p * (time_points `div` 4))%nat in
              let end_ := (start + time_points `div` 8)%nat in
              if decide (i `mod` 4 = p `mod` 4)%nat then
                v ← random_uniform_vector 0.8 1.2 (end_ - start);
                mret (write_column act i start v)
              else mret act) act)
      input_activity;
  hidden_activity ←
    for_range num_hidden
      (λ h act,
         let act :=
           foldl (λ act i, if decide (i `mod` num_hidden = h)%nat
                           then add_to_column act h (column input_activity i) 0.5
                           else act) act (seq 0 num_inputs) in
         v ← random_uniform_vector 0 0.2 time_points;
         mret (add_to_column act h v 1))
      hidden_activity;
  output_activity ←
    for_range num_outputs
      (λ o act,
         let act :=
           foldl (λ act h, if decide (h `mod` num_outputs = o)%nat
                           then add_to_column act o (column hidden_activity h) 0.5
                           else act) act (seq 0 num_hidden) in
         v ← random_uniform_vector 0 0.2 time_points;
         mret (add_to_column act o v 1))
      output_activity;
  mret (time_us, input_activity, hidden_activity, output_activity).

Definition extract_activity_over_time (analysis : option Analysis)
    (input_nodes hidden_nodes output_nodes : list string)
    : Rand G (list Q * list (list Q) * list (list Q) * list (list Q)) :=
  match analysis with
  | None => mock_activity
  | Some analysis =>
      let time_us := (λ t, t * 1e6) <$> time analysis in
      let input_activity := np_full (length time_us) num_inputs 0 in
      let hidden_activity := np_full (length time_us) num_hidden 0 in
      let output_activity := np_full (length time_us) num_outputs 0 in
      input_activity ←
        lift (extract_layer analysis num_inputs input_nodes 0 input_activity);
      hidden_activity ←
        lift (extract_layer analysis num_hidden hidden_nodes 0 hidden_activity);
      output_activity ←
        lift (extract_layer analysis num_outputs output_nodes 0 output_activity);
      mret (time_us, input_activity, hidden_activity, output_activity)
  end.

End WithSizes.
End Extract.

(** ** Performance: [calculate_performance] *)

Module Performance.

Local Open Scope Q_scope.

(** [int(x)]: truncation toward zero. *)
Definition int (x : Q) : Z := (Qnum x ÷ Z.pos (Qden x))%Z.

(** The magnitudes from [2^1024 - 2^970] on are beyond the floats of 64
    bits: they round to infinity. *)
Definition float_overflow : Q := inject_Z (2 ^ 1024 - 2 ^ 970).

Definition Qgt_bool (x y : Q) : bool := negb (Qle_bool x y).

(** [np.argmax]: the first index of the largest value; an empty sequence
    raises [ValueError]. *)
Fixpoint argmax_from (best : Q) (best_i i : nat) (l : list Q) : nat :=
  match l with
  | [] => best_i
  | x :: l' =>
      if Qgt_bool x best then argmax_from x i (S i) l'
      else argmax_from best best_i (S i) l'
  end.

Definition argmax (l : list Q) : result nat :=
  match l with
  | [] => Raise ValueError
  | x :: l' => Ok (argmax_from x 0 1 l')
  end.

(** [sum] of a list of floats. *)
Definition Qsum (l : list Q) : Q := foldr Qplus 0 l.

(** [np.mean(rows, axis=0)] for a non-empty slice of a two-dimensional
    array: the mean of every column. *)
Definition mean_axis0 (rows : list (list Q)) : list Q :=
  match rows with
  | [] => []
  | r :: _ =>
      (λ c, Qsum ((λ row, default 0 (row !! c)) <$> rows)
              / inject_Z (Z.of_nat (length rows))) <$> seq 0 (length r)
  end.

(** [a[start:stop]] for [0 <= start]. *)
Definition slice {A} (a : list A) (start stop : Z) : list A :=
  take (Z.to_nat stop - Z.to_nat start) (drop (Z.to_nat start) a).

(** The body of the loop over the patterns: the entry appended to
    [accuracies]. *)
Definition pattern_correct (output_activity : list (list Q))
    (targets : list (list Z)) (time_points_per_pattern : Z) (p : nat)
    : result bool :=
  let len := Z.of_nat (length output_activity) in
  let start_idx := ((Z.of_nat p * time_points_per_pattern) `min` (len - 1))%Z in
  let end_idx :=
    ((start_idx + time_points_per_pattern `div` 2) `min` (len - 1))%Z in
  if decide (start_idx >= end_idx)%Z then Ok false
  else
    let avg_output := mean_axis0 (slice output_activity start_idx end_idx) in
    predicted ← argmax avg_output;
    target ← index targets p;
    true_class ← argmax (inject_Z <$> target);
    Ok (bool_decide (predicted = true_class)).

Fixpoint loop_patterns (output_activity : list (list Q))
    (targets : list (list Z)) (time_points_per_pattern : Z)
    (ps : list nat) (accuracies : list bool) : result (list bool) :=
  match ps with
  | [] => Ok accuracies
  | p :: ps' =>
      correct ← pattern_correct output_activity targets
                  time_points_per_pattern p;
      loop_patterns output_activity targets time_points_per_pattern ps'
        (accuracies ++ [correct])
  end.

(** [np.mean] of a list of booleans. *)
Definition mean_bool (l : list bool) : Q :=
  inject_Z (Z.of_nat (length (filter (λ b, b = true) l)))
  / inject_Z (Z.of_nat (length l)).

Definition calculate_performance (output_activity : list (list Q))
    (targets : list (list Z)) (time_us : list Q) (phase_duration : Q)
    : result (Q * list bool) :=
  let pattern_duration := phase_duration in
  if decide (length time_us ≤ 1)%nat then
    Ok (0.0, replicate (length targets) false)
  else
    t0 ← index time_us 0;
    t1 ← index time_us 1;
    (* [int] rejects a quotient that is not finite: a zero step makes it
       infinite, or NaN when the duration is zero as well, and a quotient
       beyond the floats is infinite *)
    if Qeq_bool (t1 - t0) 0 then
      if Qeq_bool pattern_duration 0 then Raise ValueError
      else Raise OverflowError
    else if Qle_bool float_overflow (Qabs (pattern_duration / (t1 - t0)))
    then Raise OverflowError
    else
      let time_points_per_pattern :=
        (1 `max` int (pattern_duration / (t1 - t0)))%Z in
      let num_patterns := length targets in
      accuracies ← loop_patterns output_activity targets
                     time_points_per_pattern (seq 0 num_patterns) [];
      (* Fill with False if we don't have enough data *)
      let accuracies :=
        accuracies ++ replicate (num_patterns - length accuracies) false in
      let accuracy :=
        if decide (accuracies = []) then 0.0 else mean_bool accuracies in
      Ok (accuracy, accuracies).

End Performance.

(** ** The learning loop: [run_learning_experiment] *)

Module Experiment.
Section WithConfiguration.
Context {G : Type} `{NumPy G}.
Variables num_inputs num_hidden num_outputs : nat.
Variable LEARNING_STEPS : nat.
Variables train_patterns train_targets : list (list Z).

(** The transient solver behind [simulator.transient]: [None] when it
    raises. *)
Variable transient : Circuit → Q → Q → option Analysis.

Local Open Scope Q_scope.

(** [run_simulation]: any exception of the solver is turned into the
    failure marker. *)
Definition run_simulation (circuit : Circuit) (end_time : Q)
    : option Analysis :=
  let time_step := 0.05e-6 in
  transient circuit time_step end_time.

(** The history kept by the loop. *)
Record history : Type := History {
  train_accuracies : list Q;
  ih_weights_history : list (list (list Q));
  ho_weights_history : list (list (list Q));
}.

(** The loop [for node in analysis.nodes: ...] that prints the voltages
    of every node: it reads the attribute [nodes] of the result. *)
Definition print_node_voltages (analysis : option Analysis) : result unit :=
  match analysis with
  | None => Raise AttributeError
  | Some _ => Ok ()
  end.

(** One learning step. The plots of the step are left out. *)
Definition learning_step_body
    (cell_types_ih cell_types_ho : list (list CellType))
    (learning_step : nat) (hist : history) : Rand G history :=
  b ← Builder.build_circuit_for_learning num_inputs num_hidden num_outputs
        cell_types_ih cell_types_ho learning_step;
  '(circuit, T, end_time) ←
    lift (Stimulus.generate_simulation_signals num_inputs num_outputs
            (Builder.circuit b) (Builder.input_nodes b)
            (Builder.output_nodes b) (Builder.error_nodes b)
            train_patterns train_targets learning_step);
  let analysis := run_simulation circuit end_time in
  _ ← lift (print_node_voltages analysis);
  '(ih_weights, ho_weights) ←
    Extract.extract_network_state num_inputs num_hidden num_outputs analysis
      (Builder.ih_cells_fast b) (Builder.ih_cells_slow b)
      (Builder.ho_cells_fast b) (Builder.ho_cells_slow b);
  '(time_us, input_activity, hidden_activity, output_activity) ←
    Extract.extract_activity_over_time num_inputs num_hidden num_outputs
      analysis (Builder.input_nodes b) (Builder.hidden_nodes b)
      (Builder.output_nodes b);
  '(accuracy, pattern_accuracies) ←
    lift (Performance.calculate_performance output_activity train_targets
            time_us 20);
  mret {| train_accuracies := train_accuracies hist ++ [accuracy];
          ih_weights_history := ih_weights_history hist ++ [ih_weights];
          ho_weights_history := ho_weights_history hist ++ [ho_weights] |}.

Definition run_learning_experiment : Rand G history :=
  '(cell_types_ih, cell_types_ho) ←
    Topology.initialize_network_architecture num_inputs num_hidden num_outputs;
  ih0 ← random_uniform_matrix 0 0.2 num_inputs num_hidden;
  ho0 ← random_uniform_matrix 0 0.2 num_hidden num_outputs;
  let hist := {| train_accuracies := [];
                 ih_weights_history := [ih0];
                 ho_weights_history := [ho0] |} in
  hist ← for_range LEARNING_STEPS
           (learning_step_body cell_types_ih cell_types_ho) hist;
  (* the final report prints [train_accuracies[-1]] *)
  _ ← lift (index_last (train_accuracies hist));
  mret hist.

End WithConfiguration.
End Experiment.

(** ** Training and test data: the selection of the samples *)

Module Dataset.
Section WithSizes.
Variable num_outputs : nat.

(** [a.reshape(rows, cols)] of a one-dimensional array. *)
Definition reshape {A} (rows cols : nat) (a : list A)
    : result (list (list A)) :=
  if decide (length a = rows * cols)
  then Ok ((λ r, take cols (drop (r * cols) a)) <$> seq 0 rows)
  else Raise ValueError.

(** [extract_center_block(img, size)], for a size that is not negative:
    the pixels above 127 of the block of [size] rows and columns whose
    corner is pixel (12, 12), row after row. *)
Definition extract_center_block (img : list Q) (size : nat)
    : result (list Z) :=
  img_2d ← reshape 28 28 img;
  let block := (λ row, take size (drop 12 row)) <$> take size (drop 12 img_2d) in
  Ok (concat ((λ row, (λ x, if Performance.Qgt_bool x 127 then 1%Z else 0%Z)
                        <$> row) <$> block)).

(** [np.array([extract_center_block(img) for img in images])] *)
Definition center_blocks (images : list (list Q)) : result (list (list Z)) :=
  mapM (λ img, extract_center_block img 4) images.

(** [np.sum(block)] *)
Definition np_sum (block : list Z) : Z := foldr Z.add 0%Z block.

(** The loop that selects the training samples, from sample [idx] on: one
    sample per digit below [num_outputs], with more than two active
    pixels, until [num_outputs] samples are selected. *)
Fixpoint select_train (idx : nat) (samples : list (list Z * Z))
    (selected_train_idx : list nat) (used_digits : gset Z)
    : list nat * gset Z :=
  match samples with
  | [] => (selected_train_idx, used_digits)
  | (block, lbl) :: rest =>
      let '(selected_train_idx, used_digits) :=
        if decide ((lbl < Z.of_nat num_outputs)%Z ∧ (lbl ∉ used_digits)
                   ∧ (np_sum block > 2)%Z)
        then (selected_train_idx ++ [idx], used_digits ∪ {[lbl]})
        else (selected_train_idx, used_digits) in
      if decide (length selected_train_idx = num_outputs)
      then (selected_train_idx, used_digits)
      else select_train (S idx) rest selected_train_idx used_digits
  end.

(** The loop that selects the test samples, from sample [idx] on. *)
Fixpoint select_test (selected_train_idx : list nat) (idx : nat)
    (samples : list (list Z * Z)) (selected_test_idx : list nat)
    : list nat :=
  match samples with
  | [] => selected_test_idx
  | (block, lbl) :: rest =>
      let selected_test_idx :=
        if decide ((lbl < Z.of_nat num_outputs)%Z
                   ∧ (idx ∉ selected_train_idx) ∧ (np_sum block > 2)%Z)
        then selected_test_idx ++ [idx]
        else selected_test_idx in
      if decide (length selected_test_idx = num_outputs)
      then selected_test_idx
      else select_test selected_train_idx (S idx) rest selected_test_idx
  end.

(** An index [i] into an axis of [n] entries: a negative index counts from
    the end. *)
Definition np_index (n : nat) (i : Z) : result nat :=
  if decide (0 ≤ i < Z.of_nat n)%Z then Ok (Z.to_nat i)
  else if decide (- Z.of_nat n ≤ i < 0)%Z then Ok (Z.to_nat (Z.of_nat n + i))
  else Raise IndexError.

(** [for i, lbl in enumerate(labels): targets[i, lbl] = 1], from row [i]
    on. *)
Fixpoint one_hot (i : nat) (labels : list Z) (targets : list (list Z))
    : result (list (list Z)) :=
  match labels with
  | [] => Ok targets
  | lbl :: rest =>
      row ← index targets i;
      col ← np_index (length row) lbl;
      targets ← mat_set targets i col 1%Z;
      one_hot (S i) rest targets
  end.

(** [blocks[idx, :]]: the array of no block at all has one dimension
    only. *)
Definition take_rows (blocks : list (list Z)) (idx : list nat)
    : result (list (list Z)) :=
  match blocks with
  | [] => Raise IndexError
  | _ => mapM (index blocks) idx
  end.

(** How the preparation of the data ends: with the data, with [exit(1)],
    or with an exception. *)
Inductive prepared (A : Type) : Type :=
  | Prepared (a : A)
  | SystemExit (code : Z)
  | Failed (e : exn).

Record data : Type := Data {
  train_patterns : list (list Z);
  train_labels : list Z;
  train_targets : list (list Z);
  test_patterns : list (list Z);
  test_labels : list Z;
  test_targets : list (list Z);
}.

(** The module-level code that prepares the training and the test
    set. *)
Definition prepare_data (images : list (list Q)) (labels : list Z)
    : prepared data :=
  match center_blocks images with
  | Raise e => Failed _ e
  | Ok blocks =>
      let selected_train_idx :=
        (select_train 0 (zip blocks labels) [] ∅).1 in
      if decide (length selected_train_idx < num_outputs) then SystemExit _ 1
      else
        let selected_test_idx :=
          select_test selected_train_idx 0 (zip blocks labels) [] in
        match
          train_patterns ← take_rows blocks selected_train_idx;
          train_labels ← mapM (index labels) selected_train_idx;
          train_targets ←
            one_hot 0 train_labels (np_full num_outputs num_outputs 0%Z);
          test_patterns ← take_rows blocks selected_test_idx;
          test_labels ← mapM (index labels) selected_test_idx;
          test_targets ←
            one_hot 0 test_labels
              (np_full (length test_labels) num_outputs 0%Z);
          Ok {| train_patterns := train_patterns;
                train_labels := train_labels;
                train_targets := train_targets;
                test_patterns := test_patterns;
                test_labels := test_labels;
                test_targets := test_targets |}
        with
        | Ok d => Prepared _ d
        | Raise e => Failed _ e
        end
  end.

End WithSizes.

Arguments Prepared {A} a.
Arguments SystemExit {A} code.
Arguments Failed {A} e.

End Dataset.

(** * Specification vocabulary *)

(** ** Stimulus waveforms *)

Section StimulusVocabulary.
Import Stimulus.
Local Open Scope Q_scope.

(** Strictly increasing time stamps, none later than [t]. *)
Definition time_inv (Ts : list Q) (t : Q) : Prop :=
  StronglySorted Qlt Ts ∧ Forall (λ x, x <= t) Ts.

(** The stamps appended from time [t] on, one per duration. *)
Fixpoint stamps (t : Q) (ds : list Q) : list Q :=
  match ds with
  | [] => []
  | d :: ds' => (t + d) :: stamps (t + d) ds'
  end.

(** The time increments of the ten samples of a pattern. *)
Definition durations : list Q :=
  [time_step; present_duration - time_step;
   time_step; forward_duration - time_step;
   time_step; error_duration - time_step;
   time_step; update_duration - time_step;
   time_step; rest_duration - time_step].

(** The ten values a pattern appends to an input channel, to an error
    channel and to the neighbor-modulation channel. *)
Definition input_block (p : Z) : list Q :=
  let v := if (0 <? p)%Z then vdd * present_strength else 0.0 in
  [v; v; 0.0; 0.0; 0.0; 0.0; 0.0; 0.0; 0.0; 0.0].

Definition error_val (learning_step : nat) (t : Z) : Q :=
  if (0 <? t)%Z then - error_strength learning_step * vdd
  else error_strength learning_step * vdd * 0.5.

Definition error_block (learning_step : nat) (t : Z) : list Q :=
  let e := error_val learning_step t in
  [0.0; 0.0; 0.0; 0.0; e; e; 0.0; 0.0; 0.0; 0.0].

Definition mod_block (learning_step : nat) : list Q :=
  let m := inhibit_strength learning_step * vdd in
  [0.0; 0.0; 0.0; 0.0; m; m; m; m; 0.0; 0.0].

(** The values a training set appends to channel [k], pattern after
    pattern. *)
Definition input_values (samples : list (list Z * list Z)) (i : nat)
    : list Q :=
  flat_map (λ '(p, _), input_block (default 0%Z (p !! i))) samples.

Definition error_values (learning_step : nat)
    (samples : list (list Z * list Z)) (o : nat) : list Q :=
  flat_map (λ '(_, t), error_block learning_step (default 0%Z (t !! o)))
    samples.

Definition mod_values (learning_step : nat)
    (samples : list (list Z * list Z)) : list Q :=
  flat_map (λ _, mod_block learning_step) samples.

(** The final channels, in closed form. *)
Definition final_inputs (num_inputs : nat)
    (samples : list (list Z * list Z)) : list (list Q) :=
  (λ i, [0.0] ++ input_values samples i ++ [0.0]) <$> seq 0 num_inputs.

Definition final_errors (num_outputs learning_step : nat)
    (samples : list (list Z * list Z)) : list (list Q) :=
  (λ o, [0.0] ++ error_values learning_step samples o ++ [0.0])
    <$> seq 0 num_outputs.

Definition final_mod (learning_step : nat)
    (samples : list (list Z * list Z)) : list Q :=
  [0.0] ++ mod_values learning_step samples ++ [0.0].

(** The five phases of a pattern. *)
Inductive Phase : Set := Present | Forward | ErrorFeedback | Update | Rest.

Definition phase_start (ph : Phase) : nat :=
  match ph with
  | Present => 0 | Forward => 2 | ErrorFeedback => 4 | Update => 6 | Rest => 8
  end.

(** The positions, in every channel, of the edge sample and of the hold
    sample of phase [ph] of pattern [k]; position 0 is the initial
    sample. *)
Definition phase_samples (k : nat) (ph : Phase) : list nat :=
  [(1 + 10 * k + phase_start ph)%nat; (2 + 10 * k + phase_start ph)%nat].

(** ErrorFeedback: an error channel is negative where the target bit is
    set, positive and of smaller magnitude where it is not. *)
Definition error_drive_ok (learning_step : nat) (target : list Z)
    (s : signals) (k : nat) : Prop :=
  ∀ j, j ∈ phase_samples k ErrorFeedback →
    ∀ o ch b, V_errors s !! o = Some ch → target !! o = Some b →
      ∃ v, ch !! j = Some v ∧
           if (0 <? b)%Z then v < 0
           else 0 < v ∧ v < error_strength learning_step * vdd.

(** ErrorFeedback: the neighbor-modulation channel is positive. *)
Definition neighbor_drive_ok (s : signals) (k : nat) : Prop :=
  ∀ j, j ∈ phase_samples k ErrorFeedback →
    ∃ m, V_neighbor_mod s !! j = Some m ∧ 0 < m.

(** Update: the error channels are back at 0 and the neighbor-modulation
    channel keeps the value of the sample before. *)
Definition update_ok (s : signals) (k : nat) : Prop :=
  ∀ j, j ∈ phase_samples k Update →
    (∀ o ch, V_errors s !! o = Some ch → ∃ v, ch !! j = Some v ∧ v == 0) ∧
    (∃ m, V_neighbor_mod s !! (j - 1)%nat = Some m ∧
          V_neighbor_mod s !! j = Some m).

(** Rest: every channel is at 0. *)
Definition rest_ok (s : signals) (k : nat) : Prop :=
  ∀ j, j ∈ phase_samples k Rest →
    (∀ i ch, V_inputs s !! i = Some ch → ∃ v, ch !! j = Some v ∧ v == 0) ∧
    (∀ o ch, V_errors s !! o = Some ch → ∃ v, ch !! j = Some v ∧ v == 0) ∧
    (∃ m, V_neighbor_mod s !! j = Some m ∧ m == 0).

(** The values of the channels in the last three phases of every
    pattern. *)
Definition phase_protocol (learning_step : nat)
    (samples : list (list Z * list Z)) (s : signals) : Prop :=
  ∀ k pattern target, samples !! k = Some (pattern, target) →
    error_drive_ok learning_step target s k ∧
    neighbor_drive_ok s k ∧ update_ok s k ∧ rest_ok s k.

End StimulusVocabulary.

(** ** Circuits, matrices and examples *)

(** The circuit only grows. *)
Definition extends (c c' : Circuit) : Prop :=
  ∀ e, e ∈ elements c → e ∈ elements c'.

(** The empty circuit, used in the examples. *)
Definition empty_circuit : Circuit :=
  {| title := ""; raw_spice := ""; elements := []; models := [] |}.

(** [np.sum(m == v)] *)
Definition count_cells (v : CellType) (m : list (list CellType)) : nat :=
  length (filter (λ c, c = v) (concat m)).

(** An array of [rows] rows of [cols] cells each. *)
Definition shape {A} (rows cols : nat) (m : list (list A)) : Prop :=
  length m = rows ∧ Forall (λ row, length row = cols) m.

(** The cells before [(a, b)], in row-major order, of an array of [rows]
    by [cols] cells hold a value that satisfies [P]. *)
Definition filled {A} (P : nat → nat → A → Prop) (rows cols a b : nat)
    (w : list (list A)) : Prop :=
  shape rows cols w ∧
  ∀ a' b', b' < cols → a' < a ∨ (a' = a ∧ b' < b) →
           ∃ x, mat_get w a' b' = Ok x ∧ P a' b' x.

(** The Stable (SRAM) cells of an array of [rows] by [cols] cells are the
    first [k] cells of its diagonal. *)
Definition sram_diag (rows cols k : nat) (m : list (list CellType)) : Prop :=
  shape rows cols m ∧
  count_cells CELL_TYPE_SRAM m = k ∧
  ∀ r c, mat_get m r c = Ok CELL_TYPE_SRAM ↔ r = c ∧ r < k.

(** The invariant of a generated cell-type array. *)
Definition stable_on_diagonal (rows cols : nat) (m : list (list CellType))
    : Prop :=
  sram_diag rows cols (rows `min` cols) m.

(** A deterministic generator for the examples: the state counts the
    draws, a choice takes the first indices, and every other draw returns
    its lowest value. *)
Definition counting_numpy : NumPy nat :=
  {| draw_choice a size g := (seq 0 size, S g);
     draw_uniform low high g := (low, S g);
     draw_normal loc scale g := (loc, S g);
     draw_rand g := (0%Q, S g);
     np_exp x := (1 + x)%Q |}.

(** [node] has a capacitive element to ground. *)
Definition has_capacitor_to_ground (c : Circuit) (node : string) : Prop :=
  ∃ name value, C name node gnd value ∈ elements c.

Definition has_capacitor_to_ground_b (c : Circuit) (node : string) : bool :=
  existsb (λ e, match e with
                | C _ plus minus _ =>
                    bool_decide (plus = node) && bool_decide (minus = gnd)
                | _ => false
                end) (elements c).

(** [node] is the control (gate) terminal of a transistor of the
    circuit. *)
Definition gates_a_transistor (c : Circuit) (node : string) : Prop :=
  ∃ name drain source bulk model,
    MOSFET name drain node source bulk model ∈ elements c.

Definition gates_a_transistor_b (c : Circuit) (node : string) : bool :=
  existsb (λ e, match e with
                | MOSFET _ _ gate _ _ _ => bool_decide (gate = node)
                | _ => false
                end) (elements c).

(** The nodes the builder declares. *)
Definition layer_and_storage_nodes (b : Builder.built) : list string :=
  Builder.input_nodes b ++ Builder.hidden_nodes b ++ Builder.output_nodes b
  ++ concat (Builder.ih_cells_fast b) ++ concat (Builder.ih_cells_slow b)
  ++ concat (Builder.ho_cells_fast b) ++ concat (Builder.ho_cells_slow b).

Definition declared_nodes (b : Builder.built) : list string :=
  layer_and_storage_nodes b ++ Builder.error_nodes b
  ++ [Builder.neighbor_node].

(** The names of the layer nodes and of the storage nodes of the synapses
    start with [i], [h] or [o]. *)
Definition layer_initial (node : string) : bool :=
  match node with
  | String a _ =>
      bool_decide (a = "i"%char ∨ a = "h"%char ∨ a = "o"%char)
  | EmptyString => false
  end.

(** Every capacitor of the circuit has a layer node or a storage node as
    its first terminal. *)
Definition capacitors_on_layers (c : Circuit) : Prop :=
  ∀ name plus minus value,
    C name plus minus value ∈ elements c → layer_initial plus = true.

Section BuilderVocabulary.
Import Builder.

(** What the body of the input-to-hidden loops adds for synapse
    [(i, h)]. *)
Definition ih_synapse_built (cell_types : list (list CellType)) (i h : nat)
    (c : Circuit) : Prop :=
  has_capacitor_to_ground c (syn_node "ih" i h "fast") ∧
  has_capacitor_to_ground c (syn_node "ih" i h "slow") ∧
  (mat_get cell_types i h = Ok CELL_TYPE_DRAM_NEIGHBOR_CTRL_LEAKY →
   MOSFET ("ih_leak_ctrl_" +:+ pretty i +:+ "_" +:+ pretty h)
     "vdd" (syn_node "ih" i h "fast") neighbor_node gnd "nmos_leak_ctrl"
   ∈ elements c).

Definition ho_synapse_built (cell_types : list (list CellType)) (h o : nat)
    (c : Circuit) : Prop :=
  has_capacitor_to_ground c (syn_node "ho" h o "fast") ∧
  has_capacitor_to_ground c (syn_node "ho" h o "slow") ∧
  (mat_get cell_types h o = Ok CELL_TYPE_DRAM_NEIGHBOR_CTRL_LEAKY →
   MOSFET ("ho_leak_ctrl_" +:+ pretty h +:+ "_" +:+ pretty o)
     (syn_node "ho" h o "fast") (syn_node "ho" h o "fast") neighbor_node gnd
     "nmos_leak_ctrl"
   ∈ elements c).

End BuilderVocabulary.

(** The topology the counting generator produces for two inputs, two
    hidden and two output neurons, used in the examples. *)
Definition example_ih : list (list CellType) :=
  [[CELL_TYPE_SRAM; CELL_TYPE_DRAM_NEIGHBOR_CTRL_LEAKY];
   [CELL_TYPE_DRAM_LEAKY; CELL_TYPE_SRAM]].

Definition example_ho : list (list CellType) :=
  [[CELL_TYPE_SRAM; CELL_TYPE_DRAM_NEIGHBOR_CTRL_LEAKY];
   [CELL_TYPE_DRAM_NEIGHBOR_CTRL_LEAKY; CELL_TYPE_SRAM]].


(** The weight extracted for a synapse whose storage nodes are named
    [fast_name] and [slow_name]: the sum of the final voltages when both
    nodes are in the result and have a last sample, a fallback value, of
    which [F] holds, otherwise. *)
Definition extracted_weight (F : Q → Prop) (analysis : Analysis)
    (fast_name slow_name : string) (x : Q) : Prop :=
  match nodes analysis !! lower fast_name, nodes analysis !! lower slow_name with
  | Some v_fast, Some v_slow =>
      match last v_fast, last v_slow with
      | Some f, Some s => x = (f + s)%Q
      | _, _ => F x
      end
  | _, _ => F x
  end.

Definition weight_of (F : Q → Prop) (analysis : Analysis)
    (cells_fast cells_slow : list (list string)) (a b : nat) (x : Q) : Prop :=
  ∃ fast_name slow_name,
    mat_get cells_fast a b = Ok fast_name ∧
    mat_get cells_slow a b = Ok slow_name ∧
    extracted_weight F analysis fast_name slow_name x.

(** A result in which the synapse of the only input and the only hidden
    neuron is complete and the storage nodes of the other synapse are
    missing. *)
Definition example_analysis : Analysis :=
  {| time := [0; 1]%Q;
     nodes := {[ "ih_syn_0_0_fast" := [0.1; 0.25]%Q;
                 "ih_syn_0_0_slow" := [0.2; 0.5]%Q ]} |}.

(** A solver that fails on every circuit. *)
Definition failing_solver : Circuit → Q → Q → option Analysis :=
  λ _ _ _, None.

(** A solver that returns two time samples and no node. *)
Definition empty_solver : Circuit → Q → Q → option Analysis :=
  λ _ _ end_time, Some {| time := [0%Q; end_time]; nodes := ∅ |}.

(** ** Stimulus: presentation, forward pass and the sources added *)

Section StimulusVocabulary2.
Import Stimulus.
Local Open Scope Q_scope.

(** Every channel is at 0 at the two samples of phase [ph] of pattern
    [k]. *)
Definition quiet (s : signals) (k : nat) (ph : Phase) : Prop :=
  ∀ j, j ∈ phase_samples k ph →
    (∀ i ch, V_inputs s !! i = Some ch → ∃ v, ch !! j = Some v ∧ v == 0) ∧
    (∀ o ch, V_errors s !! o = Some ch → ∃ v, ch !! j = Some v ∧ v == 0) ∧
    (∃ m, V_neighbor_mod s !! j = Some m ∧ m == 0).

(** The input channels are at 0 at the two samples of phase [ph] of
    pattern [k]. *)
Definition inputs_off (s : signals) (k : nat) (ph : Phase) : Prop :=
  ∀ j, j ∈ phase_samples k ph →
    ∀ i ch, V_inputs s !! i = Some ch → ∃ v, ch !! j = Some v ∧ v == 0.

(** Present: an input channel is at 18 V ([vdd * present_strength]) where
    the pattern bit is positive and at 0 where it is not; the error
    channels and the neighbor-modulation channel are at 0. *)
Definition present_ok (pattern : list Z) (s : signals) (k : nat) : Prop :=
  ∀ j, j ∈ phase_samples k Present →
    (∀ i ch b, V_inputs s !! i = Some ch → pattern !! i = Some b →
       ∃ v, ch !! j = Some v ∧ if (0 <? b)%Z then v == 18 else v == 0) ∧
    (∀ o ch, V_errors s !! o = Some ch → ∃ v, ch !! j = Some v ∧ v == 0) ∧
    (∃ m, V_neighbor_mod s !! j = Some m ∧ m == 0).

(** A pattern/target pair that does not cover the input lines or the
    output lines. *)
Definition short_sample (num_inputs num_outputs : nat)
    (sample : list Z * list Z) : Prop :=
  (length sample.1 < num_inputs)%nat ∨ (length sample.2 < num_outputs)%nat.

End StimulusVocabulary2.

(** [c'] is [c] with the elements [added] appended, nothing else
    changed. *)
Definition appends (c c' : Circuit) (added : list element) : Prop :=
  elements c' = elements c ++ added ∧ models c' = models c ∧
  title c' = title c ∧ raw_spice c' = raw_spice c.

(** ** Topology: accepted sizes and counts *)

(** The layer sizes for which the topology is generated. *)
Definition accepted_sizes (num_inputs num_hidden num_outputs : nat) : Prop :=
  2 ≤ num_inputs * num_hidden ∧ 2 ≤ num_hidden * num_outputs ∧
  (3 ≤ num_hidden → 2 ≤ num_inputs).

(** [np.sum(m[:, c] == v)] *)
Definition count_in_column (v : CellType) (m : list (list CellType))
    (c : nat) : nat :=
  length (filter (λ row, row !! c = Some v) m).

(** ** Circuit construction: the transistors of a synapse *)

#[global] Instance exn_eq_dec : EqDecision exn.
Proof. solve_decision. Defined.

#[global] Instance result_eq_dec {A} `{EqDecision A} : EqDecision (result A).
Proof. solve_decision. Defined.

(** A transistor of the neighbor-control device model. *)
Definition is_leak_control (e : element) : bool :=
  match e with
  | MOSFET _ _ _ _ _ model => bool_decide (model = "nmos_leak_ctrl")
  | _ => false
  end.

Definition count_leak_control (c : Circuit) : nat :=
  length (filter (λ e, is_leak_control e) (elements c)).

Section BuilderVocabulary2.
Import Builder.

(** The transistors of the synapse from input [i] to hidden neuron [h]:
    the forward gate driven by the input node, the feedback gate driven by
    the hidden node, the read-out onto the hidden node, and the coupling,
    through a transistor gated by the error node of index
    [h % num_outputs], of that error line to the fast storage node. *)
Definition ih_transistors_built (num_outputs i h : nat) (c : Circuit) : Prop :=
  let tag := pretty i +:+ "_" +:+ pretty h in
  let fast_node := syn_node "ih" i h "fast" in
  MOSFET ("ih_mf_pre_" +:+ tag) "vdd" (input_node i) fast_node gnd
    ("ih_nmos_" +:+ tag) ∈ elements c ∧
  MOSFET ("ih_mf_post_" +:+ tag) "vdd" (hidden_node h) fast_node gnd
    "nmos_learn" ∈ elements c ∧
  MOSFET ("ih_mf_out_" +:+ tag) "vdd" fast_node (hidden_node h) gnd
    "nmos_syn" ∈ elements c ∧
  (0 < num_outputs →
   MOSFET ("ih_err_" +:+ pretty i +:+ "_" +:+ pretty h +:+ "_"
             +:+ pretty (h `mod` num_outputs))
     "vdd" (error_node (h `mod` num_outputs)) fast_node gnd "nmos_learn"
   ∈ elements c).

(** The transistors of the synapse from hidden neuron [h] to output [o];
    the error line coupled to it is the one of its own output. *)
Definition ho_transistors_built (h o : nat) (c : Circuit) : Prop :=
  let tag := pretty h +:+ "_" +:+ pretty o in
  let fast_node := syn_node "ho" h o "fast" in
  MOSFET ("ho_mf_pre_" +:+ tag) "vdd" (hidden_node h) fast_node gnd
    ("ho_nmos_" +:+ tag) ∈ elements c ∧
  MOSFET ("ho_mf_post_" +:+ tag) "vdd" (output_node o) fast_node gnd
    "nmos_learn" ∈ elements c ∧
  MOSFET ("ho_mf_out_" +:+ tag) "vdd" fast_node (output_node o) gnd
    "nmos_syn" ∈ elements c ∧
  MOSFET ("ho_err_" +:+ tag) "vdd" (error_node o) fast_node gnd "nmos_learn"
  ∈ elements c.

End BuilderVocabulary2.

(** ** Performance: the scoring window *)

(** Output [c] is strictly the largest entry of a row of the output
    activity. *)
Definition dominant (c : nat) (row : list Q) : Prop :=
  ∃ m, row !! c = Some m ∧ ∀ j x, j ≠ c → row !! j = Some x → (x < m)%Q.

(** The number of time points of a pattern, for the time axis [time_us]
    and the pattern duration [phase_duration]. *)
Definition time_points_per_pattern (time_us : list Q) (phase_duration : Q)
    : Z :=
  match time_us with
  | t0 :: t1 :: _ => 1 `max` Performance.int (phase_duration / (t1 - t0))
  | _ => 0
  end.

(** ** State extraction: complete results *)

(** The result has a waveform with a last sample for the two storage nodes
    of every synapse of a layer of [rows] by [cols] synapses. *)
Definition complete_result (analysis : Analysis)
    (cells_fast cells_slow : list (list string)) (rows cols : nat) : Prop :=
  ∀ a b fast_name slow_name, a < rows → b < cols →
    mat_get cells_fast a b = Ok fast_name →
    mat_get cells_slow a b = Ok slow_name →
    ∃ v_fast v_slow f s,
      nodes analysis !! lower fast_name = Some v_fast ∧
      nodes analysis !! lower slow_name = Some v_slow ∧
      last v_fast = Some f ∧ last v_slow = Some s.

(** A result with the four storage nodes of a network of one input, one
    hidden and one output neuron. *)
Definition example_complete_analysis : Analysis :=
  {| time := [0; 1]%Q;
     nodes := {[ "ih_syn_0_0_fast" := [0.1; 0.25]%Q;
                 "ih_syn_0_0_slow" := [0.2; 0.5]%Q;
                 "ho_syn_0_0_fast" := [0.3; 0.125]%Q;
                 "ho_syn_0_0_slow" := [0.4; 0.25]%Q ]} |}.

(** ** The learning loop: histories and solver results *)

(** The invariant of the history of a run. *)
Definition history_ok (num_inputs num_hidden num_outputs : nat)
    (hist : Experiment.history) : Prop :=
  Forall (λ a, 0 <= a <= 1)%Q (Experiment.train_accuracies hist) ∧
  Forall (shape num_inputs num_hidden) (Experiment.ih_weights_history hist) ∧
  Forall (shape num_hidden num_outputs) (Experiment.ho_weights_history hist).

(** A result as a transient analysis returns it: every waveform has one
    value per time sample, and the time axis, when it has two samples,
    starts at 0 and reaches a picosecond at least with its second
    sample. *)
Definition transient_result (analysis : Analysis) : Prop :=
  (∀ name v, nodes analysis !! name = Some v →
             length v = length (time analysis)) ∧
  (∀ t0 t1, time analysis !! 0 = Some t0 → time analysis !! 1 = Some t1 →
            (t0 == 0 ∧ 1e-12 <= t1)%Q).

(** ** Training and test data *)

(** A sample a training digit may be selected from: its label is below
    [num_outputs] and its block has more than two active pixels. *)
Definition eligible (num_outputs : nat) (sample : list Z * Z) : Prop :=
  (sample.2 < Z.of_nat num_outputs)%Z ∧ (Dataset.np_sum sample.1 > 2)%Z.

#[global] Instance eligible_dec num_outputs sample :
  Decision (eligible num_outputs sample).
Proof. unfold eligible. apply _. Defined.

(** The digits with an eligible sample. *)
Definition eligible_digits (num_outputs : nat)
    (samples : list (list Z * Z)) : gset Z :=
  list_to_set (snd <$> filter (eligible num_outputs) samples).

(** What holds of the indices [selected] and of the digits [used] of a
    selection of training samples among [samples]: the indices increase,
    every one is the index of an eligible sample whose digit is in [used],
    every digit in [used] is the digit of a selected sample, and no two
    selected samples have the same digit. *)
Definition train_selection (num_outputs : nat) (samples : list (list Z * Z))
    (selected : list nat) (used : gset Z) : Prop :=
  StronglySorted lt selected ∧
  (∀ i, i ∈ selected →
     ∃ block lbl, samples !! i = Some (block, lbl) ∧
                  eligible num_outputs (block, lbl) ∧ lbl ∈ used) ∧
  (∀ lbl, lbl ∈ used →
     ∃ i block, i ∈ selected ∧ samples !! i = Some (block, lbl)) ∧
  (∀ i j bi bj lbl, i ∈ selected → j ∈ selected →
     samples !! i = Some (bi, lbl) → samples !! j = Some (bj, lbl) → i = j) ∧
  size used = length selected.

(** What holds of the indices of a selection of test samples: they
    increase, none is the index of a training sample, and every one is the
    index of an eligible sample. *)
Definition test_selection (num_outputs : nat) (samples : list (list Z * Z))
    (selected_train selected : list nat) : Prop :=
  StronglySorted lt selected ∧
  ∀ i, i ∈ selected →
    (i ∉ selected_train) ∧
    ∃ block lbl, samples !! i = Some (block, lbl) ∧
                 eligible num_outputs (block, lbl).

(** [rows] are the entries of [l] at the indices [idx], in their order. *)
Definition rows_at {A} (l : list A) (idx : list nat) (rows : list A) : Prop :=
  Forall2 (λ i x, l !! i = Some x) idx rows.

(** Row [k] of [targets] holds a single one, in the column of label [k]. *)
Definition one_hot_rows (cols : nat) (labels : list Z)
    (targets : list (list Z)) : Prop :=
  ∀ k lbl, labels !! k = Some lbl →
    targets !! k = Some (<[Z.to_nat lbl := 1%Z]> (replicate cols 0%Z)).

(** The data [d] are the ones of the selected training and test samples of
    [blocks] and [labels]. *)
Definition prepared_from (num_outputs : nat) (blocks : list (list Z))
    (labels : list Z) (d : Dataset.data) : Prop :=
  let samples := zip blocks labels in
  let selected_train :=
    (Dataset.select_train num_outputs 0 samples [] ∅).1 in
  let selected_test :=
    Dataset.select_test num_outputs selected_train 0 samples [] in
  length selected_train = num_outputs ∧
  rows_at blocks selected_train (Dataset.train_patterns d) ∧
  rows_at labels selected_train (Dataset.train_labels d) ∧
  shape num_outputs num_outputs (Dataset.train_targets d) ∧
  one_hot_rows num_outputs (Dataset.train_labels d)
    (Dataset.train_targets d) ∧
  rows_at blocks selected_test (Dataset.test_patterns d) ∧
  rows_at labels selected_test (Dataset.test_labels d) ∧
  shape (length selected_test) num_outputs (Dataset.test_targets d) ∧
  one_hot_rows num_outputs (Dataset.test_labels d) (Dataset.test_targets d).

(** A pattern of 16 bits. *)
Definition bit_pattern (p : list Z) : Prop :=
  length p = 16 ∧ Forall (λ x, x = 0%Z ∨ x = 1%Z) p.

(** * Proofs *)

(** ** The error monad and sequences *)

Lemma index_Ok {A} (l : list A) i x : index l i = Ok x ↔ l !! i = Some x.
Proof. unfold index. destruct (l !! i); split; congruence. Qed.

Lemma index_lt {A} (l : list A) i :
  i < length l → ∃ x, index l i = Ok x ∧ l !! i = Some x.
Proof.
  intros Hi. destruct (lookup_lt_is_Some_2 l i Hi) as [x Hx].
  exists x. split; [by apply index_Ok | done].
Qed.

Lemma index_last_snoc {A} (l : list A) x : index_last (l ++ [x]) = Ok x.
Proof. unfold index_last. by rewrite last_snoc. Qed.

Lemma index_last_app_cons {A} (l : list A) x l' :
  index_last (l ++ x :: l') = index_last (x :: l').
Proof. unfold index_last. by rewrite last_app_cons. Qed.

Lemma zip_with_app_nil {A B} (l : list (list A)) (xs : list B) :
  length l ≤ length xs → zip_with (λ ch _, ch ++ []) l xs = l.
Proof.
  revert xs. induction l as [|ch l IH]; intros [|x xs] Hlen; simpl in *;
    try done; try lia.
  rewrite app_nil_r, IH; [done | lia].
Qed.

Lemma lookup_flat_map_block {A B} (f : A → list B) n l k x j :
  (∀ y, length (f y) = n) → l !! k = Some x → j < n →
  flat_map f l !! (k * n + j) = f x !! j.
Proof.
  intros Hf. revert k. induction l as [|y l IH]; intros [|k] Hk Hj;
    simplify_eq/=.
  - rewrite lookup_app_l; [done | by rewrite Hf].
  - rewrite lookup_app_r; rewrite Hf; [| lia].
    replace (n + k * n + j - n) with (k * n + j) by lia. by apply IH.
Qed.

(** ** Stimulus waveforms *)

Section StimulusFacts.
Import Stimulus.
Local Open Scope Q_scope.

Lemma StronglySorted_snoc (Ts : list Q) t :
  StronglySorted Qlt Ts → Forall (λ x, x < t) Ts →
  StronglySorted Qlt (Ts ++ [t]).
Proof.
  induction 1 as [|x Ts Hs IH Hx]; intros Hlt; simpl.
  - repeat constructor.
  - inversion_clear Hlt. constructor; [by apply IH |].
    apply Forall_app. split; [done | by constructor].
Qed.

Lemma time_inv_snoc Ts t d :
  0 < d → time_inv Ts t → time_inv (Ts ++ [t + d]) (t + d).
Proof.
  intros Hd [Hs Hle]. split.
  - apply StronglySorted_snoc; [done |].
    eapply Forall_impl; [exact Hle |]. intros x Hx. simpl in Hx.
    apply Qle_lt_trans with t; [done |].
    rewrite <- (Qplus_0_r t) at 1. by apply Qplus_lt_r.
  - apply Forall_app. split.
    + eapply Forall_impl; [exact Hle |]. intros x Hx. simpl in Hx.
      apply Qle_trans with t; [done |].
      rewrite <- (Qplus_0_r t) at 1. apply Qplus_le_r. by apply Qlt_le_weak.
    + constructor; [apply Qle_refl | constructor].
Qed.

Lemma time_inv_stamps ds : ∀ Ts t,
  Forall (λ d, 0 < d) ds → time_inv Ts t →
  time_inv (Ts ++ stamps t ds) (fold_left Qplus ds t).
Proof.
  induction ds as [|d ds IH]; intros Ts t Hds Hinv; simpl.
  - by rewrite app_nil_r.
  - inversion_clear Hds.
    replace (Ts ++ (t + d) :: stamps (t + d) ds)
      with ((Ts ++ [t + d]) ++ stamps (t + d) ds) by by rewrite <- app_assoc.
    apply IH; [done |]. by apply time_inv_snoc.
Qed.

Lemma durations_pos : Forall (λ d, 0 < d) durations.
Proof. repeat constructor. Qed.

Lemma length_stamps t ds : length (stamps t ds) = length ds.
Proof. revert t. induction ds; intros; simpl; [done | by rewrite IHds]. Qed.

(** Appending one value to channels that already carry a block. *)
Lemma append_all_ext {X} (f : nat → list Q → result Q)
    (blk : X → list Q) (val : X → Q) :
  ∀ (chans : list (list Q)) (xs : list X) i,
  (∀ k ch x, chans !! k = Some ch → xs !! k = Some x →
     f (i + k)%nat (ch ++ blk x) = Ok (val x)) →
  append_all f i (zip_with (λ ch x, ch ++ blk x) chans xs)
  = Ok (zip_with (λ ch x, ch ++ (blk x ++ [val x])) chans xs).
Proof.
  induction chans as [|ch chans IH]; intros [|x xs] i Hf; simpl; try done.
  rewrite <- (Nat.add_0_r i) at 1. rewrite (Hf 0%nat ch x); [| done | done].
  simpl. rewrite (IH xs (S i)).
  - simpl. by rewrite <- app_assoc.
  - intros k ch' x' Hch Hx. replace (S i + k)%nat with (i + S k)%nat by lia.
    by apply Hf.
Qed.

Lemma sample_ext {X Y} dt v_in v_err v_mod Ts t
    (Vi : list (list Q)) (pattern : list X) (bi : X → list Q) (vi : X → Q)
    (Ve : list (list Q)) (target : list Y) (be : Y → list Q) (ve : Y → Q)
    (Vm bm : list Q) (m : Q) :
  (∀ k ch x, Vi !! k = Some ch → pattern !! k = Some x →
     v_in k (ch ++ bi x) = Ok (vi x)) →
  (∀ k ch y, Ve !! k = Some ch → target !! k = Some y →
     v_err k (ch ++ be y) = Ok (ve y)) →
  v_mod (Vm ++ bm) = Ok m →
  sample dt v_in v_err v_mod
    {| T := Ts; t_current := t;
       V_inputs := zip_with (λ ch x, ch ++ bi x) Vi pattern;
       V_errors := zip_with (λ ch y, ch ++ be y) Ve target;
       V_neighbor_mod := Vm ++ bm |}
  = Ok {| T := Ts ++ [t + dt]; t_current := t + dt;
          V_inputs := zip_with (λ ch x, ch ++ (bi x ++ [vi x])) Vi pattern;
          V_errors := zip_with (λ ch y, ch ++ (be y ++ [ve y])) Ve target;
          V_neighbor_mod := Vm ++ (bm ++ [m]) |}.
Proof.
  intros Hin Herr Hmod. unfold sample. simpl.
  rewrite (append_all_ext v_in bi vi Vi pattern 0%nat Hin). simpl.
  rewrite (append_all_ext v_err be ve Ve target 0%nat Herr). simpl.
  rewrite Hmod. simpl. by rewrite <- app_assoc.
Qed.

(** One pattern appends ten stamps and one block to every channel. *)
Lemma process_sample_spec learning_step pattern target s :
  length (V_inputs s) ≤ length pattern →
  length (V_errors s) ≤ length target →
  process_sample learning_step pattern target s
  = Ok {| T := T s ++ stamps (t_current s) durations;
          t_current := fold_left Qplus durations (t_current s);
          V_inputs := zip_with (λ ch p, ch ++ input_block p)
                        (V_inputs s) pattern;
          V_errors := zip_with (λ ch t, ch ++ error_block learning_step t)
                        (V_errors s) target;
          V_neighbor_mod := V_neighbor_mod s ++ mod_block learning_step |}.
Proof.
  intros Hi He. destruct s as [Ts t Vi Ve Vm]. simpl in *.
  unfold process_sample.
  rewrite <- (zip_with_app_nil Vi pattern Hi) at 1.
  rewrite <- (zip_with_app_nil Ve target He) at 1.
  rewrite <- (app_nil_r Vm) at 1.
  (* Phase 1 *)
  erewrite (sample_ext _ _ _ _ _ _ Vi pattern _
              (λ p, if (0 <? p)%Z then vdd * present_strength else 0.0)
              Ve target _ (λ _, 0.0) Vm _ 0.0); cycle 1.
  { intros k ch x _ Hx. apply index_Ok in Hx. by rewrite Hx. }
  { done. }
  { done. }
  simpl.
  erewrite (sample_ext _ _ _ _ _ _ Vi pattern _
              (λ p, if (0 <? p)%Z then vdd * present_strength else 0.0)
              Ve target _ (λ _, 0.0) Vm _ 0.0); cycle 1.
  { intros k ch x _ _. unfold hold. by rewrite index_last_app_cons. }
  { done. }
  { done. }
  simpl.
  (* Phase 2 *)
  do 2 (erewrite (sample_ext _ _ _ _ _ _ Vi pattern _ (λ _, 0.0)
                    Ve target _ (λ _, 0.0) Vm _ 0.0); [| done | done | done];
        simpl).
  (* Phase 3 *)
  erewrite (sample_ext _ _ _ _ _ _ Vi pattern _ (λ _, 0.0)
              Ve target _ (error_val learning_step) Vm _
              (inhibit_strength learning_step * vdd)); cycle 1.
  { done. }
  { intros k ch y _ Hy. apply index_Ok in Hy. by rewrite Hy. }
  { done. }
  simpl.
  erewrite (sample_ext _ _ _ _ _ _ Vi pattern _ (λ _, 0.0)
              Ve target _ (error_val learning_step) Vm _
              (inhibit_strength learning_step * vdd)); cycle 1.
  { done. }
  { intros k ch y _ _. unfold hold. by rewrite index_last_app_cons. }
  { by rewrite index_last_app_cons. }
  simpl.
  (* Phase 4 *)
  do 2 (erewrite (sample_ext _ _ _ _ _ _ Vi pattern _ (λ _, 0.0)
                    Ve target _ (λ _, 0.0) Vm _
                    (inhibit_strength learning_step * vdd));
        [| done | done | by rewrite index_last_app_cons]; simpl).
  (* Phase 5 *)
  erewrite (sample_ext _ _ _ _ _ _ Vi pattern _ (λ _, 0.0)
              Ve target _ (λ _, 0.0) Vm _ 0.0); [| done | done | done].
  simpl.
  erewrite (sample_ext _ _ _ _ _ _ Vi pattern _ (λ _, 0.0)
              Ve target _ (λ _, 0.0) Vm _ 0.0); [| done | done | done].
  simpl. rewrite <- !app_assoc. reflexivity.
Qed.

Lemma process_samples_spec learning_step samples : ∀ s,
  Forall (λ '(p, t), length (V_inputs s) ≤ length p ∧
                     length (V_errors s) ≤ length t) samples →
  ∃ s', process_samples learning_step samples s = Ok s' ∧
    length (T s') = (length (T s) + 10 * length samples)%nat ∧
    (time_inv (T s) (t_current s) → time_inv (T s') (t_current s')) ∧
    (length samples = 0%nat → s' = s) ∧
    length (V_inputs s') = length (V_inputs s) ∧
    length (V_errors s') = length (V_errors s) ∧
    (∀ i ch, V_inputs s !! i = Some ch →
       V_inputs s' !! i = Some (ch ++ input_values samples i)) ∧
    (∀ o ch, V_errors s !! o = Some ch →
       V_errors s' !! o = Some (ch ++ error_values learning_step samples o)) ∧
    V_neighbor_mod s' = V_neighbor_mod s ++ mod_values learning_step samples.
Proof.
  induction samples as [|[p t] samples IH]; intros s Hwf.
  - exists s. simpl. unfold input_values, error_values, mod_values. simpl.
    rewrite Nat.add_0_r, app_nil_r.
    split_and!; try done; intros k ch Hch; by rewrite app_nil_r.
  - apply Forall_cons in Hwf as [Hpt Hrest]. simpl in Hpt.
    destruct Hpt as [Hp Ht]. cbn [process_samples].
    rewrite (process_sample_spec learning_step p t s Hp Ht).
    cbn [mbind result_bind].
    set (s1 := {| T := _ |}).
    assert (length (V_inputs s1) = length (V_inputs s)) as Hli.
    { subst s1. simpl. rewrite length_zip_with. lia. }
    assert (length (V_errors s1) = length (V_errors s)) as Hle.
    { subst s1. simpl. rewrite length_zip_with. lia. }
    destruct (IH s1) as (s' & Hrun & HT & Hinv & _ & Hi' & He' & Hin & Herr & Hmod).
    { eapply Forall_impl; [exact Hrest |]. intros [p' t'].
      rewrite Hli, Hle. done. }
    exists s'. split; [done |]. split_and!.
    + rewrite HT. subst s1. cbn [T]. rewrite length_app, length_stamps.
      simpl. lia.
    + intros Hs. apply Hinv. subst s1. cbn [T t_current].
      apply time_inv_stamps; [apply durations_pos | done].
    + done.
    + congruence.
    + congruence.
    + intros i ch Hch. unfold input_values. simpl.
      destruct (lookup_lt_is_Some_2 p i) as [x Hx].
      { apply lookup_lt_Some in Hch. lia. }
      rewrite (Hin i (ch ++ input_block x)).
      * by rewrite Hx, <- app_assoc.
      * subst s1. simpl. rewrite lookup_zip_with, Hch. simpl. by rewrite Hx.
    + intros o ch Hch. unfold error_values. simpl.
      destruct (lookup_lt_is_Some_2 t o) as [x Hx].
      { apply lookup_lt_Some in Hch. lia. }
      rewrite (Herr o (ch ++ error_block learning_step x)).
      * by rewrite Hx, <- app_assoc.
      * subst s1. simpl. rewrite lookup_zip_with, Hch. simpl. by rewrite Hx.
    + rewrite Hmod. subst s1. simpl. by rewrite <- app_assoc.
Qed.

Lemma append_all_zero chans i :
  append_all zero i chans = Ok ((λ ch, ch ++ [0.0]) <$> chans).
Proof.
  revert i. induction chans as [|ch chans IH]; intros i; simpl; [done |].
  by rewrite IH.
Qed.

Lemma sample_rest dt s :
  sample dt zero zero (λ _, Ok 0.0) s
  = Ok {| T := T s ++ [t_current s + dt]; t_current := t_current s + dt;
          V_inputs := (λ ch, ch ++ [0.0]) <$> V_inputs s;
          V_errors := (λ ch, ch ++ [0.0]) <$> V_errors s;
          V_neighbor_mod := V_neighbor_mod s ++ [0.0] |}.
Proof. unfold sample. by rewrite !append_all_zero. Qed.

Lemma extends_refl c : extends c c.
Proof. by intros e. Qed.

Lemma extends_trans c1 c2 c3 : extends c1 c2 → extends c2 c3 → extends c1 c3.
Proof. intros H12 H23 e He. by apply H23, H12. Qed.

Lemma extends_add e c : extends c (add e c).
Proof. intros e' He'. unfold add. simpl. apply elem_of_app. by left. Qed.

Lemma elem_of_add e c : e ∈ elements (add e c).
Proof. unfold add. simpl. apply elem_of_app. right. by constructor. Qed.

Lemma add_input_sources_spec input_nodes Ts chans : ∀ n i c,
  i + n ≤ length input_nodes → i + n ≤ length chans →
  ∃ c', add_input_sources input_nodes Ts chans i n c = Ok c' ∧
    extends c c' ∧
    ∀ k ch, i ≤ k < i + n → chans !! k = Some ch →
      PieceWiseLinearVoltageSource ("V_input_" +:+ pretty k)
        ("V_input_" +:+ pretty k +:+ "_temp") gnd (zip Ts ch) ∈ elements c'.
Proof.
  induction n as [|n IH]; intros i c Hn Hc; simpl.
  - exists c. split; [done |]. split; [apply extends_refl |]. intros; lia.
  - destruct (index_lt input_nodes i) as (node & -> & _); [lia |].
    destruct (index_lt chans i) as (ch & -> & Hch); [lia |]. simpl.
    edestruct (IH (S i)) as (c' & -> & Hext & Hin); [lia | lia |].
    exists c'. split; [done |]. split.
    + eapply extends_trans; [| exact Hext].
      eapply extends_trans; apply extends_add.
    + intros k ch' Hk Hch'. destruct (decide (k = i)) as [-> | Hne].
      * simplify_eq. apply Hext, extends_add, elem_of_add.
      * apply Hin; [lia | done].
Qed.

Lemma add_error_sources_spec Ts chans : ∀ n o c,
  o + n ≤ length chans →
  ∃ c', add_error_sources Ts chans o n c = Ok c' ∧
    extends c c' ∧
    ∀ k ch, o ≤ k < o + n → chans !! k = Some ch →
      PieceWiseLinearVoltageSource ("V_error_" +:+ pretty k)
        ("verror_" +:+ pretty k +:+ "_src_internal") gnd (zip Ts ch)
        ∈ elements c'.
Proof.
  induction n as [|n IH]; intros o c Hc; simpl.
  - exists c. split; [done |]. split; [apply extends_refl |]. intros; lia.
  - destruct (index_lt chans o) as (ch & -> & Hch); [lia |]. simpl.
    edestruct (IH (S o)) as (c' & -> & Hext & Hin); [lia |].
    exists c'. split; [done |]. split.
    + eapply extends_trans; [| exact Hext]. apply extends_add.
    + intros k ch' Hk Hch'. destruct (decide (k = o)) as [-> | Hne].
      * simplify_eq. apply Hext, elem_of_add.
      * apply Hin; [lia | done].
Qed.

Lemma Forall_zip_sizes (num_inputs num_outputs : nat)
    (patterns targets : list (list Z)) :
  Forall (λ p, num_inputs ≤ length p) patterns →
  Forall (λ t, num_outputs ≤ length t) targets →
  Forall (λ '(p, t), num_inputs ≤ length p ∧ num_outputs ≤ length t)
    (zip patterns targets).
Proof.
  intros Hp. revert targets. induction Hp as [|p patterns Hp Hps IH];
    intros targets Ht; [constructor |].
  destruct Ht as [|t targets Ht Hts]; [constructor |].
  simpl. constructor; [done | by apply IH].
Qed.

Lemma length_flat_map_block {A B} (f : A → list B) n l :
  (∀ y, length (f y) = n) → length (flat_map f l) = (length l * n)%nat.
Proof.
  intros Hf. induction l as [|y l IH]; simpl; [done |].
  by rewrite length_app, Hf, IH.
Qed.

Lemma waveforms_spec num_inputs num_outputs train_patterns train_targets
    learning_step :
  Forall (λ p, num_inputs ≤ length p) train_patterns →
  Forall (λ t, num_outputs ≤ length t) train_targets →
  let samples := zip train_patterns train_targets in
  ∃ s,
    waveforms num_inputs num_outputs train_patterns train_targets
      learning_step = Ok s ∧
    length (T s) = (10 * length samples + 2)%nat ∧
    StronglySorted Qlt (T s) ∧
    (length samples = 0%nat → T s = [0.0; 0.0 + 5e-6]) ∧
    V_inputs s = final_inputs num_inputs samples ∧
    V_errors s = final_errors num_outputs learning_step samples ∧
    V_neighbor_mod s = final_mod learning_step samples.
Proof.
  intros Hp Ht samples. unfold waveforms. fold samples.
  destruct (process_samples_spec learning_step samples
              (initial_signals num_inputs num_outputs))
    as (s & -> & HT & Hinv & Hnil & Hli & Hle & Hin & Herr & Hmod).
  { simpl. rewrite !length_replicate. by apply Forall_zip_sizes. }
  cbn [mbind result_bind]. rewrite sample_rest.
  eexists. split; [reflexivity |].
  cbn [T V_inputs V_errors V_neighbor_mod t_current].
  simpl in Hli, Hle, HT, Hmod. rewrite length_replicate in Hli, Hle.
  split_and!.
  - rewrite length_app, HT. simpl. lia.
  - assert (time_inv (T s) (t_current s)) as Hs.
    { apply Hinv. simpl. split; repeat constructor. apply Qle_refl. }
    by apply (time_inv_snoc (T s) (t_current s) 5e-6).
  - intros Hz. by rewrite (Hnil Hz).
  - apply list_eq. intros i. unfold final_inputs.
    rewrite !list_lookup_fmap.
    destruct (decide (i < num_inputs)%nat) as [Hi | Hi].
    + rewrite (Hin i [0.0]); [| simpl; by apply lookup_replicate_2].
      rewrite lookup_seq_lt by done. done.
    + rewrite (lookup_ge_None_2 (V_inputs s)) by lia.
      rewrite (lookup_ge_None_2 (seq _ _)); [done |]. rewrite length_seq. lia.
  - apply list_eq. intros o. unfold final_errors.
    rewrite !list_lookup_fmap.
    destruct (decide (o < num_outputs)%nat) as [Ho | Ho].
    + rewrite (Herr o [0.0]); [| simpl; by apply lookup_replicate_2].
      rewrite lookup_seq_lt by done. done.
    + rewrite (lookup_ge_None_2 (V_errors s)) by lia.
      rewrite (lookup_ge_None_2 (seq _ _)); [done |]. rewrite length_seq. lia.
  - unfold final_mod. by rewrite Hmod.
Qed.

(** The sources the generator adds carry the final channels. *)
Lemma generate_simulation_signals_spec num_inputs num_outputs circuit
    input_nodes output_nodes error_nodes train_patterns train_targets
    learning_step s :
  waveforms num_inputs num_outputs train_patterns train_targets
    learning_step = Ok s →
  length (V_inputs s) = num_inputs →
  length (V_errors s) = num_outputs →
  num_inputs ≤ length input_nodes →
  ∃ c',
    generate_simulation_signals num_inputs num_outputs circuit
      input_nodes output_nodes error_nodes train_patterns train_targets
      learning_step = Ok (c', T s, t_current s) ∧
    extends circuit c' ∧
    (∀ i ch, V_inputs s !! i = Some ch →
       PieceWiseLinearVoltageSource ("V_input_" +:+ pretty i)
         ("V_input_" +:+ pretty i +:+ "_temp") gnd (zip (T s) ch)
       ∈ elements c') ∧
    (∀ o ch, V_errors s !! o = Some ch →
       PieceWiseLinearVoltageSource ("V_error_" +:+ pretty o)
         ("verror_" +:+ pretty o +:+ "_src_internal") gnd (zip (T s) ch)
       ∈ elements c') ∧
    PieceWiseLinearVoltageSource "V_neighbor_mod" "V_neighbor_mod_temp" gnd
      (zip (T s) (V_neighbor_mod s))
    ∈ elements c'.
Proof.
  intros Hs Hli Hle Hnodes. unfold generate_simulation_signals.
  rewrite Hs. cbn [mbind result_bind].
  edestruct (add_input_sources_spec input_nodes (T s) (V_inputs s)
               num_inputs 0 circuit)
    as (c1 & -> & Hext1 & Hin1); [lia | lia |].
  cbn [mbind result_bind].
  edestruct (add_error_sources_spec (T s) (V_errors s) num_outputs 0 c1)
    as (c2 & -> & Hext2 & Hin2); [lia |].
  cbn [mbind result_bind].
  eexists. split; [reflexivity |]. split_and!.
  - eapply extends_trans; [exact Hext1 |].
    eapply extends_trans; [exact Hext2 |].
    eapply extends_trans; apply extends_add.
  - intros i ch Hch. apply extends_add, extends_add, Hext2.
    apply Hin1; [| done]. apply lookup_lt_Some in Hch. lia.
  - intros o ch Hch. apply extends_add, extends_add.
    apply Hin2; [| done]. apply lookup_lt_Some in Hch. lia.
  - apply extends_add, elem_of_add.
Qed.

(** *** The phases of a pattern *)

(** Position [1 + 10 k + j] of a final channel is position [j] of the
    block of pattern [k]. *)
Lemma lookup_final_channel {A} (f : A → list Q) (l : list A) k x j :
  (∀ y, length (f y) = 10%nat) → l !! k = Some x → (j < 10)%nat →
  ([0.0] ++ flat_map f l ++ [0.0]) !! (1 + 10 * k + j)%nat = f x !! j.
Proof.
  intros Hf Hk Hj.
  change (([0.0] ++ flat_map f l ++ [0.0]) !! (1 + 10 * k + j)%nat)
    with ((flat_map f l ++ [0.0]) !! (10 * k + j)%nat).
  rewrite lookup_app_l.
  - replace (10 * k + j)%nat with (k * 10 + j)%nat by lia.
    by apply lookup_flat_map_block.
  - rewrite (length_flat_map_block f 10) by done.
    apply lookup_lt_Some in Hk. lia.
Qed.

Lemma inject_nat_nonneg (n : nat) : 0 <= inject_Z (Z.of_nat n).
Proof. unfold Qle. simpl. lia. Qed.

Lemma inhibit_drive_pos learning_step :
  0 < inhibit_strength learning_step * vdd.
Proof.
  unfold inhibit_strength, LATERAL_INHIBITION_STRENGTH, vdd.
  pose proof (inject_nat_nonneg learning_step). lra.
Qed.

Lemma error_strength_pos learning_step :
  (learning_step < 5)%nat → 0 < error_strength learning_step * vdd.
Proof.
  intros Hlt. unfold error_strength, LEARNING_RATE_BASE, vdd.
  assert (inject_Z (Z.of_nat learning_step) <= 4) as Hle.
  { unfold Qle. simpl. lia. }
  lra.
Qed.

End StimulusFacts.

(** C2. For a training set of [n] pattern/target pairs whose patterns
    cover the input lines and whose targets cover the output lines, the
    generator returns, and every channel (each input line, each error
    line, the neighbor-modulation line) is a source of the circuit with
    exactly [10 n + 2] time/value samples whose time stamps are the strictly
    increasing list [T]; for [n = 0] only the initial and the final rest
    sample are emitted. *)
Theorem C2_waveform_sample_count num_inputs num_outputs circuit
    input_nodes output_nodes error_nodes train_patterns train_targets
    learning_step :
  Forall (λ p, num_inputs ≤ length p) train_patterns →
  Forall (λ t, num_outputs ≤ length t) train_targets →
  num_inputs ≤ length input_nodes →
  let n := length (zip train_patterns train_targets) in
  ∃ s c',
    Stimulus.waveforms num_inputs num_outputs train_patterns train_targets
      learning_step = Ok s ∧
    Stimulus.generate_simulation_signals num_inputs num_outputs circuit
      input_nodes output_nodes error_nodes train_patterns train_targets
      learning_step = Ok (c', Stimulus.T s, Stimulus.t_current s) ∧
    length (Stimulus.T s) = 10 * n + 2 ∧
    StronglySorted Qlt (Stimulus.T s) ∧
    length (Stimulus.V_inputs s) = num_inputs ∧
    length (Stimulus.V_errors s) = num_outputs ∧
    (∀ i ch, Stimulus.V_inputs s !! i = Some ch →
       let values := zip (Stimulus.T s) ch in
       PieceWiseLinearVoltageSource ("V_input_" +:+ pretty i)
         ("V_input_" +:+ pretty i +:+ "_temp") gnd values ∈ elements c' ∧
       length values = 10 * n + 2 ∧ values.*1 = Stimulus.T s) ∧
    (∀ o ch, Stimulus.V_errors s !! o = Some ch →
       let values := zip (Stimulus.T s) ch in
       PieceWiseLinearVoltageSource ("V_error_" +:+ pretty o)
         ("verror_" +:+ pretty o +:+ "_src_internal") gnd values
         ∈ elements c' ∧
       length values = 10 * n + 2 ∧ values.*1 = Stimulus.T s) ∧
    (let values := zip (Stimulus.T s) (Stimulus.V_neighbor_mod s) in
     PieceWiseLinearVoltageSource "V_neighbor_mod" "V_neighbor_mod_temp" gnd
       values ∈ elements c' ∧
     length values = 10 * n + 2 ∧ values.*1 = Stimulus.T s) ∧
    (n = 0 →
       Stimulus.T s = [0.0; 0.0 + 5e-6]%Q ∧
       Forall (λ ch, ch = [0.0; 0.0]%Q) (Stimulus.V_inputs s) ∧
       Forall (λ ch, ch = [0.0; 0.0]%Q) (Stimulus.V_errors s) ∧
       Stimulus.V_neighbor_mod s = [0.0; 0.0]%Q).
Proof.
  intros Hp Ht Hnodes n.
  destruct (waveforms_spec num_inputs num_outputs train_patterns train_targets
              learning_step Hp Ht)
    as (s & Hs & HT & Hsorted & Hnil & Hin & Herr & Hmod).
  fold n in HT, Hnil.
  assert (length (Stimulus.V_inputs s) = num_inputs) as Hli.
  { rewrite Hin. unfold final_inputs. by rewrite length_fmap, length_seq. }
  assert (length (Stimulus.V_errors s) = num_outputs) as Hle.
  { rewrite Herr. unfold final_errors. by rewrite length_fmap, length_seq. }
  destruct (generate_simulation_signals_spec num_inputs num_outputs circuit
              input_nodes output_nodes error_nodes train_patterns
              train_targets learning_step s Hs Hli Hle Hnodes)
    as (c' & Hgen & _ & Hsrc_in & Hsrc_err & Hsrc_mod).
  assert (∀ i ch, Stimulus.V_inputs s !! i = Some ch →
            length ch = 10 * n + 2) as Hlen_in.
  { intros i ch. rewrite Hin. unfold final_inputs.
    rewrite list_lookup_fmap. intros Hch.
    destruct (seq 0 num_inputs !! i); simplify_eq/=.
    rewrite length_app. unfold input_values.
    rewrite (length_flat_map_block _ 10); [simpl; lia | by intros [? ?]]. }
  assert (∀ o ch, Stimulus.V_errors s !! o = Some ch →
            length ch = 10 * n + 2) as Hlen_err.
  { intros o ch. rewrite Herr. unfold final_errors.
    rewrite list_lookup_fmap. intros Hch.
    destruct (seq 0 num_outputs !! o); simplify_eq/=.
    rewrite length_app. unfold error_values.
    rewrite (length_flat_map_block _ 10); [simpl; lia | by intros [? ?]]. }
  assert (length (Stimulus.V_neighbor_mod s) = 10 * n + 2) as Hlen_mod.
  { rewrite Hmod. unfold final_mod, mod_values. simpl. rewrite length_app.
    rewrite (length_flat_map_block _ 10); [simpl; lia | done]. }
  exists s, c'. split_and!; try done.
  - intros i ch Hch values. subst values. split_and!.
    + by apply Hsrc_in.
    + rewrite length_zip, HT, (Hlen_in i ch Hch). lia.
    + apply fst_zip. rewrite HT, (Hlen_in i ch Hch). lia.
  - intros o ch Hch values. subst values. split_and!.
    + by apply Hsrc_err.
    + rewrite length_zip, HT, (Hlen_err o ch Hch). lia.
    + apply fst_zip. rewrite HT, (Hlen_err o ch Hch). lia.
  - intros values. subst values. split_and!.
    + done.
    + rewrite length_zip, HT, Hlen_mod. lia.
    + apply fst_zip. rewrite HT, Hlen_mod. lia.
  - intros Hn. pose proof (Hnil Hn) as HTs.
    unfold n in Hn. apply length_zero_iff_nil in Hn. split_and!.
    + done.
    + rewrite Hin. unfold final_inputs. apply Forall_fmap, Forall_forall.
      intros i _. simpl. unfold input_values. by rewrite Hn.
    + rewrite Herr. unfold final_errors. apply Forall_fmap, Forall_forall.
      intros o _. simpl. unfold error_values. by rewrite Hn.
    + rewrite Hmod. unfold final_mod, mod_values. by rewrite Hn.
Qed.

Lemma C2_waveform_sample_count_witness :
  Forall (λ p : list Z, 1 ≤ length p) [[1%Z]] ∧
  Forall (λ t : list Z, 1 ≤ length t) [[1%Z]] ∧
  1 ≤ length ["input_0"] ∧
  ∃ s c',
    Stimulus.generate_simulation_signals 1 1 empty_circuit
      ["input_0"] ["output_0"] ["error_0"] [[1%Z]] [[1%Z]] 0
    = Ok (c', Stimulus.T s, Stimulus.t_current s) ∧
    length (Stimulus.T s) = 12 ∧
    StronglySorted Qlt (Stimulus.T s).
Proof.
  assert (Forall (λ p : list Z, 1 ≤ length p) [[1%Z]]) as Hp.
  { repeat constructor. }
  assert (1 ≤ length ["input_0"]) as Hn by (simpl; lia).
  split_and!; try done.
  destruct (C2_waveform_sample_count 1 1 empty_circuit
              ["input_0"] ["output_0"] ["error_0"] [[1%Z]] [[1%Z]] 0
              Hp Hp Hn)
    as (s & c' & _ & Hgen & HT & Hsorted & _).
  exists s, c'. split_and!; done.
Defined.

(** The claim C8 as the specification words it, for every learning step,
    fails at step 5: the error strength [1.0 - 0.2 * 5], which decreases
    with the learning step, is 0 there, so the error channel of a set
    target bit is driven to 0, not to a negative value, during
    ErrorFeedback. *)
Lemma C8_counterexample :
  ∃ s, Stimulus.waveforms 1 1 [[1%Z]] [[1%Z]] 5 = Ok s ∧
       ¬ phase_protocol 5 (zip [[1%Z]] [[1%Z]]) s.
Proof.
  eexists. split; [vm_compute; reflexivity |].
  intros Hproto.
  destruct (Hproto 0 [1%Z] [1%Z] eq_refl) as (Hfb & _ & _ & _).
  assert (5 ∈ phase_samples 0 ErrorFeedback) as H5 by by constructor.
  edestruct (Hfb 5 H5 0) as (v & Hv & Hneg); [reflexivity | reflexivity |].
  simpl in Hneg. vm_compute in Hv. injection Hv as <-.
  vm_compute in Hneg. discriminate.
Qed.

(** C8, amended. For every training pattern and every learning step:
    during ErrorFeedback the neighbor-modulation channel is positive and,
    when the learning step is below 5 (where the error strength
    [1.0 - 0.2 * learning_step] is positive), an error channel is negative
    when the target bit is set and positive, with a smaller magnitude, when
    it is not; during Update the error channels are 0 and the
    neighbor-modulation channel holds its prior value; during Rest all
    channels are 0. *)
Theorem C8_phase_values num_inputs num_outputs train_patterns train_targets
    learning_step :
  Forall (λ p, num_inputs ≤ length p) train_patterns →
  Forall (λ t, num_outputs ≤ length t) train_targets →
  ∃ s,
    Stimulus.waveforms num_inputs num_outputs train_patterns train_targets
      learning_step = Ok s ∧
    ∀ k pattern target,
      zip train_patterns train_targets !! k = Some (pattern, target) →
      (learning_step < 5 → error_drive_ok learning_step target s k) ∧
      neighbor_drive_ok s k ∧ update_ok s k ∧ rest_ok s k.
Proof.
  intros Hp Ht.
  destruct (waveforms_spec num_inputs num_outputs train_patterns train_targets
              learning_step Hp Ht)
    as (s & Hs & _ & _ & _ & Hin & Herr & Hmod).
  exists s. split; [done |].
  set (samples := zip train_patterns train_targets) in *.
  assert (∀ o ch k p t j, Stimulus.V_errors s !! o = Some ch →
            samples !! k = Some (p, t) → j < 10 →
            ch !! (1 + 10 * k + j)
            = error_block learning_step (default 0%Z (t !! o)) !! j) as Herr_at.
  { intros o ch k p t j. rewrite Herr. unfold final_errors.
    rewrite list_lookup_fmap. intros Hch Hk Hj.
    destruct (seq 0 num_outputs !! o) as [o'|] eqn:Ho; [| done].
    apply lookup_seq in Ho as [-> _].
    change (Some ([0.0] ++ error_values learning_step samples o ++ [0.0])%Q
            = Some ch) in Hch.
    injection Hch as <-.
    by apply (lookup_final_channel
                (λ '(_, t), error_block learning_step (default 0%Z (t !! o)))
                samples k (p, t) j); [intros [? ?] | |]. }
  assert (∀ i ch k p t j, Stimulus.V_inputs s !! i = Some ch →
            samples !! k = Some (p, t) → j < 10 →
            ch !! (1 + 10 * k + j)
            = input_block (default 0%Z (p !! i)) !! j) as Hin_at.
  { intros i ch k p t j. rewrite Hin. unfold final_inputs.
    rewrite list_lookup_fmap. intros Hch Hk Hj.
    destruct (seq 0 num_inputs !! i) as [i'|] eqn:Hi; [| done].
    apply lookup_seq in Hi as [-> _].
    change (Some ([0.0] ++ input_values samples i ++ [0.0])%Q = Some ch)
      in Hch.
    injection Hch as <-.
    by apply (lookup_final_channel
                (λ '(p, _), input_block (default 0%Z (p !! i)))
                samples k (p, t) j); [intros [? ?] | |]. }
  assert (∀ k p t j, samples !! k = Some (p, t) → j < 10 →
            Stimulus.V_neighbor_mod s !! (1 + 10 * k + j)
            = mod_block learning_step !! j) as Hmod_at.
  { intros k p t j Hk Hj. rewrite Hmod.
    by apply (lookup_final_channel (λ _, mod_block learning_step)
                samples k (p, t) j). }
  pose proof (inhibit_drive_pos learning_step) as Him.
  intros k p t Hk. split_and!.
  - (* ErrorFeedback, error channels *)
    intros Hstep j Hj.
    pose proof (error_strength_pos learning_step Hstep) as Hes.
    unfold phase_samples in Hj. simpl in Hj.
    assert (j = 1 + 10 * k + 4 ∨ j = 1 + 10 * k + 5) as [-> | ->].
    { rewrite !elem_of_cons, elem_of_nil in Hj. lia. }
    + intros o ch b Hch Hb. rewrite (Herr_at o ch k p t 4 Hch Hk) by lia.
      rewrite Hb. simpl. eexists. split; [reflexivity |].
      unfold error_val. destruct (0 <? b)%Z; [lra | split; lra].
    + intros o ch b Hch Hb. rewrite (Herr_at o ch k p t 5 Hch Hk) by lia.
      rewrite Hb. simpl. eexists. split; [reflexivity |].
      unfold error_val. destruct (0 <? b)%Z; [lra | split; lra].
  - (* ErrorFeedback, neighbor modulation *)
    intros j Hj. unfold phase_samples in Hj. simpl in Hj.
    assert (j = 1 + 10 * k + 4 ∨ j = 1 + 10 * k + 5) as [-> | ->].
    { rewrite !elem_of_cons, elem_of_nil in Hj. lia. }
    + rewrite (Hmod_at k p t 4 Hk) by lia. simpl. eauto.
    + rewrite (Hmod_at k p t 5 Hk) by lia. simpl. eauto.
  - (* Update *)
    intros j Hj. unfold phase_samples in Hj. simpl in Hj.
    assert (j = 1 + 10 * k + 6 ∨ j = 1 + 10 * k + 7) as [-> | ->].
    { rewrite !elem_of_cons, elem_of_nil in Hj. lia. }
    + split.
      * intros o ch Hch. rewrite (Herr_at o ch k p t 6 Hch Hk) by lia.
        simpl. eexists. split; [reflexivity | reflexivity].
      * replace (1 + 10 * k + 6 - 1) with (1 + 10 * k + 5) by lia.
        rewrite (Hmod_at k p t 5 Hk), (Hmod_at k p t 6 Hk) by lia.
        simpl. eauto.
    + split.
      * intros o ch Hch. rewrite (Herr_at o ch k p t 7 Hch Hk) by lia.
        simpl. eexists. split; [reflexivity | reflexivity].
      * replace (1 + 10 * k + 7 - 1) with (1 + 10 * k + 6) by lia.
        rewrite (Hmod_at k p t 6 Hk), (Hmod_at k p t 7 Hk) by lia.
        simpl. eauto.
  - (* Rest *)
    intros j Hj. unfold phase_samples in Hj. simpl in Hj.
    assert (j = 1 + 10 * k + 8 ∨ j = 1 + 10 * k + 9) as [-> | ->].
    { rewrite !elem_of_cons, elem_of_nil in Hj. lia. }
    + split_and!.
      * intros i ch Hch. rewrite (Hin_at i ch k p t 8 Hch Hk) by lia.
        simpl. eexists. split; [reflexivity | reflexivity].
      * intros o ch Hch. rewrite (Herr_at o ch k p t 8 Hch Hk) by lia.
        simpl. eexists. split; [reflexivity | reflexivity].
      * rewrite (Hmod_at k p t 8 Hk) by lia. simpl.
        eexists. split; [reflexivity | reflexivity].
    + split_and!.
      * intros i ch Hch. rewrite (Hin_at i ch k p t 9 Hch Hk) by lia.
        simpl. eexists. split; [reflexivity | reflexivity].
      * intros o ch Hch. rewrite (Herr_at o ch k p t 9 Hch Hk) by lia.
        simpl. eexists. split; [reflexivity | reflexivity].
      * rewrite (Hmod_at k p t 9 Hk) by lia. simpl.
        eexists. split; [reflexivity | reflexivity].
Qed.

Lemma C8_phase_values_witness :
  Forall (λ p : list Z, 1 ≤ length p) [[1%Z]] ∧
  Forall (λ t : list Z, 1 ≤ length t) [[1%Z]] ∧
  ∃ s, Stimulus.waveforms 1 1 [[1%Z]] [[1%Z]] 4 = Ok s ∧
       phase_protocol 4 (zip [[1%Z]] [[1%Z]]) s.
Proof.
  assert (Forall (λ p : list Z, 1 ≤ length p) [[1%Z]]) as Hp.
  { repeat constructor. }
  split_and!; try done.
  destruct (C8_phase_values 1 1 [[1%Z]] [[1%Z]] 4 Hp Hp) as (s & Hs & Hproto).
  exists s. split; [exact Hs |].
  intros k pattern target Hk.
  destruct (Hproto k pattern target Hk) as (Herr & Hmod & Hupd & Hrest).
  split_and!; [apply Herr; lia | done | done | done].
Defined.

(** ** Loops in the [Rand] monad *)

Section RandFacts.
Context {G : Type} `{NumPy G}.

Lemma Rand_bind_Ok {A B} (m : Rand G A) (f : A → Rand G B) g b g' :
  (m ≫= f) g = Ok (b, g') ↔ ∃ a g1, m g = Ok (a, g1) ∧ f a g1 = Ok (b, g').
Proof.
  unfold mbind, Rand_bind. destruct (m g) as [[a g1]|e]; split.
  - intros Hf. by exists a, g1.
  - intros (a' & g1' & Heq & Hf). by simplify_eq.
  - done.
  - by intros (? & ? & ? & ?).
Qed.

Lemma lift_Ok {A} (r : result A) (g g' : G) a :
  lift r g = Ok (a, g') ↔ r = Ok a ∧ g' = g.
Proof.
  unfold lift. destruct r as [a'|e]; split.
  - by intros [= -> ->].
  - by intros [[= ->] ->].
  - done.
  - by intros [? _].
Qed.

Lemma mret_Ok {A} (a a' : A) (g g' : G) :
  mret (M := Rand G) a g = Ok (a', g') ↔ a' = a ∧ g' = g.
Proof.
  unfold mret, Rand_ret. split.
  - by intros [= -> ->].
  - by intros [-> ->].
Qed.

Lemma Rand_bind_total {A B} (P : A → Prop) (m : Rand G A)
    (f : A → Rand G B) g :
  (∃ a g1, m g = Ok (a, g1) ∧ P a) →
  (∀ a g1, P a → ∃ b g', f a g1 = Ok (b, g')) →
  ∃ b g', (m ≫= f) g = Ok (b, g').
Proof.
  intros (a & g1 & Hm & Ha) Hf. destruct (Hf a g1 Ha) as (b & g' & Hb).
  exists b, g'. apply Rand_bind_Ok. by exists a, g1.
Qed.

Lemma Rand_total_weaken {A} (P : A → Prop) (m : Rand G A) g :
  (∃ a g', m g = Ok (a, g') ∧ P a) → ∃ a g', m g = Ok (a, g').
Proof. intros (a & g' & Hm & _). by exists a, g'. Qed.

(** An invariant of the body of a loop is an invariant of the loop. *)
Lemma for_each_inv {X St} (I : St → Prop) (l : list X)
    (body : X → St → Rand G St) :
  (∀ x s g s' g', x ∈ l → I s → body x s g = Ok (s', g') → I s') →
  ∀ s g s' g', I s → for_each l body s g = Ok (s', g') → I s'.
Proof.
  induction l as [|x l IH]; intros Hbody s g s' g' Hs Hrun; simpl in Hrun.
  - apply mret_Ok in Hrun as [-> _]. done.
  - apply Rand_bind_Ok in Hrun as (s1 & g1 & Hx & Hrest).
    eapply IH; [| | exact Hrest].
    + intros y s2 g2 s3 g3 Hy. apply Hbody. by right.
    + eapply Hbody; [by left | exact Hs | exact Hx].
Qed.

(** The same for an invariant that depends on the index. *)
Lemma for_seq_inv {St} (J : nat → St → Prop) (body : nat → St → Rand G St) :
  ∀ len start,
  (∀ i s g s' g', start ≤ i < start + len → J i s →
     body i s g = Ok (s', g') → J (S i) s') →
  ∀ s g s' g', J start s → for_each (seq start len) body s g = Ok (s', g') →
               J (start + len) s'.
Proof.
  induction len as [|len IH]; intros start Hbody s g s' g' Hs Hrun;
    simpl in Hrun.
  - apply mret_Ok in Hrun as [-> _]. by rewrite Nat.add_0_r.
  - apply Rand_bind_Ok in Hrun as (s1 & g1 & Hx & Hrest).
    replace (start + S len) with (S start + len) by lia.
    eapply IH; [| | exact Hrest].
    + intros i s2 g2 s3 g3 Hi. apply Hbody. lia.
    + eapply Hbody; [| exact Hs | exact Hx]. lia.
Qed.

Lemma for_range_inv {St} (J : nat → St → Prop) n (body : nat → St → Rand G St) :
  (∀ i s g s' g', i < n → J i s → body i s g = Ok (s', g') → J (S i) s') →
  ∀ s g s' g', J 0 s → for_range n body s g = Ok (s', g') → J n s'.
Proof.
  intros Hbody s g s' g' Hs Hrun.
  apply (for_seq_inv J body n 0) with s g g'; [| done | done].
  intros i s1 g1 s2 g2 Hi. apply Hbody. lia.
Qed.

(** A loop whose body cannot fail under the invariant does not fail. *)
Lemma for_each_total {X St} (I : St → Prop) (l : list X)
    (body : X → St → Rand G St) :
  (∀ x s g, x ∈ l → I s → ∃ s' g', body x s g = Ok (s', g') ∧ I s') →
  ∀ s g, I s → ∃ s' g', for_each l body s g = Ok (s', g') ∧ I s'.
Proof.
  induction l as [|x l IH]; intros Hbody s g Hs; simpl.
  - by exists s, g.
  - destruct (Hbody x s g) as (s1 & g1 & Hx & Hs1); [by left | done |].
    destruct (IH (λ y s g Hy, Hbody y s g (list_elem_of_further _ _ _ Hy))
                s1 g1 Hs1) as (s' & g' & Hrest & Hs').
    exists s', g'. split; [| done].
    apply Rand_bind_Ok. by exists s1, g1.
Qed.

Lemma for_seq_total {St} (J : nat → St → Prop) (body : nat → St → Rand G St) :
  ∀ len start,
  (∀ i s g, start ≤ i < start + len → J i s →
     ∃ s' g', body i s g = Ok (s', g') ∧ J (S i) s') →
  ∀ s g, J start s →
    ∃ s' g', for_each (seq start len) body s g = Ok (s', g') ∧
             J (start + len) s'.
Proof.
  induction len as [|len IH]; intros start Hbody s g Hs; simpl.
  - exists s, g. by rewrite Nat.add_0_r.
  - destruct (Hbody start s g) as (s1 & g1 & Hx & Hs1); [lia | done |].
    destruct (IH (S start)) with (s := s1) (g := g1)
      as (s' & g' & Hrest & Hs'); [| done |].
    { intros i s2 g2 Hi. apply Hbody. lia. }
    exists s', g'. split.
    + apply Rand_bind_Ok. by exists s1, g1.
    + by replace (start + S len) with (S start + len) by lia.
Qed.

Lemma for_range_total {St} (J : nat → St → Prop) n
    (body : nat → St → Rand G St) :
  (∀ i s g, i < n → J i s → ∃ s' g', body i s g = Ok (s', g') ∧ J (S i) s') →
  ∀ s g, J 0 s → ∃ s' g', for_range n body s g = Ok (s', g') ∧ J n s'.
Proof.
  intros Hbody s g Hs.
  apply (for_seq_total J body n 0); [| done].
  intros i s1 g1 Hi. apply Hbody. lia.
Qed.

End RandFacts.

(** ** Matrices *)

Lemma mat_get_Ok {A} (m : list (list A)) r c v :
  mat_get m r c = Ok v ↔ ∃ row, m !! r = Some row ∧ row !! c = Some v.
Proof.
  unfold mat_get, index. destruct (m !! r) as [row|]; simpl.
  - destruct (row !! c) as [x|] eqn:Hc; split.
    + intros [= ->]. by exists row.
    + intros (row' & [= <-] & Hx). congruence.
    + done.
    + intros (row' & [= <-] & Hx). congruence.
  - split; [done | by intros (? & ? & ?)].
Qed.

Lemma mat_set_Ok {A} (m : list (list A)) r c v m' :
  mat_set m r c v = Ok m' ↔
  ∃ row, m !! r = Some row ∧ c < length row ∧ m' = <[r := <[c := v]> row]> m.
Proof.
  unfold mat_set, index. destruct (m !! r) as [row|]; simpl.
  - destruct (row !! c) as [x|] eqn:Hc; simpl; split.
    + intros [= <-]. exists row. split_and!; [done | | done].
      by apply lookup_lt_Some in Hc.
    + by intros (row' & [= <-] & _ & ->).
    + done.
    + intros (row' & [= <-] & Hlt & _). apply lookup_ge_None in Hc. lia.
  - split; [done | by intros (? & ? & ?)].
Qed.

Lemma mat_get_insert {A} (m : list (list A)) r c v row r' c' :
  m !! r = Some row → c < length row →
  mat_get (<[r := <[c := v]> row]> m) r' c'
  = if decide (r' = r ∧ c' = c) then Ok v else mat_get m r' c'.
Proof.
  intros Hrow Hc. unfold mat_get, index.
  destruct (decide (r' = r)) as [-> | Hr].
  - rewrite list_lookup_insert_eq by by eapply lookup_lt_Some.
    rewrite Hrow. simpl. destruct (decide (c' = c)) as [-> | Hc'].
    + rewrite list_lookup_insert_eq by done.
      by rewrite decide_True.
    + rewrite list_lookup_insert_ne by done.
      rewrite decide_False; [done | by intros [_ ?]].
  - rewrite list_lookup_insert_ne by done.
    rewrite decide_False; [done | by intros [? _]].
Qed.

Lemma shape_insert {A} rows cols (m : list (list A)) r c v row :
  shape rows cols m → m !! r = Some row →
  shape rows cols (<[r := <[c := v]> row]> m).
Proof.
  intros [Hrows Hcols] Hrow. split.
  - by rewrite length_insert.
  - apply Forall_insert; [done |]. rewrite length_insert.
    by eapply (Forall_lookup_1 _ _ _ _ Hcols).
Qed.

Lemma count_row_insert (v w old : CellType) (row : list CellType) c :
  row !! c = Some old →
  length (filter (λ x, x = v) (<[c := w]> row))
    + (if decide (old = v) then 1 else 0)
  = length (filter (λ x, x = v) row) + (if decide (w = v) then 1 else 0).
Proof.
  intros Hc. pose proof (lookup_lt_Some _ _ _ Hc) as Hlt.
  rewrite insert_take_drop by done.
  rewrite <- (take_drop_middle row c old Hc) at 3.
  rewrite !filter_app, !filter_cons, !length_app.
  repeat case_decide; simpl; lia.
Qed.

Lemma count_cells_insert (v w old : CellType) m r c row :
  m !! r = Some row → row !! c = Some old →
  count_cells v (<[r := <[c := w]> row]> m)
    + (if decide (old = v) then 1 else 0)
  = count_cells v m + (if decide (w = v) then 1 else 0).
Proof.
  intros Hr Hc. pose proof (lookup_lt_Some _ _ _ Hr) as Hlt.
  unfold count_cells. rewrite insert_take_drop by done.
  rewrite <- (take_drop_middle m r row Hr) at 3.
  rewrite !concat_app, !concat_cons, !filter_app, !length_app.
  pose proof (count_row_insert v w old row c Hc). lia.
Qed.

Lemma count_row_full cols :
  length (filter (λ x, x = CELL_TYPE_SRAM)
            (replicate cols CELL_TYPE_DRAM_LEAKY)) = 0.
Proof.
  induction cols as [|cols IH]; simpl; [done |].
  rewrite filter_cons_False; [exact IH | done].
Qed.

Lemma count_cells_full rows cols :
  count_cells CELL_TYPE_SRAM (np_full rows cols CELL_TYPE_DRAM_LEAKY) = 0.
Proof.
  unfold count_cells, np_full. induction rows as [|rows IH]; simpl; [done |].
  by rewrite filter_app, length_app, IH, count_row_full.
Qed.

Lemma shape_full {A} rows cols (v : A) : shape rows cols (np_full rows cols v).
Proof.
  unfold np_full. split; [by rewrite length_replicate |].
  apply Forall_replicate. by rewrite length_replicate.
Qed.

Lemma mat_get_full {A} rows cols (v x : A) r c :
  mat_get (np_full rows cols v) r c = Ok x → x = v.
Proof.
  intros (row & Hr & Hc)%mat_get_Ok. unfold np_full in Hr.
  apply lookup_replicate in Hr as [-> _].
  by apply lookup_replicate in Hc as [-> _].
Qed.

Lemma shape_mat_get {A} rows cols (m : list (list A)) r c :
  shape rows cols m → r < rows → c < cols → ∃ v, mat_get m r c = Ok v.
Proof.
  intros [Hrows Hcols] Hr Hc.
  destruct (lookup_lt_is_Some_2 m r) as [row Hrow]; [lia |].
  pose proof (Forall_lookup_1 _ _ _ _ Hcols Hrow) as Hlen. simpl in Hlen.
  destruct (lookup_lt_is_Some_2 row c) as [v Hv]; [lia |].
  exists v. apply mat_get_Ok. by exists row.
Qed.

(** ** Topology *)

Section TopologyFacts.
Context {G : Type} `{NumPy G}.

Lemma sram_diag_full rows cols :
  sram_diag rows cols 0 (np_full rows cols CELL_TYPE_DRAM_LEAKY).
Proof.
  split_and!.
  - apply shape_full.
  - apply count_cells_full.
  - intros r c. split; [| lia]. by intros ?%mat_get_full.
Qed.

(** Marking the next diagonal cell. *)
Lemma sram_diag_mark rows cols i m m' :
  sram_diag rows cols i m →
  mat_set m i i CELL_TYPE_SRAM = Ok m' →
  sram_diag rows cols (S i) m'.
Proof.
  intros (Hshape & Hcount & Hcells) (row & Hrow & Hi & ->)%mat_set_Ok.
  destruct (lookup_lt_is_Some_2 row i Hi) as [old Hold].
  assert (old ≠ CELL_TYPE_SRAM) as Hne.
  { intros ->. assert (mat_get m i i = Ok CELL_TYPE_SRAM) as Hget.
    { apply mat_get_Ok. by exists row. }
    apply Hcells in Hget. lia. }
  split_and!.
  - by apply shape_insert.
  - pose proof (count_cells_insert CELL_TYPE_SRAM CELL_TYPE_SRAM old m i i row
                  Hrow Hold) as Hc.
    rewrite decide_False in Hc by done. rewrite decide_True in Hc by done. lia.
  - intros r c. rewrite (mat_get_insert m i i _ row r c Hrow Hi).
    case_decide as Hrc.
    + destruct Hrc as [-> ->]. split; [intros _; lia | done].
    + rewrite Hcells. split; [lia |]. intros [-> Hr].
      split; [done |]. destruct (decide (c = i)) as [-> | ?]; [| lia].
      by destruct Hrc.
Qed.

(** A guarded write of another cell type keeps the Stable cells: none is
    reassigned and none is added. *)
Lemma sram_diag_set_unless_sram rows cols k v row col m m' :
  v ≠ CELL_TYPE_SRAM →
  sram_diag rows cols k m →
  Topology.set_unless_sram v row col m = Ok m' →
  sram_diag rows cols k m'.
Proof.
  intros Hv (Hshape & Hcount & Hcells). unfold Topology.set_unless_sram.
  destruct (mat_get m row col) as [cur|e] eqn:Hget; simpl; [| done].
  case_decide as Hcur; [| by intros [= <-]].
  intros (row' & Hrow & Hcol & ->)%mat_set_Ok.
  apply mat_get_Ok in Hget as (row'' & Hrow'' & Hcur').
  assert (row'' = row') as -> by congruence.
  split_and!.
  - by apply shape_insert.
  - pose proof (count_cells_insert CELL_TYPE_SRAM v cur m row col row'
                  Hrow Hcur') as Hc.
    rewrite !decide_False in Hc by done. lia.
  - intros r c. rewrite (mat_get_insert m row col _ row' r c Hrow Hcol).
    case_decide as Hrc; [| apply Hcells].
    destruct Hrc as [-> ->]. split; [by intros [= ->] |].
    intros Hdiag. apply Hcells in Hdiag.
    apply mat_get_Ok in Hdiag as (row1 & Hrow1 & Hsram). congruence.
Qed.

Lemma diagonal_loop rows cols (g g' : G) m :
  for_range (rows `min` cols)
    (λ i m, lift (mat_set m i i CELL_TYPE_SRAM))
    (np_full rows cols CELL_TYPE_DRAM_LEAKY) g = Ok (m, g') →
  stable_on_diagonal rows cols m.
Proof.
  apply (for_range_inv (sram_diag rows cols)); [| apply sram_diag_full].
  intros i s g1 s' g1' _ Hs (Hset & _)%lift_Ok.
  by eapply sram_diag_mark.
Qed.

Lemma guarded_pass {X} rows cols k (l : list X) v (pos : X → nat * nat)
    m m' (g g' : G) :
  v ≠ CELL_TYPE_SRAM →
  sram_diag rows cols k m →
  for_each l (λ x m, lift (Topology.set_unless_sram v (pos x).1 (pos x).2 m))
    m g = Ok (m', g') →
  sram_diag rows cols k m'.
Proof.
  intros Hv Hm. revert Hm.
  apply (for_each_inv (sram_diag rows cols k)).
  intros x s g1 s' g1' _ Hs (Hset & _)%lift_Ok.
  by eapply sram_diag_set_unless_sram.
Qed.

Lemma input_hidden_stable num_inputs num_hidden (g g' : G) m :
  Topology.input_hidden num_inputs num_hidden g = Ok (m, g') →
  stable_on_diagonal num_inputs num_hidden m.
Proof.
  unfold Topology.input_hidden.
  intros (m1 & g1 & Hdiag & Hrest)%Rand_bind_Ok.
  apply diagonal_loop in Hdiag.
  apply Rand_bind_Ok in Hrest as (idx & g2 & _ & Hrest).
  apply Rand_bind_Ok in Hrest as (m2 & g3 & Hrefresh & Hneighbor).
  apply (guarded_pass num_inputs num_hidden (num_inputs `min` num_hidden)
           idx CELL_TYPE_DRAM_REFRESHED
           (λ i, (i `div` num_hidden, i `mod` num_hidden))) in Hrefresh;
    [| done | done].
  revert Hneighbor.
  apply (for_range_inv (λ _, stable_on_diagonal num_inputs num_hidden));
    [| done].
  intros h s g4 s' g4' _ Hs. case_decide.
  - by intros [-> _]%mret_Ok.
  - intros (input_idx & g5 & _ & Hpass)%Rand_bind_Ok.
    by apply (guarded_pass num_inputs num_hidden (num_inputs `min` num_hidden)
                input_idx CELL_TYPE_DRAM_NEIGHBOR_CTRL_LEAKY (λ i, (i, h)))
      in Hpass.
Qed.

Lemma hidden_output_stable num_hidden num_outputs (g g' : G) m :
  Topology.hidden_output num_hidden num_outputs g = Ok (m, g') →
  stable_on_diagonal num_hidden num_outputs m.
Proof.
  unfold Topology.hidden_output.
  intros (m1 & g1 & Hdiag & Hrest)%Rand_bind_Ok.
  apply diagonal_loop in Hdiag.
  apply Rand_bind_Ok in Hrest as (idx & g2 & _ & Hrest).
  apply Rand_bind_Ok in Hrest as (m2 & g3 & Hrefresh & Hneighbor).
  apply (guarded_pass num_hidden num_outputs (num_hidden `min` num_outputs)
           idx CELL_TYPE_DRAM_REFRESHED
           (λ i, (i `div` num_outputs, i `mod` num_outputs))) in Hrefresh;
    [| done | done].
  revert Hneighbor.
  apply (for_range_inv (λ _, stable_on_diagonal num_hidden num_outputs));
    [| done].
  intros o s g4 s' g4' _ Hs.
  intros (hidden_idx & g5 & _ & Hpass)%Rand_bind_Ok.
  by apply (guarded_pass num_hidden num_outputs (num_hidden `min` num_outputs)
              hidden_idx CELL_TYPE_DRAM_NEIGHBOR_CTRL_LEAKY (λ h, (h, o)))
    in Hpass.
Qed.

End TopologyFacts.

Lemma counting_numpy_spec : @NumPySpec nat counting_numpy.
Proof.
  split.
  - intros a size g Hsize. simpl. split_and!.
    + by rewrite length_seq.
    + apply NoDup_seq.
    + apply Forall_forall. intros i Hi%elem_of_seq. lia.
  - intros low high g Hlt. simpl. split; [apply Qle_refl | done].
Qed.

(** C4. In every generated topology, each of the two cell-type arrays has
    its declared shape, contains exactly [min dim1 dim2] Stable (SRAM)
    cells, and its Stable cells are exactly the cells [(i, i)] with
    [i < min dim1 dim2]: the diagonal cells are still Stable after the
    random passes that assign SlowDecay and LateralModulated, and no other
    cell is Stable. *)
Theorem C4_stable_cells_on_diagonal {G : Type} `{NumPy G}
    (num_inputs num_hidden num_outputs : nat) (g g' : G)
    (cell_types_input_hidden cell_types_hidden_output : list (list CellType)) :
  Topology.initialize_network_architecture num_inputs num_hidden num_outputs g
  = Ok ((cell_types_input_hidden, cell_types_hidden_output), g') →
  (shape num_inputs num_hidden cell_types_input_hidden ∧
   count_cells CELL_TYPE_SRAM cell_types_input_hidden
   = num_inputs `min` num_hidden ∧
   ∀ r c, mat_get cell_types_input_hidden r c = Ok CELL_TYPE_SRAM ↔
          r = c ∧ r < num_inputs `min` num_hidden) ∧
  (shape num_hidden num_outputs cell_types_hidden_output ∧
   count_cells CELL_TYPE_SRAM cell_types_hidden_output
   = num_hidden `min` num_outputs ∧
   ∀ r c, mat_get cell_types_hidden_output r c = Ok CELL_TYPE_SRAM ↔
          r = c ∧ r < num_hidden `min` num_outputs).
Proof.
  unfold Topology.initialize_network_architecture.
  intros (ih & g1 & Hih & Hrest)%Rand_bind_Ok.
  apply Rand_bind_Ok in Hrest as (ho & g2 & Hho & Hret).
  apply mret_Ok in Hret as [[= <- <-] _].
  split.
  - by apply input_hidden_stable in Hih.
  - by apply hidden_output_stable in Hho.
Qed.

Lemma C4_stable_cells_on_diagonal_witness :
  let ih := [[CELL_TYPE_SRAM; CELL_TYPE_DRAM_NEIGHBOR_CTRL_LEAKY];
             [CELL_TYPE_DRAM_LEAKY; CELL_TYPE_SRAM];
             [CELL_TYPE_DRAM_LEAKY; CELL_TYPE_DRAM_LEAKY];
             [CELL_TYPE_DRAM_LEAKY; CELL_TYPE_DRAM_LEAKY]] in
  let ho := [[CELL_TYPE_SRAM; CELL_TYPE_DRAM_NEIGHBOR_CTRL_LEAKY];
             [CELL_TYPE_DRAM_NEIGHBOR_CTRL_LEAKY; CELL_TYPE_SRAM]] in
  @Topology.initialize_network_architecture nat counting_numpy 4 2 2 0
  = Ok ((ih, ho), 6) ∧
  count_cells CELL_TYPE_SRAM ih = 2 ∧ count_cells CELL_TYPE_SRAM ho = 2.
Proof.
  intros ih ho.
  assert (@Topology.initialize_network_architecture nat counting_numpy 4 2 2 0
          = Ok ((ih, ho), 6)) as Hrun by (vm_compute; reflexivity).
  split; [exact Hrun |].
  destruct (@C4_stable_cells_on_diagonal nat counting_numpy 4 2 2 0 6 ih ho
              Hrun) as ((_ & Hih & _) & (_ & Hho & _)).
  split; [exact Hih | exact Hho].
Defined.

(** *** The generation runs to completion *)

Section TopologyTotal.
Context {G : Type} `{NumPySpec G}.

Lemma set_unless_sram_total rows cols v row col m :
  shape rows cols m → row < rows → col < cols →
  ∃ m', Topology.set_unless_sram v row col m = Ok m' ∧ shape rows cols m'.
Proof.
  intros Hshape Hrow Hcol. unfold Topology.set_unless_sram.
  destruct (shape_mat_get rows cols m row col Hshape Hrow Hcol) as [cur Hcur].
  rewrite Hcur. simpl. case_decide; [| by exists m].
  apply mat_get_Ok in Hcur as (r & Hr & Hc).
  exists (<[row := <[col := v]> r]> m). split.
  - apply mat_set_Ok. exists r. split_and!; [done | | done].
    by eapply lookup_lt_Some.
  - by apply shape_insert.
Qed.

Lemma random_choice_Ok a size (g : G) :
  size ≤ a →
  ∃ l g', random_choice a size g = Ok (l, g') ∧ Forall (λ i, i < a) l.
Proof.
  intros Hsize. unfold random_choice. rewrite decide_True by done.
  destruct (draw_choice_spec a size g Hsize) as (_ & _ & Hrange).
  destruct (draw_choice a size g) as [l g'] eqn:Hdraw. by exists l, g'.
Qed.

Lemma diagonal_loop_total rows cols (g : G) :
  ∃ m g', for_range (rows `min` cols)
            (λ i m, lift (mat_set m i i CELL_TYPE_SRAM))
            (np_full rows cols CELL_TYPE_DRAM_LEAKY) g = Ok (m, g') ∧
          shape rows cols m.
Proof.
  apply (for_range_total (λ _, shape rows cols)); [| apply shape_full].
  intros i m g1 Hi Hshape.
  destruct (shape_mat_get rows cols m i i Hshape) as [cur Hcur]; [lia | lia |].
  apply mat_get_Ok in Hcur as (r & Hr & Hc).
  exists (<[i := <[i := CELL_TYPE_SRAM]> r]> m), g1. split.
  - apply lift_Ok. split; [| done]. apply mat_set_Ok.
    exists r. split_and!; [done | | done]. by eapply lookup_lt_Some.
  - by apply shape_insert.
Qed.

Lemma guarded_pass_total {X} rows cols (l : list X) v (pos : X → nat * nat)
    m (g : G) :
  shape rows cols m →
  Forall (λ x, (pos x).1 < rows ∧ (pos x).2 < cols) l →
  ∃ m' g',
    for_each l (λ x m, lift (Topology.set_unless_sram v (pos x).1 (pos x).2 m))
      m g = Ok (m', g') ∧ shape rows cols m'.
Proof.
  intros Hshape Hpos.
  apply (for_each_total (shape rows cols)); [| done].
  intros x s g1 Hx Hs.
  destruct (proj1 (Forall_forall _ _) Hpos x Hx) as [Hr Hc].
  destruct (set_unless_sram_total rows cols v _ _ s Hs Hr Hc) as (m' & Hset & Hm').
  exists m', g1. split; [| done]. by apply lift_Ok.
Qed.

Lemma input_hidden_total num_inputs num_hidden (g : G) :
  2 ≤ num_inputs → 1 ≤ num_hidden →
  ∃ m g', Topology.input_hidden num_inputs num_hidden g = Ok (m, g').
Proof.
  intros Hni Hnh. unfold Topology.input_hidden.
  apply (Rand_bind_total (shape num_inputs num_hidden));
    [apply diagonal_loop_total |].
  intros m1 g1 Hshape1.
  apply (Rand_bind_total (Forall (λ i, i < num_inputs * num_hidden))).
  { apply random_choice_Ok.
    assert (num_hidden `div` 4 ≤ num_hidden)
      by (apply Nat.Div0.div_le_upper_bound; lia).
    nia. }
  intros idx g2 Hrange.
  apply (Rand_bind_total (shape num_inputs num_hidden)).
  { apply (guarded_pass_total num_inputs num_hidden idx
             CELL_TYPE_DRAM_REFRESHED
             (λ i, (i `div` num_hidden, i `mod` num_hidden)) m1 g2 Hshape1).
    eapply Forall_impl; [exact Hrange |]. intros i Hi. simpl in *. split.
    - apply Nat.Div0.div_lt_upper_bound. lia.
    - apply Nat.mod_upper_bound. lia. }
  intros m2 g3 Hshape2.
  apply (Rand_total_weaken (shape num_inputs num_hidden)).
  apply (for_range_total (λ _, shape num_inputs num_hidden)); [| done].
  intros h m g5 Hh Hshape. simpl. case_decide; [by exists m, g5 |].
  destruct (random_choice_Ok num_inputs
              (2 `min` length (filter (λ n, n ≠ h) (seq 0 num_hidden))) g5)
    as (input_idx & g6 & Hchoice & Hin); [lia |].
  destruct (guarded_pass_total num_inputs num_hidden input_idx
              CELL_TYPE_DRAM_NEIGHBOR_CTRL_LEAKY (λ i, (i, h)) m g6 Hshape)
    as (m' & g7 & Hpass & Hshape').
  { eapply Forall_impl; [exact Hin |]. intros i Hi. simpl in *. lia. }
  exists m', g7. split; [| done].
  apply Rand_bind_Ok. by exists input_idx, g6.
Qed.

Lemma hidden_output_total num_hidden num_outputs (g : G) :
  1 ≤ num_hidden → 1 ≤ num_outputs → 2 ≤ num_hidden * num_outputs →
  ∃ m g', Topology.hidden_output num_hidden num_outputs g = Ok (m, g').
Proof.
  intros Hnh Hno Hsize. unfold Topology.hidden_output.
  apply (Rand_bind_total (shape num_hidden num_outputs));
    [apply diagonal_loop_total |].
  intros m1 g1 Hshape1.
  apply (Rand_bind_total (Forall (λ i, i < num_hidden * num_outputs))).
  { apply random_choice_Ok.
    assert (num_outputs `div` 2 ≤ num_outputs)
      by (apply Nat.Div0.div_le_upper_bound; lia).
    nia. }
  intros idx g2 Hrange.
  apply (Rand_bind_total (shape num_hidden num_outputs)).
  { apply (guarded_pass_total num_hidden num_outputs idx
             CELL_TYPE_DRAM_REFRESHED
             (λ i, (i `div` num_outputs, i `mod` num_outputs)) m1 g2 Hshape1).
    eapply Forall_impl; [exact Hrange |]. intros i Hi. simpl in *. split.
    - apply Nat.Div0.div_lt_upper_bound. lia.
    - apply Nat.mod_upper_bound. lia. }
  intros m2 g3 Hshape2.
  apply (Rand_total_weaken (shape num_hidden num_outputs)).
  apply (for_range_total (λ _, shape num_hidden num_outputs)); [| done].
  intros o m g5 Ho Hshape. simpl.
  destruct (random_choice_Ok num_hidden (2 `min` num_hidden) g5)
    as (hidden_idx & g6 & Hchoice & Hin); [lia |].
  destruct (guarded_pass_total num_hidden num_outputs hidden_idx
              CELL_TYPE_DRAM_NEIGHBOR_CTRL_LEAKY (λ h, (h, o)) m g6 Hshape)
    as (m' & g7 & Hpass & Hshape').
  { eapply Forall_impl; [exact Hin |]. intros i Hi. simpl in *. lia. }
  exists m', g7. split; [| done].
  apply Rand_bind_Ok. by exists hidden_idx, g6.
Qed.

(** With a generator that meets its specification, the topology is
    generated for all layer sizes with at least two inputs, one hidden
    and one output neuron, and two hidden-to-output synapses. *)
Lemma initialize_network_architecture_total
    num_inputs num_hidden num_outputs (g : G) :
  2 ≤ num_inputs → 1 ≤ num_hidden → 1 ≤ num_outputs →
  2 ≤ num_hidden * num_outputs →
  ∃ ih ho g',
    Topology.initialize_network_architecture num_inputs num_hidden
      num_outputs g = Ok ((ih, ho), g').
Proof.
  intros Hni Hnh Hno Hsize. unfold Topology.initialize_network_architecture.
  destruct (input_hidden_total num_inputs num_hidden g Hni Hnh)
    as (ih & g1 & Hih).
  destruct (hidden_output_total num_hidden num_outputs g1 Hnh Hno Hsize)
    as (ho & g2 & Hho).
  exists ih, ho, g2.
  apply Rand_bind_Ok. exists ih, g1. split; [done |].
  apply Rand_bind_Ok. exists ho, g2. split; [done |]. by apply mret_Ok.
Qed.

End TopologyTotal.

(** ** Circuit construction *)

Lemma has_capacitor_to_ground_reflect c node :
  has_capacitor_to_ground c node ↔ has_capacitor_to_ground_b c node = true.
Proof.
  unfold has_capacitor_to_ground, has_capacitor_to_ground_b.
  rewrite existsb_exists. split.
  - intros (name & value & Hin). eexists. split.
    + apply list_elem_of_In, Hin.
    + simpl. by rewrite !bool_decide_eq_true_2.
  - intros ([] & Hin & Hb); try done.
    apply andb_prop in Hb as [->%bool_decide_eq_true ->%bool_decide_eq_true].
    eexists _, _. apply list_elem_of_In, Hin.
Qed.

Lemma gates_a_transistor_reflect c node :
  gates_a_transistor c node ↔ gates_a_transistor_b c node = true.
Proof.
  unfold gates_a_transistor, gates_a_transistor_b.
  rewrite existsb_exists. split.
  - intros (name & d & s & b & mo & Hin). eexists. split.
    + apply list_elem_of_In, Hin.
    + simpl. by rewrite bool_decide_eq_true_2.
  - intros ([] & Hin & Hb); try done.
    apply bool_decide_eq_true in Hb as ->.
    eexists _, _, _, _, _. apply list_elem_of_In, Hin.
Qed.

Lemma has_capacitor_extends c c' node :
  extends c c' → has_capacitor_to_ground c node →
  has_capacitor_to_ground c' node.
Proof. intros Hext (name & value & Hin). exists name, value. by apply Hext. Qed.

Lemma extends_add_model m c : extends c (add_model m c).
Proof. by intros e. Qed.

Lemma extends_foldl {X} (body : Circuit → X → Circuit) (l : list X) :
  (∀ c x, extends c (body c x)) → ∀ c, extends c (foldl body c l).
Proof.
  intros Hbody. induction l as [|x l IH]; intros c; simpl.
  - apply extends_refl.
  - eapply extends_trans; [apply Hbody | apply IH].
Qed.

(** What every iteration of a pure loop adds is in the final circuit. *)
Lemma foldl_adds {X} (body : Circuit → X → Circuit) (P : X → Circuit → Prop)
    (l : list X) :
  (∀ c x, extends c (body c x)) →
  (∀ c x, P x (body c x)) →
  (∀ x c c', P x c → extends c c' → P x c') →
  ∀ c x, x ∈ l → P x (foldl body c l).
Proof.
  intros Hext Hadd Hmono. induction l as [|y l IH]; intros c x Hx; simpl.
  - by apply elem_of_nil in Hx.
  - apply elem_of_cons in Hx as [-> | Hx]; [| by apply IH].
    eapply Hmono; [apply Hadd | by apply extends_foldl].
Qed.

Section BuilderFacts.
Context {G : Type} `{NumPy G}.

Lemma for_each_extends {X} (l : list X) (body : X → Circuit → Rand G Circuit) :
  (∀ x c g c' g', body x c g = Ok (c', g') → extends c c') →
  ∀ c g c' g', for_each l body c g = Ok (c', g') → extends c c'.
Proof.
  intros Hbody c g c' g'.
  apply (for_each_inv (extends c)); [| apply extends_refl].
  intros x s g1 s' g1' _ Hs Hx. eapply extends_trans; [exact Hs |].
  by eapply Hbody.
Qed.

(** What every iteration of a loop adds is in the final circuit. *)
Lemma for_each_adds {X} (l : list X) (body : X → Circuit → Rand G Circuit)
    (P : X → Circuit → Prop) :
  (∀ x c g c' g', body x c g = Ok (c', g') → extends c c') →
  (∀ x c g c' g', x ∈ l → body x c g = Ok (c', g') → P x c') →
  (∀ x c c', P x c → extends c c' → P x c') →
  ∀ c g c' g', for_each l body c g = Ok (c', g') → ∀ x, x ∈ l → P x c'.
Proof.
  intros Hext Hadd Hmono.
  induction l as [|y l IH]; intros c g c' g' Hrun x Hx.
  - by apply elem_of_nil in Hx.
  - simpl in Hrun. apply Rand_bind_Ok in Hrun as (c1 & g1 & Hy & Hrest).
    apply elem_of_cons in Hx as [-> | Hx].
    + eapply Hmono.
      * eapply Hadd; [by left | exact Hy].
      * by eapply for_each_extends.
    + eapply IH; [| exact Hrest | exact Hx].
      intros z c2 g2 c3 g3 Hz. apply Hadd. by right.
Qed.

End BuilderFacts.

Section SynapseFacts.
Context {G : Type} `{NumPy G}.
Import Builder.

Lemma extends_add_synapse_core layer a b fast slow pre post c_f c_s vth_f c :
  extends c (add_synapse_core layer a b fast slow pre post c_f c_s vth_f c).
Proof.
  unfold add_synapse_core.
  repeat (eapply extends_trans;
          [| first [apply extends_add | apply extends_add_model]]).
  apply extends_refl.
Qed.

Lemma add_synapse_core_capacitors layer a b fast slow pre post c_f c_s vth_f c :
  let c' := add_synapse_core layer a b fast slow pre post c_f c_s vth_f c in
  has_capacitor_to_ground c' fast ∧ has_capacitor_to_ground c' slow.
Proof.
  intros c'. split.
  - exists ("ac_" +:+ layer +:+ "_fast_" +:+ pretty a +:+ "_" +:+ pretty b), c_f.
    subst c'. unfold add_synapse_core, add, add_model. simpl.
    rewrite !elem_of_app, !list_elem_of_singleton. tauto.
  - exists ("ac_" +:+ layer +:+ "_slow_" +:+ pretty a +:+ "_" +:+ pretty b), c_s.
    subst c'. unfold add_synapse_core, add, add_model. simpl.
    rewrite !elem_of_app, !list_elem_of_singleton. tauto.
Qed.

Lemma extends_add_leakage layer a b cell_type fast slow drain r_f r_s c :
  extends c (add_leakage layer a b cell_type fast slow drain r_f r_s c).
Proof.
  unfold add_leakage. repeat case_decide;
    repeat (eapply extends_trans; [| apply extends_add]); apply extends_refl.
Qed.

(** The transistor a LateralModulated synapse gets: its gate is the fast
    storage node of the synapse and its source the neighbor-modulation
    node. *)
Lemma add_leakage_neighbor layer a b fast slow drain r_f r_s c :
  MOSFET (layer +:+ "_leak_ctrl_" +:+ pretty a +:+ "_" +:+ pretty b)
    drain fast neighbor_node gnd "nmos_leak_ctrl"
  ∈ elements (add_leakage layer a b CELL_TYPE_DRAM_NEIGHBOR_CTRL_LEAKY
                fast slow drain r_f r_s c).
Proof.
  unfold add_leakage. rewrite decide_False by (intros [? | ?]; done).
  rewrite decide_True by done. apply elem_of_add.
Qed.

Lemma randomize_rc_total R_nom C_nom VTO_nom temp (g : G) :
  ∃ r g', randomize_rc R_nom C_nom VTO_nom temp g = Ok (r, g').
Proof.
  unfold randomize_rc, random_normal, random_rand, mbind, Rand_bind, mret,
    Rand_ret.
  destruct (draw_normal 0 0.1 g) as [n g1].
  destruct (draw_rand g1) as [u g2].
  destruct (draw_normal 0 0.01 g2) as [n' g3]. eauto.
Qed.

Lemma ih_synapse_built_mono cell_types i h c c' :
  ih_synapse_built cell_types i h c → extends c c' →
  ih_synapse_built cell_types i h c'.
Proof.
  intros (Hf & Hs & Hm) Hext. split_and!.
  - by eapply has_capacitor_extends.
  - by eapply has_capacitor_extends.
  - intros Hcell. by apply Hext, Hm.
Qed.

Lemma ho_synapse_built_mono cell_types h o c c' :
  ho_synapse_built cell_types h o c → extends c c' →
  ho_synapse_built cell_types h o c'.
Proof.
  intros (Hf & Hs & Hm) Hext. split_and!.
  - by eapply has_capacitor_extends.
  - by eapply has_capacitor_extends.
  - intros Hcell. by apply Hext, Hm.
Qed.

Lemma add_ih_synapse_spec num_outputs cell_types i h c (g g' : G) c' :
  add_ih_synapse num_outputs cell_types i h c g = Ok (c', g') →
  extends c c' ∧ ih_synapse_built cell_types i h c'.
Proof.
  unfold add_ih_synapse.
  intros (cell_type & g1 & [Hcell ->]%lift_Ok & Hrest)%Rand_bind_Ok.
  apply Rand_bind_Ok in Hrest as ([[r_f c_f] vth_f] & g2 & _ & Hrest).
  apply Rand_bind_Ok in Hrest as ([[r_s c_s] vth_s] & g3 & _ & Hrest).
  apply mret_Ok in Hrest as [-> _].
  set (c1 := add_synapse_core _ _ _ _ _ _ _ _ _ _ c).
  set (c2 := add_leakage _ _ _ _ _ _ _ _ _ c1).
  assert (extends c c1) as H1 by apply extends_add_synapse_core.
  assert (extends c1 c2) as H2 by apply extends_add_leakage.
  set (c3 := foldl _ c2 _).
  assert (extends c2 c3) as H3.
  { apply extends_foldl. intros c0 o. case_decide;
      [apply extends_add | apply extends_refl]. }
  assert (extends c1 c3) as H13 by by eapply extends_trans.
  split; [by eapply extends_trans |].
  destruct (add_synapse_core_capacitors "ih" i h (syn_node "ih" i h "fast")
              (syn_node "ih" i h "slow") (input_node i) (hidden_node h)
              c_f c_s vth_f c) as [Hf Hs].
  split_and!.
  - by eapply has_capacitor_extends.
  - by eapply has_capacitor_extends.
  - intros Hcell'. assert (cell_type = CELL_TYPE_DRAM_NEIGHBOR_CTRL_LEAKY)
      as Hct by congruence.
    apply H3. subst c2. rewrite Hct. apply (add_leakage_neighbor "ih" i h).
Qed.

Lemma add_ho_synapse_spec cell_types h o c (g g' : G) c' :
  add_ho_synapse cell_types h o c g = Ok (c', g') →
  extends c c' ∧ ho_synapse_built cell_types h o c'.
Proof.
  unfold add_ho_synapse.
  intros (cell_type & g1 & [Hcell ->]%lift_Ok & Hrest)%Rand_bind_Ok.
  apply Rand_bind_Ok in Hrest as ([[r_f c_f] vth_f] & g2 & _ & Hrest).
  apply Rand_bind_Ok in Hrest as ([[r_s c_s] vth_s] & g3 & _ & Hrest).
  apply mret_Ok in Hrest as [-> _].
  set (c1 := add_synapse_core _ _ _ _ _ _ _ _ _ _ c).
  set (c2 := add_leakage _ _ _ _ _ _ _ _ _ c1).
  assert (extends c c1) as H1 by apply extends_add_synapse_core.
  assert (extends c1 c2) as H2 by apply extends_add_leakage.
  assert (extends c2 (add (MOSFET ("ho_err_" +:+ pretty h +:+ "_" +:+ pretty o)
                             "vdd" (error_node o) (syn_node "ho" h o "fast")
                             gnd "nmos_learn") c2)) as H3
    by apply extends_add.
  split; [eapply extends_trans; [| exact H3]; by eapply extends_trans |].
  destruct (add_synapse_core_capacitors "ho" h o (syn_node "ho" h o "fast")
              (syn_node "ho" h o "slow") (hidden_node h) (output_node o)
              c_f c_s vth_f c) as [Hf Hs].
  split_and!.
  - eapply has_capacitor_extends; [| exact Hf]. by eapply extends_trans.
  - eapply has_capacitor_extends; [| exact Hs]. by eapply extends_trans.
  - intros Hcell'. assert (cell_type = CELL_TYPE_DRAM_NEIGHBOR_CTRL_LEAKY)
      as Hct by congruence.
    apply H3. subst c2. rewrite Hct. apply (add_leakage_neighbor "ho" h o).
Qed.

End SynapseFacts.

Section BuildFacts.
Context {G : Type} `{NumPy G}.
Import Builder.

Lemma add_layer_nodes_spec num_inputs num_hidden num_outputs c c' :
  c' = add_layer_nodes num_inputs num_hidden num_outputs c →
  extends c c' ∧
  (∀ i, i < num_inputs → has_capacitor_to_ground c' (input_node i)) ∧
  (∀ h, h < num_hidden → has_capacitor_to_ground c' (hidden_node h)) ∧
  (∀ o, o < num_outputs → has_capacitor_to_ground c' (output_node o)).
Proof.
  intros ->. unfold add_layer_nodes.
  set (f1 := λ c i, add (C (input_node i +:+ "_gnd_cap") (input_node i) gnd _) c).
  set (f2 := λ c h, add (C (hidden_node h +:+ "_gnd_cap") (hidden_node h) gnd _) c).
  set (f3 := λ c o, add (C (output_node o +:+ "_gnd_cap") (output_node o) gnd _) c).
  set (f4 := λ c node, add (C (node +:+ "_cap") node gnd wl_line_cap) c).
  set (f5 := λ c node, add (R (node +:+ "_leak") node gnd _)
                         (add (C (node +:+ "_cap") node gnd bl_line_cap) c)).
  set (c1 := foldl f1 c _). set (c2 := foldl f2 c1 _).
  set (c3 := foldl f3 c2 _). set (c4 := foldl f4 c3 _).
  set (c5 := foldl f5 c4 _). set (c6 := foldl f5 c5 _).
  assert (extends c c1) as H1 by (apply extends_foldl; intros; apply extends_add).
  assert (extends c1 c2) as H2 by (apply extends_foldl; intros; apply extends_add).
  assert (extends c2 c3) as H3 by (apply extends_foldl; intros; apply extends_add).
  assert (extends c3 c4) as H4 by (apply extends_foldl; intros; apply extends_add).
  assert (∀ c0 l, extends c0 (foldl f5 c0 l)) as Hf5.
  { intros c0 l. apply extends_foldl. intros c' x.
    eapply extends_trans; apply extends_add. }
  assert (extends c4 c6) as H46.
  { eapply extends_trans; apply Hf5. }
  assert (extends c3 c6) as H36 by by eapply extends_trans.
  assert (extends c2 c6) as H26 by by eapply extends_trans.
  assert (extends c1 c6) as H16 by by eapply extends_trans.
  split_and!.
  - by eapply extends_trans.
  - intros i Hi. apply (has_capacitor_extends c1); [done |].
    apply (foldl_adds f1 (λ i c, has_capacitor_to_ground c (input_node i))).
    + intros; apply extends_add.
    + intros c0 x. eexists _, _. apply elem_of_add.
    + intros x c0 c0' Hc Hext. by eapply has_capacitor_extends.
    + apply elem_of_seq. lia.
  - intros h Hh. apply (has_capacitor_extends c2); [done |].
    apply (foldl_adds f2 (λ h c, has_capacitor_to_ground c (hidden_node h))).
    + intros; apply extends_add.
    + intros c0 x. eexists _, _. apply elem_of_add.
    + intros x c0 c0' Hc Hext. by eapply has_capacitor_extends.
    + apply elem_of_seq. lia.
  - intros o Ho. apply (has_capacitor_extends c3); [done |].
    apply (foldl_adds f3 (λ o c, has_capacitor_to_ground c (output_node o))).
    + intros; apply extends_add.
    + intros c0 x. eexists _, _. apply elem_of_add.
    + intros x c0 c0' Hc Hext. by eapply has_capacitor_extends.
    + apply elem_of_seq. lia.
Qed.

(** The error lines get resistors only. *)
Lemma add_error_nodes_spec num_outputs c c' :
  c' = add_error_nodes num_outputs c →
  extends c c' ∧
  ∀ o, o < num_outputs →
    R ("verror_" +:+ pretty o +:+ "_pulldown") (error_node o) gnd 10e6
    ∈ elements c'.
Proof.
  intros ->. unfold add_error_nodes. split.
  - apply extends_foldl. intros c0 o.
    eapply extends_trans; apply extends_add.
  - intros o Ho.
    apply (foldl_adds _ (λ o c, R ("verror_" +:+ pretty o +:+ "_pulldown")
                                  (error_node o) gnd 10e6 ∈ elements c)).
    + intros c0 x. eapply extends_trans; apply extends_add.
    + intros c0 x. apply elem_of_add.
    + intros x c0 c0' Hc Hext. by apply Hext.
    + apply elem_of_seq. lia.
Qed.

Lemma ih_loops_spec num_inputs num_hidden num_outputs cell_types c
    (g g' : G) c' :
  for_range num_inputs
    (λ i c, for_range num_hidden
              (λ h c, add_ih_synapse num_outputs cell_types i h c) c) c g
  = Ok (c', g') →
  extends c c' ∧
  ∀ i h, i < num_inputs → h < num_hidden →
         ih_synapse_built cell_types i h c'.
Proof.
  intros Hrun.
  assert (∀ i c g c' g',
            for_range num_hidden
              (λ h c, add_ih_synapse num_outputs cell_types i h c) c g
            = Ok (c', g') → extends c c') as Hinner.
  { intros i c0 g0 c0' g0'. apply for_each_extends.
    intros h c1 g1 c1' g1' Hbody.
    by apply add_ih_synapse_spec in Hbody as [? _]. }
  split.
  - revert Hrun. apply for_each_extends. exact Hinner.
  - intros i h Hi Hh. unfold for_range in Hrun.
    eapply (for_each_adds _ _
              (λ i c, ∀ h, h < num_hidden → ih_synapse_built cell_types i h c))
      in Hrun;
      [exact Hrun | exact Hinner | | | apply elem_of_seq; lia | exact Hh].
    + intros i0 c0 g0 c0' g0' _ Hrow h0 Hh0.
      eapply (for_each_adds _ _ (λ h c, ih_synapse_built cell_types i0 h c))
        in Hrow; [exact Hrow | | | | apply elem_of_seq; lia].
      * intros h1 c1 g1 c1' g1' Hbody.
        by apply add_ih_synapse_spec in Hbody as [? _].
      * intros h1 c1 g1 c1' g1' _ Hbody.
        by apply add_ih_synapse_spec in Hbody as [_ ?].
      * intros h1 c1 c1'. apply ih_synapse_built_mono.
    + intros i0 c0 c0' Hc Hext h0 Hh0.
      eapply ih_synapse_built_mono; [by apply Hc | done].
Qed.

Lemma ho_loops_spec num_hidden num_outputs cell_types c (g g' : G) c' :
  for_range num_hidden
    (λ h c, for_range num_outputs
              (λ o c, add_ho_synapse cell_types h o c) c) c g
  = Ok (c', g') →
  extends c c' ∧
  ∀ h o, h < num_hidden → o < num_outputs →
         ho_synapse_built cell_types h o c'.
Proof.
  intros Hrun.
  assert (∀ h c g c' g',
            for_range num_outputs
              (λ o c, add_ho_synapse cell_types h o c) c g
            = Ok (c', g') → extends c c') as Hinner.
  { intros h c0 g0 c0' g0'. apply for_each_extends.
    intros o c1 g1 c1' g1' Hbody.
    by apply add_ho_synapse_spec in Hbody as [? _]. }
  split.
  - revert Hrun. apply for_each_extends. exact Hinner.
  - intros h o Hh Ho. unfold for_range in Hrun.
    eapply (for_each_adds _ _
              (λ h c, ∀ o, o < num_outputs → ho_synapse_built cell_types h o c))
      in Hrun;
      [exact Hrun | exact Hinner | | | apply elem_of_seq; lia | exact Ho].
    + intros h0 c0 g0 c0' g0' _ Hrow o0 Ho0.
      eapply (for_each_adds _ _ (λ o c, ho_synapse_built cell_types h0 o c))
        in Hrow; [exact Hrow | | | | apply elem_of_seq; lia].
      * intros o1 c1 g1 c1' g1' Hbody.
        by apply add_ho_synapse_spec in Hbody as [? _].
      * intros o1 c1 g1 c1' g1' _ Hbody.
        by apply add_ho_synapse_spec in Hbody as [_ ?].
      * intros o1 c1 c1'. apply ho_synapse_built_mono.
    + intros h0 c0 c0' Hc Hext o0 Ho0.
      eapply ho_synapse_built_mono; [by apply Hc | done].
Qed.

End BuildFacts.

Section BuildTheorems.
Context {G : Type} `{NumPy G}.
Import Builder.

Lemma elem_of_concat {A} (x : A) (ls : list (list A)) :
  x ∈ concat ls → ∃ l, x ∈ l ∧ l ∈ ls.
Proof.
  induction ls as [|l ls IH]; simpl.
  - by intros ?%elem_of_nil.
  - intros [Hx | Hx]%elem_of_app.
    + exists l. split; [done | by left].
    + destruct (IH Hx) as (l' & Hl' & Hin). exists l'. split; [done | by right].
Qed.

Lemma elem_of_name_matrix rows cols (f : nat → nat → string) node :
  node ∈ concat (name_matrix rows cols f) →
  ∃ a b, a < rows ∧ b < cols ∧ node = f a b.
Proof.
  unfold name_matrix. intros (row & Hnode & Hrow)%elem_of_concat.
  apply list_elem_of_fmap in Hrow as (a & -> & Ha%elem_of_seq).
  apply list_elem_of_fmap in Hnode as (b & -> & Hb%elem_of_seq).
  exists a, b. split_and!; [lia | lia | done].
Qed.

Lemma elem_of_names n (f : nat → string) node :
  node ∈ f <$> seq 0 n → ∃ a, a < n ∧ node = f a.
Proof.
  intros (a & -> & Ha%elem_of_seq)%list_elem_of_fmap. exists a. split; [lia | done].
Qed.

(** What a built circuit contains. *)
Lemma build_circuit_for_learning_spec num_inputs num_hidden num_outputs
    cell_types_ih cell_types_ho learning_step (g g' : G) b :
  build_circuit_for_learning num_inputs num_hidden num_outputs
    cell_types_ih cell_types_ho learning_step g = Ok (b, g') →
  (input_nodes b = input_node <$> seq 0 num_inputs ∧
   hidden_nodes b = hidden_node <$> seq 0 num_hidden ∧
   output_nodes b = output_node <$> seq 0 num_outputs ∧
   error_nodes b = error_node <$> seq 0 num_outputs ∧
   ih_cells_fast b = name_matrix num_inputs num_hidden
                       (λ i h, syn_node "ih" i h "fast") ∧
   ih_cells_slow b = name_matrix num_inputs num_hidden
                       (λ i h, syn_node "ih" i h "slow") ∧
   ho_cells_fast b = name_matrix num_hidden num_outputs
                       (λ h o, syn_node "ho" h o "fast") ∧
   ho_cells_slow b = name_matrix num_hidden num_outputs
                       (λ h o, syn_node "ho" h o "slow")) ∧
  (∀ i, i < num_inputs → has_capacitor_to_ground (circuit b) (input_node i)) ∧
  (∀ h, h < num_hidden → has_capacitor_to_ground (circuit b) (hidden_node h)) ∧
  (∀ o, o < num_outputs →
     has_capacitor_to_ground (circuit b) (output_node o)) ∧
  (∀ o, o < num_outputs →
     R ("verror_" +:+ pretty o +:+ "_pulldown") (error_node o) gnd 10e6
     ∈ elements (circuit b)) ∧
  V "neighbor_mod" neighbor_node gnd 0.0 ∈ elements (circuit b) ∧
  (∀ i h, i < num_inputs → h < num_hidden →
     ih_synapse_built cell_types_ih i h (circuit b)) ∧
  (∀ h o, h < num_hidden → o < num_outputs →
     ho_synapse_built cell_types_ho h o (circuit b)).
Proof.
  unfold build_circuit_for_learning.
  set (c0 := set_raw_spice _ _).
  set (c1 := add_layer_nodes num_inputs num_hidden num_outputs c0).
  set (c2 := add (V "neighbor_mod" neighbor_node gnd 0.0) c1).
  set (c3 := add_error_nodes num_outputs c2).
  set (c4 := add_model _ (add_model _ (add_model _ c3))).
  intros (c5 & g1 & Hih & Hrest)%Rand_bind_Ok.
  apply Rand_bind_Ok in Hrest as (c6 & g2 & Hho & Hret).
  apply mret_Ok in Hret as [-> _]. simpl.
  destruct (add_layer_nodes_spec num_inputs num_hidden num_outputs c0 c1 eq_refl)
    as (_ & Hin & Hhid & Hout).
  destruct (add_error_nodes_spec num_outputs c2 c3 eq_refl) as (H23 & Hpull).
  apply ih_loops_spec in Hih as [H45 Hih].
  apply ho_loops_spec in Hho as [H56 Hho].
  assert (extends c1 c2) as H12 by apply extends_add.
  assert (extends c3 c4) as H34.
  { subst c4. repeat (eapply extends_trans; [| apply extends_add_model]).
    apply extends_refl. }
  assert (extends c3 c6) as H36.
  { eapply extends_trans; [exact H34 |].
    eapply extends_trans; [exact H45 | exact H56]. }
  assert (extends c2 c6) as H26.
  { eapply extends_trans; [exact H23 | exact H36]. }
  assert (extends c1 c6) as H16.
  { eapply extends_trans; [exact H12 | exact H26]. }
  split_and!; try done.
  - intros i Hi. eapply has_capacitor_extends; [exact H16 | by apply Hin].
  - intros h Hh. eapply has_capacitor_extends; [exact H16 | by apply Hhid].
  - intros o Ho. eapply has_capacitor_extends; [exact H16 | by apply Hout].
  - intros o Ho. by apply H36, Hpull.
  - apply H26, elem_of_add.
  - intros i h Hi Hh. eapply ih_synapse_built_mono; [by apply Hih | done].
Qed.

(** The builder returns when the cell-type arrays have the declared
    shapes. *)
Lemma build_circuit_for_learning_total num_inputs num_hidden num_outputs
    cell_types_ih cell_types_ho learning_step (g : G) :
  shape num_inputs num_hidden cell_types_ih →
  shape num_hidden num_outputs cell_types_ho →
  ∃ b g', build_circuit_for_learning num_inputs num_hidden num_outputs
            cell_types_ih cell_types_ho learning_step g = Ok (b, g').
Proof.
  intros Hih Hho. unfold build_circuit_for_learning.
  apply (Rand_bind_total (λ _, True)).
  { apply (for_range_total (λ _ _, True)); [| done].
    intros i c g1 Hi _.
    apply (for_range_total (λ _ _, True)); [| done].
    intros h c1 g2 Hh _. unfold add_ih_synapse.
    destruct (shape_mat_get _ _ _ i h Hih Hi Hh) as [ct Hct].
    destruct (randomize_rc_total leak_res_fast_nom cell_cap_fast_nom 0.5
                temp_C g2) as ([[r_f c_f] vth_f] & g3 & Hrc1).
    destruct (randomize_rc_total leak_res_slow_nom cell_cap_slow_nom 0.5
                temp_C g3) as ([[r_s c_s] vth_s] & g4 & Hrc2).
    eexists _, g4. split; [| done].
    apply Rand_bind_Ok. exists ct, g2. split; [by apply lift_Ok |].
    apply Rand_bind_Ok. eexists _, g3. split; [exact Hrc1 |].
    apply Rand_bind_Ok. eexists _, g4. split; [exact Hrc2 |].
    by apply mret_Ok. }
  intros c5 g5 _.
  apply (Rand_bind_total (λ _, True)).
  { apply (for_range_total (λ _ _, True)); [| done].
    intros h c g1 Hh _.
    apply (for_range_total (λ _ _, True)); [| done].
    intros o c1 g2 Ho _. unfold add_ho_synapse.
    destruct (shape_mat_get _ _ _ h o Hho Hh Ho) as [ct Hct].
    destruct (randomize_rc_total leak_res_fast_nom cell_cap_fast_nom 0.5
                temp_C g2) as ([[r_f c_f] vth_f] & g3 & Hrc1).
    destruct (randomize_rc_total leak_res_slow_nom cell_cap_slow_nom 0.5
                temp_C g3) as ([[r_s c_s] vth_s] & g4 & Hrc2).
    eexists _, g4. split; [| done].
    apply Rand_bind_Ok. exists ct, g2. split; [by apply lift_Ok |].
    apply Rand_bind_Ok. eexists _, g3. split; [exact Hrc1 |].
    apply Rand_bind_Ok. eexists _, g4. split; [exact Hrc2 |].
    by apply mret_Ok. }
  intros c6 g6 _. eexists _, g6. by apply mret_Ok.
Qed.

End BuildTheorems.

Section CapacitorsOnLayers.
Context {G : Type} `{NumPy G}.
Import Builder.

Lemma capacitors_on_layers_add e c :
  (∀ name plus minus value,
     e = C name plus minus value → layer_initial plus = true) →
  capacitors_on_layers c → capacitors_on_layers (add e c).
Proof.
  intros He Hc name plus minus value.
  unfold add. simpl. rewrite elem_of_app, list_elem_of_singleton.
  intros [Hin | <-]; [by eapply Hc | by eapply He].
Qed.

Lemma capacitors_on_layers_add_model m c :
  capacitors_on_layers c → capacitors_on_layers (add_model m c).
Proof. done. Qed.

Lemma capacitors_on_layers_foldl {X} (body : Circuit → X → Circuit)
    (l : list X) :
  (∀ c x, x ∈ l → capacitors_on_layers c → capacitors_on_layers (body c x)) →
  ∀ c, capacitors_on_layers c → capacitors_on_layers (foldl body c l).
Proof.
  induction l as [|x l IH]; intros Hbody c Hc; simpl; [done |].
  apply IH.
  - intros c0 y Hy. apply Hbody. by right.
  - apply Hbody; [by left | done].
Qed.

(** Adds an element whose kind is known: a capacitor on a layer node, or
    no capacitor at all. *)
Ltac on_layers :=
  repeat first
    [ progress intros
    | apply capacitors_on_layers_add_model
    | apply capacitors_on_layers_add;
      [ let E := fresh in
        intros ? ? ? ? E; first [ discriminate E | by injection E as <- <- <- <- ]
      | ]
    | assumption ].

Lemma capacitors_on_layers_layer_nodes num_inputs num_hidden num_outputs c :
  capacitors_on_layers c →
  capacitors_on_layers (add_layer_nodes num_inputs num_hidden num_outputs c).
Proof.
  intros Hc. unfold add_layer_nodes.
  repeat (apply capacitors_on_layers_foldl;
          [intros c0 x Hx Hc0;
           try (apply list_elem_of_fmap in Hx as (k & -> & _)); on_layers |]).
  done.
Qed.

Lemma capacitors_on_layers_error_nodes num_outputs c :
  capacitors_on_layers c →
  capacitors_on_layers (add_error_nodes num_outputs c).
Proof.
  intros Hc. unfold add_error_nodes.
  apply capacitors_on_layers_foldl; [| done]. on_layers.
Qed.

Lemma capacitors_on_layers_core layer a b fast_node slow_node pre_node
    post_node c_f c_s vth_f c :
  layer_initial fast_node = true → layer_initial slow_node = true →
  capacitors_on_layers c →
  capacitors_on_layers (add_synapse_core layer a b fast_node slow_node
                          pre_node post_node c_f c_s vth_f c).
Proof. intros Hf Hs Hc. unfold add_synapse_core. on_layers. Qed.

Lemma capacitors_on_layers_leakage layer a b cell_type fast_node slow_node
    ctrl_drain r_f_nom r_s_nom c :
  capacitors_on_layers c →
  capacitors_on_layers (add_leakage layer a b cell_type fast_node slow_node
                          ctrl_drain r_f_nom r_s_nom c).
Proof.
  intros Hc. unfold add_leakage. repeat case_decide; on_layers.
Qed.

Lemma add_ih_synapse_capacitors num_outputs cell_types i h c (g g' : G) c' :
  add_ih_synapse num_outputs cell_types i h c g = Ok (c', g') →
  capacitors_on_layers c → capacitors_on_layers c'.
Proof.
  unfold add_ih_synapse.
  intros (cell_type & g1 & _ & Hrest)%Rand_bind_Ok Hc.
  apply Rand_bind_Ok in Hrest as ([[r_f c_f] vth_f] & g2 & _ & Hrest).
  apply Rand_bind_Ok in Hrest as ([[r_s c_s] vth_s] & g3 & _ & Hrest).
  apply mret_Ok in Hrest as [-> _].
  apply capacitors_on_layers_foldl.
  - intros c0 o _ Hc0. case_decide; on_layers.
  - by apply capacitors_on_layers_leakage, capacitors_on_layers_core.
Qed.

Lemma add_ho_synapse_capacitors cell_types h o c (g g' : G) c' :
  add_ho_synapse cell_types h o c g = Ok (c', g') →
  capacitors_on_layers c → capacitors_on_layers c'.
Proof.
  unfold add_ho_synapse.
  intros (cell_type & g1 & _ & Hrest)%Rand_bind_Ok Hc.
  apply Rand_bind_Ok in Hrest as ([[r_f c_f] vth_f] & g2 & _ & Hrest).
  apply Rand_bind_Ok in Hrest as ([[r_s c_s] vth_s] & g3 & _ & Hrest).
  apply mret_Ok in Hrest as [-> _].
  apply capacitors_on_layers_add; [intros ? ? ? ? E; discriminate E |].
  by apply capacitors_on_layers_leakage, capacitors_on_layers_core.
Qed.

(** The builder puts capacitors on layer nodes and storage nodes only. *)
Lemma build_circuit_for_learning_capacitors num_inputs num_hidden num_outputs
    cell_types_ih cell_types_ho learning_step (g g' : G) b :
  build_circuit_for_learning num_inputs num_hidden num_outputs
    cell_types_ih cell_types_ho learning_step g = Ok (b, g') →
  capacitors_on_layers (circuit b).
Proof.
  unfold build_circuit_for_learning.
  intros (c1 & g1 & Hih & Hrest)%Rand_bind_Ok.
  apply Rand_bind_Ok in Hrest as (c2 & g2 & Hho & Hrest).
  apply mret_Ok in Hrest as [Hb _]. subst b. cbn [circuit].
  revert Hho. apply (for_range_inv (λ _, capacitors_on_layers)).
  { intros h c g3 c' g3' _ Hc.
    apply (for_range_inv (λ _, capacitors_on_layers)); [| done].
    intros o c0 g4 c0' g4' _ Hc0 Hrun.
    by eapply add_ho_synapse_capacitors. }
  revert Hih. apply (for_range_inv (λ _, capacitors_on_layers)).
  { intros i c g3 c' g3' _ Hc.
    apply (for_range_inv (λ _, capacitors_on_layers)); [| done].
    intros h c0 g4 c0' g4' _ Hc0 Hrun.
    by eapply add_ih_synapse_capacitors. }
  repeat apply capacitors_on_layers_add_model.
  apply capacitors_on_layers_error_nodes. on_layers.
  apply capacitors_on_layers_layer_nodes. on_layers.
  intros name plus minus value Hin. simpl in Hin. by apply elem_of_nil in Hin.
Qed.

Lemma no_capacitor_off_layers c node :
  capacitors_on_layers c → layer_initial node = false →
  ¬ has_capacitor_to_ground c node.
Proof.
  intros Hc Hnode (name & value & Hin). apply Hc in Hin. congruence.
Qed.

End CapacitorsOnLayers.

Lemma example_topology :
  @Topology.initialize_network_architecture nat counting_numpy 2 2 2 0
  = Ok ((example_ih, example_ho), 6).
Proof. vm_compute. reflexivity. Qed.

(** The claim C3 as the specification words it fails on the error nodes
    and on the neighbor-modulation node: the circuit built for the example
    topology has no capacitor on [error_0] and none on
    [v_neighbor_modulate]. *)
Lemma C3_counterexample :
  ∃ b g',
    @Builder.build_circuit_for_learning nat counting_numpy 2 2 2
      example_ih example_ho 0 6 = Ok (b, g') ∧
    "error_0" ∈ declared_nodes b ∧
    ¬ has_capacitor_to_ground (Builder.circuit b) "error_0" ∧
    "v_neighbor_modulate" ∈ declared_nodes b ∧
    ¬ has_capacitor_to_ground (Builder.circuit b) "v_neighbor_modulate".
Proof.
  eexists _, _. split; [vm_compute; reflexivity |]. split_and!.
  - refine (bool_decide_unpack _ _). vm_compute. exact I.
  - rewrite has_capacitor_to_ground_reflect. vm_compute. discriminate.
  - refine (bool_decide_unpack _ _). vm_compute. exact I.
  - rewrite has_capacitor_to_ground_reflect. vm_compute. discriminate.
Qed.

(** C3, amended. In every circuit the builder constructs, every input,
    hidden and output node and every fast and slow storage node of a
    synapse has a capacitor to ground; an error node is tied to ground by
    a pull-down resistor and the neighbor-modulation node by a voltage
    source, and neither of them has a capacitor to ground. *)
Theorem C3_nodes_bound_to_ground {G : Type} `{NumPy G}
    num_inputs num_hidden num_outputs cell_types_ih cell_types_ho
    learning_step (g g' : G) b :
  Builder.build_circuit_for_learning num_inputs num_hidden num_outputs
    cell_types_ih cell_types_ho learning_step g = Ok (b, g') →
  (∀ node, node ∈ layer_and_storage_nodes b →
     has_capacitor_to_ground (Builder.circuit b) node) ∧
  (∀ node, node ∈ Builder.error_nodes b →
     (∃ name value, R name node gnd value ∈ elements (Builder.circuit b)) ∧
     ¬ has_capacitor_to_ground (Builder.circuit b) node) ∧
  (∃ name value,
     V name Builder.neighbor_node gnd value ∈ elements (Builder.circuit b)) ∧
  ¬ has_capacitor_to_ground (Builder.circuit b) Builder.neighbor_node.
Proof.
  intros Hbuild.
  pose proof (build_circuit_for_learning_capacitors _ _ _ _ _ _ _ _ _ Hbuild)
    as Hcaps.
  destruct (build_circuit_for_learning_spec _ _ _ _ _ _ _ _ _ Hbuild)
    as ((Ein & Ehid & Eout & Eerr & Eihf & Eihs & Ehof & Ehos)
        & Hin & Hhid & Hout & Hpull & Hmod & Hih & Hho).
  split_and!.
  - intros node. unfold layer_and_storage_nodes.
    rewrite Ein, Ehid, Eout, Eihf, Eihs, Ehof, Ehos, !elem_of_app.
    intros [Hn | [Hn | [Hn | [Hn | [Hn | [Hn | Hn]]]]]].
    + apply elem_of_names in Hn as (i & Hi & ->). by apply Hin.
    + apply elem_of_names in Hn as (h & Hh & ->). by apply Hhid.
    + apply elem_of_names in Hn as (o & Ho & ->). by apply Hout.
    + apply elem_of_name_matrix in Hn as (i & h & Hi & Hh & ->).
      by destruct (Hih i h Hi Hh) as (? & _ & _).
    + apply elem_of_name_matrix in Hn as (i & h & Hi & Hh & ->).
      by destruct (Hih i h Hi Hh) as (_ & ? & _).
    + apply elem_of_name_matrix in Hn as (h & o & Hh & Ho & ->).
      by destruct (Hho h o Hh Ho) as (? & _ & _).
    + apply elem_of_name_matrix in Hn as (h & o & Hh & Ho & ->).
      by destruct (Hho h o Hh Ho) as (_ & ? & _).
  - intros node. rewrite Eerr. intros (o & Ho & ->)%elem_of_names. split.
    + eexists _, _. by apply Hpull.
    + by apply no_capacitor_off_layers.
  - eexists _, _. exact Hmod.
  - by apply no_capacitor_off_layers.
Qed.

Lemma C3_nodes_bound_to_ground_witness :
  ∃ b g',
    @Builder.build_circuit_for_learning nat counting_numpy 2 2 2
      example_ih example_ho 0 6 = Ok (b, g') ∧
    ∀ node, node ∈ layer_and_storage_nodes b →
            has_capacitor_to_ground (Builder.circuit b) node.
Proof.
  destruct (@build_circuit_for_learning_total nat counting_numpy 2 2 2
              example_ih example_ho 0 6) as (b & g' & Hbuild).
  { split; [done | repeat constructor]. }
  { split; [done | repeat constructor]. }
  exists b, g'. split; [exact Hbuild |].
  exact (proj1 (@C3_nodes_bound_to_ground nat counting_numpy 2 2 2
                  example_ih example_ho 0 6 g' b Hbuild)).
Defined.

(** The names the builder gives to the nodes are in lower case already,
    as the circuit built for the example topology shows: the extractors,
    which look names up in lower case, find the nodes under the names the
    builder returns. *)
Example example_node_names_lower_case :
  ∃ b g',
    @Builder.build_circuit_for_learning nat counting_numpy 2 2 2
      example_ih example_ho 0 6 = Ok (b, g') ∧
    Forall (λ name, lower name = name) (declared_nodes b).
Proof.
  eexists _, _. split; [vm_compute; reflexivity |].
  vm_compute. repeat constructor.
Qed.

(** The neighbor-control transistor as the two loops wire it: its gate
    is the fast storage node of the synapse and its source the
    neighbor-modulation node; its drain is the supply in the
    input-to-hidden loop and the fast storage node in the hidden-to-output
    loop. *)
Lemma leak_control_transistors_wired {G : Type} `{NumPy G}
    num_inputs num_hidden num_outputs cell_types_ih cell_types_ho
    learning_step (g g' : G) b :
  Builder.build_circuit_for_learning num_inputs num_hidden num_outputs
    cell_types_ih cell_types_ho learning_step g = Ok (b, g') →
  (∀ i h, i < num_inputs → h < num_hidden →
     mat_get cell_types_ih i h = Ok CELL_TYPE_DRAM_NEIGHBOR_CTRL_LEAKY →
     MOSFET ("ih_leak_ctrl_" +:+ pretty i +:+ "_" +:+ pretty h)
       "vdd" (Builder.syn_node "ih" i h "fast") Builder.neighbor_node gnd
       "nmos_leak_ctrl"
     ∈ elements (Builder.circuit b)) ∧
  (∀ h o, h < num_hidden → o < num_outputs →
     mat_get cell_types_ho h o = Ok CELL_TYPE_DRAM_NEIGHBOR_CTRL_LEAKY →
     MOSFET ("ho_leak_ctrl_" +:+ pretty h +:+ "_" +:+ pretty o)
       (Builder.syn_node "ho" h o "fast") (Builder.syn_node "ho" h o "fast")
       Builder.neighbor_node gnd "nmos_leak_ctrl"
     ∈ elements (Builder.circuit b)) ∧
  V "neighbor_mod" Builder.neighbor_node gnd 0.0%Q
  ∈ elements (Builder.circuit b).
Proof.
  intros Hbuild.
  destruct (build_circuit_for_learning_spec _ _ _ _ _ _ _ _ _ Hbuild)
    as (_ & _ & _ & _ & _ & Hmod & Hih & Hho).
  split_and!.
  - intros i h Hi Hh Hcell. destruct (Hih i h Hi Hh) as (_ & _ & Hm).
    by apply Hm.
  - intros h o Hh Ho Hcell. destruct (Hho h o Hh Ho) as (_ & _ & Hm).
    by apply Hm.
  - exact Hmod.
Qed.

(** C5. The claim that a LateralModulated synapse gets a transistor whose
    control terminal is the shared neighbor-modulation node fails on the
    code. In the circuit built for the example topology, whose synapses
    from input 0 to hidden 1 and from hidden 0 to output 1 are
    LateralModulated, the transistors added "for neighbor control" have
    the fast storage node of the synapse as their gate and the
    neighbor-modulation node as their source, with the supply as drain in
    the one loop and the fast storage node in the other; the
    neighbor-modulation node, which the builder ties to a source of 0 V,
    is the gate of no transistor of the circuit. *)
Theorem C5_neighbor_node_gates_no_transistor :
  ∃ b g',
    @Builder.build_circuit_for_learning nat counting_numpy 2 2 2
      example_ih example_ho 0 6 = Ok (b, g') ∧
    mat_get example_ih 0 1 = Ok CELL_TYPE_DRAM_NEIGHBOR_CTRL_LEAKY ∧
    mat_get example_ho 0 1 = Ok CELL_TYPE_DRAM_NEIGHBOR_CTRL_LEAKY ∧
    MOSFET "ih_leak_ctrl_0_1" "vdd" "ih_syn_0_1_fast" "v_neighbor_modulate"
      gnd "nmos_leak_ctrl" ∈ elements (Builder.circuit b) ∧
    MOSFET "ho_leak_ctrl_0_1" "ho_syn_0_1_fast" "ho_syn_0_1_fast"
      "v_neighbor_modulate" gnd "nmos_leak_ctrl"
    ∈ elements (Builder.circuit b) ∧
    V "neighbor_mod" "v_neighbor_modulate" gnd 0.0%Q
    ∈ elements (Builder.circuit b) ∧
    ¬ gates_a_transistor (Builder.circuit b) Builder.neighbor_node.
Proof.
  assert (∃ r, @Builder.build_circuit_for_learning nat counting_numpy 2 2 2
                 example_ih example_ho 0 6 = Ok r) as [[b g'] Hrun].
  { eexists. vm_compute. reflexivity. }
  exists b, g'. split; [exact Hrun |].
  destruct (leak_control_transistors_wired _ _ _ _ _ _ _ _ _ Hrun)
    as (Hih & Hho & Hmod).
  split; [reflexivity |]. split; [reflexivity |].
  split; [exact (Hih 0 1 ltac:(lia) ltac:(lia) eq_refl) |].
  split; [exact (Hho 0 1 ltac:(lia) ltac:(lia) eq_refl) |].
  split; [exact Hmod |].
  rewrite gates_a_transistor_reflect.
  vm_compute in Hrun. injection Hrun as <- _.
  vm_compute. discriminate.
Qed.

(** ** State extraction *)

Section FillMatrix.
Context {G : Type} `{NumPy G} {A : Type}.
Variable P : nat → nat → A → Prop.
Variable body : nat → nat → list (list A) → Rand G (list (list A)).
Variables rows cols : nat.

Hypothesis body_sets : ∀ a b w g w' g',
  body a b w g = Ok (w', g') → ∃ x, mat_set w a b x = Ok w' ∧ P a b x.

Lemma filled_step a b w g w' g' :
  filled P rows cols a b w → body a b w g = Ok (w', g') → filled P rows cols a (S b) w'.
Proof.
  intros [Hshape Hdone] (x & (row & Hrow & Hb & ->)%mat_set_Ok & Hx)%body_sets.
  split; [by apply shape_insert |].
  intros a' b' Hb' Hbefore.
  rewrite (mat_get_insert w a b x row a' b' Hrow Hb).
  case_decide as Hab.
  - destruct Hab as [-> ->]. by exists x.
  - apply Hdone; [done |]. destruct Hbefore as [? | [-> ?]]; [by left | right].
    split; [done |]. destruct (decide (b' = b)) as [-> | ?]; [| lia].
    by destruct Hab.
Qed.

Lemma filled_row a w : filled P rows cols a cols w → filled P rows cols (S a) 0 w.
Proof.
  intros [Hshape Hdone]. split; [done |]. intros a' b' Hb' Hbefore.
  apply Hdone; [done |]. destruct (decide (a' = a)) as [-> | ?]; [right | left];
    lia.
Qed.

Lemma fill_matrix_inv w g w' g' :
  shape rows cols w →
  for_range rows (λ a w, for_range cols (λ b w, body a b w) w) w g
  = Ok (w', g') →
  shape rows cols w' ∧
  ∀ a b, a < rows → b < cols → ∃ x, mat_get w' a b = Ok x ∧ P a b x.
Proof.
  intros Hshape Hrun.
  assert (filled P rows cols rows 0 w') as [Hshape' Hdone].
  { revert Hrun. apply (for_range_inv (λ a w, filled P rows cols a 0 w)).
    - intros a s g1 s' g1' _ Hs Hrow. apply filled_row. revert Hrow.
      apply (for_range_inv (λ b w, filled P rows cols a b w)); [| done].
      intros b s1 g2 s1' g2' _. apply filled_step.
    - split; [done |]. intros a' b' _ [? | [_ ?]]; lia. }
  split; [done |]. intros a b Ha Hb. apply Hdone; [done | by left].
Qed.

Lemma fill_matrix_total w g :
  (∀ a b w g, a < rows → b < cols → shape rows cols w →
     ∃ w' g', body a b w g = Ok (w', g')) →
  shape rows cols w →
  ∃ w' g', for_range rows (λ a w, for_range cols (λ b w, body a b w) w) w g
           = Ok (w', g').
Proof.
  intros Hbody Hshape.
  apply (Rand_total_weaken (shape rows cols)).
  apply (for_range_total (λ _, shape rows cols)); [| done].
  intros a w1 g1 Ha Hshape1.
  apply (for_range_total (λ _, shape rows cols)); [| done].
  intros b w2 g2 Hb Hshape2.
  destruct (Hbody a b w2 g2 Ha Hb Hshape2) as (w3 & g3 & Hrun).
  exists w3, g3. split; [done |].
  apply body_sets in Hrun as (x & (row & Hrow & _ & ->)%mat_set_Ok & _).
  by apply shape_insert.
Qed.

End FillMatrix.

Section ExtractWeight.
Context {G : Type} `{NumPy G}.
Import Extract.
Variable F : Q → Prop.
Hypothesis fallback : ∀ (g g' : G) x,
  random_uniform 0.1 0.5 g = Ok (x, g') → F x.

Lemma extract_weight_spec analysis cells_fast cells_slow a b w (g g' : G) w' :
  extract_weight analysis cells_fast cells_slow a b w g = Ok (w', g') →
  ∃ x, mat_set w a b x = Ok w' ∧
       weight_of F analysis cells_fast cells_slow a b x.
Proof.
  unfold extract_weight, weight_of.
  intros (fn & g1 & [Hfn ->]%lift_Ok & Hrest)%Rand_bind_Ok.
  apply Rand_bind_Ok in Hrest as (sn & g2 & [Hsn ->]%lift_Ok & Hrest).
  enough (∃ x, mat_set w a b x = Ok w' ∧ extracted_weight F analysis fn sn x)
    as (x & Hset & Hx) by (exists x; eauto 10).
  unfold extracted_weight.
  destruct (nodes analysis !! lower fn) as [v_fast|];
    [destruct (nodes analysis !! lower sn) as [v_slow|] |].
  - unfold index_last in Hrest.
    destruct (last v_fast) as [f|]; [destruct (last v_slow) as [s|] |].
    + apply lift_Ok in Hrest as [Hset _]. by exists (f + s)%Q.
    + apply Rand_bind_Ok in Hrest as (x & g3 & Hx & [Hset _]%lift_Ok).
      apply fallback in Hx. by exists x.
    + apply Rand_bind_Ok in Hrest as (x & g3 & Hx & [Hset _]%lift_Ok).
      apply fallback in Hx. by exists x.
  - apply Rand_bind_Ok in Hrest as (x & g3 & Hx & [Hset _]%lift_Ok).
    apply fallback in Hx. by exists x.
  - apply Rand_bind_Ok in Hrest as (x & g3 & Hx & [Hset _]%lift_Ok).
    apply fallback in Hx. by exists x.
Qed.

(** The two loops over the synapses of a layer. *)
Lemma extract_layer_weights_spec rows cols analysis cells_fast cells_slow
    (g g' : G) w' :
  for_range rows
    (λ a w, for_range cols
              (λ b w, extract_weight analysis cells_fast cells_slow a b w) w)
    (np_full rows cols 0%Q) g = Ok (w', g') →
  shape rows cols w' ∧
  ∀ a b, a < rows → b < cols →
    ∃ x, mat_get w' a b = Ok x ∧
         weight_of F analysis cells_fast cells_slow a b x.
Proof.
  apply (fill_matrix_inv
           (weight_of F analysis cells_fast cells_slow)
           (extract_weight analysis cells_fast cells_slow)).
  - intros a b w g1 w1 g1'. apply extract_weight_spec.
  - apply shape_full.
Qed.

Lemma extract_weight_total rows cols analysis cells_fast cells_slow a b w
    (g : G) :
  shape rows cols cells_fast → shape rows cols cells_slow →
  a < rows → b < cols → shape rows cols w →
  ∃ w' g', extract_weight analysis cells_fast cells_slow a b w g = Ok (w', g').
Proof.
  intros Hfast Hslow Ha Hb Hw. unfold extract_weight.
  destruct (shape_mat_get rows cols cells_fast a b Hfast Ha Hb) as [fn Hfn].
  destruct (shape_mat_get rows cols cells_slow a b Hslow Ha Hb) as [sn Hsn].
  assert (∀ x, ∃ w', mat_set w a b x = Ok w') as Hset.
  { intros x. destruct (shape_mat_get rows cols w a b Hw Ha Hb) as [old Hold].
    apply mat_get_Ok in Hold as (row & Hrow & Hold).
    eexists. apply mat_set_Ok. exists row. split_and!; [done | | done].
    by eapply lookup_lt_Some. }
  assert (∀ g0 : G, ∃ w' g',
            (x ← random_uniform 0.1 0.5; lift (mat_set w a b x)) g0
            = Ok (w', g')) as Hfallback.
  { intros g0. destruct (draw_uniform 0.1 0.5 g0) as [x g1] eqn:Hdraw.
    destruct (Hset x) as [w' Hw']. exists w', g1.
    apply Rand_bind_Ok. exists x, g1. split.
    - unfold random_uniform. by rewrite Hdraw.
    - by apply lift_Ok. }
  apply (Rand_bind_total (λ _, True)); [exists fn, g; by rewrite lift_Ok |].
  intros fn' g1 _.
  apply (Rand_bind_total (λ _, True)); [exists sn, g1; by rewrite lift_Ok |].
  intros sn' g2 _.
  destruct (nodes analysis !! lower fn') as [v_fast|]; [| apply Hfallback].
  destruct (nodes analysis !! lower sn') as [v_slow|]; [| apply Hfallback].
  destruct (index_last v_fast) as [f|]; [| apply Hfallback].
  destruct (index_last v_slow) as [s|]; [| apply Hfallback].
  destruct (Hset (f + s)%Q) as [w' Hw']. exists w', g2. by apply lift_Ok.
Qed.

Lemma extract_layer_weights_total rows cols analysis cells_fast cells_slow
    (g : G) :
  shape rows cols cells_fast → shape rows cols cells_slow →
  ∃ w' g',
    for_range rows
      (λ a w, for_range cols
                (λ b w, extract_weight analysis cells_fast cells_slow a b w) w)
      (np_full rows cols 0%Q) g = Ok (w', g').
Proof.
  intros Hfast Hslow.
  apply (fill_matrix_total
           (weight_of F analysis cells_fast cells_slow)
           (extract_weight analysis cells_fast cells_slow)).
  - intros a b w g1 w1 g1'. apply extract_weight_spec.
  - intros a b w g1 Ha Hb Hw. by eapply extract_weight_total.
  - apply shape_full.
Qed.

End ExtractWeight.

Section ExtractFacts.
Context {G : Type} `{NumPySpec G}.
Import Extract.




Lemma random_uniform_vector_total low high size (g : G) :
  ∃ v g', random_uniform_vector low high size g = Ok (v, g').
Proof.
  revert g. induction size as [|size IH]; intros g; simpl; [by eexists _, _ |].
  destruct (draw_uniform low high g) as [x g1] eqn:Hdraw.
  destruct (IH g1) as (xs & g2 & Hxs).
  exists (x :: xs), g2. apply Rand_bind_Ok. exists x, g1. split.
  - unfold random_uniform. by rewrite Hdraw.
  - apply Rand_bind_Ok. exists xs, g2. split; [done | by apply mret_Ok].
Qed.

Lemma random_uniform_matrix_total low high rows cols (g : G) :
  ∃ m g', random_uniform_matrix low high rows cols g = Ok (m, g').
Proof.
  revert g. induction rows as [|rows IH]; intros g; simpl; [by eexists _, _ |].
  destruct (random_uniform_vector_total low high cols g) as (r & g1 & Hr).
  destruct (IH g1) as (rs & g2 & Hrs).
  exists (r :: rs), g2. apply Rand_bind_Ok. exists r, g1. split; [done |].
  apply Rand_bind_Ok. exists rs, g2. split; [done | by apply mret_Ok].
Qed.

End ExtractFacts.

(** C7. In the weights extracted from a successful simulation result, the
    entry of every synapse whose fast and slow storage nodes are both in
    the result is the sum of the last samples of the two node
    voltages. *)
Theorem C7_weight_is_sum_of_final_voltages {G : Type} `{NumPy G}
    num_inputs num_hidden num_outputs analysis
    ih_cells_fast ih_cells_slow ho_cells_fast ho_cells_slow
    (g g' : G) ih_weights ho_weights :
  Extract.extract_network_state num_inputs num_hidden num_outputs
    (Some analysis) ih_cells_fast ih_cells_slow ho_cells_fast ho_cells_slow g
  = Ok ((ih_weights, ho_weights), g') →
  (∀ i h fast_name slow_name v_fast v_slow f s,
     i < num_inputs → h < num_hidden →
     mat_get ih_cells_fast i h = Ok fast_name →
     mat_get ih_cells_slow i h = Ok slow_name →
     nodes analysis !! lower fast_name = Some v_fast →
     nodes analysis !! lower slow_name = Some v_slow →
     last v_fast = Some f → last v_slow = Some s →
     mat_get ih_weights i h = Ok (f + s)%Q) ∧
  (∀ h o fast_name slow_name v_fast v_slow f s,
     h < num_hidden → o < num_outputs →
     mat_get ho_cells_fast h o = Ok fast_name →
     mat_get ho_cells_slow h o = Ok slow_name →
     nodes analysis !! lower fast_name = Some v_fast →
     nodes analysis !! lower slow_name = Some v_slow →
     last v_fast = Some f → last v_slow = Some s →
     mat_get ho_weights h o = Ok (f + s)%Q).
Proof.
  unfold Extract.extract_network_state.
  intros (ihw & g1 & Hih & Hrest)%Rand_bind_Ok.
  apply Rand_bind_Ok in Hrest as (how & g2 & Hho & [[= <- <-] _]%mret_Ok).
  apply (extract_layer_weights_spec (λ _, True)) in Hih as [_ Hih]; [| done].
  apply (extract_layer_weights_spec (λ _, True)) in Hho as [_ Hho]; [| done].
  split.
  - intros i h fn sn vf vs f s Hi Hh Hfn Hsn Hvf Hvs Hf Hs.
    destruct (Hih i h Hi Hh) as (x & Hx & fn' & sn' & Hfn' & Hsn' & Hw).
    assert (fn' = fn) as -> by congruence.
    assert (sn' = sn) as -> by congruence.
    unfold extracted_weight in Hw. rewrite Hvf, Hvs, Hf, Hs in Hw.
    by rewrite Hx, Hw.
  - intros h o fn sn vf vs f s Hh Ho Hfn Hsn Hvf Hvs Hf Hs.
    destruct (Hho h o Hh Ho) as (x & Hx & fn' & sn' & Hfn' & Hsn' & Hw).
    assert (fn' = fn) as -> by congruence.
    assert (sn' = sn) as -> by congruence.
    unfold extracted_weight in Hw. rewrite Hvf, Hvs, Hf, Hs in Hw.
    by rewrite Hx, Hw.
Qed.

Lemma C7_weight_is_sum_of_final_voltages_witness :
  ∃ ih_weights ho_weights g',
    @Extract.extract_network_state nat counting_numpy 1 1 1
      (Some example_analysis)
      [["ih_syn_0_0_fast"]] [["ih_syn_0_0_slow"]]
      [["ho_syn_0_0_fast"]] [["ho_syn_0_0_slow"]] 0
    = Ok ((ih_weights, ho_weights), g') ∧
    mat_get ih_weights 0 0 = Ok (0.25 + 0.5)%Q.
Proof.
  eexists _, _, _.
  assert (@Extract.extract_network_state nat counting_numpy 1 1 1
            (Some example_analysis)
            [["ih_syn_0_0_fast"]] [["ih_syn_0_0_slow"]]
            [["ho_syn_0_0_fast"]] [["ho_syn_0_0_slow"]] 0
          = Ok (([[0.25 + 0.5]], [[0.1]])%Q, 1)) as Hrun
    by (vm_compute; reflexivity).
  split; [exact Hrun |].
  apply (proj1 (@C7_weight_is_sum_of_final_voltages nat counting_numpy 1 1 1
                  example_analysis _ _ _ _ 0 1 _ _ Hrun)
           0 0 "ih_syn_0_0_fast" "ih_syn_0_0_slow" [0.1; 0.25]%Q [0.2; 0.5]%Q);
    (lia || reflexivity).
Defined.



(** ** Activity extraction *)

Section ActivityFacts.
Import Extract.

Lemma column_full rows cols j :
  column (np_full rows cols 0%Q) j = replicate rows 0%Q.
Proof.
  unfold column, np_full. apply list_eq. intros t.
  rewrite list_lookup_fmap.
  destruct (decide (t < rows)) as [Ht | Ht].
  - rewrite !lookup_replicate_2 by done. simpl.
    destruct (replicate cols 0%Q !! j) as [x|] eqn:Hx; [| done].
    by apply lookup_replicate in Hx as [-> _].
  - rewrite (lookup_ge_None_2 (replicate rows (replicate cols 0%Q)))
      by (rewrite length_replicate; lia).
    rewrite (lookup_ge_None_2 (replicate rows 0%Q))
      by (rewrite length_replicate; lia).
    done.
Qed.

Lemma shape_write_column rows cols (m : list (list Q)) i start v :
  shape rows cols m → shape rows cols (write_column m i start v).
Proof.
  intros [Hrows Hcols]. unfold write_column. split.
  - by rewrite length_imap.
  - apply Forall_lookup. intros t row Hrow.
    rewrite list_lookup_imap in Hrow.
    destruct (m !! t) as [row0|] eqn:Hrow0; [| done].
    pose proof (Forall_lookup_1 _ _ _ _ Hcols Hrow0) as Hlen.
    simpl in *. injection Hrow as <-.
    case_decide; [by rewrite length_insert | done].
Qed.

(** Writing a column of the right length replaces this column and no
    other. *)
Lemma column_write_column rows cols (m : list (list Q)) i v j :
  shape rows cols m → i < cols → length v = rows →
  column (write_column m i 0 v) j
  = if decide (j = i) then v else column m j.
Proof.
  intros [Hrows Hcols] Hi Hv. unfold column, write_column.
  apply list_eq. intros t. rewrite list_lookup_fmap, list_lookup_imap.
  destruct (m !! t) as [row|] eqn:Hrow; simpl.
  - pose proof (Forall_lookup_1 _ _ _ _ Hcols Hrow) as Hlen. simpl in Hlen.
    pose proof (lookup_lt_Some _ _ _ Hrow) as Ht.
    destruct (lookup_lt_is_Some_2 v t) as [x Hx]; [lia |].
    rewrite decide_True by lia. rewrite Nat.sub_0_r, Hx. simpl.
    case_decide as Hj.
    + subst j. rewrite list_lookup_insert_eq by lia. by rewrite Hx.
    + rewrite list_lookup_insert_ne by done.
      by rewrite list_lookup_fmap, Hrow.
  - apply lookup_ge_None in Hrow. case_decide.
    + symmetry. apply lookup_ge_None. lia.
    + by rewrite list_lookup_fmap, (lookup_ge_None_2 m t) by lia.
Qed.

(** The loop over the nodes of a layer: column [i + k] receives the
    waveform of node [k] when the result has it, and no other column
    changes. *)
Lemma extract_layer_spec analysis rows ncols : ∀ layer_nodes i activity,
  (∀ name v, nodes analysis !! name = Some v → length v = rows) →
  i + length layer_nodes ≤ ncols →
  shape rows ncols activity →
  ∃ activity',
    extract_layer analysis ncols layer_nodes i activity = Ok activity' ∧
    shape rows ncols activity' ∧
    (∀ j, j < i ∨ i + length layer_nodes ≤ j →
          column activity' j = column activity j) ∧
    (∀ k name, layer_nodes !! k = Some name →
       column activity' (i + k)
       = match nodes analysis !! lower name with
         | Some v => v
         | None => column activity (i + k)
         end).
Proof.
  intros layer_nodes.
  induction layer_nodes as [|name rest IH]; intros i activity Hwf Hi Hshape;
    simpl in *.
  - exists activity. split_and!; try done.
  - assert (∃ act1,
              match nodes analysis !! lower name with
              | Some v => set_column ncols activity i v
              | None => Ok activity
              end = Ok act1 ∧
              shape rows ncols act1 ∧
              ∀ j, column act1 j
                   = if decide (j = i)
                     then match nodes analysis !! lower name with
                          | Some v => v
                          | None => column activity i
                          end
                     else column activity j) as (act1 & Hact1 & Hshape1 & Hcol1).
    { destruct (nodes analysis !! lower name) as [v|] eqn:Hnode.
      - pose proof (Hwf _ _ Hnode) as Hv. destruct Hshape as [Hrows Hcols].
        exists (write_column activity i 0 v). split_and!.
        + unfold set_column. rewrite decide_False by lia.
          rewrite decide_True by lia. done.
        + by apply shape_write_column.
        + intros j. apply (column_write_column rows ncols); [done | lia | done].
      - exists activity. split_and!; [done | done |].
        intros j. case_decide; by subst. }
    rewrite Hact1. simpl.
    destruct (IH (S i) act1 Hwf) as (act2 & Hact2 & Hshape2 & Hother & Hcols);
      [lia | done |].
    exists act2. split_and!; [done | done | |].
    + intros j Hj. rewrite Hother by lia. rewrite Hcol1.
      rewrite decide_False by lia. done.
    + intros [|k] name' Hname; simpl in Hname.
      * injection Hname as <-. rewrite Nat.add_0_r.
        rewrite Hother by lia. rewrite Hcol1. by rewrite decide_True.
      * replace (i + S k) with (S i + k) by lia.
        rewrite (Hcols k name' Hname), Hcol1.
        rewrite decide_False by lia. done.
Qed.

End ActivityFacts.

(** C10. For a successful simulation result whose node waveforms have one
    value per time sample, activity extraction returns without drawing
    from the random generator; every activity array has one row per time
    sample and one column per declared neuron of its layer; the column of
    a node that is in the result is its waveform, unchanged, and the
    column of a node that is absent from the result is all zero. *)
Theorem C10_activity_of_absent_node_is_zero {G : Type} `{NumPy G}
    num_inputs num_hidden num_outputs analysis
    input_nodes hidden_nodes output_nodes (g : G) :
  length input_nodes = num_inputs →
  length hidden_nodes = num_hidden →
  length output_nodes = num_outputs →
  (∀ name v, nodes analysis !! name = Some v →
             length v = length (time analysis)) →
  let T := length (time analysis) in
  let trace name :=
    match nodes analysis !! lower name with
    | Some v => v
    | None => replicate T 0%Q
    end in
  ∃ input_activity hidden_activity output_activity,
    Extract.extract_activity_over_time num_inputs num_hidden num_outputs
      (Some analysis) input_nodes hidden_nodes output_nodes g
    = Ok (((λ t, t * 1e6)%Q <$> time analysis,
           input_activity, hidden_activity, output_activity), g) ∧
    shape T num_inputs input_activity ∧
    shape T num_hidden hidden_activity ∧
    shape T num_outputs output_activity ∧
    (∀ i name, input_nodes !! i = Some name →
               Extract.column input_activity i = trace name) ∧
    (∀ i name, hidden_nodes !! i = Some name →
               Extract.column hidden_activity i = trace name) ∧
    (∀ i name, output_nodes !! i = Some name →
               Extract.column output_activity i = trace name).
Proof.
  intros Hin Hhid Hout Hwf T trace.
  unfold Extract.extract_activity_over_time. rewrite length_fmap. fold T.
  destruct (extract_layer_spec analysis T num_inputs input_nodes 0
              (np_full T num_inputs 0%Q) Hwf) as (ia & Hia & Hsia & _ & Hcia);
    [lia | apply shape_full |].
  destruct (extract_layer_spec analysis T num_hidden hidden_nodes 0
              (np_full T num_hidden 0%Q) Hwf) as (ha & Hha & Hsha & _ & Hcha);
    [lia | apply shape_full |].
  destruct (extract_layer_spec analysis T num_outputs output_nodes 0
              (np_full T num_outputs 0%Q) Hwf) as (oa & Hoa & Hsoa & _ & Hcoa);
    [lia | apply shape_full |].
  exists ia, ha, oa. split_and!; try done.
  - unfold mbind, Rand_bind, lift. by rewrite Hia, Hha, Hoa.
  - intros i name Hname. rewrite <- (Nat.add_0_l i), (Hcia i name Hname).
    unfold trace. by rewrite column_full.
  - intros i name Hname. rewrite <- (Nat.add_0_l i), (Hcha i name Hname).
    unfold trace. by rewrite column_full.
  - intros i name Hname. rewrite <- (Nat.add_0_l i), (Hcoa i name Hname).
    unfold trace. by rewrite column_full.
Qed.

Lemma C10_activity_of_absent_node_is_zero_witness :
  ∃ input_activity hidden_activity output_activity,
    @Extract.extract_activity_over_time nat counting_numpy 1 1 1
      (Some example_analysis) ["ih_syn_0_0_fast"] ["hidden_0"] ["output_0"] 0
    = Ok (((λ t, t * 1e6)%Q <$> [0; 1]%Q,
           input_activity, hidden_activity, output_activity), 0) ∧
    Extract.column input_activity 0 = [0.1; 0.25]%Q ∧
    Extract.column hidden_activity 0 = [0; 0]%Q.
Proof.
  destruct (@C10_activity_of_absent_node_is_zero nat counting_numpy 1 1 1
              example_analysis ["ih_syn_0_0_fast"] ["hidden_0"] ["output_0"] 0)
    as (ia & ha & oa & Hrun & _ & _ & _ & Hia & Hha & _);
    [reflexivity | reflexivity | reflexivity | |].
  { intros name v. unfold example_analysis. simpl.
    intros Hv. apply lookup_insert_Some in Hv as [[_ <-] | [_ Hv]]; [done |].
    apply lookup_singleton_Some in Hv as [_ <-]. done. }
  exists ia, ha, oa. split_and!.
  - exact Hrun.
  - by rewrite (Hia 0 "ih_syn_0_0_fast" eq_refl).
  - by rewrite (Hha 0 "hidden_0" eq_refl).
Defined.

(** ** Performance *)

(** C9. With fewer than two time samples the evaluator returns accuracy
    0.0 and marks every pattern incorrect, whatever the targets and the
    activity are; it raises nothing. *)
Theorem C9_degenerate_time_axis output_activity targets time_us
    phase_duration :
  length time_us ≤ 1 →
  Performance.calculate_performance output_activity targets time_us
    phase_duration
  = Ok (0.0%Q, replicate (length targets) false).
Proof.
  intros Hlen. unfold Performance.calculate_performance.
  by rewrite decide_True.
Qed.

Lemma C9_degenerate_time_axis_witness :
  length [0%Q] ≤ 1 ∧
  Performance.calculate_performance [[0.3; 0.1]%Q] [[1; 0]%Z; [0; 1]%Z] [0%Q] 20
  = Ok (0.0%Q, [false; false]).
Proof.
  assert (length [0%Q] ≤ 1) as Hlen by (simpl; lia).
  split; [exact Hlen |].
  exact (C9_degenerate_time_axis [[0.3; 0.1]%Q] [[1; 0]%Z; [0; 1]%Z] [0%Q] 20
           Hlen).
Defined.

(** With two time samples one microsecond apart, a window of ten rows in
    which output 0 dominates is scored against the targets. *)
Example calculate_performance_two_patterns :
  Performance.calculate_performance
    (replicate 12 [0.3; 0.1]%Q) [[1; 0]%Z; [0; 1]%Z] [0; 1]%Q 20
  = Ok ((1 # 2)%Q, [true; false]).
Proof. vm_compute. reflexivity. Qed.

(** ** The learning loop *)

Section ExperimentFacts.
Context {G : Type} `{NumPy G}.
Variables num_inputs num_hidden num_outputs LEARNING_STEPS : nat.
Variables train_patterns train_targets : list (list Z).
Variable transient : Circuit → Q → Q → option Analysis.
Import Experiment.

(** A learning step in which the solver fails returns no history. *)
Lemma learning_step_body_failure cell_types_ih cell_types_ho learning_step
    hist (g : G) :
  (∀ circuit time_step end_time, transient circuit time_step end_time = None) →
  ∀ hist' g',
    learning_step_body num_inputs num_hidden num_outputs
      train_patterns train_targets transient
      cell_types_ih cell_types_ho learning_step hist g
    ≠ Ok (hist', g').
Proof.
  intros Hfail hist' g'. unfold learning_step_body.
  intros (b & g1 & _ & Hrest)%Rand_bind_Ok.
  apply Rand_bind_Ok in Hrest as ([[c T] end_time] & g2 & _ & Hrest).
  apply Rand_bind_Ok in Hrest as (u & g3 & [Hprint _]%lift_Ok & _).
  unfold run_simulation in Hprint. by rewrite Hfail in Hprint.
Qed.

(** Every step that returns appends one accuracy and one pair of weight
    matrices. *)
Lemma learning_step_body_appends cell_types_ih cell_types_ho learning_step
    hist (g g' : G) hist' :
  learning_step_body num_inputs num_hidden num_outputs
    train_patterns train_targets transient
    cell_types_ih cell_types_ho learning_step hist g = Ok (hist', g') →
  length (train_accuracies hist') = S (length (train_accuracies hist)) ∧
  length (ih_weights_history hist') = S (length (ih_weights_history hist)) ∧
  length (ho_weights_history hist') = S (length (ho_weights_history hist)).
Proof.
  unfold learning_step_body.
  intros (b & g1 & _ & Hrest)%Rand_bind_Ok.
  apply Rand_bind_Ok in Hrest as ([[c T] end_time] & g2 & _ & Hrest).
  apply Rand_bind_Ok in Hrest as (u & g3 & _ & Hrest).
  apply Rand_bind_Ok in Hrest as ([ihw how] & g4 & _ & Hrest).
  apply Rand_bind_Ok in Hrest as ([[[time_us ia] ha] oa] & g5 & _ & Hrest).
  apply Rand_bind_Ok in Hrest as ([accuracy accs] & g6 & _ & Hrest).
  apply mret_Ok in Hrest as [-> _]. simpl.
  rewrite !length_app. simpl. lia.
Qed.

(** A run that returns has completed all the steps. *)
Lemma run_learning_experiment_history (g g' : G) hist :
  run_learning_experiment num_inputs num_hidden num_outputs LEARNING_STEPS
    train_patterns train_targets transient g = Ok (hist, g') →
  length (train_accuracies hist) = LEARNING_STEPS ∧
  length (ih_weights_history hist) = S LEARNING_STEPS ∧
  length (ho_weights_history hist) = S LEARNING_STEPS.
Proof.
  unfold run_learning_experiment.
  intros ([ih ho] & g1 & _ & Hrest)%Rand_bind_Ok.
  apply Rand_bind_Ok in Hrest as (ih0 & g2 & _ & Hrest).
  apply Rand_bind_Ok in Hrest as (ho0 & g3 & _ & Hrest).
  apply Rand_bind_Ok in Hrest as (hist1 & g4 & Hloop & Hrest).
  apply Rand_bind_Ok in Hrest as (last_acc & g5 & _ & [-> _]%mret_Ok).
  revert Hloop.
  apply (for_range_inv
           (λ n h, length (train_accuracies h) = n ∧
                   length (ih_weights_history h) = S n ∧
                   length (ho_weights_history h) = S n)); [| done].
  intros i s g6 s' g6' _ (Ha & Hi & Ho) Hstep.
  apply learning_step_body_appends in Hstep as (-> & -> & ->). lia.
Qed.

(** With a solver that fails, a run of at least one step returns no
    history. *)
Lemma run_learning_experiment_failure (g : G) :
  (∀ circuit time_step end_time, transient circuit time_step end_time = None) →
  0 < LEARNING_STEPS →
  ∀ hist g',
    run_learning_experiment num_inputs num_hidden num_outputs LEARNING_STEPS
      train_patterns train_targets transient g ≠ Ok (hist, g').
Proof.
  intros Hfail Hsteps hist g'. unfold run_learning_experiment.
  intros ([ih ho] & g1 & _ & Hrest)%Rand_bind_Ok.
  apply Rand_bind_Ok in Hrest as (ih0 & g2 & _ & Hrest).
  apply Rand_bind_Ok in Hrest as (ho0 & g3 & _ & Hrest).
  apply Rand_bind_Ok in Hrest as (hist1 & g4 & Hloop & _).
  unfold for_range in Hloop.
  destruct LEARNING_STEPS as [|n]; [lia |]. simpl in Hloop.
  apply Rand_bind_Ok in Hloop as (hist2 & g5 & Hstep & _).
  by eapply learning_step_body_failure.
Qed.

End ExperimentFacts.

(** C1. The claim that a simulation failure never halts the run, and only
    degrades the values appended for the step to placeholders, fails on the
    code. With two inputs, two hidden and two output neurons, one training
    pattern and one learning step, a solver failure ends the run with
    [AttributeError]: the loop that prints the node voltages reads
    [analysis.nodes] of the failure marker before the extraction that
    would substitute the placeholders is reached, and no history is
    returned. *)
Theorem C1_simulation_failure_halts_run :
  @Experiment.run_learning_experiment nat counting_numpy 2 2 2 1
    [[1; 0]%Z] [[1; 0]%Z] failing_solver 0
  = Raise AttributeError.
Proof. vm_compute. reflexivity. Qed.

(** With a solver that returns a result, the same run completes its step
    and returns one accuracy and the two histories of weights. *)
Example run_with_empty_solver :
  ∃ hist g',
    @Experiment.run_learning_experiment nat counting_numpy 2 2 2 1
      [[1; 0]%Z] [[1; 0]%Z] empty_solver 0 = Ok (hist, g') ∧
    length (Experiment.train_accuracies hist) = 1 ∧
    length (Experiment.ih_weights_history hist) = 2.
Proof.
  assert (∃ r, @Experiment.run_learning_experiment nat counting_numpy 2 2 2 1
                 [[1; 0]%Z] [[1; 0]%Z] empty_solver 0 = Ok r) as [[hist g'] Hrun].
  { vm_compute. eexists. reflexivity. }
  exists hist, g'. split; [exact Hrun |].
  apply run_learning_experiment_history in Hrun as (? & ? & _). done.
Qed.

(** With no learning step configured, the final report reads
    [train_accuracies[-1]] of an empty list and the run ends with
    [IndexError]. *)
Example run_without_steps :
  @Experiment.run_learning_experiment nat counting_numpy 2 2 2 0
    [[1; 0]%Z] [[1; 0]%Z] empty_solver 0
  = Raise IndexError.
Proof. vm_compute. reflexivity. Qed.

(** ** Stimulus: presentation, time axis and the sources added *)

Section StimulusMore.
Import Stimulus.
Local Open Scope Q_scope.

Lemma final_inputs_at num_inputs samples i ch k p t j :
  final_inputs num_inputs samples !! i = Some ch →
  samples !! k = Some (p, t) → (j < 10)%nat →
  ch !! (1 + 10 * k + j)%nat = input_block (default 0%Z (p !! i)) !! j.
Proof.
  unfold final_inputs. rewrite list_lookup_fmap. intros Hch Hk Hj.
  destruct (seq 0 num_inputs !! i) as [i'|] eqn:Hi; [| done].
  apply lookup_seq in Hi as [-> _].
  change (Some ([0.0] ++ input_values samples i ++ [0.0]) = Some ch) in Hch.
  injection Hch as <-.
  by apply (lookup_final_channel
              (λ '(p, _), input_block (default 0%Z (p !! i)))
              samples k (p, t) j); [intros [? ?] | |].
Qed.

Lemma final_errors_at num_outputs learning_step samples o ch k p t j :
  final_errors num_outputs learning_step samples !! o = Some ch →
  samples !! k = Some (p, t) → (j < 10)%nat →
  ch !! (1 + 10 * k + j)%nat
  = error_block learning_step (default 0%Z (t !! o)) !! j.
Proof.
  unfold final_errors. rewrite list_lookup_fmap. intros Hch Hk Hj.
  destruct (seq 0 num_outputs !! o) as [o'|] eqn:Ho; [| done].
  apply lookup_seq in Ho as [-> _].
  change (Some ([0.0] ++ error_values learning_step samples o ++ [0.0])
          = Some ch) in Hch.
  injection Hch as <-.
  by apply (lookup_final_channel
              (λ '(_, t), error_block learning_step (default 0%Z (t !! o)))
              samples k (p, t) j); [intros [? ?] | |].
Qed.

Lemma final_mod_at learning_step (samples : list (list Z * list Z)) k x j :
  samples !! k = Some x → (j < 10)%nat →
  final_mod learning_step samples !! (1 + 10 * k + j)%nat
  = mod_block learning_step !! j.
Proof.
  intros Hk Hj.
  by apply (lookup_final_channel (λ _, mod_block learning_step) samples k x j).
Qed.

Lemma phase_samples_cases k ph j :
  j ∈ phase_samples k ph →
  j = (1 + 10 * k + phase_start ph)%nat ∨
  j = (1 + 10 * k + S (phase_start ph))%nat.
Proof.
  unfold phase_samples. rewrite !elem_of_cons, elem_of_nil. lia.
Qed.

End StimulusMore.

(** X1. For every training pattern: during Present an input line is driven
    to 18 V where the pattern bit is positive and to 0 where it is not,
    while the error lines and the neighbor-modulation line are at 0; during
    Forward every line is at 0; and the input lines stay at 0 during
    ErrorFeedback and Update. *)
Theorem stimulus_present_and_forward num_inputs num_outputs
    train_patterns train_targets learning_step :
  Forall (λ p, num_inputs ≤ length p) train_patterns →
  Forall (λ t, num_outputs ≤ length t) train_targets →
  ∃ s,
    Stimulus.waveforms num_inputs num_outputs train_patterns train_targets
      learning_step = Ok s ∧
    ∀ k pattern target,
      zip train_patterns train_targets !! k = Some (pattern, target) →
      present_ok pattern s k ∧ quiet s k Forward ∧
      inputs_off s k ErrorFeedback ∧ inputs_off s k Update.
Proof.
  intros Hp Ht.
  destruct (waveforms_spec num_inputs num_outputs train_patterns train_targets
              learning_step Hp Ht)
    as (s & Hs & _ & _ & _ & Hin & Herr & Hmod).
  exists s. split; [done |].
  set (samples := zip train_patterns train_targets) in *.
  intros k p t Hk.
  assert (∀ i ch j, Stimulus.V_inputs s !! i = Some ch → j < 10 →
            ch !! (1 + 10 * k + j)
            = input_block (default 0%Z (p !! i)) !! j) as Hin_at.
  { intros i ch j Hch Hj. rewrite Hin in Hch.
    by apply (final_inputs_at num_inputs samples i ch k p t j). }
  assert (∀ o ch j, Stimulus.V_errors s !! o = Some ch → j < 10 →
            ch !! (1 + 10 * k + j)
            = error_block learning_step (default 0%Z (t !! o)) !! j) as Herr_at.
  { intros o ch j Hch Hj. rewrite Herr in Hch.
    by apply (final_errors_at num_outputs learning_step samples o ch k p t j). }
  assert (∀ j, j < 10 →
            Stimulus.V_neighbor_mod s !! (1 + 10 * k + j)
            = mod_block learning_step !! j) as Hmod_at.
  { intros j Hj. rewrite Hmod.
    by apply (final_mod_at learning_step samples k (p, t) j). }
  split_and!.
  - intros j Hj. apply phase_samples_cases in Hj.
    split_and!.
    + intros i ch b Hch Hb.
      destruct Hj as [-> | ->].
      * rewrite (Hin_at i ch _ Hch) by (simpl; lia). rewrite Hb. simpl.
        eexists. split; [reflexivity |].
        destruct (0 <? b)%Z; reflexivity.
      * rewrite (Hin_at i ch _ Hch) by (simpl; lia). rewrite Hb. simpl.
        eexists. split; [reflexivity |].
        destruct (0 <? b)%Z; reflexivity.
    + intros o ch Hch. destruct Hj as [-> | ->].
      * rewrite (Herr_at o ch _ Hch) by (simpl; lia). simpl.
        eexists. split; reflexivity.
      * rewrite (Herr_at o ch _ Hch) by (simpl; lia). simpl.
        eexists. split; reflexivity.
    + destruct Hj as [-> | ->].
      * rewrite (Hmod_at _) by (simpl; lia). simpl. eexists. split; reflexivity.
      * rewrite (Hmod_at _) by (simpl; lia). simpl. eexists. split; reflexivity.
  - intros j Hj. apply phase_samples_cases in Hj.
    split_and!.
    + intros i ch Hch. destruct Hj as [-> | ->].
      * rewrite (Hin_at i ch _ Hch) by (simpl; lia). simpl.
        eexists. split; reflexivity.
      * rewrite (Hin_at i ch _ Hch) by (simpl; lia). simpl.
        eexists. split; reflexivity.
    + intros o ch Hch. destruct Hj as [-> | ->].
      * rewrite (Herr_at o ch _ Hch) by (simpl; lia). simpl.
        eexists. split; reflexivity.
      * rewrite (Herr_at o ch _ Hch) by (simpl; lia). simpl.
        eexists. split; reflexivity.
    + destruct Hj as [-> | ->].
      * rewrite (Hmod_at _) by (simpl; lia). simpl. eexists. split; reflexivity.
      * rewrite (Hmod_at _) by (simpl; lia). simpl. eexists. split; reflexivity.
  - intros j Hj i ch Hch. apply phase_samples_cases in Hj.
    destruct Hj as [-> | ->].
    + rewrite (Hin_at i ch _ Hch) by (simpl; lia). simpl. eexists. split; reflexivity.
    + rewrite (Hin_at i ch _ Hch) by (simpl; lia). simpl. eexists. split; reflexivity.
  - intros j Hj i ch Hch. apply phase_samples_cases in Hj.
    destruct Hj as [-> | ->].
    + rewrite (Hin_at i ch _ Hch) by (simpl; lia). simpl. eexists. split; reflexivity.
    + rewrite (Hin_at i ch _ Hch) by (simpl; lia). simpl. eexists. split; reflexivity.
Qed.

Lemma stimulus_present_and_forward_witness :
  Forall (λ p : list Z, 2 ≤ length p) [[1; 0]%Z] ∧
  Forall (λ t : list Z, 1 ≤ length t) [[1%Z]] ∧
  ∃ s, Stimulus.waveforms 2 1 [[1; 0]%Z] [[1%Z]] 0 = Ok s ∧
       present_ok [1; 0]%Z s 0 ∧ quiet s 0 Forward.
Proof.
  assert (Forall (λ p : list Z, 2 ≤ length p) [[1; 0]%Z]) as Hp.
  { repeat constructor. }
  assert (Forall (λ t : list Z, 1 ≤ length t) [[1%Z]]) as Ht.
  { repeat constructor. }
  split_and!; try done.
  destruct (stimulus_present_and_forward 2 1 [[1; 0]%Z] [[1%Z]] 0 Hp Ht)
    as (s & Hs & Hproto).
  exists s. split; [exact Hs |].
  destruct (Hproto 0 [1; 0]%Z [1%Z] eq_refl) as (Hpres & Hfwd & _).
  split; done.
Defined.

Section StimulusTime.
Import Stimulus.
Local Open Scope Q_scope.

Lemma last_stamps ds : ∀ t,
  ds ≠ [] → last (stamps t ds) = Some (fold_left Qplus ds t).
Proof.
  induction ds as [|d ds IH]; intros t Hne; [done |].
  destruct ds as [|d' ds]; [done |].
  change (stamps t (d :: d' :: ds))
    with ((t + d) :: stamps (t + d) (d' :: ds)).
  rewrite last_cons. rewrite (IH (t + d)) by done. done.
Qed.

Lemma fold_left_Qplus ds : ∀ t,
  fold_left Qplus ds t == t + fold_left Qplus ds 0.
Proof.
  induction ds as [|d ds IH]; intros t; simpl; [ring |].
  rewrite (IH (t + d)), (IH (0 + d)). ring.
Qed.

Lemma durations_total t : fold_left Qplus durations t == t + 25e-6.
Proof.
  rewrite fold_left_Qplus. apply Qplus_inj_l. by vm_compute.
Qed.

(** The time stamps start at 0 and end at the current time, 25 us per
    pattern after the start. *)
Lemma process_samples_time learning_step samples : ∀ s s',
  process_samples learning_step samples s = Ok s' →
  Forall (λ '(p, t), length (V_inputs s) ≤ length p ∧
                     length (V_errors s) ≤ length t) samples →
  last (T s) = Some (t_current s) →
  last (T s') = Some (t_current s') ∧
  head (T s') = head (T s) ∧
  t_current s' == t_current s + 25e-6 * inject_Z (Z.of_nat (length samples)).
Proof.
  induction samples as [|[p t] samples IH]; intros s s' Hrun Hwf Hlast.
  - simpl in Hrun. injection Hrun as <-. split_and!; [done | done |].
    simpl. set (c := 25e-6). ring.
  - apply Forall_cons in Hwf as [Hpt Hrest]. simpl in Hpt.
    destruct Hpt as [Hp Ht]. cbn [process_samples] in Hrun.
    rewrite (process_sample_spec learning_step p t s Hp Ht) in Hrun.
    cbn [mbind result_bind] in Hrun.
    apply IH in Hrun as (Hl & Hh & Ht').
    + split_and!; [done | |].
      * rewrite Hh. cbn [T]. destruct (T s); [done | done].
      * rewrite Ht'. cbn [t_current]. rewrite durations_total.
        rewrite length_cons, Nat2Z.inj_succ, <- Z.add_1_r, inject_Z_plus.
        set (c := 25e-6). ring.
    + cbn [V_inputs V_errors]. eapply Forall_impl; [exact Hrest |].
      intros [p' t']. rewrite !length_zip_with. lia.
    + cbn [T t_current]. rewrite last_app.
      by rewrite (last_stamps durations (t_current s)).
Qed.

End StimulusTime.

(** X2. For a training set of well-sized pattern/target pairs the
    generator returns time stamps that start at 0 and end at the end time
    it returns, which is positive: the end time handed to the solver is
    the last stamp of the sources. *)
Theorem stimulus_end_time num_inputs num_outputs circuit
    input_nodes output_nodes error_nodes train_patterns train_targets
    learning_step :
  Forall (λ p, num_inputs ≤ length p) train_patterns →
  Forall (λ t, num_outputs ≤ length t) train_targets →
  num_inputs ≤ length input_nodes →
  ∃ c' T end_time,
    Stimulus.generate_simulation_signals num_inputs num_outputs circuit
      input_nodes output_nodes error_nodes train_patterns train_targets
      learning_step = Ok (c', T, end_time) ∧
    head T = Some 0.0%Q ∧ last T = Some end_time ∧ (0 < end_time)%Q.
Proof.
  intros Hp Ht Hnodes.
  pose proof (Forall_zip_sizes _ _ _ _ Hp Ht) as Hwf.
  destruct (process_samples_spec learning_step
              (zip train_patterns train_targets)
              (Stimulus.initial_signals num_inputs num_outputs))
    as (s & Hrun & _ & _ & _ & Hli & Hle & _).
  { simpl. by rewrite !length_replicate. }
  pose proof (process_samples_time learning_step _ _ _ Hrun) as Htime.
  destruct Htime as (Hlast & Hhead & Hend).
  { simpl. by rewrite !length_replicate. }
  { done. }
  assert (Stimulus.waveforms num_inputs num_outputs train_patterns
            train_targets learning_step
          = Ok {| Stimulus.T := Stimulus.T s ++ [Stimulus.t_current s + 5e-6]%Q;
                  Stimulus.t_current := (Stimulus.t_current s + 5e-6)%Q;
                  Stimulus.V_inputs :=
                    (λ ch, ch ++ [0.0%Q]) <$> Stimulus.V_inputs s;
                  Stimulus.V_errors :=
                    (λ ch, ch ++ [0.0%Q]) <$> Stimulus.V_errors s;
                  Stimulus.V_neighbor_mod :=
                    Stimulus.V_neighbor_mod s ++ [0.0%Q] |}) as Hw.
  { unfold Stimulus.waveforms. rewrite Hrun. cbn [mbind result_bind].
    apply sample_rest. }
  edestruct (generate_simulation_signals_spec num_inputs num_outputs circuit
               input_nodes output_nodes error_nodes train_patterns
               train_targets learning_step _ Hw)
    as (c' & Hgen & _).
  { cbn [Stimulus.V_inputs]. rewrite length_fmap, Hli. simpl.
    by rewrite length_replicate. }
  { cbn [Stimulus.V_errors]. rewrite length_fmap, Hle. simpl.
    by rewrite length_replicate. }
  { done. }
  eexists _, _, _. split; [exact Hgen |].
  cbn [Stimulus.T Stimulus.t_current]. split_and!.
  - simpl in Hhead. destruct (Stimulus.T s); [done | done].
  - by rewrite last_snoc.
  - rewrite Hend. simpl.
    set (n := length (zip train_patterns train_targets)).
    assert (0 <= 25e-6 * inject_Z (Z.of_nat n))%Q as Hn.
    { apply Qmult_le_0_compat; [by vm_compute |].
      change 0%Q with (inject_Z 0). rewrite <- Zle_Qle. lia. }
    assert (0 < 5e-6)%Q as Hrest by (by vm_compute).
    assert (0.0 == 0)%Q as H0 by (by vm_compute).
    revert Hn Hrest H0.
    generalize (25e-6 * inject_Z (Z.of_nat n))%Q, 5e-6%Q, 0.0%Q.
    intros a r z Hn Hrest H0. lra.
Qed.

Lemma stimulus_end_time_witness :
  Forall (λ p : list Z, 1 ≤ length p) [[1%Z]] ∧
  Forall (λ t : list Z, 1 ≤ length t) [[1%Z]] ∧
  1 ≤ length ["input_0"] ∧
  ∃ c' T end_time,
    Stimulus.generate_simulation_signals 1 1 empty_circuit
      ["input_0"] ["output_0"] ["error_0"] [[1%Z]] [[1%Z]] 0
    = Ok (c', T, end_time) ∧
    last T = Some end_time ∧ (0 < end_time)%Q.
Proof.
  assert (Forall (λ p : list Z, 1 ≤ length p) [[1%Z]]) as Hp.
  { repeat constructor. }
  assert (1 ≤ length ["input_0"]) as Hn by (simpl; lia).
  split_and!; try done.
  destruct (stimulus_end_time 1 1 empty_circuit ["input_0"] ["output_0"]
              ["error_0"] [[1%Z]] [[1%Z]] 0 Hp Hp Hn)
    as (c' & T & t & Hgen & _ & Hlast & Hend).
  exists c', T, t. split_and!; [exact Hgen | exact Hlast | exact Hend].
Defined.

Section StimulusErrors.
Import Stimulus.
Local Open Scope Q_scope.

Lemma index_raise {A} (l : list A) i e : index l i = Raise e → e = IndexError.
Proof. unfold index. destruct (l !! i); congruence. Qed.

Lemma index_last_raise {A} (l : list A) e :
  index_last l = Raise e → e = IndexError.
Proof. unfold index_last. destruct (last l); congruence. Qed.

Lemma append_all_raise f i chans e :
  (∀ k ch e, f k ch = Raise e → e = IndexError) →
  append_all f i chans = Raise e → e = IndexError.
Proof.
  intros Hf. revert i. induction chans as [|ch chans IH]; intros i; simpl;
    [done |].
  destruct (f i ch) eqn:Ef; simpl; [| intros [= <-]; eauto].
  destruct (append_all f (S i) chans) eqn:Ea; simpl; [done |].
  intros [= <-]. eauto.
Qed.

Lemma append_all_length f i chans r :
  append_all f i chans = Ok r → length r = length chans.
Proof.
  revert i r. induction chans as [|ch chans IH]; intros i r; simpl.
  - by intros [= <-].
  - destruct (f i ch); simpl; [| done].
    destruct (append_all f (S i) chans) eqn:Ea; simpl; [| done].
    intros [= <-]. simpl. by rewrite (IH _ _ Ea).
Qed.

Lemma append_all_index_Ok {X} (l : list X) (val : X → Q) chans : ∀ i r,
  append_all (λ k _, x ← index l k; Ok (val x)) i chans = Ok r →
  chans ≠ [] → (i + length chans ≤ length l)%nat.
Proof.
  induction chans as [|ch chans IH]; intros i r Hr Hne; [done |].
  simpl in Hr. destruct (index l i) as [x|] eqn:Ex; simpl in Hr; [| done].
  apply index_Ok, lookup_lt_Some in Ex.
  destruct (append_all _ (S i) chans) eqn:Ea; simpl in Hr; [| done].
  destruct chans as [|ch' chans]; [simpl; lia |].
  apply IH in Ea; [| done]. simpl in *. lia.
Qed.

Lemma sample_raise dt v_in v_err v_mod s e :
  (∀ k ch e, v_in k ch = Raise e → e = IndexError) →
  (∀ k ch e, v_err k ch = Raise e → e = IndexError) →
  (∀ ch e, v_mod ch = Raise e → e = IndexError) →
  sample dt v_in v_err v_mod s = Raise e → e = IndexError.
Proof.
  intros Hin Herr Hmod. unfold sample.
  destruct (append_all v_in 0 _) eqn:E1; simpl;
    [| intros [= <-]; exact (append_all_raise _ _ _ _ Hin E1)].
  destruct (append_all v_err 0 _) eqn:E2; simpl;
    [| intros [= <-]; exact (append_all_raise _ _ _ _ Herr E2)].
  destruct (v_mod _) eqn:E3; simpl; [done |]. intros [= <-]. eauto.
Qed.

Lemma sample_Ok_inv dt v_in v_err v_mod s s' :
  sample dt v_in v_err v_mod s = Ok s' →
  (∃ r, append_all v_in 0 (V_inputs s) = Ok r) ∧
  (∃ r, append_all v_err 0 (V_errors s) = Ok r) ∧
  length (V_inputs s') = length (V_inputs s) ∧
  length (V_errors s') = length (V_errors s).
Proof.
  unfold sample.
  destruct (append_all v_in 0 _) eqn:E1; simpl; [| done].
  destruct (append_all v_err 0 _) eqn:E2; simpl; [| done].
  destruct (v_mod _) eqn:E3; simpl; [| done]. intros [= <-]. simpl.
  apply append_all_length in E1 as ?. apply append_all_length in E2 as ?.
  split_and!; eauto.
Qed.

(** Taking one step of a chain of samples. *)
Ltac sample_step H s E :=
  match type of H with
  | context [sample ?dt ?a ?b ?c ?s0] =>
      destruct (sample dt a b c s0) as [s|] eqn:E;
      cbn [mbind result_bind] in H
  end.

Ltac only_index_error :=
  intros; unfold zero, hold in *;
  repeat match goal with
         | H : (mbind _ ?r) = Raise _ |- _ =>
             destruct r eqn:?; cbn [mbind result_bind] in H
         | H : index _ _ = Raise _ |- _ => apply index_raise in H
         | H : index_last _ = Raise _ |- _ => apply index_last_raise in H
         end; congruence.

Lemma process_sample_raise learning_step pattern target s e :
  process_sample learning_step pattern target s = Raise e → e = IndexError.
Proof.
  unfold process_sample. intros H.
  sample_step H s1 E1; [| injection H as <-;
    eapply (sample_raise _ _ _ _ _ _ _ _ _ E1)].
  sample_step H s2 E2; [| injection H as <-;
    eapply (sample_raise _ _ _ _ _ _ _ _ _ E2)].
  sample_step H s3 E3; [| injection H as <-;
    eapply (sample_raise _ _ _ _ _ _ _ _ _ E3)].
  sample_step H s4 E4; [| injection H as <-;
    eapply (sample_raise _ _ _ _ _ _ _ _ _ E4)].
  sample_step H s5 E5; [| injection H as <-;
    eapply (sample_raise _ _ _ _ _ _ _ _ _ E5)].
  sample_step H s6 E6; [| injection H as <-;
    eapply (sample_raise _ _ _ _ _ _ _ _ _ E6)].
  sample_step H s7 E7; [| injection H as <-;
    eapply (sample_raise _ _ _ _ _ _ _ _ _ E7)].
  sample_step H s8 E8; [| injection H as <-;
    eapply (sample_raise _ _ _ _ _ _ _ _ _ E8)].
  sample_step H s9 E9; [| injection H as <-;
    eapply (sample_raise _ _ _ _ _ _ _ _ _ E9)].
  eapply (sample_raise _ _ _ _ _ _ _ _ _ H).
  Unshelve. all: only_index_error.
Qed.

Lemma process_sample_Ok_inv learning_step pattern target s s' :
  process_sample learning_step pattern target s = Ok s' →
  (length (V_inputs s) ≤ length pattern)%nat ∧
  (length (V_errors s) ≤ length target)%nat ∧
  length (V_inputs s') = length (V_inputs s) ∧
  length (V_errors s') = length (V_errors s).
Proof.
  unfold process_sample. intros H.
  sample_step H s1 E1; [| done]. sample_step H s2 E2; [| done].
  sample_step H s3 E3; [| done]. sample_step H s4 E4; [| done].
  sample_step H s5 E5; [| done]. sample_step H s6 E6; [| done].
  sample_step H s7 E7; [| done]. sample_step H s8 E8; [| done].
  sample_step H s9 E9; [| done].
  apply sample_Ok_inv in E1 as ([r1 Hr1] & _ & Hi1 & He1).
  apply sample_Ok_inv in E2 as (_ & _ & Hi2 & He2).
  apply sample_Ok_inv in E3 as (_ & _ & Hi3 & He3).
  apply sample_Ok_inv in E4 as (_ & _ & Hi4 & He4).
  apply sample_Ok_inv in E5 as (_ & [r5 Hr5] & Hi5 & He5).
  apply sample_Ok_inv in E6 as (_ & _ & Hi6 & He6).
  apply sample_Ok_inv in E7 as (_ & _ & Hi7 & He7).
  apply sample_Ok_inv in E8 as (_ & _ & Hi8 & He8).
  apply sample_Ok_inv in E9 as (_ & _ & Hi9 & He9).
  apply sample_Ok_inv in H as (_ & _ & Hi10 & He10).
  split_and!; [| | congruence | congruence].
  - destruct (Nat.eq_dec (length (V_inputs s)) 0%nat) as [Hz | Hnz]; [lia |].
    apply append_all_index_Ok in Hr1; [simpl in Hr1; lia |].
    intros Hnil. by rewrite Hnil in Hnz.
  - assert (length (V_errors s4) = length (V_errors s)) as Hlen by congruence.
    destruct (Nat.eq_dec (length (V_errors s4)) 0%nat) as [Hz | Hnz]; [lia |].
    apply append_all_index_Ok in Hr5; [simpl in Hr5; lia |].
    intros Hnil. by rewrite Hnil in Hnz.
Qed.

Lemma process_samples_raise learning_step samples : ∀ s e,
  process_samples learning_step samples s = Raise e → e = IndexError.
Proof.
  induction samples as [|[p t] samples IH]; intros s e; simpl; [done |].
  destruct (process_sample learning_step p t s) eqn:E; simpl.
  - apply IH.
  - intros [= <-]. by eapply process_sample_raise.
Qed.

Lemma process_samples_Ok_inv learning_step samples : ∀ s s',
  process_samples learning_step samples s = Ok s' →
  Forall (λ '(p, t), (length (V_inputs s) ≤ length p)%nat ∧
                     (length (V_errors s) ≤ length t)%nat) samples ∧
  length (V_inputs s') = length (V_inputs s) ∧
  length (V_errors s') = length (V_errors s).
Proof.
  induction samples as [|[p t] samples IH]; intros s s'; simpl.
  - intros [= <-]. split; [constructor | done].
  - destruct (process_sample learning_step p t s) as [s1|] eqn:E; simpl;
      [| done].
    intros Hrun. apply process_sample_Ok_inv in E as (Hp & Ht & Hi & He).
    apply IH in Hrun as (Hall & Hi' & He').
    split_and!; [| congruence | congruence].
    constructor; [done |].
    eapply Forall_impl; [exact Hall |]. intros [p' t']. rewrite Hi, He. done.
Qed.

Lemma add_input_sources_raise input_nodes Ts chans : ∀ n i c e,
  add_input_sources input_nodes Ts chans i n c = Raise e → e = IndexError.
Proof.
  induction n as [|n IH]; intros i c e; simpl; [done |].
  destruct (index input_nodes i) eqn:E1; simpl;
    [| intros [= <-]; by eapply index_raise].
  destruct (index chans i) eqn:E2; simpl;
    [| intros [= <-]; by eapply index_raise].
  apply IH.
Qed.

Lemma add_error_sources_raise Ts chans : ∀ n o c e,
  add_error_sources Ts chans o n c = Raise e → e = IndexError.
Proof.
  induction n as [|n IH]; intros o c e; simpl; [done |].
  destruct (index chans o) eqn:E2; simpl;
    [| intros [= <-]; by eapply index_raise].
  apply IH.
Qed.

Lemma add_input_sources_appends input_nodes Ts chans : ∀ n i c c',
  add_input_sources input_nodes Ts chans i n c = Ok c' →
  ∃ added, appends c c' added ∧ length added = (2 * n)%nat ∧
    ∀ k, (i ≤ k < i + n)%nat →
      ∃ node, input_nodes !! k = Some node ∧
        R ("R_input_" +:+ pretty k) ("V_input_" +:+ pretty k +:+ "_temp")
          node 100 ∈ added.
Proof.
  induction n as [|n IH]; intros i c c'; simpl.
  - intros [= <-]. exists []. split_and!; try done.
    + unfold appends. by rewrite app_nil_r.
    + intros; lia.
  - destruct (index input_nodes i) as [node|] eqn:E1; simpl; [| done].
    destruct (index chans i) as [ch|] eqn:E2; simpl; [| done].
    intros Hrun. apply IH in Hrun as (added & (He & Hm & Ht & Hr) & Hlen & Hin).
    simpl in He, Hm, Ht, Hr. rewrite <- !app_assoc in He.
    eexists (_ :: _ :: added). split_and!.
    + split_and!; [exact He | done | done | done].
    + simpl. lia.
    + intros k Hk. destruct (decide (k = i)) as [-> | Hne].
      * exists node. split; [by apply index_Ok |].
        apply list_elem_of_further. by constructor.
      * destruct (Hin k) as (node' & Hn & Hel); [lia |].
        exists node'. split; [done |]. by do 2 apply list_elem_of_further.
Qed.

Lemma add_input_sources_Ok_inv input_nodes Ts chans : ∀ n i c c',
  add_input_sources input_nodes Ts chans i n c = Ok c' →
  n = 0%nat ∨ (i + n ≤ length input_nodes)%nat.
Proof.
  induction n as [|n IH]; intros i c c'; simpl; [by left |].
  destruct (index input_nodes i) as [node|] eqn:E1; simpl; [| done].
  destruct (index chans i) as [ch|] eqn:E2; simpl; [| done].
  intros Hrun. right. apply index_Ok, lookup_lt_Some in E1.
  apply IH in Hrun as [-> | Hle]; lia.
Qed.

Lemma add_error_sources_appends Ts chans : ∀ n o c c',
  add_error_sources Ts chans o n c = Ok c' →
  ∃ added, appends c c' added ∧ length added = n.
Proof.
  induction n as [|n IH]; intros o c c'; simpl.
  - intros [= <-]. exists []. split; [| done].
    unfold appends. by rewrite app_nil_r.
  - destruct (index chans o) as [ch|] eqn:E2; simpl; [| done].
    intros Hrun. apply IH in Hrun as (added & (He & Hm & Ht & Hr) & Hlen).
    simpl in He, Hm, Ht, Hr. rewrite <- !app_assoc in He.
    eexists (_ :: added). split; [| simpl; lia].
    split_and!; [exact He | done | done | done].
Qed.

Lemma waveforms_raise num_inputs num_outputs train_patterns train_targets
    learning_step e :
  waveforms num_inputs num_outputs train_patterns train_targets learning_step
  = Raise e → e = IndexError.
Proof.
  unfold waveforms.
  destruct (process_samples _ _ _) eqn:E; simpl.
  - by rewrite sample_rest.
  - intros [= <-]. by eapply process_samples_raise.
Qed.

Lemma waveforms_Ok_inv num_inputs num_outputs train_patterns train_targets
    learning_step s :
  waveforms num_inputs num_outputs train_patterns train_targets learning_step
  = Ok s →
  Forall (λ '(p, t), (num_inputs ≤ length p)%nat ∧
                     (num_outputs ≤ length t)%nat)
    (zip train_patterns train_targets).
Proof.
  unfold waveforms.
  destruct (process_samples _ _ _) eqn:E; simpl; [| done]. intros _.
  apply process_samples_Ok_inv in E as (Hall & _). simpl in Hall.
  by rewrite !length_replicate in Hall.
Qed.

End StimulusErrors.

(** X3. When a pattern of the training set has fewer entries than there are
    input lines, or a target fewer entries than there are output lines, or
    fewer input nodes are given than there are input lines, the generator
    raises [IndexError]. *)
Theorem stimulus_size_check num_inputs num_outputs circuit
    input_nodes output_nodes error_nodes train_patterns train_targets
    learning_step :
  Exists (short_sample num_inputs num_outputs)
    (zip train_patterns train_targets) ∨
  (length input_nodes < num_inputs) →
  Stimulus.generate_simulation_signals num_inputs num_outputs circuit
    input_nodes output_nodes error_nodes train_patterns train_targets
    learning_step = Raise IndexError.
Proof.
  intros Hbad.
  destruct (Stimulus.generate_simulation_signals _ _ _ _ _ _ _ _ _)
    as [[[c' T] t]|e] eqn:Hgen.
  - exfalso. unfold Stimulus.generate_simulation_signals in Hgen.
    destruct (Stimulus.waveforms _ _ _ _ _) as [s|] eqn:Hw; [| done].
    cbn [mbind result_bind] in Hgen.
    destruct (Stimulus.add_input_sources _ _ _ _ _ _) as [c1|] eqn:H1;
      [| done].
    destruct Hbad as [Hbad | Hbad].
    + apply waveforms_Ok_inv in Hw.
      apply Exists_exists in Hbad as ([p tg] & Hin & Hshort).
      rewrite Forall_forall in Hw. specialize (Hw _ Hin). simpl in Hw.
      unfold short_sample in Hshort. simpl in Hshort. lia.
    + apply add_input_sources_Ok_inv in H1. lia.
  - f_equal. unfold Stimulus.generate_simulation_signals in Hgen.
    destruct (Stimulus.waveforms _ _ _ _ _) as [s|] eqn:Hw;
      cbn [mbind result_bind] in Hgen;
      [| injection Hgen as <-; by eapply waveforms_raise].
    destruct (Stimulus.add_input_sources _ _ _ _ _ _) as [c1|] eqn:H1;
      cbn [mbind result_bind] in Hgen;
      [| injection Hgen as <-; by eapply add_input_sources_raise].
    destruct (Stimulus.add_error_sources _ _ _ _ _) as [c2|] eqn:H2;
      cbn [mbind result_bind] in Hgen; [done |].
    injection Hgen as <-. by eapply add_error_sources_raise.
Qed.

Lemma stimulus_size_check_witness :
  Stimulus.generate_simulation_signals 2 1 empty_circuit
    ["input_0"; "input_1"] ["output_0"] ["error_0"] [[1%Z]] [[1%Z]] 0
  = Raise IndexError.
Proof.
  apply (stimulus_size_check 2 1 empty_circuit ["input_0"; "input_1"]
           ["output_0"] ["error_0"] [[1%Z]] [[1%Z]] 0).
  left. apply Exists_cons_hd. left. simpl. lia.
Defined.

(** X4. The generator only appends to the circuit it is given: the elements
    that were there stay in place, the device models, the title and the
    solver options are unchanged, and [2 * num_inputs + num_outputs + 2]
    elements are added. Among them are, for every input line, a 100 Ohm
    resistor from the internal node of its source to the input node given
    for it, and a 100 Ohm resistor from the internal node of the
    neighbor-modulation source to [v_neighbor_modulate]. *)
Theorem stimulus_only_appends num_inputs num_outputs circuit
    input_nodes output_nodes error_nodes train_patterns train_targets
    learning_step c' T end_time :
  Stimulus.generate_simulation_signals num_inputs num_outputs circuit
    input_nodes output_nodes error_nodes train_patterns train_targets
    learning_step = Ok (c', T, end_time) →
  ∃ added,
    appends circuit c' added ∧
    length added = 2 * num_inputs + num_outputs + 2 ∧
    (∀ i, i < num_inputs →
       ∃ node, input_nodes !! i = Some node ∧
         R ("R_input_" +:+ pretty i) ("V_input_" +:+ pretty i +:+ "_temp")
           node 100 ∈ added) ∧
    R "R_neighbor_mod" "V_neighbor_mod_temp" "v_neighbor_modulate" 100
    ∈ added.
Proof.
  unfold Stimulus.generate_simulation_signals. intros Hgen.
  destruct (Stimulus.waveforms _ _ _ _ _) as [s|] eqn:Hw; [| done].
  cbn [mbind result_bind] in Hgen.
  destruct (Stimulus.add_input_sources _ _ _ _ _ _) as [c1|] eqn:H1;
    [| done].
  cbn [mbind result_bind] in Hgen.
  destruct (Stimulus.add_error_sources _ _ _ _ _) as [c2|] eqn:H2; [| done].
  cbn [mbind result_bind] in Hgen. injection Hgen as <- <- <-.
  apply add_input_sources_appends
    in H1 as (added1 & (He1 & Hm1 & Ht1 & Hr1) & Hlen1 & Hin1).
  apply add_error_sources_appends
    in H2 as (added2 & (He2 & Hm2 & Ht2 & Hr2) & Hlen2).
  eexists (added1 ++ added2 ++ [_; _]). split_and!.
  - unfold appends. simpl. rewrite He2, He1, <- !app_assoc.
    split_and!; [reflexivity | congruence | congruence | congruence].
  - rewrite !length_app. simpl. lia.
  - intros i Hi. destruct (Hin1 i) as (node & Hn & Hel); [lia |].
    exists node. split; [done |]. apply elem_of_app. by left.
  - rewrite !elem_of_app. right. right.
    apply list_elem_of_further. by constructor.
Qed.

Lemma stimulus_only_appends_witness :
  ∃ c' T end_time added,
    Stimulus.generate_simulation_signals 1 1 empty_circuit
      ["input_0"] ["output_0"] ["error_0"] [[1%Z]] [[1%Z]] 0
    = Ok (c', T, end_time) ∧
    appends empty_circuit c' added ∧ length added = 5.
Proof.
  assert (∃ r, Stimulus.generate_simulation_signals 1 1 empty_circuit
                 ["input_0"] ["output_0"] ["error_0"] [[1%Z]] [[1%Z]] 0
               = Ok r) as [[[c' T] t] Hgen].
  { eexists. vm_compute. reflexivity. }
  destruct (stimulus_only_appends 1 1 empty_circuit ["input_0"]
              ["output_0"] ["error_0"] [[1%Z]] [[1%Z]] 0 c' T t Hgen)
    as (added & Happ & Hlen & _).
  exists c', T, t, added.
  split; [exact Hgen |]. split; [exact Happ | exact Hlen].
Defined.

(** ** Topology: bounded subsets and accepted sizes *)

Section RandMore.
Context {G : Type} `{NumPy G}.

Lemma Rand_bind_Raise {A B} (m : Rand G A) (f : A → Rand G B) g e :
  m g = Raise e → (m ≫= f) g = Raise e.
Proof. intros Hm. unfold mbind, Rand_bind. by rewrite Hm. Qed.

Lemma Rand_bind_step {A B} (m : Rand G A) (f : A → Rand G B) g a g1 :
  m g = Ok (a, g1) → (m ≫= f) g = f a g1.
Proof. intros Hm. unfold mbind, Rand_bind. by rewrite Hm. Qed.

(** A loop whose body raises the measure [mu] of the state by at most [k]
    raises it by at most [k] per iteration. *)
Lemma for_each_budget {X St} (mu : St → nat) (k : nat) (l : list X)
    (body : X → St → Rand G St) :
  (∀ x s g s' g', x ∈ l → body x s g = Ok (s', g') → mu s' ≤ mu s + k) →
  ∀ s g s' g', for_each l body s g = Ok (s', g') →
               mu s' ≤ mu s + k * length l.
Proof.
  induction l as [|x l IH]; intros Hbody s g s' g'; simpl.
  - intros [-> _]%mret_Ok. lia.
  - intros (s1 & g1 & Hx & Hl)%Rand_bind_Ok.
    apply Hbody in Hx; [| by constructor].
    apply IH in Hl; [lia |].
    intros y s2 g2 s2' g2' Hy. apply Hbody. by apply list_elem_of_further.
Qed.

End RandMore.

Lemma length_filter_insert {A} (P : A → Prop) `{∀ x, Decision (P x)}
    (l : list A) i x old :
  l !! i = Some old →
  length (filter P (<[i := x]> l)) + (if decide (P old) then 1 else 0)
  = length (filter P l) + (if decide (P x) then 1 else 0).
Proof.
  revert i. induction l as [|y l IH]; intros [|i] Hi; simplify_eq/=.
  - rewrite !filter_cons. repeat case_decide; simpl; lia.
  - rewrite !filter_cons. specialize (IH i Hi).
    destruct (decide (P y)); simpl; lia.
Qed.

Lemma count_in_column_insert (u w : CellType) m r c row c0 :
  m !! r = Some row → c < length row →
  count_in_column u (<[r := <[c := w]> row]> m) c0
  ≤ count_in_column u m c0 + (if decide (w = u ∧ c = c0) then 1 else 0).
Proof.
  intros Hr Hc. unfold count_in_column.
  pose proof (length_filter_insert (λ row, row !! c0 = Some u) m r
                (<[c := w]> row) row Hr) as Heq.
  cbv beta in Heq.
  destruct (decide (c = c0)) as [-> | Hne].
  - rewrite list_lookup_insert_eq in Heq by done.
    repeat case_decide; simplify_eq; try lia; exfalso; intuition congruence.
  - rewrite list_lookup_insert_ne in Heq by done.
    repeat case_decide; simplify_eq; try lia; exfalso; intuition congruence.
Qed.

Lemma length_filter_none {A} (P : A → Prop) `{∀ x, Decision (P x)}
    (l : list A) :
  Forall (λ x, ¬ P x) l → length (filter P l) = 0.
Proof.
  induction 1 as [|x l Hx Hl IH]; [done |].
  by rewrite filter_cons_False.
Qed.

Lemma count_cells_np_full (u w : CellType) rows cols :
  u ≠ w → count_cells u (np_full rows cols w) = 0.
Proof.
  intros Hne. unfold count_cells, np_full.
  apply length_filter_none, Forall_forall.
  intros x Hx. apply elem_of_concat in Hx as (row & Hx & Hrow).
  apply elem_of_replicate in Hrow as [-> _].
  apply elem_of_replicate in Hx as [-> _]. congruence.
Qed.

Lemma count_in_column_np_full (u w : CellType) rows cols c0 :
  u ≠ w → count_in_column u (np_full rows cols w) c0 = 0.
Proof.
  intros Hne. unfold count_in_column, np_full.
  apply length_filter_none, Forall_forall.
  intros row Hrow. apply elem_of_replicate in Hrow as [-> _].
  intros Hl. apply lookup_replicate in Hl as [? _]. congruence.
Qed.

Section TopologyCounts.
Context {G : Type} `{NumPy G}.

(** What a guarded write does to the counts. *)
Lemma set_unless_sram_counts (u v : CellType) row col m m' c0 :
  Topology.set_unless_sram v row col m = Ok m' →
  count_cells u m' ≤ count_cells u m + (if decide (v = u) then 1 else 0) ∧
  count_in_column u m' c0
  ≤ count_in_column u m c0 + (if decide (v = u ∧ col = c0) then 1 else 0).
Proof.
  unfold Topology.set_unless_sram.
  destruct (mat_get m row col) as [cur|] eqn:Hcur; simpl; [| done].
  case_decide; [| intros [= <-]; lia].
  intros (r & Hr & Hc & ->)%mat_set_Ok.
  apply mat_get_Ok in Hcur as (r' & Hr' & Hcur).
  rewrite Hr in Hr'. injection Hr' as <-.
  split.
  - pose proof (count_cells_insert u v cur m row col r Hr Hcur).
    repeat case_decide; lia.
  - by apply count_in_column_insert.
Qed.

Lemma mat_set_counts (u v : CellType) row col m m' c0 :
  mat_set m row col v = Ok m' →
  count_cells u m' ≤ count_cells u m + (if decide (v = u) then 1 else 0) ∧
  count_in_column u m' c0
  ≤ count_in_column u m c0 + (if decide (v = u ∧ col = c0) then 1 else 0).
Proof.
  intros (r & Hr & Hc & ->)%mat_set_Ok.
  destruct (lookup_lt_is_Some_2 r col Hc) as [cur Hcur].
  split.
  - pose proof (count_cells_insert u v cur m row col r Hr Hcur).
    repeat case_decide; lia.
  - by apply count_in_column_insert.
Qed.

(** A pass that writes [v] leaves the count of every other type as it
    is. *)
Lemma guarded_pass_other {X} (u v : CellType) (l : list X)
    (pos : X → nat * nat) m m' (g g' : G) c0 :
  v ≠ u →
  for_each l (λ x m, lift (Topology.set_unless_sram v (pos x).1 (pos x).2 m))
    m g = Ok (m', g') →
  count_cells u m' ≤ count_cells u m ∧
  count_in_column u m' c0 ≤ count_in_column u m c0.
Proof.
  intros Hne Hrun. split.
  - apply (for_each_budget (count_cells u) 0) in Hrun; [lia |].
    intros x s g1 s' g1' _ (Hset & _)%lift_Ok.
    apply (set_unless_sram_counts u v _ _ _ _ c0) in Hset as [Hc _].
    by rewrite decide_False in Hc.
  - apply (for_each_budget (λ m, count_in_column u m c0) 0) in Hrun; [lia |].
    intros x s g1 s' g1' _ (Hset & _)%lift_Ok.
    apply (set_unless_sram_counts u v _ _ _ _ c0) in Hset as [_ Hc].
    rewrite decide_False in Hc; [done | by intros [? _]].
Qed.

(** A pass that writes [v] raises its count by at most one per index. *)
Lemma guarded_pass_count {X} (v : CellType) (l : list X)
    (pos : X → nat * nat) m m' (g g' : G) :
  for_each l (λ x m, lift (Topology.set_unless_sram v (pos x).1 (pos x).2 m))
    m g = Ok (m', g') →
  count_cells v m' ≤ count_cells v m + length l.
Proof.
  intros Hrun.
  apply (for_each_budget (count_cells v) 1) in Hrun; [lia |].
  intros x s g1 s' g1' _ (Hset & _)%lift_Ok.
  apply (set_unless_sram_counts v v _ _ _ _ 0) in Hset as [Hc _].
  by rewrite decide_True in Hc.
Qed.

(** A pass that writes [v] into column [col] raises the count of [v] in
    that column by at most one per index, and leaves the other columns as
    they are. *)
Lemma guarded_pass_column (v : CellType) (l : list nat) col m m'
    (g g' : G) c0 :
  for_each l (λ x m, lift (Topology.set_unless_sram v x col m)) m g
  = Ok (m', g') →
  count_in_column v m' c0
  ≤ count_in_column v m c0 + (if decide (col = c0) then length l else 0).
Proof.
  intros Hrun. destruct (decide (col = c0)) as [-> | Hne].
  - apply (for_each_budget (λ m, count_in_column v m c0) 1) in Hrun; [lia |].
    intros x s g1 s' g1' _ (Hset & _)%lift_Ok.
    apply (set_unless_sram_counts v v _ _ _ _ c0) in Hset as [_ Hc].
    by rewrite decide_True in Hc.
  - apply (for_each_budget (λ m, count_in_column v m c0) 0) in Hrun; [lia |].
    intros x s g1 s' g1' _ (Hset & _)%lift_Ok.
    apply (set_unless_sram_counts v v _ _ _ _ c0) in Hset as [_ Hc].
    rewrite decide_False in Hc; [done | by intros [_ ?]].
Qed.

(** The diagonal loop writes Stable cells only. *)
Lemma diagonal_loop_counts (u : CellType) rows cols m (g g' : G) c0 :
  u ≠ CELL_TYPE_SRAM → u ≠ CELL_TYPE_DRAM_LEAKY →
  for_range (rows `min` cols)
    (λ i m, lift (mat_set m i i CELL_TYPE_SRAM))
    (np_full rows cols CELL_TYPE_DRAM_LEAKY) g = Ok (m, g') →
  count_cells u m = 0 ∧ count_in_column u m c0 = 0.
Proof.
  intros Hs Hl Hrun. unfold for_range in Hrun. split.
  - apply (for_each_budget (count_cells u) 0) in Hrun.
    + rewrite count_cells_np_full in Hrun by done. lia.
    + intros x s g1 s' g1' _ (Hset & _)%lift_Ok.
      apply (mat_set_counts u _ _ _ _ _ c0) in Hset as [Hc _].
      rewrite decide_False in Hc; [done | congruence].
  - apply (for_each_budget (λ m, count_in_column u m c0) 0) in Hrun.
    + rewrite count_in_column_np_full in Hrun by done. lia.
    + intros x s g1 s' g1' _ (Hset & _)%lift_Ok.
      apply (mat_set_counts u _ _ _ _ _ c0) in Hset as [_ Hc].
      rewrite decide_False in Hc; [done | intros [? _]; congruence].
Qed.

End TopologyCounts.

Section TopologyBounds.
Context {G : Type} `{NumPySpec G}.

Lemma random_choice_length a size (g g' : G) l :
  random_choice a size g = Ok (l, g') → length l = size.
Proof.
  unfold random_choice. case_decide; [| done]. intros [= Hdraw].
  destruct (draw_choice_spec a size g) as (Hlen & _); [done |].
  rewrite <- Hlen. by rewrite (surjective_pairing (draw_choice a size g)) in Hdraw;
    injection Hdraw as -> _.
Qed.

Lemma input_hidden_bounds num_inputs num_hidden (g g' : G) m :
  Topology.input_hidden num_inputs num_hidden g = Ok (m, g') →
  count_cells CELL_TYPE_DRAM_REFRESHED m ≤ 2 `max` (num_hidden `div` 4) ∧
  ∀ h, count_in_column CELL_TYPE_DRAM_NEIGHBOR_CTRL_LEAKY m h ≤ 2.
Proof.
  unfold Topology.input_hidden.
  intros (m1 & g1 & Hdiag & Hrest)%Rand_bind_Ok.
  apply Rand_bind_Ok in Hrest as (idx & g2 & Hidx & Hrest).
  apply Rand_bind_Ok in Hrest as (m2 & g3 & Hrefresh & Hneighbor).
  apply random_choice_length in Hidx.
  pose proof (guarded_pass_count CELL_TYPE_DRAM_REFRESHED idx
                (λ i, (i `div` num_hidden, i `mod` num_hidden))
                m1 m2 g2 g3 Hrefresh) as Hr2.
  pose proof (diagonal_loop_counts CELL_TYPE_DRAM_REFRESHED _ _ _ _ _ 0
                ltac:(done) ltac:(done) Hdiag) as [Hr1 _].
  set (J := λ (h : nat) (m : list (list CellType)),
              count_cells CELL_TYPE_DRAM_REFRESHED m
              ≤ 2 `max` (num_hidden `div` 4) ∧
              ∀ c0, count_in_column CELL_TYPE_DRAM_NEIGHBOR_CTRL_LEAKY m c0
                    ≤ if decide (c0 < h) then 2 else 0).
  assert (J num_hidden m) as [Hr Hc].
  { revert Hneighbor. apply (for_range_inv J).
    - intros h s g4 s' g4' Hh [Hr Hc]. case_decide.
      + intros [-> _]%mret_Ok. split; [done |]. intros c0.
        specialize (Hc c0). repeat case_decide; lia.
      + intros (input_idx & g5 & Hin & Hpass)%Rand_bind_Ok.
        apply random_choice_length in Hin. split.
        * apply (guarded_pass_other CELL_TYPE_DRAM_REFRESHED _ _
                   (λ i, (i, h)) _ _ _ _ 0) in Hpass as [Hle _]; [lia | done].
        * intros c0.
          apply (guarded_pass_column _ _ _ _ _ _ _ c0) in Hpass.
          specialize (Hc c0). repeat case_decide; lia.
    - split; [lia |]. intros c0. rewrite decide_False by lia.
      apply (guarded_pass_other CELL_TYPE_DRAM_NEIGHBOR_CTRL_LEAKY _ _
               (λ i, (i `div` num_hidden, i `mod` num_hidden)) _ _ _ _ c0)
        in Hrefresh as [_ Hle]; [| done].
      pose proof (diagonal_loop_counts CELL_TYPE_DRAM_NEIGHBOR_CTRL_LEAKY
                    _ _ _ _ _ c0 ltac:(done) ltac:(done) Hdiag) as [_ Hz].
      lia. }
  split; [done |]. intros h. specialize (Hc h). case_decide; lia.
Qed.

Lemma hidden_output_bounds num_hidden num_outputs (g g' : G) m :
  Topology.hidden_output num_hidden num_outputs g = Ok (m, g') →
  count_cells CELL_TYPE_DRAM_REFRESHED m ≤ 2 `max` (num_outputs `div` 2) ∧
  ∀ o, count_in_column CELL_TYPE_DRAM_NEIGHBOR_CTRL_LEAKY m o ≤ 2.
Proof.
  unfold Topology.hidden_output.
  intros (m1 & g1 & Hdiag & Hrest)%Rand_bind_Ok.
  apply Rand_bind_Ok in Hrest as (idx & g2 & Hidx & Hrest).
  apply Rand_bind_Ok in Hrest as (m2 & g3 & Hrefresh & Hneighbor).
  apply random_choice_length in Hidx.
  pose proof (guarded_pass_count CELL_TYPE_DRAM_REFRESHED idx
                (λ i, (i `div` num_outputs, i `mod` num_outputs))
                m1 m2 g2 g3 Hrefresh) as Hr2.
  pose proof (diagonal_loop_counts CELL_TYPE_DRAM_REFRESHED _ _ _ _ _ 0
                ltac:(done) ltac:(done) Hdiag) as [Hr1 _].
  set (J := λ (o : nat) (m : list (list CellType)),
              count_cells CELL_TYPE_DRAM_REFRESHED m
              ≤ 2 `max` (num_outputs `div` 2) ∧
              ∀ c0, count_in_column CELL_TYPE_DRAM_NEIGHBOR_CTRL_LEAKY m c0
                    ≤ if decide (c0 < o) then 2 else 0).
  assert (J num_outputs m) as [Hr Hc].
  { revert Hneighbor. apply (for_range_inv J).
    - intros o s g4 s' g4' Ho [Hr Hc].
      intros (hidden_idx & g5 & Hin & Hpass)%Rand_bind_Ok.
      apply random_choice_length in Hin. split.
      + apply (guarded_pass_other CELL_TYPE_DRAM_REFRESHED _ _
                 (λ h, (h, o)) _ _ _ _ 0) in Hpass as [Hle _]; [lia | done].
      + intros c0.
        apply (guarded_pass_column _ _ _ _ _ _ _ c0) in Hpass.
        specialize (Hc c0). repeat case_decide; lia.
    - split; [lia |]. intros c0. rewrite decide_False by lia.
      apply (guarded_pass_other CELL_TYPE_DRAM_NEIGHBOR_CTRL_LEAKY _ _
               (λ i, (i `div` num_outputs, i `mod` num_outputs)) _ _ _ _ c0)
        in Hrefresh as [_ Hle]; [| done].
      pose proof (diagonal_loop_counts CELL_TYPE_DRAM_NEIGHBOR_CTRL_LEAKY
                    _ _ _ _ _ c0 ltac:(done) ltac:(done) Hdiag) as [_ Hz].
      lia. }
  split; [done |]. intros o. specialize (Hc o). case_decide; lia.
Qed.

End TopologyBounds.

(** X5. With a generator that meets NumPy's contract, in every generated
    topology at most [max(2, num_hidden // 4)] input-to-hidden cells and at
    most [max(2, num_outputs // 2)] hidden-to-output cells are SlowDecay
    (refreshed DRAM), and every column of either array, that is every
    post-synaptic neuron, has at most two LateralModulated
    (neighbor-controlled) cells. *)
Theorem topology_bounded_subsets {G : Type} `{NumPySpec G}
    (num_inputs num_hidden num_outputs : nat) (g g' : G)
    (cell_types_input_hidden cell_types_hidden_output : list (list CellType)) :
  Topology.initialize_network_architecture num_inputs num_hidden num_outputs g
  = Ok ((cell_types_input_hidden, cell_types_hidden_output), g') →
  count_cells CELL_TYPE_DRAM_REFRESHED cell_types_input_hidden
  ≤ 2 `max` (num_hidden `div` 4) ∧
  (∀ h, count_in_column CELL_TYPE_DRAM_NEIGHBOR_CTRL_LEAKY
          cell_types_input_hidden h ≤ 2) ∧
  count_cells CELL_TYPE_DRAM_REFRESHED cell_types_hidden_output
  ≤ 2 `max` (num_outputs `div` 2) ∧
  (∀ o, count_in_column CELL_TYPE_DRAM_NEIGHBOR_CTRL_LEAKY
          cell_types_hidden_output o ≤ 2).
Proof.
  unfold Topology.initialize_network_architecture.
  intros (ih & g1 & Hih & Hrest)%Rand_bind_Ok.
  apply Rand_bind_Ok in Hrest as (ho & g2 & Hho & Hret).
  apply mret_Ok in Hret as [[= <- <-] _].
  apply input_hidden_bounds in Hih as [? ?].
  apply hidden_output_bounds in Hho as [? ?].
  done.
Qed.

Lemma topology_bounded_subsets_witness :
  ∃ ih ho g',
    @Topology.initialize_network_architecture nat counting_numpy 4 2 2 0
    = Ok ((ih, ho), g') ∧
    count_cells CELL_TYPE_DRAM_REFRESHED ih ≤ 2 ∧
    count_in_column CELL_TYPE_DRAM_NEIGHBOR_CTRL_LEAKY ih 1 ≤ 2.
Proof.
  assert (∃ r, @Topology.initialize_network_architecture nat counting_numpy
                 4 2 2 0 = Ok r) as [[[ih ho] g'] Hrun].
  { eexists. vm_compute. reflexivity. }
  exists ih, ho, g'. split; [exact Hrun |].
  destruct (@topology_bounded_subsets nat counting_numpy counting_numpy_spec
              4 2 2 0 g' ih ho Hrun) as (Hr & Hc & _).
  split; [exact Hr | exact (Hc 1)].
Defined.

Section TopologySizes.
Context {G : Type} `{NumPySpec G}.

Lemma random_choice_Raise a size (g : G) :
  a < size → random_choice a size g = Raise ValueError.
Proof. intros Hlt. unfold random_choice. rewrite decide_False; [done | lia]. Qed.

Lemma neighbors_length num_hidden h :
  h < num_hidden →
  length (filter (λ n, n ≠ h) (seq 0 num_hidden)) < num_hidden.
Proof.
  intros Hh.
  pose proof (length_filter_lt (λ n, n ≠ h) (seq 0 num_hidden) h) as Hlt.
  rewrite length_seq in Hlt. apply Hlt; [| by intros ?].
  apply elem_of_seq. lia.
Qed.

(** The input-to-hidden array is generated when there are two synapses
    to choose from and, with three or more hidden neurons, two inputs. *)
Lemma input_hidden_accepted num_inputs num_hidden (g : G) :
  2 ≤ num_inputs * num_hidden → (3 ≤ num_hidden → 2 ≤ num_inputs) →
  ∃ m g', Topology.input_hidden num_inputs num_hidden g = Ok (m, g').
Proof.
  intros Hsize Hni. unfold Topology.input_hidden.
  assert (1 ≤ num_inputs ∧ 1 ≤ num_hidden) as [Hi Hh] by nia.
  apply (Rand_bind_total (shape num_inputs num_hidden));
    [apply diagonal_loop_total |].
  intros m1 g1 Hshape1.
  apply (Rand_bind_total (Forall (λ i, i < num_inputs * num_hidden))).
  { apply random_choice_Ok.
    assert (num_hidden `div` 4 ≤ num_hidden)
      by (apply Nat.Div0.div_le_upper_bound; lia).
    nia. }
  intros idx g2 Hrange.
  apply (Rand_bind_total (shape num_inputs num_hidden)).
  { apply (guarded_pass_total num_inputs num_hidden idx
             CELL_TYPE_DRAM_REFRESHED
             (λ i, (i `div` num_hidden, i `mod` num_hidden)) m1 g2 Hshape1).
    eapply Forall_impl; [exact Hrange |]. intros i Hlt. simpl in *. split.
    - apply Nat.Div0.div_lt_upper_bound. lia.
    - apply Nat.mod_upper_bound. lia. }
  intros m2 g3 Hshape2.
  apply (Rand_total_weaken (shape num_inputs num_hidden)).
  apply (for_range_total (λ _, shape num_inputs num_hidden)); [| done].
  intros h m g5 Hlt Hshape. simpl. case_decide; [by exists m, g5 |].
  pose proof (neighbors_length num_hidden h Hlt) as Hlen.
  destruct (random_choice_Ok num_inputs
              (2 `min` length (filter (λ n, n ≠ h) (seq 0 num_hidden))) g5)
    as (input_idx & g6 & Hchoice & Hin); [lia |].
  destruct (guarded_pass_total num_inputs num_hidden input_idx
              CELL_TYPE_DRAM_NEIGHBOR_CTRL_LEAKY (λ i, (i, h)) m g6 Hshape)
    as (m' & g7 & Hpass & Hshape').
  { eapply Forall_impl; [exact Hin |]. intros i Hlti. simpl in *. lia. }
  exists m', g7. split; [| done].
  apply Rand_bind_Ok. by exists input_idx, g6.
Qed.

Lemma hidden_output_accepted num_hidden num_outputs (g : G) :
  2 ≤ num_hidden * num_outputs →
  ∃ m g', Topology.hidden_output num_hidden num_outputs g = Ok (m, g').
Proof.
  intros Hsize. apply hidden_output_total; nia.
Qed.

Lemma input_hidden_rejected num_inputs num_hidden (g : G) :
  ¬ (2 ≤ num_inputs * num_hidden ∧ (3 ≤ num_hidden → 2 ≤ num_inputs)) →
  Topology.input_hidden num_inputs num_hidden g = Raise ValueError.
Proof.
  intros Hbad. unfold Topology.input_hidden.
  destruct (diagonal_loop_total num_inputs num_hidden g)
    as (m1 & g1 & Hdiag & Hshape1).
  rewrite (Rand_bind_step _ _ _ _ _ Hdiag).
  destruct (decide (2 ≤ num_inputs * num_hidden)) as [Hsize | Hsize].
  - assert (3 ≤ num_hidden ∧ num_inputs = 1) as [Hnh ->] by nia.
    destruct (random_choice_Ok (1 * num_hidden)
                (2 `max` (num_hidden `div` 4)) g1)
      as (idx & g2 & Hidx & Hrange).
    { assert (num_hidden `div` 4 ≤ num_hidden)
        by (apply Nat.Div0.div_le_upper_bound; lia).
      lia. }
    rewrite (Rand_bind_step _ _ _ _ _ Hidx).
    destruct (guarded_pass_total 1 num_hidden idx CELL_TYPE_DRAM_REFRESHED
                (λ i, (i `div` num_hidden, i `mod` num_hidden)) m1 g2 Hshape1)
      as (m2 & g3 & Hpass & Hshape2).
    { eapply Forall_impl; [exact Hrange |]. intros i Hlt. simpl in *. split.
      - apply Nat.Div0.div_lt_upper_bound. lia.
      - apply Nat.mod_upper_bound. lia. }
    rewrite (Rand_bind_step _ _ _ _ _ Hpass).
    destruct num_hidden as [|[|[|n]]]; [lia | lia | lia |].
    unfold for_range. cbn [seq for_each].
    apply Rand_bind_Raise. cbv beta.
    rewrite (filter_cons_False _ 0) by (intros Hne; by apply Hne).
    rewrite !filter_cons_True by done.
    rewrite decide_False by done.
    apply Rand_bind_Raise, random_choice_Raise. simpl. lia.
  - apply Rand_bind_Raise, random_choice_Raise. lia.
Qed.

Lemma hidden_output_rejected num_hidden num_outputs (g : G) :
  ¬ 2 ≤ num_hidden * num_outputs →
  Topology.hidden_output num_hidden num_outputs g = Raise ValueError.
Proof.
  intros Hbad. unfold Topology.hidden_output.
  destruct (diagonal_loop_total num_hidden num_outputs g)
    as (m1 & g1 & Hdiag & Hshape1).
  rewrite (Rand_bind_step _ _ _ _ _ Hdiag).
  apply Rand_bind_Raise, random_choice_Raise. lia.
Qed.

End TopologySizes.

(** X6. With a generator that meets NumPy's contract, the topology is
    generated exactly for the layer sizes with at least two input-to-hidden
    synapses, at least two hidden-to-output synapses and, when there are
    three or more hidden neurons, at least two inputs; for all other sizes
    the generation raises [ValueError], the random choice being asked for
    more indices than there are. *)
Theorem topology_accepted_sizes {G : Type} `{NumPySpec G}
    (num_inputs num_hidden num_outputs : nat) (g : G) :
  (accepted_sizes num_inputs num_hidden num_outputs →
   ∃ ih ho g',
     Topology.initialize_network_architecture num_inputs num_hidden
       num_outputs g = Ok ((ih, ho), g')) ∧
  (¬ accepted_sizes num_inputs num_hidden num_outputs →
   Topology.initialize_network_architecture num_inputs num_hidden
     num_outputs g = Raise ValueError).
Proof.
  unfold accepted_sizes, Topology.initialize_network_architecture. split.
  - intros (Hih & Hho & Hni).
    destruct (input_hidden_accepted num_inputs num_hidden g Hih Hni)
      as (ih & g1 & Hrun1).
    destruct (hidden_output_accepted num_hidden num_outputs g1 Hho)
      as (ho & g2 & Hrun2).
    exists ih, ho, g2.
    apply Rand_bind_Ok. exists ih, g1. split; [done |].
    apply Rand_bind_Ok. exists ho, g2. split; [done |]. by apply mret_Ok.
  - intros Hbad.
    destruct (decide (2 ≤ num_inputs * num_hidden
                      ∧ (3 ≤ num_hidden → 2 ≤ num_inputs))) as [[Hih Hni] | Hno].
    + destruct (input_hidden_accepted num_inputs num_hidden g Hih Hni)
        as (ih & g1 & Hrun1).
      rewrite (Rand_bind_step _ _ _ _ _ Hrun1).
      apply Rand_bind_Raise, hidden_output_rejected. tauto.
    + by apply Rand_bind_Raise, input_hidden_rejected.
Qed.

Lemma topology_accepted_sizes_witness :
  (∃ ih ho g',
     @Topology.initialize_network_architecture nat counting_numpy 1 2 1 0
     = Ok ((ih, ho), g')) ∧
  @Topology.initialize_network_architecture nat counting_numpy 1 3 1 0
  = Raise ValueError ∧
  @Topology.initialize_network_architecture nat counting_numpy 2 1 1 0
  = Raise ValueError.
Proof.
  split_and!.
  - apply (@topology_accepted_sizes nat counting_numpy counting_numpy_spec
             1 2 1 0).
    unfold accepted_sizes. lia.
  - apply (@topology_accepted_sizes nat counting_numpy counting_numpy_spec
             1 3 1 0).
    unfold accepted_sizes. lia.
  - apply (@topology_accepted_sizes nat counting_numpy counting_numpy_spec
             2 1 1 0).
    unfold accepted_sizes. lia.
Defined.

(** ** Circuit construction: the transistors *)

Section LoopsMore.
Context {G : Type} `{NumPy G}.

Lemma Rand_bind_Raise_inv {A B} (m : Rand G A) (f : A → Rand G B) g e :
  (m ≫= f) g = Raise e →
  m g = Raise e ∨ ∃ a g1, m g = Ok (a, g1) ∧ f a g1 = Raise e.
Proof.
  unfold mbind, Rand_bind. destruct (m g) as [[a g1]|e'] eqn:Hm.
  - intros Hf. right. by exists a, g1.
  - intros [= <-]. by left.
Qed.

Lemma lift_Raise {A} (r : result A) (g : G) e :
  lift r g = Raise e ↔ r = Raise e.
Proof. unfold lift. destruct r; split; congruence. Qed.

(** A loop raises only what its body raises. *)
Lemma for_each_raise {X St} (E : exn → Prop) (l : list X)
    (body : X → St → Rand G St) :
  (∀ x s g e, body x s g = Raise e → E e) →
  ∀ s g e, for_each l body s g = Raise e → E e.
Proof.
  intros Hbody. induction l as [|x l IH]; intros s g e; simpl; [done |].
  intros [Hx | (s1 & g1 & _ & Hl)]%Rand_bind_Raise_inv; eauto.
Qed.

(** What every iteration of two nested loops adds is in the final
    circuit. *)
Lemma double_loop_adds (body : nat → nat → Circuit → Rand G Circuit)
    (P : nat → nat → Circuit → Prop) rows cols c (g g' : G) c' :
  (∀ a b c g c' g', body a b c g = Ok (c', g') → extends c c') →
  (∀ a b c g c' g', body a b c g = Ok (c', g') → P a b c') →
  (∀ a b c c', P a b c → extends c c' → P a b c') →
  for_range rows (λ a c, for_range cols (λ b c, body a b c) c) c g
  = Ok (c', g') →
  ∀ a b, a < rows → b < cols → P a b c'.
Proof.
  intros Hext Hadd Hmono Hrun a b Ha Hb.
  assert (∀ a c g c' g',
            for_range cols (λ b c, body a b c) c g = Ok (c', g') →
            extends c c') as Hinner.
  { intros a0 c0 g0 c0' g0'. apply for_each_extends. apply Hext. }
  unfold for_range in Hrun.
  eapply (for_each_adds _ _ (λ a c, ∀ b, b < cols → P a b c)) in Hrun;
    [exact Hrun | exact Hinner | | | apply elem_of_seq; lia | exact Hb].
  - intros a0 c0 g0 c0' g0' _ Hrow b0 Hb0.
    eapply (for_each_adds _ _ (λ b c, P a0 b c)) in Hrow;
      [exact Hrow | | | | apply elem_of_seq; lia].
    + apply Hext.
    + intros b1 c1 g1 c1' g1' _. apply Hadd.
    + apply Hmono.
  - intros a0 c0 c0' Hc Hext' b0 Hb0. eapply Hmono; [by apply Hc | done].
Qed.

(** A loop whose body adds [w i] to the measure [mu] adds the sum. *)
Lemma for_seq_sum {St} (mu : St → nat) (w : nat → nat)
    (body : nat → St → Rand G St) :
  (∀ i s g s' g', body i s g = Ok (s', g') → mu s' = mu s + w i) →
  ∀ len start s g s' g',
    for_each (seq start len) body s g = Ok (s', g') →
    mu s' = mu s + sum_list (w <$> seq start len).
Proof.
  intros Hbody. induction len as [|len IH]; intros start s g s' g'; simpl.
  - intros [-> _]%mret_Ok. lia.
  - intros (s1 & g1 & Hx & Hl)%Rand_bind_Ok.
    apply Hbody in Hx. apply IH in Hl. unfold fmap in *. lia.
Qed.

Lemma double_loop_sum {St} (mu : St → nat) (w : nat → nat → nat)
    (body : nat → nat → St → Rand G St) rows cols s (g g' : G) s' :
  (∀ a b s g s' g', body a b s g = Ok (s', g') → mu s' = mu s + w a b) →
  for_range rows (λ a s, for_range cols (λ b s, body a b s) s) s g
  = Ok (s', g') →
  mu s' = mu s
          + sum_list ((λ a, sum_list (w a <$> seq 0 cols)) <$> seq 0 rows).
Proof.
  intros Hbody.
  apply (for_seq_sum mu (λ a, sum_list (w a <$> seq 0 cols))).
  intros a s0 g0 s0' g0'. apply (for_seq_sum mu (w a)). apply Hbody.
Qed.

End LoopsMore.

Lemma mat_get_raise {A} (m : list (list A)) r c e :
  mat_get m r c = Raise e → e = IndexError.
Proof.
  unfold mat_get. destruct (index m r) eqn:E1; simpl.
  - apply index_raise.
  - intros [= <-]. by eapply index_raise.
Qed.

(** The cells of an array of [rows] by [cols] cells, counted cell by
    cell. *)
Lemma filter_lookup_sum {A} `{EqDecision A} (v : A) (row : list A) :
  length (filter (λ x, x = v) row)
  = sum_list ((λ b, if decide (row !! b = Some v) then 1 else 0)
                <$> seq 0 (length row)).
Proof.
  induction row as [|x row IH]; [done |].
  rewrite filter_cons. cbn [length seq fmap list_fmap sum_list].
  rewrite <- fmap_S_seq, <- list_fmap_compose.
  replace (sum_list ((λ b, if decide ((x :: row) !! b = Some v) then 1 else 0)
                       ∘ S <$> seq 0 (length row)))
    with (sum_list ((λ b, if decide (row !! b = Some v) then 1 else 0)
                      <$> seq 0 (length row))) by done.
  rewrite <- IH. simpl.
  destruct (decide (x = v)), (decide (Some x = Some v)); simpl;
    try lia; exfalso; congruence.
Qed.

Lemma count_cells_sum (v : CellType) rows cols m :
  shape rows cols m →
  count_cells v m
  = sum_list ((λ a, sum_list ((λ b, if decide (mat_get m a b = Ok v)
                                    then 1 else 0) <$> seq 0 cols))
                <$> seq 0 rows).
Proof.
  intros [<- Hrows]. unfold count_cells.
  induction m as [|row m IH]; [done |].
  apply Forall_cons in Hrows as [Hrow Hrows].
  cbn [concat length seq fmap list_fmap sum_list].
  rewrite filter_app, length_app, (IH Hrows).
  rewrite <- fmap_S_seq, <- list_fmap_compose. unfold id.
  f_equal.
  rewrite filter_lookup_sum, Hrow. f_equal.
  apply list_fmap_ext. intros _ b _. unfold mat_get. simpl.
  unfold index. destruct (row !! b) as [x|]; simpl;
    repeat case_decide; try done; exfalso; congruence.
Qed.

Section LeakControlCount.
Context {G : Type} `{NumPy G}.
Import Builder.

Lemma count_leak_control_add e c :
  count_leak_control (add e c)
  = count_leak_control c + (if is_leak_control e then 1 else 0).
Proof.
  unfold count_leak_control, add. simpl.
  rewrite filter_app, length_app. f_equal.
  rewrite filter_cons. by destruct (is_leak_control e).
Qed.

Lemma count_leak_control_foldl {X} (body : Circuit → X → Circuit)
    (l : list X) :
  (∀ c x, count_leak_control (body c x) = count_leak_control c) →
  ∀ c, count_leak_control (foldl body c l) = count_leak_control c.
Proof.
  intros Hbody. induction l as [|x l IH]; intros c; simpl; [done |].
  by rewrite IH, Hbody.
Qed.

Lemma count_leak_control_layer_nodes num_inputs num_hidden num_outputs c :
  count_leak_control (add_layer_nodes num_inputs num_hidden num_outputs c)
  = count_leak_control c.
Proof.
  unfold add_layer_nodes.
  rewrite !count_leak_control_foldl; [done | ..];
    intros c0 x; rewrite ?count_leak_control_add; simpl; lia.
Qed.

Lemma count_leak_control_error_nodes num_outputs c :
  count_leak_control (add_error_nodes num_outputs c) = count_leak_control c.
Proof.
  unfold add_error_nodes.
  rewrite count_leak_control_foldl; [done |].
  intros c0 x. rewrite !count_leak_control_add. simpl. lia.
Qed.

Lemma count_leak_control_core layer a b fast slow pre post c_f c_s vth_f c :
  layer +:+ "_nmos_" +:+ pretty a +:+ "_" +:+ pretty b ≠ "nmos_leak_ctrl" →
  count_leak_control
    (add_synapse_core layer a b fast slow pre post c_f c_s vth_f c)
  = count_leak_control c.
Proof.
  intros Hname. unfold add_synapse_core.
  rewrite !count_leak_control_add.
  change (count_leak_control (add_model ?m ?c0)) with (count_leak_control c0).
  rewrite !count_leak_control_add. simpl.
  rewrite bool_decide_eq_false_2 by done. lia.
Qed.

Lemma count_leak_control_leakage layer a b cell_type fast slow drain r_f r_s c :
  count_leak_control
    (add_leakage layer a b cell_type fast slow drain r_f r_s c)
  = count_leak_control c
    + (if decide (cell_type = CELL_TYPE_DRAM_NEIGHBOR_CTRL_LEAKY)
       then 1 else 0).
Proof.
  unfold add_leakage.
  destruct cell_type; simpl; rewrite !count_leak_control_add; simpl; lia.
Qed.

Lemma add_ih_synapse_count num_outputs cell_types i h c (g g' : G) c' :
  add_ih_synapse num_outputs cell_types i h c g = Ok (c', g') →
  count_leak_control c'
  = count_leak_control c
    + (if decide (mat_get cell_types i h
                  = Ok CELL_TYPE_DRAM_NEIGHBOR_CTRL_LEAKY) then 1 else 0).
Proof.
  unfold add_ih_synapse.
  intros (cell_type & g1 & [Hcell ->]%lift_Ok & Hrest)%Rand_bind_Ok.
  apply Rand_bind_Ok in Hrest as ([[r_f c_f] vth_f] & g2 & _ & Hrest).
  apply Rand_bind_Ok in Hrest as ([[r_s c_s] vth_s] & g3 & _ & Hrest).
  apply mret_Ok in Hrest as [-> _].
  rewrite count_leak_control_foldl.
  - rewrite count_leak_control_leakage, count_leak_control_core by done.
    rewrite Hcell.
    repeat case_decide; try done; exfalso; congruence.
  - intros c0 o. case_decide; [| done].
    rewrite count_leak_control_add. simpl. lia.
Qed.

Lemma add_ho_synapse_count cell_types h o c (g g' : G) c' :
  add_ho_synapse cell_types h o c g = Ok (c', g') →
  count_leak_control c'
  = count_leak_control c
    + (if decide (mat_get cell_types h o
                  = Ok CELL_TYPE_DRAM_NEIGHBOR_CTRL_LEAKY) then 1 else 0).
Proof.
  unfold add_ho_synapse.
  intros (cell_type & g1 & [Hcell ->]%lift_Ok & Hrest)%Rand_bind_Ok.
  apply Rand_bind_Ok in Hrest as ([[r_f c_f] vth_f] & g2 & _ & Hrest).
  apply Rand_bind_Ok in Hrest as ([[r_s c_s] vth_s] & g3 & _ & Hrest).
  apply mret_Ok in Hrest as [-> _].
  rewrite count_leak_control_add. simpl.
  rewrite count_leak_control_leakage, count_leak_control_core by done.
  rewrite Hcell.
  repeat case_decide; try lia; exfalso; congruence.
Qed.

End LeakControlCount.

(** X7. For cell-type arrays of the declared shapes, the circuit built has
    exactly one transistor of the neighbor-control model per
    LateralModulated (neighbor-controlled) synapse: no synapse of another
    type gets one, and none is added elsewhere. *)
Theorem builder_leak_control_count {G : Type} `{NumPy G}
    num_inputs num_hidden num_outputs cell_types_ih cell_types_ho
    learning_step (g g' : G) b :
  shape num_inputs num_hidden cell_types_ih →
  shape num_hidden num_outputs cell_types_ho →
  Builder.build_circuit_for_learning num_inputs num_hidden num_outputs
    cell_types_ih cell_types_ho learning_step g = Ok (b, g') →
  count_leak_control (Builder.circuit b)
  = count_cells CELL_TYPE_DRAM_NEIGHBOR_CTRL_LEAKY cell_types_ih
    + count_cells CELL_TYPE_DRAM_NEIGHBOR_CTRL_LEAKY cell_types_ho.
Proof.
  intros Hih Hho. unfold Builder.build_circuit_for_learning.
  set (c0 := Builder.set_raw_spice _ _).
  set (c1 := Builder.add_layer_nodes num_inputs num_hidden num_outputs c0).
  set (c2 := add (V "neighbor_mod" Builder.neighbor_node gnd 0.0) c1).
  set (c3 := Builder.add_error_nodes num_outputs c2).
  set (c4 := add_model _ (add_model _ (add_model _ c3))).
  intros (c5 & g1 & Hrun1 & Hrest)%Rand_bind_Ok.
  apply Rand_bind_Ok in Hrest as (c6 & g2 & Hrun2 & Hret).
  apply mret_Ok in Hret as [-> _]. simpl.
  apply (double_loop_sum count_leak_control
           (λ i h, if decide (mat_get cell_types_ih i h
                              = Ok CELL_TYPE_DRAM_NEIGHBOR_CTRL_LEAKY)
                   then 1 else 0)) in Hrun1;
    [| intros a b0 s g0 s' g0'; apply add_ih_synapse_count].
  apply (double_loop_sum count_leak_control
           (λ h o, if decide (mat_get cell_types_ho h o
                              = Ok CELL_TYPE_DRAM_NEIGHBOR_CTRL_LEAKY)
                   then 1 else 0)) in Hrun2;
    [| intros a b0 s g0 s' g0'; apply add_ho_synapse_count].
  rewrite Hrun2, Hrun1.
  rewrite <- (count_cells_sum _ _ _ _ Hih), <- (count_cells_sum _ _ _ _ Hho).
  assert (count_leak_control c4 = 0) as ->; [| done].
  subst c4.
  change (count_leak_control (add_model ?m (add_model ?m' (add_model ?m'' ?c))))
    with (count_leak_control c).
  subst c3. rewrite count_leak_control_error_nodes.
  subst c2. rewrite count_leak_control_add.
  subst c1. rewrite count_leak_control_layer_nodes. done.
Qed.

Lemma builder_leak_control_count_witness :
  ∃ b g',
    @Builder.build_circuit_for_learning nat counting_numpy 2 2 2
      example_ih example_ho 0 6 = Ok (b, g') ∧
    count_leak_control (Builder.circuit b) = 3.
Proof.
  assert (∃ r, @Builder.build_circuit_for_learning nat counting_numpy 2 2 2
                 example_ih example_ho 0 6 = Ok r) as [[b g'] Hrun].
  { eexists. vm_compute. reflexivity. }
  exists b, g'. split; [exact Hrun |].
  assert (shape 2 2 example_ih) as Hih by (split; [done | repeat constructor]).
  assert (shape 2 2 example_ho) as Hho by (split; [done | repeat constructor]).
  exact (@builder_leak_control_count nat counting_numpy 2 2 2
           example_ih example_ho 0 6 g' b Hih Hho Hrun).
Defined.

Section SynapseTransistors.
Context {G : Type} `{NumPy G}.
Import Builder.

Lemma ih_transistors_built_mono num_outputs i h c c' :
  ih_transistors_built num_outputs i h c → extends c c' →
  ih_transistors_built num_outputs i h c'.
Proof.
  intros (H1 & H2 & H3 & H4) Hext.
  split_and!; [by apply Hext | by apply Hext | by apply Hext |].
  intros Hno. by apply Hext, H4.
Qed.

Lemma ho_transistors_built_mono h o c c' :
  ho_transistors_built h o c → extends c c' → ho_transistors_built h o c'.
Proof.
  intros (H1 & H2 & H3 & H4) Hext.
  split_and!; by apply Hext.
Qed.

Lemma add_synapse_core_transistors layer a b fast slow pre post c_f c_s vth_f c :
  let tag := pretty a +:+ "_" +:+ pretty b in
  let c' := add_synapse_core layer a b fast slow pre post c_f c_s vth_f c in
  MOSFET (layer +:+ "_mf_pre_" +:+ tag) "vdd" pre fast gnd
    (layer +:+ "_nmos_" +:+ tag) ∈ elements c' ∧
  MOSFET (layer +:+ "_mf_post_" +:+ tag) "vdd" post fast gnd "nmos_learn"
    ∈ elements c' ∧
  MOSFET (layer +:+ "_mf_out_" +:+ tag) "vdd" fast post gnd "nmos_syn"
    ∈ elements c'.
Proof.
  intros tag c'. subst c'. unfold add_synapse_core, add, add_model. simpl.
  rewrite !elem_of_app, !list_elem_of_singleton. tauto.
Qed.

Lemma add_ih_synapse_transistors num_outputs cell_types i h c (g g' : G) c' :
  add_ih_synapse num_outputs cell_types i h c g = Ok (c', g') →
  ih_transistors_built num_outputs i h c'.
Proof.
  unfold add_ih_synapse.
  intros (cell_type & g1 & [Hcell ->]%lift_Ok & Hrest)%Rand_bind_Ok.
  apply Rand_bind_Ok in Hrest as ([[r_f c_f] vth_f] & g2 & _ & Hrest).
  apply Rand_bind_Ok in Hrest as ([[r_s c_s] vth_s] & g3 & _ & Hrest).
  apply mret_Ok in Hrest as [-> _].
  set (c1 := add_synapse_core _ _ _ _ _ _ _ _ _ _ c).
  set (c2 := add_leakage _ _ _ _ _ _ _ _ _ c1).
  assert (extends c1 c2) as H2 by apply extends_add_leakage.
  set (body := λ (c : Circuit) (o : nat), if decide (o = h `mod` num_outputs)
                                          then _ else c).
  assert (∀ c0 o, extends c0 (body c0 o)) as Hbody.
  { intros c0 o. unfold body. case_decide;
      [apply extends_add | apply extends_refl]. }
  assert (extends c2 (foldl body c2 (seq 0 num_outputs))) as H3
    by by apply extends_foldl.
  destruct (add_synapse_core_transistors "ih" i h (syn_node "ih" i h "fast")
              (syn_node "ih" i h "slow") (input_node i) (hidden_node h)
              c_f c_s vth_f c) as (Hpre & Hpost & Hout).
  split_and!.
  - by apply H3, H2.
  - by apply H3, H2.
  - by apply H3, H2.
  - intros Hno.
    apply (foldl_adds body
             (λ o c, o = h `mod` num_outputs →
                     MOSFET ("ih_err_" +:+ pretty i +:+ "_" +:+ pretty h
                               +:+ "_" +:+ pretty o)
                       "vdd" (error_node o) (syn_node "ih" i h "fast") gnd
                       "nmos_learn" ∈ elements c)
             (seq 0 num_outputs) Hbody).
    + intros c0 o Ho. unfold body. rewrite decide_True by done.
      apply elem_of_add.
    + intros o c0 c0' Hc Hext Ho. by apply Hext, Hc.
    + apply elem_of_seq. split; [lia |]. simpl.
      apply Nat.mod_upper_bound. lia.
    + done.
Qed.

Lemma add_ho_synapse_transistors cell_types h o c (g g' : G) c' :
  add_ho_synapse cell_types h o c g = Ok (c', g') →
  ho_transistors_built h o c'.
Proof.
  unfold add_ho_synapse.
  intros (cell_type & g1 & [Hcell ->]%lift_Ok & Hrest)%Rand_bind_Ok.
  apply Rand_bind_Ok in Hrest as ([[r_f c_f] vth_f] & g2 & _ & Hrest).
  apply Rand_bind_Ok in Hrest as ([[r_s c_s] vth_s] & g3 & _ & Hrest).
  apply mret_Ok in Hrest as [-> _].
  set (c1 := add_synapse_core _ _ _ _ _ _ _ _ _ _ c).
  set (c2 := add_leakage _ _ _ _ _ _ _ _ _ c1).
  assert (extends c1 c2) as H2 by apply extends_add_leakage.
  destruct (add_synapse_core_transistors "ho" h o (syn_node "ho" h o "fast")
              (syn_node "ho" h o "slow") (hidden_node h) (output_node o)
              c_f c_s vth_f c) as (Hpre & Hpost & Hout).
  split_and!.
  - by apply extends_add, H2.
  - by apply extends_add, H2.
  - by apply extends_add, H2.
  - apply elem_of_add.
Qed.

Lemma randomize_rc_raise R_nom C_nom VTO_nom temp (g : G) e :
  randomize_rc R_nom C_nom VTO_nom temp g ≠ Raise e.
Proof.
  destruct (randomize_rc_total R_nom C_nom VTO_nom temp g) as (r & g' & ->).
  done.
Qed.

Lemma add_ih_synapse_raise num_outputs cell_types i h c (g : G) e :
  add_ih_synapse num_outputs cell_types i h c g = Raise e → e = IndexError.
Proof.
  unfold add_ih_synapse.
  intros [Hcell%lift_Raise | (ct & g1 & _ & Hrest)]%Rand_bind_Raise_inv;
    [by eapply mat_get_raise |].
  apply Rand_bind_Raise_inv in Hrest
    as [Hrc | ([[r_f c_f] vth_f] & g2 & _ & Hrest)];
    [by apply randomize_rc_raise in Hrc |].
  apply Rand_bind_Raise_inv in Hrest
    as [Hrc | ([[r_s c_s] vth_s] & g3 & _ & Hrest)];
    [by apply randomize_rc_raise in Hrc |].
  done.
Qed.

Lemma add_ho_synapse_raise cell_types h o c (g : G) e :
  add_ho_synapse cell_types h o c g = Raise e → e = IndexError.
Proof.
  unfold add_ho_synapse.
  intros [Hcell%lift_Raise | (ct & g1 & _ & Hrest)]%Rand_bind_Raise_inv;
    [by eapply mat_get_raise |].
  apply Rand_bind_Raise_inv in Hrest
    as [Hrc | ([[r_f c_f] vth_f] & g2 & _ & Hrest)];
    [by apply randomize_rc_raise in Hrc |].
  apply Rand_bind_Raise_inv in Hrest
    as [Hrc | ([[r_s c_s] vth_s] & g3 & _ & Hrest)];
    [by apply randomize_rc_raise in Hrc |].
  done.
Qed.

Lemma add_ih_synapse_cell num_outputs cell_types i h c (g g' : G) c' :
  add_ih_synapse num_outputs cell_types i h c g = Ok (c', g') →
  ∃ cell_type, mat_get cell_types i h = Ok cell_type.
Proof.
  unfold add_ih_synapse.
  intros (cell_type & g1 & [Hcell ->]%lift_Ok & _)%Rand_bind_Ok. eauto.
Qed.

Lemma add_ho_synapse_cell cell_types h o c (g g' : G) c' :
  add_ho_synapse cell_types h o c g = Ok (c', g') →
  ∃ cell_type, mat_get cell_types h o = Ok cell_type.
Proof.
  unfold add_ho_synapse.
  intros (cell_type & g1 & [Hcell ->]%lift_Ok & _)%Rand_bind_Ok. eauto.
Qed.

End SynapseTransistors.

(** X8. In the circuit built, every synapse has its three transistors: the
    forward gate (drain [vdd], gate the pre-synaptic node, source the fast
    storage node, with the device model of the synapse), the feedback gate
    (gate the post-synaptic node) and the read-out (gate the fast storage
    node, source the post-synaptic node). Each is coupled to one error
    line by a transistor gated by the error node: the input-to-hidden
    synapse [(i, h)] to the error line [h % num_outputs], when there is an
    output at all, and the hidden-to-output synapse [(h, o)] to the error
    line [o]. *)
Theorem builder_synapse_transistors {G : Type} `{NumPy G}
    num_inputs num_hidden num_outputs cell_types_ih cell_types_ho
    learning_step (g g' : G) b :
  Builder.build_circuit_for_learning num_inputs num_hidden num_outputs
    cell_types_ih cell_types_ho learning_step g = Ok (b, g') →
  (∀ i h, i < num_inputs → h < num_hidden →
     ih_transistors_built num_outputs i h (Builder.circuit b)) ∧
  (∀ h o, h < num_hidden → o < num_outputs →
     ho_transistors_built h o (Builder.circuit b)).
Proof.
  unfold Builder.build_circuit_for_learning.
  intros (c5 & g1 & Hrun1 & Hrest)%Rand_bind_Ok.
  apply Rand_bind_Ok in Hrest as (c6 & g2 & Hrun2 & Hret).
  apply mret_Ok in Hret as [-> _]. simpl.
  pose proof (ho_loops_spec _ _ _ _ _ _ _ Hrun2) as [H56 _].
  split.
  - intros i h Hi Hh.
    eapply ih_transistors_built_mono; [| exact H56].
    revert i h Hi Hh.
    eapply (double_loop_adds
             (λ i h c, Builder.add_ih_synapse num_outputs cell_types_ih i h c)
             (λ i h c, ih_transistors_built num_outputs i h c)); [| | | exact Hrun1].
    + intros a b0 c g0 c' g0' Hbody.
      by apply add_ih_synapse_spec in Hbody as [? _].
    + intros a b0 c g0 c' g0'. apply add_ih_synapse_transistors.
    + intros a b0 c c'. apply ih_transistors_built_mono.
  - eapply (double_loop_adds
             (λ h o c, Builder.add_ho_synapse cell_types_ho h o c)
             (λ h o c, ho_transistors_built h o c)); [| | | exact Hrun2].
    + intros a b0 c g0 c' g0' Hbody.
      by apply add_ho_synapse_spec in Hbody as [? _].
    + intros a b0 c g0 c' g0'. apply add_ho_synapse_transistors.
    + intros a b0 c c'. apply ho_transistors_built_mono.
Qed.

Lemma builder_synapse_transistors_witness :
  ∃ b g',
    @Builder.build_circuit_for_learning nat counting_numpy 2 2 2
      example_ih example_ho 0 6 = Ok (b, g') ∧
    MOSFET "ih_err_0_1_1" "vdd" "error_1" "ih_syn_0_1_fast" gnd "nmos_learn"
    ∈ elements (Builder.circuit b).
Proof.
  assert (∃ r, @Builder.build_circuit_for_learning nat counting_numpy 2 2 2
                 example_ih example_ho 0 6 = Ok r) as [[b g'] Hrun].
  { eexists. vm_compute. reflexivity. }
  exists b, g'. split; [exact Hrun |].
  destruct (@builder_synapse_transistors nat counting_numpy 2 2 2
              example_ih example_ho 0 6 g' b Hrun) as [Hih _].
  destruct (Hih 0 1) as (_ & _ & _ & Herr); [lia | lia |].
  apply Herr. lia.
Defined.

(** X9. When a cell-type array has no entry for a synapse of the declared
    layer sizes, the builder raises [IndexError]. *)
Theorem builder_missing_cell_type {G : Type} `{NumPy G}
    num_inputs num_hidden num_outputs cell_types_ih cell_types_ho
    learning_step (g : G) :
  (∃ i h, i < num_inputs ∧ h < num_hidden ∧
          mat_get cell_types_ih i h = Raise IndexError) ∨
  (∃ h o, h < num_hidden ∧ o < num_outputs ∧
          mat_get cell_types_ho h o = Raise IndexError) →
  Builder.build_circuit_for_learning num_inputs num_hidden num_outputs
    cell_types_ih cell_types_ho learning_step g = Raise IndexError.
Proof.
  intros Hbad.
  destruct (Builder.build_circuit_for_learning _ _ _ _ _ _ g)
    as [[b g']|e] eqn:Hrun.
  - exfalso. unfold Builder.build_circuit_for_learning in Hrun.
    apply Rand_bind_Ok in Hrun as (c5 & g1 & Hrun1 & Hrest).
    apply Rand_bind_Ok in Hrest as (c6 & g2 & Hrun2 & _).
    destruct Hbad as [(i & h & Hi & Hh & Hcell) | (h & o & Hh & Ho & Hcell)].
    + assert (∃ ct, mat_get cell_types_ih i h = Ok ct) as [ct Hct];
        [| congruence].
      revert i h Hi Hh Hcell.
      assert (∀ i h, i < num_inputs → h < num_hidden →
                ∃ ct, mat_get cell_types_ih i h = Ok ct) as Hall; [| eauto].
      eapply (double_loop_adds
               (λ i h c, Builder.add_ih_synapse num_outputs cell_types_ih i h c)
               (λ i h _, ∃ ct, mat_get cell_types_ih i h = Ok ct)); [| | | exact Hrun1].
      * intros a b0 c g0 c' g0' Hbody.
        by apply add_ih_synapse_spec in Hbody as [? _].
      * intros a b0 c g0 c' g0'. apply add_ih_synapse_cell.
      * done.
    + assert (∀ h o, h < num_hidden → o < num_outputs →
                ∃ ct, mat_get cell_types_ho h o = Ok ct) as Hall.
      { eapply (double_loop_adds
                 (λ h o c, Builder.add_ho_synapse cell_types_ho h o c)
                 (λ h o _, ∃ ct, mat_get cell_types_ho h o = Ok ct)); [| | | exact Hrun2].
        - intros a b0 c g0 c' g0' Hbody.
          by apply add_ho_synapse_spec in Hbody as [? _].
        - intros a b0 c g0 c' g0'. apply add_ho_synapse_cell.
        - done. }
      destruct (Hall h o Hh Ho) as [ct Hct]. congruence.
  - f_equal. unfold Builder.build_circuit_for_learning in Hrun.
    apply Rand_bind_Raise_inv in Hrun as [Hrun | (c5 & g1 & _ & Hrun)].
    + revert Hrun. apply (for_each_raise (λ e, e = IndexError)).
      intros i c g0 e0. apply (for_each_raise (λ e, e = IndexError)).
      intros h c0 g1 e1. apply add_ih_synapse_raise.
    + apply Rand_bind_Raise_inv in Hrun as [Hrun | (c6 & g2 & _ & Hrun)];
        [| done].
      revert Hrun. apply (for_each_raise (λ e, e = IndexError)).
      intros h c g0 e0. apply (for_each_raise (λ e, e = IndexError)).
      intros o c0 g3 e1. apply add_ho_synapse_raise.
Qed.

Lemma builder_missing_cell_type_witness :
  @Builder.build_circuit_for_learning nat counting_numpy 2 2 2
    [[CELL_TYPE_SRAM; CELL_TYPE_DRAM_LEAKY]] example_ho 0 0
  = Raise IndexError.
Proof.
  apply (@builder_missing_cell_type nat counting_numpy 2 2 2
           [[CELL_TYPE_SRAM; CELL_TYPE_DRAM_LEAKY]] example_ho 0 0).
  left. exists 1, 0. split_and!; [lia | lia | reflexivity].
Defined.

(** ** Performance: the verdicts *)

Section PerformanceFacts.
Import Performance.
Local Open Scope Q_scope.

Lemma loop_patterns_spec output_activity targets tpp ps : ∀ acc accs,
  loop_patterns output_activity targets tpp ps acc = Ok accs →
  ∃ bs, accs = acc ++ bs ∧
        Forall2 (λ p b, pattern_correct output_activity targets tpp p = Ok b)
          ps bs.
Proof.
  induction ps as [|p ps IH]; intros acc accs; simpl.
  - intros [= <-]. exists []. by rewrite app_nil_r.
  - destruct (pattern_correct output_activity targets tpp p) as [b|] eqn:Hp;
      simpl; [| done].
    intros (bs & -> & Hbs)%IH. exists (b :: bs).
    rewrite <- app_assoc. split; [done |]. by constructor.
Qed.

(** What [calculate_performance] computes when the time axis has two
    samples at least. *)
Lemma calculate_performance_inv output_activity targets time_us
    phase_duration accuracy accuracies :
  (2 ≤ length time_us)%nat →
  calculate_performance output_activity targets time_us phase_duration
  = Ok (accuracy, accuracies) →
  Forall2 (λ p b, pattern_correct output_activity targets
                    (time_points_per_pattern time_us phase_duration) p = Ok b)
    (seq 0 (length targets)) accuracies ∧
  accuracy = if decide (accuracies = []) then 0.0 else mean_bool accuracies.
Proof.
  intros Hlen. unfold calculate_performance.
  rewrite decide_False by lia.
  destruct time_us as [|t0 [|t1 time_us]].
  { simpl in Hlen. lia. }
  { simpl in Hlen. lia. }
  cbn [index lookup list_lookup mbind result_bind time_points_per_pattern].
  destruct (Qeq_bool (t1 - t0) 0); [by destruct (Qeq_bool _ 0) |].
  destruct (Qle_bool float_overflow _); [done |].
  destruct (loop_patterns _ _ _ _ _) as [bs|] eqn:Hloop;
    cbn [mbind result_bind]; [| done].
  apply loop_patterns_spec in Hloop as (bs' & -> & Hbs).
  rewrite app_nil_l in *.
  apply Forall2_length in Hbs as Hl. rewrite length_seq in Hl.
  replace (length targets - length bs')%nat with 0%nat by lia.
  cbn [replicate]. rewrite app_nil_r. intros [= <- <-].
  split; [exact Hbs | reflexivity].
Qed.

Lemma mean_bool_range (l : list bool) : l ≠ [] → 0 <= mean_bool l <= 1.
Proof.
  intros Hne. unfold mean_bool.
  pose proof (length_filter (λ b, b = true) l) as Hle.
  assert (0 < inject_Z (Z.of_nat (length l))) as Hpos.
  { destruct l; [done |]. unfold Qlt. simpl. lia. }
  split.
  - apply Qle_shift_div_l; [done |]. rewrite Qmult_0_l.
    unfold Qle. simpl. lia.
  - apply Qle_shift_div_r; [done |]. rewrite Qmult_1_l.
    rewrite <- Zle_Qle. lia.
Qed.


End PerformanceFacts.



Section ArgmaxFacts.
Import Performance.
Local Open Scope Q_scope.

Lemma Qgt_bool_true x y : Qgt_bool x y = true ↔ y < x.
Proof.
  unfold Qgt_bool. rewrite negb_true_iff, <- not_true_iff_false, Qle_bool_iff.
  split; [apply Qnot_le_lt | apply Qlt_not_le].
Qed.

Lemma Qgt_bool_false x y : Qgt_bool x y = false ↔ x <= y.
Proof.
  unfold Qgt_bool. by rewrite negb_false_iff, Qle_bool_iff.
Qed.

Lemma argmax_from_le l : ∀ best best_i i,
  Forall (λ x, x <= best) l → argmax_from best best_i i l = best_i.
Proof.
  induction l as [|x l IH]; intros best best_i i Hle; simpl; [done |].
  apply Forall_cons in Hle as [Hx Hl].
  apply Qgt_bool_false in Hx. rewrite Hx. by apply IH.
Qed.

Lemma argmax_from_dominant l : ∀ best best_i i k m,
  l !! k = Some m → best < m →
  (∀ j x, j ≠ k → l !! j = Some x → x < m) →
  argmax_from best best_i i l = (i + k)%nat.
Proof.
  induction l as [|x l IH]; intros best best_i i k m Hk Hbest Hdom; [done |].
  simpl. destruct k as [|k]; simplify_eq/=.
  - apply Qgt_bool_true in Hbest. rewrite Hbest.
    rewrite argmax_from_le; [lia |].
    apply Forall_forall. intros y Hy.
    apply list_elem_of_lookup in Hy as [j Hj].
    apply Qlt_le_weak, (Hdom (S j)); [lia | done].
  - assert (x < m) as Hx by (apply (Hdom 0%nat); [lia | done]).
    assert (∀ j y, j ≠ k → l !! j = Some y → y < m) as Hdom'.
    { intros j y Hj Hy. apply (Hdom (S j)); [lia | done]. }
    destruct (Qgt_bool x best).
    + rewrite (IH x i (S i) k m Hk Hx Hdom'). lia.
    + rewrite (IH best best_i (S i) k m Hk Hbest Hdom'). lia.
Qed.

(** [np.argmax] returns the index of an entry that is strictly the
    largest. *)
Lemma argmax_dominant l c : dominant c l → argmax l = Ok c.
Proof.
  intros (m & Hc & Hdom). destruct l as [|x l]; [done |]. simpl. f_equal.
  destruct c as [|c]; simplify_eq/=.
  - apply argmax_from_le, Forall_forall. intros y Hy.
    apply list_elem_of_lookup in Hy as [j Hj].
    apply Qlt_le_weak, (Hdom (S j)); [lia | done].
  - apply (argmax_from_dominant l x 0%nat 1%nat c m Hc).
    + apply (Hdom 0%nat); [lia | done].
    + intros j y Hj Hy. apply (Hdom (S j)); [lia | done].
Qed.

Lemma slice_Forall {A} (P : A → Prop) (a : list A) (start stop : Z) :
  (0 ≤ start)%Z →
  (∀ t x, (start ≤ Z.of_nat t < stop)%Z → a !! t = Some x → P x) →
  Forall P (slice a start stop).
Proof.
  intros Hstart Hall. unfold slice. apply Forall_forall. intros x Hx.
  apply list_elem_of_lookup in Hx as [i Hi].
  apply lookup_take_Some in Hi as [Hi Hlt]. rewrite lookup_drop in Hi.
  apply (Hall (Z.to_nat start + i)%nat); [lia | done].
Qed.

Lemma slice_nonempty {A} (a : list A) (start stop : Z) :
  (0 ≤ start < stop)%Z → (stop ≤ Z.of_nat (length a))%Z →
  slice a start stop ≠ [].
Proof.
  intros Hstart Hstop Hnil. apply (f_equal length) in Hnil.
  unfold slice in Hnil. rewrite length_take, length_drop in Hnil.
  simpl in Hnil. lia.
Qed.

Lemma time_points_per_pattern_pos time_us phase_duration :
  (2 ≤ length time_us)%nat →
  (1 ≤ time_points_per_pattern time_us phase_duration)%Z.
Proof.
  destruct time_us as [|t0 [|t1 time_us]]; simpl; lia.
Qed.

(** An empty scoring window: the pattern is marked incorrect. *)
Lemma pattern_correct_empty output_activity targets tpp p :
  (1 ≤ tpp)%Z →
  (Z.of_nat (length output_activity) - 1 ≤ Z.of_nat p * tpp)%Z ∨ tpp = 1%Z →
  pattern_correct output_activity targets tpp p = Ok false.
Proof.
  intros Hpos Hcase. unfold pattern_correct.
  rewrite decide_True; [done |].
  assert (0 ≤ tpp `div` 2)%Z as Hdiv by (apply Z.div_pos; lia).
  destruct Hcase as [Hlate | ->]; [lia |].
  change (1 `div` 2)%Z with 0%Z. lia.
Qed.

End ArgmaxFacts.

(** X11. A pattern whose scoring window is empty is marked incorrect,
    whatever the output activity: this is the case when the window would
    start at or after the last row of the activity, and for every pattern
    when a pattern spans a single time point (the time step is more than
    half the pattern duration). *)
Theorem performance_empty_window output_activity targets time_us
    phase_duration accuracy accuracies p :
  (2 ≤ length time_us)%nat →
  Performance.calculate_performance output_activity targets time_us
    phase_duration = Ok (accuracy, accuracies) →
  p < length targets →
  let tpp := time_points_per_pattern time_us phase_duration in
  (Z.of_nat (length output_activity) - 1 ≤ Z.of_nat p * tpp)%Z ∨ tpp = 1%Z →
  accuracies !! p = Some false.
Proof.
  intros Hlen Hrun Hp tpp Hcase.
  apply calculate_performance_inv in Hrun as [Hall _]; [| done].
  destruct (lookup_lt_is_Some_2 accuracies p) as [b Hb].
  { apply Forall2_length in Hall. rewrite length_seq in Hall. lia. }
  rewrite Hb. f_equal.
  eapply Forall2_lookup_lr in Hall; [| by apply lookup_seq_lt | exact Hb].
  simpl in Hall. fold tpp in Hall.
  rewrite pattern_correct_empty in Hall; [congruence | | done].
  by apply time_points_per_pattern_pos.
Qed.

Lemma performance_empty_window_witness :
  ∃ accuracy accuracies,
    Performance.calculate_performance
      (replicate 12 [0.3; 0.1]%Q) [[1; 0]%Z; [0; 1]%Z] [0; 15]%Q 20
    = Ok (accuracy, accuracies) ∧
    accuracies !! 0 = Some false ∧ accuracies !! 1 = Some false.
Proof.
  assert (∃ r, Performance.calculate_performance
                 (replicate 12 [0.3; 0.1]%Q) [[1; 0]%Z; [0; 1]%Z] [0; 15]%Q 20
               = Ok r) as [[accuracy accuracies] Hrun].
  { eexists. vm_compute. reflexivity. }
  exists accuracy, accuracies. split; [exact Hrun |].
  assert (2 ≤ length [0; 15]%Q) as Hlen by (simpl; lia).
  split.
  - apply (performance_empty_window _ _ _ _ _ _ 0 Hlen Hrun); [simpl; lia |].
    right. reflexivity.
  - apply (performance_empty_window _ _ _ _ _ _ 1 Hlen Hrun); [simpl; lia |].
    right. reflexivity.
Defined.

(** ** State extraction and the generator *)

Section NoDraw.
Context {G : Type} `{NumPy G}.
Import Extract.

(** A loop whose body leaves the generator as it is leaves it as it
    is. *)
Lemma for_seq_same_generator {St} (body : nat → St → Rand G St) :
  ∀ len start,
  (∀ i s g s' g', start ≤ i < start + len →
     body i s g = Ok (s', g') → g' = g) →
  ∀ s g s' g', for_each (seq start len) body s g = Ok (s', g') → g' = g.
Proof.
  induction len as [|len IH]; intros start Hbody s g s' g'; simpl.
  - by intros [_ ->]%mret_Ok.
  - intros (s1 & g1 & Hx & Hl)%Rand_bind_Ok.
    apply Hbody in Hx as ->; [| lia].
    apply IH in Hl; [done |].
    intros i s2 g2 s2' g2' Hi. apply Hbody. lia.
Qed.

Lemma extract_weight_no_draw analysis cells_fast cells_slow rows cols a b w
    (g g' : G) w' :
  complete_result analysis cells_fast cells_slow rows cols →
  a < rows → b < cols →
  extract_weight analysis cells_fast cells_slow a b w g = Ok (w', g') →
  g' = g.
Proof.
  intros Hcomplete Ha Hb. unfold extract_weight.
  intros (fn & g1 & [Hfn ->]%lift_Ok & Hrest)%Rand_bind_Ok.
  apply Rand_bind_Ok in Hrest as (sn & g2 & [Hsn ->]%lift_Ok & Hrest).
  destruct (Hcomplete a b fn sn Ha Hb Hfn Hsn)
    as (v_fast & v_slow & f & s & Hvf & Hvs & Hf & Hs).
  rewrite Hvf, Hvs in Hrest. unfold index_last in Hrest.
  rewrite Hf, Hs in Hrest. by apply lift_Ok in Hrest as [_ ->].
Qed.

Lemma extract_layer_no_draw analysis cells_fast cells_slow rows cols w
    (g g' : G) w' :
  complete_result analysis cells_fast cells_slow rows cols →
  for_range rows
    (λ a w, for_range cols
              (λ b w, extract_weight analysis cells_fast cells_slow a b w) w)
    w g = Ok (w', g') →
  g' = g.
Proof.
  intros Hcomplete. apply for_seq_same_generator.
  intros a w1 g1 w1' g1' Ha. apply for_seq_same_generator.
  intros b w2 g2 w2' g2' Hb.
  apply (extract_weight_no_draw _ _ _ rows cols); [done | lia | lia].
Qed.

End NoDraw.

(** X13. When the simulation result has a waveform with a last sample for
    the fast and the slow storage node of every synapse, state extraction
    draws no random number: the generator is left as it was. *)
Theorem extraction_of_complete_result_draws_nothing {G : Type} `{NumPy G}
    num_inputs num_hidden num_outputs analysis
    ih_cells_fast ih_cells_slow ho_cells_fast ho_cells_slow
    (g g' : G) ih_weights ho_weights :
  complete_result analysis ih_cells_fast ih_cells_slow num_inputs num_hidden →
  complete_result analysis ho_cells_fast ho_cells_slow num_hidden num_outputs →
  Extract.extract_network_state num_inputs num_hidden num_outputs
    (Some analysis) ih_cells_fast ih_cells_slow ho_cells_fast ho_cells_slow g
  = Ok ((ih_weights, ho_weights), g') →
  g' = g.
Proof.
  intros Hih Hho. unfold Extract.extract_network_state.
  intros (w1 & g1 & Hrun1 & Hrest)%Rand_bind_Ok.
  apply Rand_bind_Ok in Hrest as (w2 & g2 & Hrun2 & Hret).
  apply mret_Ok in Hret as [_ ->].
  apply (extract_layer_no_draw _ _ _ _ _ _ _ _ _ Hho) in Hrun2 as ->.
  by apply (extract_layer_no_draw _ _ _ _ _ _ _ _ _ Hih) in Hrun1 as ->.
Qed.

Lemma extraction_of_complete_result_draws_nothing_witness :
  ∃ ih_weights ho_weights,
    @Extract.extract_network_state nat counting_numpy 1 1 1
      (Some example_complete_analysis)
      [["ih_syn_0_0_fast"]] [["ih_syn_0_0_slow"]]
      [["ho_syn_0_0_fast"]] [["ho_syn_0_0_slow"]] 7
    = Ok ((ih_weights, ho_weights), 7).
Proof.
  assert (∃ r, @Extract.extract_network_state nat counting_numpy 1 1 1
                 (Some example_complete_analysis)
                 [["ih_syn_0_0_fast"]] [["ih_syn_0_0_slow"]]
                 [["ho_syn_0_0_fast"]] [["ho_syn_0_0_slow"]] 7
               = Ok r) as [[[ih_weights ho_weights] g'] Hrun].
  { eexists. vm_compute. reflexivity. }
  exists ih_weights, ho_weights.
  assert (complete_result example_complete_analysis
            [["ih_syn_0_0_fast"]] [["ih_syn_0_0_slow"]] 1 1) as Hih.
  { intros a b fn sn Ha Hb Hfn Hsn.
    destruct a; [| lia]. destruct b; [| lia].
    injection Hfn as <-. injection Hsn as <-.
    eexists _, _, _, _. split_and!; vm_compute; reflexivity. }
  assert (complete_result example_complete_analysis
            [["ho_syn_0_0_fast"]] [["ho_syn_0_0_slow"]] 1 1) as Hho.
  { intros a b fn sn Ha Hb Hfn Hsn.
    destruct a; [| lia]. destruct b; [| lia].
    injection Hfn as <-. injection Hsn as <-.
    eexists _, _, _, _. split_and!; vm_compute; reflexivity. }
  pose proof (@extraction_of_complete_result_draws_nothing nat counting_numpy
                1 1 1 example_complete_analysis _ _ _ _ 7 g' _ _ Hih Hho Hrun)
    as ->.
  exact Hrun.
Defined.

(** ** Mock activity and its evaluation *)

Section MockActivity.
Context {G : Type} `{NumPy G}.
Import Extract.

Lemma foldl_shape {X} rows cols (body : list (list Q) → X → list (list Q))
    (l : list X) :
  (∀ m x, shape rows cols m → shape rows cols (body m x)) →
  ∀ m, shape rows cols m → shape rows cols (foldl body m l).
Proof.
  intros Hbody. induction l as [|x l IH]; intros m Hm; simpl; [done |].
  by apply IH, Hbody.
Qed.

Lemma shape_add_to_column rows cols m i v scale :
  shape rows cols m → shape rows cols (add_to_column m i v scale).
Proof. apply shape_write_column. Qed.

Lemma mock_activity_shape num_inputs num_hidden num_outputs (g : G) :
  ∃ input_activity hidden_activity output_activity g',
    mock_activity num_inputs num_hidden num_outputs g
    = Ok ((linspace 0 100 1000, input_activity, hidden_activity,
           output_activity), g') ∧
    shape 1000 num_inputs input_activity ∧
    shape 1000 num_hidden hidden_activity ∧
    shape 1000 num_outputs output_activity.
Proof.
  unfold mock_activity.
  destruct (for_range_total (λ _, shape 1000 num_inputs) num_inputs
              (λ i act,
                 v ← random_uniform_vector 0 0.2 1000;
                 let act := write_column act i 0 v in
                 for_range 4
                   (λ p act,
                      let start := (p * (1000 `div` 4))%nat in
                      let end_ := (start + 1000 `div` 8)%nat in
                      if decide (i `mod` 4 = p `mod` 4)%nat then
                        v ← random_uniform_vector 0.8 1.2 (end_ - start);
                        mret (write_column act i start v)
                      else mret act) act))
    with (s := np_full 1000 num_inputs 0%Q) (g := g)
    as (ia & g1 & Hia & Hsia).
  { intros i act g0 Hi Hact.
    destruct (random_uniform_vector_total 0 0.2 1000 g0) as (v & g01 & Hv).
    destruct (for_range_total (λ _, shape 1000 num_inputs) 4
                (λ p act,
                   let start := (p * (1000 `div` 4))%nat in
                   let end_ := (start + 1000 `div` 8)%nat in
                   if decide (i `mod` 4 = p `mod` 4)%nat then
                     v ← random_uniform_vector 0.8 1.2 (end_ - start);
                     mret (write_column act i start v)
                   else mret act))
      with (s := write_column act i 0 v) (g := g01)
      as (act' & g02 & Hact' & Hs').
    { intros p act0 g03 Hp Hact0. cbv zeta. case_decide.
      - destruct (random_uniform_vector_total 0.8 1.2
                    (p * (1000 `div` 4) + 1000 `div` 8 - p * (1000 `div` 4))
                    g03) as (v' & g04 & Hv').
        eexists _, g04. split.
        + apply Rand_bind_Ok. exists v', g04. split; [exact Hv' |].
          by apply mret_Ok.
        + by apply shape_write_column.
      - exists act0, g03. split; [by apply mret_Ok | done]. }
    { by apply shape_write_column. }
    exists act', g02. split; [| done].
    apply Rand_bind_Ok. exists v, g01. split; [exact Hv | exact Hact']. }
  { apply shape_full. }
  rewrite (Rand_bind_step _ _ _ _ _ Hia).
  destruct (for_range_total (λ _, shape 1000 num_hidden) num_hidden
              (λ h act,
                 let act :=
                   foldl (λ act i, if decide (i `mod` num_hidden = h)%nat
                                   then add_to_column act h (column ia i) 0.5
                                   else act) act (seq 0 num_inputs) in
                 v ← random_uniform_vector 0 0.2 1000;
                 mret (add_to_column act h v 1)))
    with (s := np_full 1000 num_hidden 0%Q) (g := g1)
    as (ha & g2 & Hha & Hsha).
  { intros h act g0 Hh Hact. cbv zeta.
    destruct (random_uniform_vector_total 0 0.2 1000 g0) as (v & g01 & Hv).
    eexists _, g01. split.
    - apply Rand_bind_Ok. exists v, g01. split; [exact Hv |]. by apply mret_Ok.
    - apply shape_add_to_column, foldl_shape; [| done].
      intros m x Hm. case_decide; [by apply shape_add_to_column | done]. }
  { apply shape_full. }
  rewrite (Rand_bind_step _ _ _ _ _ Hha).
  destruct (for_range_total (λ _, shape 1000 num_outputs) num_outputs
              (λ o act,
                 let act :=
                   foldl (λ act h, if decide (h `mod` num_outputs = o)%nat
                                   then add_to_column act o (column ha h) 0.5
                                   else act) act (seq 0 num_hidden) in
                 v ← random_uniform_vector 0 0.2 1000;
                 mret (add_to_column act o v 1)))
    with (s := np_full 1000 num_outputs 0%Q) (g := g2)
    as (oa & g3 & Hoa & Hsoa).
  { intros o act g0 Ho Hact. cbv zeta.
    destruct (random_uniform_vector_total 0 0.2 1000 g0) as (v & g01 & Hv).
    eexists _, g01. split.
    - apply Rand_bind_Ok. exists v, g01. split; [exact Hv |]. by apply mret_Ok.
    - apply shape_add_to_column, foldl_shape; [| done].
      intros m x Hm. case_decide; [by apply shape_add_to_column | done]. }
  { apply shape_full. }
  rewrite (Rand_bind_step _ _ _ _ _ Hoa).
  by exists ia, ha, oa, g3.
Qed.

End MockActivity.

Section PerformanceTotal.
Import Performance.
Local Open Scope Q_scope.

Lemma argmax_total l : l ≠ [] → ∃ k, argmax l = Ok k.
Proof. destruct l; [done |]. intros _. simpl. eauto. Qed.

Lemma mean_axis0_nonempty rows cols :
  rows ≠ [] → Forall (λ row, length row = cols) rows → (1 ≤ cols)%nat →
  mean_axis0 rows ≠ [].
Proof.
  intros Hne Hshape Hcols. destruct rows as [|r rest]; [done |].
  apply Forall_cons in Hshape as [Hr _]. unfold mean_axis0.
  rewrite Hr. destruct cols; [lia |]. done.
Qed.

Lemma pattern_correct_total rows cols output_activity targets tpp p target :
  shape rows cols output_activity → (1 ≤ cols)%nat → (1 ≤ tpp)%Z →
  targets !! p = Some target → target ≠ [] →
  ∃ b, pattern_correct output_activity targets tpp p = Ok b.
Proof.
  intros [Hrows Hcols] Hc Htpp Htarget Hne. unfold pattern_correct.
  rewrite Hrows.
  set (start := ((Z.of_nat p * tpp) `min` (Z.of_nat rows - 1))%Z).
  set (stop := ((start + tpp `div` 2) `min` (Z.of_nat rows - 1))%Z).
  case_decide as Hwin; [eauto |].
  assert (0 ≤ start)%Z as Hstart.
  { destruct (decide (rows = 0)%nat) as [-> | ?]; [| subst start; nia].
    exfalso. apply Hwin. subst stop start. simpl.
    assert (0 ≤ tpp `div` 2)%Z by (apply Z.div_pos; lia). lia. }
  destruct (argmax_total (mean_axis0 (slice output_activity start stop)))
    as [predicted ->].
  { apply (mean_axis0_nonempty _ cols); [| | done].
    - apply slice_nonempty; [lia |]. subst stop. lia.
    - apply slice_Forall; [done |]. intros t x _ Hx.
      rewrite Forall_forall in Hcols. apply Hcols.
      by eapply list_elem_of_lookup_2. }
  cbn [mbind result_bind]. unfold index. rewrite Htarget.
  cbn [mbind result_bind].
  destruct (argmax_total (inject_Z <$> target)) as [true_class ->].
  { by destruct target. }
  simpl. eauto.
Qed.

Lemma loop_patterns_total output_activity targets tpp ps : ∀ acc,
  Forall (λ p, ∃ b, pattern_correct output_activity targets tpp p = Ok b) ps →
  ∃ accs, loop_patterns output_activity targets tpp ps acc = Ok accs.
Proof.
  induction ps as [|p ps IH]; intros acc Hall; simpl; [eauto |].
  apply Forall_cons in Hall as [[b ->] Hall]. simpl. by apply IH.
Qed.

Lemma calculate_performance_total rows cols output_activity targets time_us
    phase_duration t0 t1 :
  time_us !! 0%nat = Some t0 → time_us !! 1%nat = Some t1 →
  ¬ t1 - t0 == 0 →
  Qabs (phase_duration / (t1 - t0)) < float_overflow →
  shape rows cols output_activity → (1 ≤ cols)%nat →
  Forall (λ target, target ≠ []) targets →
  ∃ accuracy accuracies,
    calculate_performance output_activity targets time_us phase_duration
    = Ok (accuracy, accuracies).
Proof.
  intros H0 H1 Hstep Hfinite Hshape Hcols Htargets.
  unfold calculate_performance.
  rewrite decide_False by (apply lookup_lt_Some in H1; lia).
  unfold index. rewrite H0, H1. cbn [mbind result_bind].
  destruct (Qeq_bool (t1 - t0) 0) eqn:Heq;
    [by apply Qeq_bool_iff in Heq |].
  destruct (Qle_bool float_overflow _) eqn:Hover.
  { apply Qle_bool_iff in Hover. by apply Qle_not_lt in Hover. }
  destruct (loop_patterns_total output_activity targets
              (1 `max` int (phase_duration / (t1 - t0)))
              (seq 0 (length targets)) []) as [accs ->]; [| simpl; eauto].
  apply Forall_forall. intros p Hp%elem_of_seq.
  destruct (lookup_lt_is_Some_2 targets p) as [target Htarget]; [lia |].
  apply (pattern_correct_total rows cols _ _ _ _ target);
    [done | done | lia | done |].
  rewrite Forall_forall in Htargets. apply Htargets.
  by eapply list_elem_of_lookup_2.
Qed.

Lemma linspace_lookup start stop num k :
  (k < num)%nat →
  Extract.linspace start stop num !! k
  = Some (start + (stop - start) * inject_Z (Z.of_nat k)
                  / inject_Z (Z.of_nat (num - 1))).
Proof.
  intros Hk. unfold Extract.linspace.
  by rewrite list_lookup_fmap, lookup_seq_lt.
Qed.

End PerformanceTotal.

(** X14. The evaluation returns, with one verdict per target, whenever the
    time axis has two samples at least, its first step is not zero and
    divides the pattern duration to at most 1e300 in magnitude, which is
    far inside the floats, the output activity is a rectangular array with
    one column at least, and no target is empty. *)
Theorem performance_returns rows cols output_activity targets time_us
    phase_duration t0 t1 :
  time_us !! 0 = Some t0 → time_us !! 1 = Some t1 →
  ¬ (t1 - t0 == 0)%Q →
  (Qabs (phase_duration / (t1 - t0)) <= 1e300)%Q →
  shape rows cols output_activity → 1 ≤ cols →
  Forall (λ target, target ≠ []) targets →
  ∃ accuracy accuracies,
    Performance.calculate_performance output_activity targets time_us
      phase_duration = Ok (accuracy, accuracies) ∧
    length accuracies = length targets.
Proof.
  intros H0 H1 Hstep Hfinite Hshape Hcols Htargets.
  destruct (calculate_performance_total rows cols output_activity targets
              time_us phase_duration t0 t1 H0 H1 Hstep)
    as (accuracy & accuracies & Hrun); [| done | done | done |].
  { eapply Qle_lt_trans; [exact Hfinite | by vm_compute]. }
  exists accuracy, accuracies. split; [done |].
  apply calculate_performance_inv in Hrun as [Hall _].
  - apply Forall2_length in Hall. by rewrite length_seq in Hall.
  - apply lookup_lt_Some in H1. lia.
Qed.

Lemma performance_returns_witness :
  ∃ accuracy accuracies,
    Performance.calculate_performance
      (replicate 12 [0.3; 0.1]%Q) [[1; 0]%Z; [0; 1]%Z] [0; 5]%Q 20
    = Ok (accuracy, accuracies) ∧
    length accuracies = 2.
Proof.
  destruct (performance_returns 12 2 (replicate 12 [0.3; 0.1]%Q)
              [[1; 0]%Z; [0; 1]%Z] [0; 5]%Q 20 0%Q 5%Q)
    as (accuracy & accuracies & Hrun & Hlen).
  - reflexivity.
  - reflexivity.
  - intros Heq. vm_compute in Heq. discriminate.
  - vm_compute. discriminate.
  - split; [reflexivity |]. by apply Forall_replicate.
  - lia.
  - by repeat constructor.
  - exists accuracy, accuracies. split; [exact Hrun | exact Hlen].
Defined.

(** X15. When the simulation result is the failure marker, activity
    extraction returns, whatever the node lists, the mock trace: a time
    axis of 1000 points and three activity arrays of 1000 rows with one
    column per declared neuron of the layer. The evaluation of the mock
    output activity against targets none of which is empty then returns
    one verdict per target, when there is an output neuron at all. *)
Theorem mock_activity_is_scored {G : Type} `{NumPy G}
    num_inputs num_hidden num_outputs input_nodes hidden_nodes output_nodes
    (targets : list (list Z)) (g : G) :
  ∃ time_us input_activity hidden_activity output_activity g',
    Extract.extract_activity_over_time num_inputs num_hidden num_outputs
      None input_nodes hidden_nodes output_nodes g
    = Ok ((time_us, input_activity, hidden_activity, output_activity), g') ∧
    length time_us = 1000 ∧
    shape 1000 num_inputs input_activity ∧
    shape 1000 num_hidden hidden_activity ∧
    shape 1000 num_outputs output_activity ∧
    (1 ≤ num_outputs → Forall (λ target, target ≠ []) targets →
     ∃ accuracy accuracies,
       Performance.calculate_performance output_activity targets time_us 20
       = Ok (accuracy, accuracies) ∧
       length accuracies = length targets).
Proof.
  destruct (mock_activity_shape num_inputs num_hidden num_outputs g)
    as (ia & ha & oa & g' & Hrun & Hia & Hha & Hoa).
  exists (Extract.linspace 0 100 1000), ia, ha, oa, g'.
  split; [exact Hrun |].
  split; [unfold Extract.linspace; by rewrite length_fmap, length_seq |].
  split_and!; [done | done | done |].
  intros Hno Htargets.
  destruct (calculate_performance_total 1000 num_outputs oa targets
              (Extract.linspace 0 100 1000) 20 _ _
              (linspace_lookup 0 100 1000 0 ltac:(lia))
              (linspace_lookup 0 100 1000 1 ltac:(lia)))
    as (accuracy & accuracies & Hperf); [| | done | done | done |].
  { intros Heq. vm_compute in Heq. discriminate. }
  { by vm_compute. }
  exists accuracy, accuracies. split; [done |].
  apply calculate_performance_inv in Hperf as [Hall _].
  - apply Forall2_length in Hall. by rewrite length_seq in Hall.
  - unfold Extract.linspace. rewrite length_fmap, length_seq. lia.
Qed.

(** ** The learning loop: invariant, failures and the steps that return *)

Section ExperimentMore.
Context {G : Type} `{NumPy G}.
Variables num_inputs num_hidden num_outputs LEARNING_STEPS : nat.
Variables train_patterns train_targets : list (list Z).
Variable transient : Circuit → Q → Q → option Analysis.
Import Experiment.

Lemma random_uniform_vector_length low high size : ∀ (g g' : G) v,
  random_uniform_vector low high size g = Ok (v, g') → length v = size.
Proof.
  induction size as [|n IH]; intros g g' v; simpl.
  - by intros [-> _]%mret_Ok.
  - intros (x & g1 & _ & Hrest)%Rand_bind_Ok.
    apply Rand_bind_Ok in Hrest as (xs & g2 & Hxs & [-> _]%mret_Ok).
    simpl. by rewrite (IH _ _ _ Hxs).
Qed.

Lemma random_uniform_matrix_shape low high rows cols : ∀ (g g' : G) m,
  random_uniform_matrix low high rows cols g = Ok (m, g') → shape rows cols m.
Proof.
  induction rows as [|n IH]; intros g g' m; simpl.
  - intros [-> _]%mret_Ok. split; [done | constructor].
  - intros (r & g1 & Hr & Hrest)%Rand_bind_Ok.
    apply Rand_bind_Ok in Hrest as (rs & g2 & Hrs & [-> _]%mret_Ok).
    apply random_uniform_vector_length in Hr.
    apply IH in Hrs as [Hlen Hrows]. split; [simpl; lia |].
    by constructor.
Qed.

Lemma extract_network_state_shape analysis
    ih_cells_fast ih_cells_slow ho_cells_fast ho_cells_slow
    (g g' : G) ih_weights ho_weights :
  Extract.extract_network_state num_inputs num_hidden num_outputs
    analysis ih_cells_fast ih_cells_slow ho_cells_fast ho_cells_slow g
  = Ok ((ih_weights, ho_weights), g') →
  shape num_inputs num_hidden ih_weights ∧
  shape num_hidden num_outputs ho_weights.
Proof.
  unfold Extract.extract_network_state. destruct analysis as [analysis|].
  - intros (w1 & g1 & Hrun1 & Hrest)%Rand_bind_Ok.
    apply Rand_bind_Ok in Hrest as (w2 & g2 & Hrun2 & Hret).
    apply mret_Ok in Hret as [[= <- <-] _].
    apply (extract_layer_weights_spec (λ _, True)) in Hrun1 as [? _];
      [| done].
    apply (extract_layer_weights_spec (λ _, True)) in Hrun2 as [? _];
      [| done].
    done.
  - intros (w1 & g1 & Hrun1 & Hrest)%Rand_bind_Ok.
    apply Rand_bind_Ok in Hrest as (w2 & g2 & Hrun2 & Hret).
    apply mret_Ok in Hret as [[= <- <-] _].
    apply random_uniform_matrix_shape in Hrun1, Hrun2. done.
Qed.

Lemma calculate_performance_range output_activity targets time_us
    phase_duration accuracy accuracies :
  Performance.calculate_performance output_activity targets time_us
    phase_duration = Ok (accuracy, accuracies) →
  (0 <= accuracy <= 1)%Q.
Proof.
  intros Hrun.
  destruct (decide (length time_us ≤ 1)) as [Hshort | Hlong].
  - unfold Performance.calculate_performance in Hrun.
    rewrite decide_True in Hrun by done. by injection Hrun as <- <-.
  - apply calculate_performance_inv in Hrun as [Hall ->]; [| lia].
    case_decide; [done | by apply mean_bool_range].
Qed.

(** Every step that returns keeps the history well-formed. *)
Lemma learning_step_body_history cell_types_ih cell_types_ho learning_step
    hist (g g' : G) hist' :
  learning_step_body num_inputs num_hidden num_outputs
    train_patterns train_targets transient
    cell_types_ih cell_types_ho learning_step hist g = Ok (hist', g') →
  history_ok num_inputs num_hidden num_outputs hist →
  history_ok num_inputs num_hidden num_outputs hist'.
Proof.
  unfold learning_step_body.
  intros (b & g1 & _ & Hrest)%Rand_bind_Ok.
  apply Rand_bind_Ok in Hrest as ([[c T] end_time] & g2 & _ & Hrest).
  apply Rand_bind_Ok in Hrest as (u & g3 & _ & Hrest).
  apply Rand_bind_Ok in Hrest as ([ihw how] & g4 & Hstate & Hrest).
  apply Rand_bind_Ok in Hrest as ([[[time_us ia] ha] oa] & g5 & _ & Hrest).
  apply Rand_bind_Ok in Hrest
    as ([accuracy accs] & g6 & [Hperf _]%lift_Ok & Hrest).
  apply mret_Ok in Hrest as [-> _].
  apply extract_network_state_shape in Hstate as [Hih Hho].
  apply calculate_performance_range in Hperf.
  intros (Ha & Hi & Ho). unfold history_ok. simpl.
  rewrite !Forall_app, !Forall_singleton. done.
Qed.

Lemma run_learning_experiment_invariant (g g' : G) hist :
  run_learning_experiment num_inputs num_hidden num_outputs LEARNING_STEPS
    train_patterns train_targets transient g = Ok (hist, g') →
  0 < LEARNING_STEPS ∧
  length (train_accuracies hist) = LEARNING_STEPS ∧
  length (ih_weights_history hist) = S LEARNING_STEPS ∧
  length (ho_weights_history hist) = S LEARNING_STEPS ∧
  history_ok num_inputs num_hidden num_outputs hist.
Proof.
  intros Hrun.
  pose proof (run_learning_experiment_history _ _ _ _ _ _ _ _ _ _ Hrun)
    as (Hla & Hli & Hlo).
  unfold run_learning_experiment in Hrun.
  apply Rand_bind_Ok in Hrun as ([ih ho] & g1 & _ & Hrest).
  apply Rand_bind_Ok in Hrest as (ih0 & g2 & Hih0 & Hrest).
  apply Rand_bind_Ok in Hrest as (ho0 & g3 & Hho0 & Hrest).
  apply Rand_bind_Ok in Hrest as (hist1 & g4 & Hloop & Hrest).
  apply Rand_bind_Ok in Hrest
    as (last_acc & g5 & [Hlast _]%lift_Ok & [-> _]%mret_Ok).
  split_and!; [| done | done | done |].
  - unfold index_last in Hlast.
    destruct (train_accuracies hist1) as [|a l]; [done |]. simpl in Hla. lia.
  - revert Hloop.
    apply (for_range_inv
             (λ _, history_ok num_inputs num_hidden num_outputs)).
    + intros i s g6 s' g6' _ Hs Hstep.
      by eapply learning_step_body_history.
    + apply random_uniform_matrix_shape in Hih0, Hho0.
      unfold history_ok. simpl. rewrite !Forall_singleton. done.
Qed.

End ExperimentMore.

(** X16. A run of the learning experiment that returns has performed at
    least one learning step; its history holds one accuracy per step, each
    between 0 and 1, and one input-to-hidden and one hidden-to-output
    weight matrix more than there are steps, the initial ones included,
    each of the declared shape. *)
Theorem run_history_invariant {G : Type} `{NumPy G}
    num_inputs num_hidden num_outputs LEARNING_STEPS
    train_patterns train_targets transient (g g' : G) hist :
  Experiment.run_learning_experiment num_inputs num_hidden num_outputs
    LEARNING_STEPS train_patterns train_targets transient g = Ok (hist, g') →
  0 < LEARNING_STEPS ∧
  length (Experiment.train_accuracies hist) = LEARNING_STEPS ∧
  length (Experiment.ih_weights_history hist) = S LEARNING_STEPS ∧
  length (Experiment.ho_weights_history hist) = S LEARNING_STEPS ∧
  Forall (λ a, 0 <= a <= 1)%Q (Experiment.train_accuracies hist) ∧
  Forall (shape num_inputs num_hidden) (Experiment.ih_weights_history hist) ∧
  Forall (shape num_hidden num_outputs) (Experiment.ho_weights_history hist).
Proof. apply run_learning_experiment_invariant. Qed.

Lemma run_history_invariant_witness :
  ∃ hist g',
    @Experiment.run_learning_experiment nat counting_numpy 2 2 2 1
      [[1; 0]%Z] [[1; 0]%Z] empty_solver 0 = Ok (hist, g') ∧
    length (Experiment.train_accuracies hist) = 1 ∧
    Forall (shape 2 2) (Experiment.ih_weights_history hist).
Proof.
  assert (∃ r, @Experiment.run_learning_experiment nat counting_numpy 2 2 2 1
                 [[1; 0]%Z] [[1; 0]%Z] empty_solver 0 = Ok r)
    as [[hist g'] Hrun].
  { eexists. vm_compute. reflexivity. }
  exists hist, g'. split; [exact Hrun |].
  destruct (@run_history_invariant nat counting_numpy 2 2 2 1
              [[1; 0]%Z] [[1; 0]%Z] empty_solver 0 g' hist Hrun)
    as (_ & Hla & _ & _ & _ & Hih & _).
  split; [exact Hla | exact Hih].
Defined.

Section ExperimentRaises.
Context {G : Type} `{NumPySpec G}.
Variables num_inputs num_hidden num_outputs LEARNING_STEPS : nat.
Variables train_patterns train_targets : list (list Z).
Variable transient : Circuit → Q → Q → option Analysis.
Import Experiment.

Lemma Rand_bind_lift {A B} (r : result A) (f : A → Rand G B) (g : G) a :
  r = Ok a → (lift r ≫= f) g = f a g.
Proof. by intros ->. Qed.

Lemma Rand_bind_lift_Raise {A B} (r : result A) (f : A → Rand G B) (g : G) e :
  r = Raise e → (lift r ≫= f) g = Raise e.
Proof. by intros ->. Qed.

(** The topology of accepted layer sizes, with its shapes. *)
Lemma initialize_network_architecture_accepted (g : G) :
  accepted_sizes num_inputs num_hidden num_outputs →
  ∃ ih ho g',
    Topology.initialize_network_architecture num_inputs num_hidden
      num_outputs g = Ok ((ih, ho), g') ∧
    shape num_inputs num_hidden ih ∧ shape num_hidden num_outputs ho.
Proof.
  intros (Hih & Hho & Hni).
  destruct (input_hidden_accepted num_inputs num_hidden g Hih Hni)
    as (ih & g1 & Hrun1).
  destruct (hidden_output_accepted num_hidden num_outputs g1 Hho)
    as (ho & g2 & Hrun2).
  exists ih, ho, g2. split_and!.
  - unfold Topology.initialize_network_architecture.
    apply Rand_bind_Ok. exists ih, g1. split; [done |].
    apply Rand_bind_Ok. exists ho, g2. split; [done |]. by apply mret_Ok.
  - by apply input_hidden_stable in Hrun1 as [? _].
  - by apply hidden_output_stable in Hrun2 as [? _].
Qed.

(** A learning step in which the solver fails raises [AttributeError],
    when the topology and the training set are well-formed. *)
Lemma learning_step_body_raises cell_types_ih cell_types_ho learning_step
    hist (g : G) :
  shape num_inputs num_hidden cell_types_ih →
  shape num_hidden num_outputs cell_types_ho →
  Forall (λ p, num_inputs ≤ length p) train_patterns →
  Forall (λ t, num_outputs ≤ length t) train_targets →
  (∀ circuit time_step end_time, transient circuit time_step end_time = None) →
  learning_step_body num_inputs num_hidden num_outputs
    train_patterns train_targets transient
    cell_types_ih cell_types_ho learning_step hist g
  = Raise AttributeError.
Proof.
  intros Hih Hho Hp Ht Hfail. unfold learning_step_body.
  destruct (build_circuit_for_learning_total num_inputs num_hidden
              num_outputs cell_types_ih cell_types_ho learning_step g Hih Hho)
    as (b & g1 & Hbuild).
  rewrite (Rand_bind_step _ _ _ _ _ Hbuild).
  apply build_circuit_for_learning_spec in Hbuild as ((Hnodes & _) & _).
  destruct (waveforms_spec num_inputs num_outputs train_patterns
              train_targets learning_step Hp Ht)
    as (s & Hs & _ & _ & _ & Hin & Herr & _).
  edestruct (generate_simulation_signals_spec num_inputs num_outputs
               (Builder.circuit b) (Builder.input_nodes b)
               (Builder.output_nodes b) (Builder.error_nodes b)
               train_patterns train_targets learning_step s Hs)
    as (c' & Hgen & _).
  { rewrite Hin. unfold final_inputs. by rewrite length_fmap, length_seq. }
  { rewrite Herr. unfold final_errors. by rewrite length_fmap, length_seq. }
  { rewrite Hnodes. by rewrite length_fmap, length_seq. }
  rewrite (Rand_bind_lift _ _ _ _ Hgen). cbv beta iota.
  apply Rand_bind_lift_Raise.
  unfold run_simulation. by rewrite Hfail.
Qed.

Lemma run_learning_experiment_raises (g : G) :
  accepted_sizes num_inputs num_hidden num_outputs →
  Forall (λ p, num_inputs ≤ length p) train_patterns →
  Forall (λ t, num_outputs ≤ length t) train_targets →
  (∀ circuit time_step end_time, transient circuit time_step end_time = None) →
  0 < LEARNING_STEPS →
  run_learning_experiment num_inputs num_hidden num_outputs LEARNING_STEPS
    train_patterns train_targets transient g = Raise AttributeError.
Proof.
  intros Hsizes Hp Ht Hfail Hsteps. unfold run_learning_experiment.
  destruct (initialize_network_architecture_accepted g Hsizes)
    as (ih & ho & g1 & Hinit & Hih & Hho).
  rewrite (Rand_bind_step _ _ _ _ _ Hinit). cbv beta iota.
  destruct (random_uniform_matrix_total 0 0.2 num_inputs num_hidden g1)
    as (ih0 & g2 & Hih0).
  rewrite (Rand_bind_step _ _ _ _ _ Hih0).
  destruct (random_uniform_matrix_total 0 0.2 num_hidden num_outputs g2)
    as (ho0 & g3 & Hho0).
  rewrite (Rand_bind_step _ _ _ _ _ Hho0).
  apply Rand_bind_Raise.
  destruct LEARNING_STEPS as [|n]; [lia |].
  unfold for_range. cbn [seq for_each].
  apply Rand_bind_Raise. by apply learning_step_body_raises.
Qed.

Lemma run_learning_experiment_no_steps (g : G) :
  accepted_sizes num_inputs num_hidden num_outputs →
  LEARNING_STEPS = 0 →
  run_learning_experiment num_inputs num_hidden num_outputs LEARNING_STEPS
    train_patterns train_targets transient g = Raise IndexError.
Proof.
  intros Hsizes ->. unfold run_learning_experiment.
  destruct (initialize_network_architecture_accepted g Hsizes)
    as (ih & ho & g1 & Hinit & Hih & Hho).
  rewrite (Rand_bind_step _ _ _ _ _ Hinit). cbv beta iota.
  destruct (random_uniform_matrix_total 0 0.2 num_inputs num_hidden g1)
    as (ih0 & g2 & Hih0).
  rewrite (Rand_bind_step _ _ _ _ _ Hih0).
  destruct (random_uniform_matrix_total 0 0.2 num_hidden num_outputs g2)
    as (ho0 & g3 & Hho0).
  rewrite (Rand_bind_step _ _ _ _ _ Hho0).
  done.
Qed.

End ExperimentRaises.

(** X17. With a generator that meets NumPy's contract, layer sizes the
    topology generator accepts and a training set whose patterns and
    targets cover the input and the output lines, a run of at least one
    learning step with a solver that fails ends with [AttributeError] in
    its first step: the loop that prints the node voltages reads
    [analysis.nodes] of the failure marker. *)
Theorem run_with_failing_solver_raises {G : Type} `{NumPySpec G}
    num_inputs num_hidden num_outputs LEARNING_STEPS
    train_patterns train_targets transient (g : G) :
  accepted_sizes num_inputs num_hidden num_outputs →
  Forall (λ p, num_inputs ≤ length p) train_patterns →
  Forall (λ t, num_outputs ≤ length t) train_targets →
  (∀ circuit time_step end_time, transient circuit time_step end_time = None) →
  0 < LEARNING_STEPS →
  Experiment.run_learning_experiment num_inputs num_hidden num_outputs
    LEARNING_STEPS train_patterns train_targets transient g
  = Raise AttributeError.
Proof. apply run_learning_experiment_raises. Qed.

Lemma run_with_failing_solver_raises_witness :
  @Experiment.run_learning_experiment nat counting_numpy 2 3 2 2
    [[1; 0]%Z; [0; 1]%Z] [[1; 0]%Z; [0; 1]%Z] failing_solver 0
  = Raise AttributeError.
Proof.
  apply (@run_with_failing_solver_raises nat counting_numpy
           counting_numpy_spec 2 3 2 2).
  - unfold accepted_sizes. lia.
  - repeat constructor.
  - repeat constructor.
  - done.
  - lia.
Defined.

(** X18. With a generator that meets NumPy's contract and layer sizes the
    topology generator accepts, a run configured with no learning step
    ends with [IndexError]: the final report reads the last entry of an
    empty list of accuracies. *)
Theorem run_without_learning_steps_raises {G : Type} `{NumPySpec G}
    num_inputs num_hidden num_outputs LEARNING_STEPS
    train_patterns train_targets transient (g : G) :
  accepted_sizes num_inputs num_hidden num_outputs →
  LEARNING_STEPS = 0 →
  Experiment.run_learning_experiment num_inputs num_hidden num_outputs
    LEARNING_STEPS train_patterns train_targets transient g
  = Raise IndexError.
Proof. apply run_learning_experiment_no_steps. Qed.

Lemma run_without_learning_steps_raises_witness :
  @Experiment.run_learning_experiment nat counting_numpy 16 6 4 0
    [] [] failing_solver 0
  = Raise IndexError.
Proof.
  apply (@run_without_learning_steps_raises nat counting_numpy
           counting_numpy_spec 16 6 4 0).
  - unfold accepted_sizes. lia.
  - reflexivity.
Defined.

Section StepReturns.
Context {G : Type} `{NumPy G}.
Variables num_inputs num_hidden num_outputs : nat.

Lemma shape_name_matrix rows cols f :
  shape rows cols (Builder.name_matrix rows cols f).
Proof.
  unfold Builder.name_matrix. split.
  - by rewrite length_fmap, length_seq.
  - apply Forall_fmap, Forall_forall. intros a _. simpl.
    by rewrite length_fmap, length_seq.
Qed.

Lemma extract_network_state_total analysis
    ih_cells_fast ih_cells_slow ho_cells_fast ho_cells_slow (g : G) :
  shape num_inputs num_hidden ih_cells_fast →
  shape num_inputs num_hidden ih_cells_slow →
  shape num_hidden num_outputs ho_cells_fast →
  shape num_hidden num_outputs ho_cells_slow →
  ∃ w g',
    Extract.extract_network_state num_inputs num_hidden num_outputs
      (Some analysis) ih_cells_fast ih_cells_slow ho_cells_fast ho_cells_slow g
    = Ok (w, g').
Proof.
  intros Hif His Hof Hos. unfold Extract.extract_network_state.
  destruct (extract_layer_weights_total (λ _, True) (λ _ _ _ _, I)
              num_inputs num_hidden analysis ih_cells_fast ih_cells_slow g
              Hif His) as (ih & g1 & Hih).
  rewrite (Rand_bind_step _ _ _ _ _ Hih).
  destruct (extract_layer_weights_total (λ _, True) (λ _ _ _ _, I)
              num_hidden num_outputs analysis ho_cells_fast ho_cells_slow g1
              Hof Hos) as (ho & g2 & Hho).
  rewrite (Rand_bind_step _ _ _ _ _ Hho). by eexists _, _.
Qed.

Lemma extract_activity_over_time_total analysis
    input_nodes hidden_nodes output_nodes (g : G) :
  (∀ name v, nodes analysis !! name = Some v →
             length v = length (time analysis)) →
  length input_nodes ≤ num_inputs →
  length hidden_nodes ≤ num_hidden →
  length output_nodes ≤ num_outputs →
  ∃ input_activity hidden_activity output_activity,
    Extract.extract_activity_over_time num_inputs num_hidden num_outputs
      (Some analysis) input_nodes hidden_nodes output_nodes g
    = Ok (((λ t, t * 1e6)%Q <$> time analysis, input_activity,
           hidden_activity, output_activity), g) ∧
    shape (length (time analysis)) num_outputs output_activity.
Proof.
  intros Hwave Hi Hh Ho. unfold Extract.extract_activity_over_time.
  rewrite length_fmap.
  destruct (extract_layer_spec analysis (length (time analysis)) num_inputs
              input_nodes 0 (np_full (length (time analysis)) num_inputs 0%Q))
    as (ia & Hia & _); [done | simpl; lia | apply shape_full |].
  destruct (extract_layer_spec analysis (length (time analysis)) num_hidden
              hidden_nodes 0 (np_full (length (time analysis)) num_hidden 0%Q))
    as (ha & Hha & _); [done | simpl; lia | apply shape_full |].
  destruct (extract_layer_spec analysis (length (time analysis)) num_outputs
              output_nodes 0
              (np_full (length (time analysis)) num_outputs 0%Q))
    as (oa & Hoa & Hshape & _); [done | simpl; lia | apply shape_full |].
  rewrite (Rand_bind_lift _ _ _ _ Hia), (Rand_bind_lift _ _ _ _ Hha),
    (Rand_bind_lift _ _ _ _ Hoa).
  by eexists _, _, _.
Qed.

(** A step that is bounded from below keeps the quotient inside the
    floats. *)
Lemma quotient_finite (duration step bound : Q) :
  (0 <= duration)%Q → (0 < bound)%Q → (bound <= step)%Q →
  (duration / bound < Performance.float_overflow)%Q →
  ¬ (step == 0)%Q ∧
  (Qabs (duration / step) < Performance.float_overflow)%Q.
Proof.
  intros Hd Hb Hstep Hfinite.
  assert (0 < step)%Q as Hpos by lra.
  split; [lra |].
  assert (0 <= duration / step)%Q as Hq.
  { apply Qle_shift_div_l; [done | lra]. }
  rewrite Qabs_pos by done.
  eapply Qle_lt_trans; [| exact Hfinite].
  apply Qle_shift_div_l; [done |].
  assert (duration / step * step == duration)%Q as E by (field; lra).
  assert (duration / step * bound <= duration / step * step)%Q; [| lra].
  rewrite !(Qmult_comm (duration / step)).
  by apply Qmult_le_compat_r.
Qed.

Lemma calculate_performance_length output_activity targets time_us
    phase_duration accuracy accuracies :
  Performance.calculate_performance output_activity targets time_us
    phase_duration = Ok (accuracy, accuracies) →
  length accuracies = length targets.
Proof.
  intros Hrun.
  destruct (decide (length time_us ≤ 1)) as [Hshort | Hlong].
  - unfold Performance.calculate_performance in Hrun.
    rewrite decide_True in Hrun by done. injection Hrun as <- <-.
    by rewrite length_replicate.
  - apply calculate_performance_inv in Hrun as [Hall _]; [| lia].
    apply Forall2_length in Hall. by rewrite length_seq in Hall.
Qed.

Lemma calculate_performance_of_result analysis rows output_activity
    (targets : list (list Z)) :
  (∀ t0 t1, time analysis !! 0 = Some t0 → time analysis !! 1 = Some t1 →
            (t0 == 0 ∧ 1e-12 <= t1)%Q) →
  shape rows num_outputs output_activity →
  1 ≤ num_outputs →
  Forall (λ target, target ≠ []) targets →
  ∃ accuracy accuracies,
    Performance.calculate_performance output_activity targets
      ((λ t, t * 1e6)%Q <$> time analysis) 20
    = Ok (accuracy, accuracies).
Proof.
  intros Hstep Hshape Hno Htargets.
  destruct (decide (length (time analysis) ≤ 1)) as [Hshort | Hlong].
  - unfold Performance.calculate_performance.
    rewrite decide_True by (by rewrite length_fmap). by eexists _, _.
  - destruct (lookup_lt_is_Some_2 (time analysis) 0) as [t0 Ht0]; [lia |].
    destruct (lookup_lt_is_Some_2 (time analysis) 1) as [t1 Ht1]; [lia |].
    destruct (Hstep t0 t1 Ht0 Ht1) as [Hzero Hlate].
    destruct (quotient_finite 20 (t1 * 1e6 - t0 * 1e6) (1e-12 * 1e6))
      as [Hne Hfinite].
    + by vm_compute.
    + by vm_compute.
    + assert (0 < 1e6)%Q as Hc by (by vm_compute).
      revert Hc Hlate. generalize 1e6%Q, 1e-12%Q. intros c m Hc Hlate.
      rewrite Hzero. nra.
    + by vm_compute.
    + apply (calculate_performance_total rows num_outputs _ _ _ _
               (t0 * 1e6)%Q (t1 * 1e6)%Q); [| | done | done | done | done | done].
      * by rewrite list_lookup_fmap, Ht0.
      * by rewrite list_lookup_fmap, Ht1.
Qed.

End StepReturns.

(** X24. A learning step raises nothing from its circuit to its scoring,
    whatever result the simulation has returned, when the cell-type arrays
    have the declared shapes, the patterns and targets cover the input and
    the output lines, there is an output at all, and the result has one
    value per time sample in every waveform and a time axis that starts
    at 0 and reaches a picosecond at least with its second sample: the
    builder and the stimulus generator return, and so do, on the result,
    the two extractions and the evaluation, with one verdict per
    target. *)
Theorem learning_step_returns_up_to_scoring {G : Type} `{NumPy G}
    num_inputs num_hidden num_outputs cell_types_ih cell_types_ho
    train_patterns train_targets learning_step analysis (g : G) :
  shape num_inputs num_hidden cell_types_ih →
  shape num_hidden num_outputs cell_types_ho →
  1 ≤ num_outputs →
  Forall (λ p, num_inputs ≤ length p) train_patterns →
  Forall (λ t, num_outputs ≤ length t) train_targets →
  transient_result analysis →
  ∃ b g1 circuit T end_time weights g2
    time_us input_activity hidden_activity output_activity g3
    accuracy accuracies,
    Builder.build_circuit_for_learning num_inputs num_hidden num_outputs
      cell_types_ih cell_types_ho learning_step g = Ok (b, g1) ∧
    Stimulus.generate_simulation_signals num_inputs num_outputs
      (Builder.circuit b) (Builder.input_nodes b) (Builder.output_nodes b)
      (Builder.error_nodes b) train_patterns train_targets learning_step
    = Ok (circuit, T, end_time) ∧
    Extract.extract_network_state num_inputs num_hidden num_outputs
      (Some analysis) (Builder.ih_cells_fast b) (Builder.ih_cells_slow b)
      (Builder.ho_cells_fast b) (Builder.ho_cells_slow b) g1
    = Ok (weights, g2) ∧
    Extract.extract_activity_over_time num_inputs num_hidden num_outputs
      (Some analysis) (Builder.input_nodes b) (Builder.hidden_nodes b)
      (Builder.output_nodes b) g2
    = Ok ((time_us, input_activity, hidden_activity, output_activity), g3) ∧
    Performance.calculate_performance output_activity train_targets
      time_us 20 = Ok (accuracy, accuracies) ∧
    length accuracies = length train_targets.
Proof.
  intros Hih Hho Hno Hp Ht [Hwave Hstep].
  destruct (build_circuit_for_learning_total num_inputs num_hidden
              num_outputs cell_types_ih cell_types_ho learning_step g Hih Hho)
    as (b & g1 & Hbuild).
  destruct (build_circuit_for_learning_spec _ _ _ _ _ _ _ _ _ Hbuild)
    as ((Hin_nodes & Hhid_nodes & Hout_nodes & _ & Hif & His & Hof & Hos) & _).
  destruct (waveforms_spec num_inputs num_outputs train_patterns
              train_targets learning_step Hp Ht)
    as (s & Hs & _ & _ & _ & Hin & Herr & _).
  edestruct (generate_simulation_signals_spec num_inputs num_outputs
               (Builder.circuit b) (Builder.input_nodes b)
               (Builder.output_nodes b) (Builder.error_nodes b)
               train_patterns train_targets learning_step s Hs)
    as (c' & Hgen & _).
  { rewrite Hin. unfold final_inputs. by rewrite length_fmap, length_seq. }
  { rewrite Herr. unfold final_errors. by rewrite length_fmap, length_seq. }
  { rewrite Hin_nodes. by rewrite length_fmap, length_seq. }
  destruct (extract_network_state_total num_inputs num_hidden num_outputs
              analysis
              (Builder.ih_cells_fast b) (Builder.ih_cells_slow b)
              (Builder.ho_cells_fast b) (Builder.ho_cells_slow b) g1)
    as (weights & g2 & Hstate).
  { rewrite Hif. apply shape_name_matrix. }
  { rewrite His. apply shape_name_matrix. }
  { rewrite Hof. apply shape_name_matrix. }
  { rewrite Hos. apply shape_name_matrix. }
  destruct (extract_activity_over_time_total num_inputs num_hidden
              num_outputs analysis
              (Builder.input_nodes b) (Builder.hidden_nodes b)
              (Builder.output_nodes b) g2 Hwave)
    as (ia & ha & oa & Hact & Hshape).
  { rewrite Hin_nodes. by rewrite length_fmap, length_seq. }
  { rewrite Hhid_nodes. by rewrite length_fmap, length_seq. }
  { rewrite Hout_nodes. by rewrite length_fmap, length_seq. }
  destruct (calculate_performance_of_result num_outputs analysis _ oa
              train_targets Hstep Hshape Hno)
    as (accuracy & accuracies & Hperf).
  { eapply Forall_impl; [exact Ht |]. intros t Hlen ->. simpl in Hlen. lia. }
  exists b, g1, c', (Stimulus.T s), (Stimulus.t_current s),
    weights, g2, ((λ t, t * 1e6)%Q <$> time analysis), ia, ha, oa, g2,
    accuracy, accuracies.
  split_and!; [exact Hbuild | exact Hgen | exact Hstate
              | exact Hact | exact Hperf |].
  by eapply calculate_performance_length.
Qed.

Lemma learning_step_returns_up_to_scoring_witness :
  ∃ b g1 circuit T end_time weights g2
    time_us input_activity hidden_activity output_activity g3
    accuracy accuracies,
    @Builder.build_circuit_for_learning nat counting_numpy 2 2 2
      example_ih example_ho 0 6 = Ok (b, g1) ∧
    Stimulus.generate_simulation_signals 2 2
      (Builder.circuit b) (Builder.input_nodes b) (Builder.output_nodes b)
      (Builder.error_nodes b) [[1; 0]%Z] [[1; 0]%Z] 0
    = Ok (circuit, T, end_time) ∧
    @Extract.extract_network_state nat counting_numpy 2 2 2
      (Some example_complete_analysis)
      (Builder.ih_cells_fast b) (Builder.ih_cells_slow b)
      (Builder.ho_cells_fast b) (Builder.ho_cells_slow b) g1
    = Ok (weights, g2) ∧
    @Extract.extract_activity_over_time nat counting_numpy 2 2 2
      (Some example_complete_analysis)
      (Builder.input_nodes b) (Builder.hidden_nodes b)
      (Builder.output_nodes b) g2
    = Ok ((time_us, input_activity, hidden_activity, output_activity), g3) ∧
    Performance.calculate_performance output_activity [[1; 0]%Z]
      time_us 20 = Ok (accuracy, accuracies) ∧
    length accuracies = length [[1; 0]%Z].
Proof.
  apply (@learning_step_returns_up_to_scoring nat counting_numpy 2 2 2
           example_ih example_ho [[1; 0]%Z] [[1; 0]%Z] 0
           example_complete_analysis 6).
  - split; [reflexivity | repeat constructor].
  - split; [reflexivity | repeat constructor].
  - lia.
  - repeat constructor.
  - repeat constructor.
  - split.
    + assert (map_Forall (λ _ v, length v = 2)
                (nodes example_complete_analysis)) as Hall.
      { refine (bool_decide_unpack _ _). vm_compute. exact I. }
      intros name v Hv. exact (Hall name v Hv).
    + intros t0 t1 [= <-] [= <-]. split; [reflexivity |].
      vm_compute. discriminate.
Defined.

(** ** Circuit construction: the builder returns *)

(** X26. For cell-type arrays of the declared shapes the builder returns,
    whatever the cell types, the learning step and the generator are, and
    what it returns has the declared sizes: one node name per input,
    hidden and output neuron, one error node per output, and the names of
    the fast and slow storage nodes as arrays of the shapes of the two
    layers. *)
Theorem builder_returns_for_declared_shapes {G : Type} `{NumPy G}
    num_inputs num_hidden num_outputs cell_types_ih cell_types_ho
    learning_step (g : G) :
  shape num_inputs num_hidden cell_types_ih →
  shape num_hidden num_outputs cell_types_ho →
  ∃ b g',
    Builder.build_circuit_for_learning num_inputs num_hidden num_outputs
      cell_types_ih cell_types_ho learning_step g = Ok (b, g') ∧
    length (Builder.input_nodes b) = num_inputs ∧
    length (Builder.hidden_nodes b) = num_hidden ∧
    length (Builder.output_nodes b) = num_outputs ∧
    length (Builder.error_nodes b) = num_outputs ∧
    shape num_inputs num_hidden (Builder.ih_cells_fast b) ∧
    shape num_inputs num_hidden (Builder.ih_cells_slow b) ∧
    shape num_hidden num_outputs (Builder.ho_cells_fast b) ∧
    shape num_hidden num_outputs (Builder.ho_cells_slow b).
Proof.
  intros Hih Hho.
  destruct (build_circuit_for_learning_total num_inputs num_hidden
              num_outputs cell_types_ih cell_types_ho learning_step g Hih Hho)
    as (b & g' & Hbuild).
  exists b, g'. split; [exact Hbuild |].
  apply build_circuit_for_learning_spec in Hbuild
    as ((-> & -> & -> & -> & -> & -> & -> & ->) & _).
  rewrite !length_fmap, !length_seq.
  split_and!; try done; apply shape_name_matrix.
Qed.

Lemma builder_returns_for_declared_shapes_witness :
  ∃ b g',
    @Builder.build_circuit_for_learning nat counting_numpy 2 2 2
      example_ih example_ho 0 6 = Ok (b, g') ∧
    length (Builder.input_nodes b) = 2 ∧
    shape 2 2 (Builder.ho_cells_slow b).
Proof.
  assert (shape 2 2 example_ih) as Hih by (split; [done | repeat constructor]).
  assert (shape 2 2 example_ho) as Hho by (split; [done | repeat constructor]).
  destruct (@builder_returns_for_declared_shapes nat counting_numpy 2 2 2
              example_ih example_ho 0 6 Hih Hho)
    as (b & g' & Hrun & Hin & _ & _ & _ & _ & _ & _ & Hslow).
  exists b, g'. split; [exact Hrun |]. split; [exact Hin | exact Hslow].
Defined.

(** ** Training and test data *)

Section CenterBlock.
Import Dataset.

Lemma lookup_concat_rows {A} (ls : list (list A)) n r c row :
  Forall (λ l, length l = n) ls → ls !! r = Some row → c < n →
  concat ls !! (r * n + c) = row !! c.
Proof.
  intros Hall. revert r. induction Hall as [|l ls Hl Hls IH];
    intros [|r] Hr Hc; simpl in *; [done | done | |].
  - injection Hr as ->. by rewrite lookup_app_l by lia.
  - rewrite lookup_app_r by lia.
    replace (n + r * n + c - length l) with (r * n + c) by lia.
    by apply IH.
Qed.

Lemma length_concat_rows {A} (ls : list (list A)) n :
  Forall (λ l, length l = n) ls → length (concat ls) = length ls * n.
Proof.
  induction 1 as [|l ls Hl Hls IH]; simpl; [done |].
  rewrite length_app, IH. lia.
Qed.

Lemma reshape_Ok {A} rows cols (a : list A) :
  length a = rows * cols →
  ∃ m, reshape rows cols a = Ok m ∧ length m = rows ∧
       Forall (λ row, length row = cols) m ∧
       ∀ r c, r < rows → c < cols →
         ∃ row, m !! r = Some row ∧ row !! c = a !! (r * cols + c).
Proof.
  intros Hlen. unfold reshape. rewrite decide_True by done.
  eexists. split; [reflexivity |]. split_and!.
  - by rewrite length_fmap, length_seq.
  - apply Forall_fmap, Forall_forall. intros r Hr%elem_of_seq. simpl.
    rewrite length_take, length_drop. nia.
  - intros r c Hr Hc. eexists. split.
    + rewrite list_lookup_fmap, lookup_seq_lt by done. simpl. reflexivity.
    + rewrite lookup_take_lt by done. by rewrite lookup_drop.
Qed.

Lemma extract_center_block_spec img size :
  length img = 784 →
  let n := size `min` 16 in
  ∃ block,
    extract_center_block img size = Ok block ∧
    length block = n * n ∧
    ∀ r c, r < n → c < n →
      ∃ x, img !! ((12 + r) * 28 + (12 + c)) = Some x ∧
           block !! (r * n + c)
           = Some (if Performance.Qgt_bool x 127 then 1%Z else 0%Z).
Proof.
  intros Hlen n. unfold extract_center_block.
  destruct (reshape_Ok 28 28 img Hlen) as (m & -> & Hm & Hrows & Hat).
  cbn [mbind result_bind].
  set (thr := λ x : Q, if Performance.Qgt_bool x 127 then 1%Z else 0%Z).
  set (block := (λ row, take size (drop 12 row)) <$> take size (drop 12 m)).
  assert (length block = n) as Hblock.
  { subst block. rewrite length_fmap, length_take, length_drop. lia. }
  assert (Forall (λ l, length l = n) ((λ row : list Q, thr <$> row) <$> block))
    as Hall.
  { subst block. rewrite <- list_fmap_compose.
    apply Forall_fmap, Forall_forall. intros row Hrow. simpl.
    rewrite length_fmap, length_take, length_drop.
    assert (row ∈ m) as Hin.
    { apply list_elem_of_lookup in Hrow as [i Hi].
      apply lookup_take_Some in Hi as [Hi _]. rewrite lookup_drop in Hi.
      by eapply list_elem_of_lookup_2. }
    rewrite Forall_forall in Hrows. rewrite (Hrows row Hin). lia. }
  eexists. split; [reflexivity |]. split.
  - rewrite (length_concat_rows _ n Hall), length_fmap. by rewrite Hblock.
  - intros r c Hr Hc.
    destruct (Hat (12 + r) (12 + c)) as (row & Hrow & Hcell); [lia | lia |].
    destruct (lookup_lt_is_Some_2 img ((12 + r) * 28 + (12 + c))) as [x Hx];
      [nia |].
    exists x. split; [done |].
    rewrite (lookup_concat_rows _ n r c (thr <$> take size (drop 12 row)));
      [| done | | done].
    + rewrite list_lookup_fmap, lookup_take_lt by lia.
      rewrite lookup_drop, Hcell, Hx. done.
    + subst block. rewrite !list_lookup_fmap, lookup_take_lt by lia.
      rewrite lookup_drop, Hrow. done.
Qed.

Lemma extract_center_block_raise img size :
  length img ≠ 784 → extract_center_block img size = Raise ValueError.
Proof.
  intros Hlen. unfold extract_center_block, reshape.
  by rewrite decide_False.
Qed.

End CenterBlock.

(** X19. For an image of 784 pixels, [extract_center_block] returns the
    [n * n] bits of the block of [n = min(size, 16)] rows and columns whose
    corner is pixel (12, 12) of the 28 by 28 image, row after row: bit
    [r * n + c] is 1 when pixel [(12 + r, 12 + c)] is above 127 and 0
    otherwise. An image of another length raises [ValueError]. *)
Theorem center_block_bits img size :
  (length img = 784 →
   let n := size `min` 16 in
   ∃ block,
     Dataset.extract_center_block img size = Ok block ∧
     length block = n * n ∧
     ∀ r c, r < n → c < n →
       ∃ x, img !! ((12 + r) * 28 + (12 + c)) = Some x ∧
            block !! (r * n + c)
            = Some (if Performance.Qgt_bool x 127 then 1%Z else 0%Z)) ∧
  (length img ≠ 784 →
   Dataset.extract_center_block img size = Raise ValueError).
Proof.
  split; [apply extract_center_block_spec | apply extract_center_block_raise].
Qed.

Section SelectTrain.
Import Dataset.
Variable num_outputs : nat.

Lemma StronglySorted_snoc_lt (l : list nat) x :
  StronglySorted lt l → Forall (λ y, y < x) l → StronglySorted lt (l ++ [x]).
Proof.
  induction 1 as [|y l Hs IH Hy]; intros Hlt; simpl.
  - repeat constructor.
  - inversion_clear Hlt. constructor; [by apply IH |].
    apply Forall_app. split; [done | by constructor].
Qed.

Lemma eligible_digits_snoc pre sample :
  eligible_digits num_outputs (pre ++ [sample])
  = eligible_digits num_outputs pre
    ∪ (if decide (eligible num_outputs sample) then {[sample.2]} else ∅).
Proof.
  unfold eligible_digits.
  rewrite filter_app, fmap_app, list_to_set_app_L, filter_cons, filter_nil.
  case_decide; simpl; [by rewrite (right_id_L ∅ (∪)) | done].
Qed.

Lemma eligible_digits_app_subseteq pre rest :
  eligible_digits num_outputs pre
  ⊆ eligible_digits num_outputs (pre ++ rest).
Proof.
  unfold eligible_digits. rewrite filter_app, fmap_app, list_to_set_app_L.
  apply union_subseteq_l.
Qed.

(** The invariant of the loop, when the samples [pre] have been
    processed. *)
Lemma select_train_inv all : ∀ rest pre selected used selected' used',
  all = pre ++ rest →
  train_selection num_outputs all selected used →
  Forall (λ i, i < length pre) selected →
  used = eligible_digits num_outputs pre →
  select_train num_outputs (length pre) rest selected used
  = (selected', used') →
  train_selection num_outputs all selected' used' ∧
  used' ⊆ eligible_digits num_outputs all ∧
  (length selected' ≠ num_outputs →
   used' = eligible_digits num_outputs all).
Proof.
  induction rest as [|[block lbl] rest IH];
    intros pre selected used selected' used' Hall Hinv Hlt Hused Hrun.
  - simpl in Hrun. injection Hrun as <- <-. rewrite app_nil_r in Hall.
    subst all. split_and!; [done | by subst used | done].
  - cbn [select_train] in Hrun.
    assert (all !! length pre = Some (block, lbl)) as Hat.
    { subst all. by rewrite list_lookup_middle. }
    assert (all = (pre ++ [(block, lbl)]) ++ rest) as Hall'.
    { by rewrite <- app_assoc. }
    assert (length (pre ++ [(block, lbl)]) = S (length pre)) as Hpre'.
    { rewrite length_app. simpl. lia. }
    destruct Hinv as (Hsorted & Hsel & Hdigits & Hinj & Hsize).
    destruct (decide ((lbl < Z.of_nat num_outputs)%Z ∧ (lbl ∉ used)
                      ∧ (np_sum block > 2)%Z)) as [(Hl & Hnew & Hsum) | Hno].
    + (* the sample is selected *)
      assert (train_selection num_outputs all (selected ++ [length pre])
                (used ∪ {[lbl]})) as Hinv'.
      { split_and!.
        - by apply StronglySorted_snoc_lt.
        - intros i [Hi | ->%list_elem_of_singleton]%elem_of_app.
          + destruct (Hsel i Hi) as (b & l & Hb & He & Hu).
            exists b, l. split_and!; [done | done |].
            apply elem_of_union. by left.
          + exists block, lbl. split_and!; [done | done |].
            apply elem_of_union. right. by apply elem_of_singleton.
        - intros l [Hl' | ->%elem_of_singleton]%elem_of_union.
          + destruct (Hdigits l Hl') as (i & b & Hi & Hb).
            exists i, b. split; [| done]. apply elem_of_app. by left.
          + exists (length pre), block. split; [| done].
            apply elem_of_app. right. by constructor.
        - intros i j bi bj l Hi Hj Hbi Hbj.
          apply elem_of_app in Hi as [Hi | ->%list_elem_of_singleton];
            apply elem_of_app in Hj as [Hj | ->%list_elem_of_singleton].
          + by eapply Hinj.
          + exfalso. simplify_eq.
            destruct (Hsel i Hi) as (b & l' & Hb & _ & Hu). by simplify_eq.
          + exfalso. simplify_eq.
            destruct (Hsel j Hj) as (b & l' & Hb & _ & Hu). by simplify_eq.
          + done.
        - rewrite size_union by by apply disjoint_singleton_r.
          rewrite size_singleton, length_app. simpl. lia. }
      assert (used ∪ {[lbl]}
              = eligible_digits num_outputs (pre ++ [(block, lbl)])) as Hused'.
      { rewrite eligible_digits_snoc, decide_True by done. by rewrite Hused. }
      case_decide as Hfull.
      * injection Hrun as <- <-. split_and!; [done | | done].
        rewrite Hused', Hall'. apply eligible_digits_app_subseteq.
      * rewrite <- Hpre' in Hrun.
        apply (IH _ _ _ _ _ Hall') in Hrun; [done | done | | done].
        -- apply Forall_app. split.
           ++ eapply Forall_impl; [exact Hlt |]. intros i Hi. simpl in *. lia.
           ++ constructor; [lia | constructor].
    + (* the sample is skipped *)
      assert (used = eligible_digits num_outputs (pre ++ [(block, lbl)]))
        as Hused'.
      { rewrite eligible_digits_snoc, <- Hused.
        destruct (decide (eligible num_outputs (block, lbl))) as [He | He];
          [| by rewrite (right_id_L ∅ (∪))].
        destruct He as [Hl Hsum]. simpl in Hl, Hsum.
        assert (lbl ∈ used) as Hin.
        { destruct (decide (lbl ∈ used)); [done |]. exfalso. by apply Hno. }
        simpl. rewrite (comm_L (∪)). symmetry.
        by apply subseteq_union_1_L, singleton_subseteq_l. }
      case_decide as Hfull.
      * injection Hrun as <- <-. split_and!; [by split_and! | | done].
        rewrite Hused', Hall'. apply eligible_digits_app_subseteq.
      * rewrite <- Hpre' in Hrun.
        apply (IH _ _ _ _ _ Hall') in Hrun; [done | | | done].
        -- by split_and!.
        -- eapply Forall_impl; [exact Hlt |]. intros i Hi. simpl in *. lia.
Qed.

(** The loop stops as soon as [num_outputs] samples are selected. *)
Lemma select_train_length : ∀ rest idx selected used selected' used',
  length selected < num_outputs →
  select_train num_outputs idx rest selected used = (selected', used') →
  length selected' ≤ num_outputs.
Proof.
  induction rest as [|[block lbl] rest IH];
    intros idx selected used selected' used' Hlen Hrun.
  - simpl in Hrun. injection Hrun as <- <-. lia.
  - cbn [select_train] in Hrun.
    destruct (decide ((lbl < Z.of_nat num_outputs)%Z ∧ (lbl ∉ used)
                      ∧ (np_sum block > 2)%Z)) as [Hyes | Hno].
    + case_decide as Hfull; [injection Hrun as <- <-; lia |].
      apply IH in Hrun; [done |]. rewrite length_app in *. simpl in *. lia.
    + rewrite decide_False in Hrun by lia. by apply IH in Hrun.
Qed.

Lemma select_train_spec samples selected used :
  select_train num_outputs 0 samples [] ∅ = (selected, used) →
  train_selection num_outputs samples selected used ∧
  (0 < num_outputs →
   length selected
   = num_outputs `min` size (eligible_digits num_outputs samples)).
Proof.
  intros Hrun.
  assert (train_selection num_outputs samples [] ∅) as Hinit.
  { split_and!; [constructor | | | | done].
    - intros i Hi. by apply elem_of_nil in Hi.
    - intros l Hl. by apply not_elem_of_empty in Hl.
    - intros i j bi bj l Hi. by apply elem_of_nil in Hi. }
  pose proof (select_train_inv samples samples [] [] ∅ selected used
                eq_refl Hinit ltac:(constructor) eq_refl Hrun)
    as (Hinv & Hsub & Hfull).
  split; [done |]. intros Hpos.
  apply select_train_length in Hrun; [| simpl; lia].
  destruct Hinv as (_ & _ & _ & _ & Hsize).
  destruct (decide (length selected = num_outputs)) as [Heq | Hne].
  - apply subseteq_size in Hsub. lia.
  - rewrite <- (Hfull Hne), Hsize. lia.
Qed.

End SelectTrain.

(** X20. The training samples the script selects: their indices increase;
    every one is the index of a sample whose label is below [num_outputs]
    and whose block has more than two active pixels; no two of them have
    the same label; and, when there is an output at all, their number is
    [num_outputs] or, if fewer digits have such a sample, the number of
    those digits. *)
Theorem training_selection num_outputs samples selected used :
  Dataset.select_train num_outputs 0 samples [] ∅ = (selected, used) →
  train_selection num_outputs samples selected used ∧
  (0 < num_outputs →
   length selected
   = num_outputs `min` size (eligible_digits num_outputs samples)).
Proof. apply select_train_spec. Qed.

Lemma training_selection_witness :
  let samples := [([1; 1; 1]%Z, 1%Z); ([1; 1; 0]%Z, 0%Z); ([1; 1; 1]%Z, 1%Z);
                  ([1; 1; 1]%Z, 5%Z); ([1; 1; 1]%Z, 0%Z)] in
  Dataset.select_train 2 0 samples [] ∅ = ([0; 4], {[1%Z; 0%Z]}) ∧
  train_selection 2 samples [0; 4] {[1%Z; 0%Z]}.
Proof.
  intros samples.
  assert (Dataset.select_train 2 0 samples [] ∅ = ([0; 4], {[1%Z; 0%Z]}))
    as Hrun by (vm_compute; reflexivity).
  split; [exact Hrun |].
  exact (proj1 (training_selection 2 samples [0; 4] {[1%Z; 0%Z]} Hrun)).
Defined.

Section SelectTest.
Import Dataset.
Variable num_outputs : nat.

Lemma select_test_inv all selected_train : ∀ rest pre selected selected',
  all = pre ++ rest →
  test_selection num_outputs all selected_train selected →
  Forall (λ i, i < length pre) selected →
  select_test num_outputs selected_train (length pre) rest selected
  = selected' →
  test_selection num_outputs all selected_train selected'.
Proof.
  induction rest as [|[block lbl] rest IH];
    intros pre selected selected' Hall Hinv Hlt Hrun.
  - simpl in Hrun. by subst selected'.
  - cbn [select_test] in Hrun.
    assert (all !! length pre = Some (block, lbl)) as Hat.
    { subst all. by rewrite list_lookup_middle. }
    assert (all = (pre ++ [(block, lbl)]) ++ rest) as Hall'.
    { by rewrite <- app_assoc. }
    assert (length (pre ++ [(block, lbl)]) = S (length pre)) as Hpre'.
    { rewrite length_app. simpl. lia. }
    destruct Hinv as [Hsorted Hsel].
    destruct (decide ((lbl < Z.of_nat num_outputs)%Z
                      ∧ (length pre ∉ selected_train)
                      ∧ (np_sum block > 2)%Z)) as [(Hl & Hnew & Hsum) | Hno].
    + assert (test_selection num_outputs all selected_train
                (selected ++ [length pre])) as Hinv'.
      { split; [by apply StronglySorted_snoc_lt |].
        intros i [Hi | ->%list_elem_of_singleton]%elem_of_app;
          [by apply Hsel |].
        split; [done |]. by exists block, lbl. }
      case_decide as Hfull; [by subst selected' |].
      rewrite <- Hpre' in Hrun.
      apply (IH _ _ _ Hall') in Hrun; [done | done |].
      apply Forall_app. split.
      * eapply Forall_impl; [exact Hlt |]. intros i Hi. simpl in *. lia.
      * constructor; [lia | constructor].
    + case_decide as Hfull; [by subst selected' |].
      rewrite <- Hpre' in Hrun.
      apply (IH _ _ _ Hall') in Hrun; [done | done |].
      eapply Forall_impl; [exact Hlt |]. intros i Hi. simpl in *. lia.
Qed.

Lemma select_test_length selected_train : ∀ rest idx selected selected',
  length selected < num_outputs →
  select_test num_outputs selected_train idx rest selected = selected' →
  length selected' ≤ num_outputs.
Proof.
  induction rest as [|[block lbl] rest IH];
    intros idx selected selected' Hlen Hrun.
  - simpl in Hrun. subst selected'. lia.
  - cbn [select_test] in Hrun.
    destruct (decide ((lbl < Z.of_nat num_outputs)%Z
                      ∧ (idx ∉ selected_train)
                      ∧ (np_sum block > 2)%Z)) as [Hyes | Hno].
    + case_decide as Hfull; [subst selected'; lia |].
      apply IH in Hrun; [done |]. rewrite length_app in *. simpl in *. lia.
    + rewrite decide_False in Hrun by lia. by apply IH in Hrun.
Qed.

End SelectTest.

(** X21. The test samples the script selects: their indices increase; none
    is the index of a training sample; every one is the index of a sample
    whose label is below [num_outputs] and whose block has more than two
    active pixels; and, when there is an output at all, there are at most
    [num_outputs] of them. *)
Theorem test_selection_disjoint num_outputs samples selected_train :
  let selected := Dataset.select_test num_outputs selected_train 0 samples [] in
  test_selection num_outputs samples selected_train selected ∧
  (0 < num_outputs → length selected ≤ num_outputs).
Proof.
  intros selected. split.
  - apply (select_test_inv num_outputs samples selected_train samples [] []);
      [done | | constructor | done].
    split; [constructor |]. intros i Hi. by apply elem_of_nil in Hi.
  - intros Hpos.
    by apply (select_test_length num_outputs selected_train samples 0 []).
Qed.

Section OneHot.
Import Dataset.

Lemma np_index_in_range n i :
  (0 ≤ i < Z.of_nat n)%Z → np_index n i = Ok (Z.to_nat i).
Proof. intros Hi. unfold np_index. by rewrite decide_True. Qed.

Lemma np_index_above n i :
  (Z.of_nat n ≤ i)%Z → np_index n i = Raise IndexError.
Proof.
  intros Hi. unfold np_index.
  rewrite decide_False by lia. by rewrite decide_False by lia.
Qed.

Lemma one_hot_inv rows cols : ∀ labels i targets,
  shape rows cols targets →
  i + length labels ≤ rows →
  Forall (λ lbl, (0 ≤ lbl < Z.of_nat cols)%Z) labels →
  ∃ targets',
    one_hot i labels targets = Ok targets' ∧
    shape rows cols targets' ∧
    (∀ r, r < i ∨ i + length labels ≤ r → targets' !! r = targets !! r) ∧
    ∀ k lbl, labels !! k = Some lbl →
      ∃ row, targets !! (i + k) = Some row ∧
             targets' !! (i + k) = Some (<[Z.to_nat lbl := 1%Z]> row).
Proof.
  induction labels as [|lbl labels IH]; intros i targets Hshape Hrows Hlabels.
  - exists targets. split_and!; [done | done | done |].
    intros k lbl Hk. by rewrite lookup_nil in Hk.
  - simpl in Hrows. apply Forall_cons in Hlabels as [Hlbl Hlabels].
    destruct (lookup_lt_is_Some_2 targets i) as [row Hrow];
      [destruct Hshape as [-> _]; lia |].
    assert (length row = cols) as Hlen.
    { destruct Hshape as [_ Hcols].
      by apply (Forall_lookup_1 _ _ _ _ Hcols Hrow). }
    cbn [one_hot]. unfold index at 1. rewrite Hrow. cbn [mbind result_bind].
    rewrite Hlen, np_index_in_range by done. cbn [mbind result_bind].
    assert (mat_set targets i (Z.to_nat lbl) 1%Z
            = Ok (<[i := <[Z.to_nat lbl := 1%Z]> row]> targets)) as ->.
    { apply mat_set_Ok. exists row. split_and!; [done | lia | done]. }
    cbn [mbind result_bind].
    destruct (IH (S i) (<[i := <[Z.to_nat lbl := 1%Z]> row]> targets))
      as (targets' & Hrun & Hshape' & Hout & Hin);
      [by apply shape_insert | lia | done |].
    exists targets'. split_and!; [done | done | |].
    + intros r Hr. rewrite Hout by (simpl in Hr; lia).
      apply list_lookup_insert_ne. simpl in Hr. lia.
    + intros [|k] lbl' Hk; simplify_eq/=.
      * exists row. rewrite Nat.add_0_r. split; [done |].
        rewrite Hout by lia. apply list_lookup_insert_eq.
        by apply lookup_lt_Some in Hrow.
      * destruct (Hin k lbl' Hk) as (row' & Hrow' & Hrow'').
        rewrite list_lookup_insert_ne in Hrow' by lia.
        exists row'. by replace (i + S k) with (S i + k) by lia.
Qed.

Lemma one_hot_raise : ∀ labels i targets e,
  one_hot i labels targets = Raise e → e = IndexError.
Proof.
  induction labels as [|lbl labels IH]; intros i targets e Hrun; [done |].
  cbn [one_hot] in Hrun. unfold index at 1 in Hrun.
  destruct (targets !! i) as [row|]; simplify_eq/=; [| done].
  unfold np_index in Hrun. unfold mat_set, index in *.
  repeat (case_decide; simplify_eq/=; try done);
    repeat (case_match; simplify_eq/=; try done); by eapply IH.
Qed.

Lemma argmax_one_hot cols c :
  c < cols →
  Performance.argmax (inject_Z <$> <[c := 1%Z]> (replicate cols 0%Z)) = Ok c.
Proof.
  intros Hc. apply argmax_dominant. exists 1%Q. split.
  - rewrite list_lookup_fmap, list_lookup_insert_eq; [done |].
    by rewrite length_replicate.
  - intros j x Hj Hx.
    rewrite list_lookup_fmap, list_lookup_insert_ne in Hx by done.
    destruct (replicate cols 0%Z !! j) as [z|] eqn:Hz; simplify_eq/=.
    apply lookup_replicate in Hz as [-> _]. done.
Qed.

End OneHot.

(** X22. The one-hot targets. For labels from [0] to [cols - 1], at most
    as many as the array of zeros has rows, the loop returns an array of
    the same shape in which row [i] holds a single one, in the column of
    label [i], so that the class the scoring reads from the row is the
    label; the rows after the last label stay zero. *)
Theorem one_hot_targets rows cols labels :
  length labels ≤ rows →
  Forall (λ lbl, (0 ≤ lbl < Z.of_nat cols)%Z) labels →
  ∃ targets,
    Dataset.one_hot 0 labels (np_full rows cols 0%Z) = Ok targets ∧
    shape rows cols targets ∧
    (∀ i lbl, labels !! i = Some lbl →
       targets !! i = Some (<[Z.to_nat lbl := 1%Z]> (replicate cols 0%Z)) ∧
       (row ← index targets i; Performance.argmax (inject_Z <$> row))
       = Ok (Z.to_nat lbl)) ∧
    ∀ i, length labels ≤ i < rows →
      targets !! i = Some (replicate cols 0%Z).
Proof.
  intros Hrows Hlabels.
  destruct (one_hot_inv rows cols labels 0 (np_full rows cols 0%Z))
    as (targets & Hrun & Hshape & Hout & Hin);
    [apply shape_full | simpl; lia | done |].
  exists targets. split_and!; [done | done | |].
  - intros i lbl Hi. destruct (Hin i lbl Hi) as (row & Hrow & Hrow').
    simpl in Hrow, Hrow'. unfold np_full in Hrow.
    apply lookup_replicate in Hrow as [-> _].
    split; [done |]. unfold index. rewrite Hrow'. cbn [mbind result_bind].
    apply argmax_one_hot.
    pose proof (Forall_lookup_1 _ _ _ _ Hlabels Hi) as Hl. simpl in Hl. lia.
  - intros i Hi. rewrite Hout by (simpl; lia). unfold np_full.
    apply lookup_replicate. split; [done | lia].
Qed.

Lemma one_hot_targets_witness :
  ∃ targets,
    Dataset.one_hot 0 [2; 0]%Z (np_full 3 3 0%Z) = Ok targets ∧
    targets = [[0; 0; 1]; [1; 0; 0]; [0; 0; 0]]%Z.
Proof.
  destruct (one_hot_targets 3 3 [2; 0]%Z) as (targets & Hrun & _);
    [simpl; lia | repeat constructor; lia |].
  exists targets. split; [exact Hrun |].
  vm_compute in Hrun. by injection Hrun as <-.
Defined.

Section PrepareData.
Import Dataset.

Lemma mapM_index_Ok {A} (l : list A) : ∀ idx,
  Forall (λ i, is_Some (l !! i)) idx →
  ∃ rows, mapM (index l) idx = Ok rows ∧ rows_at l idx rows.
Proof.
  induction idx as [|i idx IH]; intros Hidx.
  - exists []. split; [done | constructor].
  - apply Forall_cons in Hidx as [[x Hx] Hidx].
    destruct (IH Hidx) as (rows & Hrun & Hrows).
    exists (x :: rows). split; [| by constructor].
    assert (index l i = Ok x) as Hi by (unfold index; by rewrite Hx).
    cbn [mapM]. rewrite Hi. cbn [mbind result_bind]. by rewrite Hrun.
Qed.

Lemma one_hot_full rows cols labels :
  length labels ≤ rows →
  Forall (λ lbl, (0 ≤ lbl < Z.of_nat cols)%Z) labels →
  ∃ targets,
    one_hot 0 labels (np_full rows cols 0%Z) = Ok targets ∧
    shape rows cols targets ∧ one_hot_rows cols labels targets.
Proof.
  intros Hrows Hlabels.
  destruct (one_hot_inv rows cols labels 0 (np_full rows cols 0%Z))
    as (targets & Hrun & Hshape & _ & Hin);
    [apply shape_full | simpl; lia | done |].
  exists targets. split_and!; [done | done |].
  intros k lbl Hk. destruct (Hin k lbl Hk) as (row & Hrow & Hrow').
  simpl in Hrow, Hrow'. unfold np_full in Hrow.
  by apply lookup_replicate in Hrow as [-> _].
Qed.

Lemma rows_at_labels num_outputs blocks labels idx rows :
  Forall (λ lbl, (0 ≤ lbl)%Z) labels →
  (∀ i, i ∈ idx →
     ∃ block lbl, zip blocks labels !! i = Some (block, lbl) ∧
                  eligible num_outputs (block, lbl)) →
  rows_at labels idx rows →
  Forall (λ lbl, (0 ≤ lbl < Z.of_nat num_outputs)%Z) rows.
Proof.
  intros Hpos Hidx Hrows. apply Forall_lookup_2. intros k lbl Hk.
  destruct (Forall2_lookup_r _ _ _ _ _ Hrows Hk) as (i & Hi & Hlbl).
  destruct (Hidx i) as (block & lbl' & Hat & Hel & _);
    [by eapply list_elem_of_lookup_2 |].
  apply lookup_zip_with_Some in Hat as (b & l' & [= <- <-] & _ & Hl).
  rewrite Hlbl in Hl. injection Hl as <-.
  split; [| exact Hel]. by apply (Forall_lookup_1 _ _ _ _ Hpos Hlbl).
Qed.

Lemma zip_indices (blocks : list (list Z)) (labels : list Z)
    (idx : list nat) :
  (∀ i, i ∈ idx → ∃ block lbl, zip blocks labels !! i = Some (block, lbl)) →
  Forall (λ i, is_Some (blocks !! i)) idx ∧
  Forall (λ i, is_Some (labels !! i)) idx.
Proof.
  intros Hidx. split; apply Forall_forall; intros i Hi;
    destruct (Hidx i Hi) as (block & lbl & Hat);
    apply lookup_zip_with_Some in Hat as (b & l' & _ & Hb & Hl); eauto.
Qed.

Lemma prepare_data_spec num_outputs images labels blocks :
  0 < num_outputs →
  Forall (λ lbl, (0 ≤ lbl)%Z) labels →
  center_blocks images = Ok blocks →
  (size (eligible_digits num_outputs (zip blocks labels)) < num_outputs →
   prepare_data num_outputs images labels = SystemExit 1) ∧
  (num_outputs ≤ size (eligible_digits num_outputs (zip blocks labels)) →
   ∃ d, prepare_data num_outputs images labels = Prepared d ∧
        prepared_from num_outputs blocks labels d).
Proof.
  intros Hno Hpos Hblocks. unfold prepare_data, prepared_from.
  rewrite Hblocks.
  destruct (select_train num_outputs 0 (zip blocks labels) [] ∅)
    as [selected used] eqn:Htrain.
  destruct (select_train_spec _ _ _ _ Htrain)
    as [(Hsorted & Hsel & _) Hlen].
  specialize (Hlen Hno). cbn [fst]. split; intros Hsize.
  - rewrite decide_True by lia. done.
  - rewrite decide_False by lia.
    assert (length selected = num_outputs) as Hfull by lia.
    set (selected_test :=
           select_test num_outputs selected 0 (zip blocks labels) []).
    assert (test_selection num_outputs (zip blocks labels) selected
              selected_test) as [_ Htest'].
    { apply (select_test_inv num_outputs (zip blocks labels) selected
               (zip blocks labels) [] []); [done | | constructor | done].
      split; [constructor |]. intros i Hi. by apply elem_of_nil in Hi. }
    assert (∀ i, i ∈ selected →
              ∃ block lbl, zip blocks labels !! i = Some (block, lbl) ∧
                           eligible num_outputs (block, lbl)) as Hsel'.
    { intros i Hi. destruct (Hsel i Hi) as (b & l & ? & ? & _). eauto. }
    assert (∀ i, i ∈ selected_test →
              ∃ block lbl, zip blocks labels !! i = Some (block, lbl) ∧
                           eligible num_outputs (block, lbl)) as Htest''.
    { intros i Hi. by destruct (Htest' i Hi) as [_ ?]. }
    destruct (zip_indices blocks labels selected) as [Hb Hl].
    { intros i Hi. destruct (Hsel' i Hi) as (b & l & ? & _). eauto. }
    destruct (zip_indices blocks labels selected_test) as [Hb' Hl'].
    { intros i Hi. destruct (Htest'' i Hi) as (b & l & ? & _). eauto. }
    destruct (mapM_index_Ok blocks selected Hb) as (tp & Htp & Htp').
    destruct (mapM_index_Ok labels selected Hl) as (tl & Htl & Htl').
    destruct (mapM_index_Ok blocks selected_test Hb') as (sp & Hsp & Hsp').
    destruct (mapM_index_Ok labels selected_test Hl') as (sl & Hsl & Hsl').
    destruct (one_hot_full num_outputs num_outputs tl) as (tt & Htt & Htt').
    { apply Forall2_length in Htl'. lia. }
    { exact (rows_at_labels num_outputs blocks labels selected tl
               Hpos Hsel' Htl'). }
    destruct (one_hot_full (length sl) num_outputs sl) as (st & Hst & Hst').
    { done. }
    { exact (rows_at_labels num_outputs blocks labels selected_test sl
               Hpos Htest'' Hsl'). }
    assert (take_rows blocks selected = Ok tp
            ∧ take_rows blocks selected_test = Ok sp) as [Htp0 Hsp0].
    { unfold take_rows. destruct blocks as [|b blocks]; [| done].
      destruct selected as [|i selected]; [simpl in Hfull; lia |].
      apply Forall_cons in Hb as [[x Hx] _]. by rewrite lookup_nil in Hx. }
    rewrite Htp0. cbn [mbind result_bind]. rewrite Htl.
    cbn [mbind result_bind]. rewrite Htt. cbn [mbind result_bind].
    rewrite Hsp0. cbn [mbind result_bind]. rewrite Hsl.
    cbn [mbind result_bind]. rewrite Hst. cbn [mbind result_bind].
    eexists. split; [reflexivity |]. cbn.
    destruct Htt' as [Htt1 Htt2]. destruct Hst' as [Hst1 Hst2].
    apply Forall2_length in Hsl' as Hslen. rewrite Hslen.
    split_and!; done.
Qed.

End PrepareData.

(** X23. How the preparation of the data ends, for blocks that could be
    extracted, labels that are not negative and at least one output. When
    fewer than [num_outputs] digits have a sample with a label below
    [num_outputs] and more than two active pixels, the script exits with
    code 1. Otherwise it goes on with exactly [num_outputs] training
    samples: the patterns and the labels are the ones at the selected
    indices, and row [k] of each array of targets holds a single one, in
    the column of label [k]. *)
Theorem prepare_data_outcome num_outputs images labels blocks :
  0 < num_outputs →
  Forall (λ lbl, (0 ≤ lbl)%Z) labels →
  Dataset.center_blocks images = Ok blocks →
  (size (eligible_digits num_outputs (zip blocks labels)) < num_outputs →
   Dataset.prepare_data num_outputs images labels = Dataset.SystemExit 1) ∧
  (num_outputs ≤ size (eligible_digits num_outputs (zip blocks labels)) →
   ∃ d, Dataset.prepare_data num_outputs images labels = Dataset.Prepared d ∧
        prepared_from num_outputs blocks labels d).
Proof. apply prepare_data_spec. Qed.

Lemma prepare_data_outcome_witness :
  let images := replicate 3 (replicate 784 200%Q) in
  let labels := [1; 0; 1]%Z in
  (∃ d, Dataset.prepare_data 2 images labels = Dataset.Prepared d ∧
        Dataset.train_labels d = [1; 0]%Z ∧
        Dataset.train_targets d = [[0; 1]; [1; 0]]%Z ∧
        Dataset.test_labels d = [1]%Z) ∧
  Dataset.prepare_data 3 images labels = Dataset.SystemExit 1.
Proof.
  intros images labels.
  assert (Dataset.center_blocks images = Ok (replicate 3 (replicate 16 1%Z)))
    as Hblocks by (vm_compute; reflexivity).
  assert (Forall (λ lbl, (0 ≤ lbl)%Z) labels) as Hpos
    by (repeat constructor; lia).
  split.
  - destruct (prepare_data_outcome 2 images labels _ ltac:(lia) Hpos Hblocks)
      as [_ Hgo].
    destruct Hgo as (d & Hrun & _); [vm_compute; lia |].
    exists d. split; [exact Hrun |].
    vm_compute in Hrun. injection Hrun as <-. split_and!; reflexivity.
  - destruct (prepare_data_outcome 3 images labels _ ltac:(lia) Hpos Hblocks)
      as [Hexit _].
    apply Hexit. vm_compute. lia.
Defined.

Section PreparedSizes.
Import Dataset.

Lemma mapM_result_Ok {A B} (f : A → result B) : ∀ l ys,
  mapM f l = Ok ys → Forall2 (λ x y, f x = Ok y) l ys.
Proof.
  induction l as [|x l IH]; intros ys Hrun.
  - injection Hrun as <-. constructor.
  - cbn [mapM] in Hrun. destruct (f x) as [y|e] eqn:Hx; [| done].
    cbn [mbind result_bind] in Hrun.
    destruct (mapM f l) as [ys'|e] eqn:Hl; [| done].
    injection Hrun as <-. constructor; [done | by apply IH].
Qed.

Lemma extract_center_block_bits img block :
  extract_center_block img 4 = Ok block → bit_pattern block.
Proof.
  intros Hrun. destruct (decide (length img = 784)) as [Hlen | Hlen].
  - destruct (extract_center_block_spec img 4 Hlen)
      as (block' & Hrun' & Hlen' & Hat).
    rewrite Hrun in Hrun'. injection Hrun' as <-.
    change (4 `min` 16) with 4 in *. split; [done |].
    apply Forall_lookup_2. intros k x Hk.
    assert (k < 16) as Hlt by (apply lookup_lt_Some in Hk; lia).
    destruct (Hat (k `div` 4) (k `mod` 4)) as (y & _ & Hy).
    { apply Nat.Div0.div_lt_upper_bound. lia. }
    { apply Nat.mod_upper_bound. lia. }
    replace (k `div` 4 * 4 + k `mod` 4) with k in Hy
      by (pose proof (Nat.div_mod_eq k 4); lia).
    rewrite Hk in Hy. injection Hy as ->. case_match; eauto.
  - by rewrite (extract_center_block_raise img 4 Hlen) in Hrun.
Qed.

Lemma center_blocks_bits images blocks :
  center_blocks images = Ok blocks → Forall bit_pattern blocks.
Proof.
  intros Hrun%mapM_result_Ok. induction Hrun as [|img b images blocks Hb _ IH].
  - constructor.
  - constructor; [by eapply extract_center_block_bits | done].
Qed.

Lemma rows_at_Forall {A} (P : A → Prop) (l : list A) idx rows :
  Forall P l → rows_at l idx rows → Forall P rows.
Proof.
  intros Hl Hrows. induction Hrows as [|i x idx rows Hx _ IH].
  - constructor.
  - constructor; [| done]. by apply (Forall_lookup_1 _ _ _ _ Hl Hx).
Qed.

Lemma prepare_data_Prepared num_outputs images labels d :
  0 < num_outputs →
  Forall (λ lbl, (0 ≤ lbl)%Z) labels →
  prepare_data num_outputs images labels = Prepared d →
  ∃ blocks, center_blocks images = Ok blocks ∧
            prepared_from num_outputs blocks labels d.
Proof.
  intros Hno Hpos Hrun.
  destruct (center_blocks images) as [blocks|e] eqn:Hblocks;
    [| by unfold prepare_data in Hrun; rewrite Hblocks in Hrun].
  exists blocks. split; [done |].
  destruct (prepare_data_spec num_outputs images labels blocks Hno Hpos
              Hblocks) as [Hexit Hgo].
  destruct (decide (size (eligible_digits num_outputs (zip blocks labels))
                    < num_outputs)) as [Hfew | Henough].
  - rewrite (Hexit Hfew) in Hrun. done.
  - destruct Hgo as (d' & Hrun' & Hd'); [lia |].
    rewrite Hrun in Hrun'. by injection Hrun' as <-.
Qed.

Lemma prepared_data_sizes num_outputs images labels d :
  0 < num_outputs →
  Forall (λ lbl, (0 ≤ lbl)%Z) labels →
  prepare_data num_outputs images labels = Prepared d →
  length (train_patterns d) = num_outputs ∧
  Forall bit_pattern (train_patterns d) ∧
  shape num_outputs num_outputs (train_targets d) ∧
  length (test_patterns d) = length (test_labels d) ∧
  Forall bit_pattern (test_patterns d) ∧
  shape (length (test_labels d)) num_outputs (test_targets d).
Proof.
  intros Hno Hpos Hrun.
  destruct (prepare_data_Prepared num_outputs images labels d Hno Hpos Hrun)
    as (blocks & Hblocks%center_blocks_bits
        & Hlen & Htp & Htl & Htt & _ & Hsp & Hsl & Hst & _).
  apply Forall2_length in Htp as Htp', Hsp as Hsp', Hsl as Hsl'.
  split_and!.
  - lia.
  - by eapply rows_at_Forall.
  - done.
  - lia.
  - by eapply rows_at_Forall.
  - by rewrite <- Hsl'.
Qed.

End PreparedSizes.

(** X25. The data the script goes on with fit the network of 16 inputs:
    there are [num_outputs] training patterns, every training and test
    pattern has 16 entries, each 0 or 1, and the arrays of targets have one
    row per pattern and [num_outputs] columns. The stimulus generator
    therefore finds an entry for every input and every error line of every
    training pattern, at every learning step. *)
Theorem prepared_data_fit_the_network num_outputs images labels d
    learning_step :
  0 < num_outputs →
  Forall (λ lbl, (0 ≤ lbl)%Z) labels →
  Dataset.prepare_data num_outputs images labels = Dataset.Prepared d →
  (length (Dataset.train_patterns d) = num_outputs ∧
   Forall bit_pattern (Dataset.train_patterns d) ∧
   shape num_outputs num_outputs (Dataset.train_targets d) ∧
   length (Dataset.test_patterns d) = length (Dataset.test_labels d) ∧
   Forall bit_pattern (Dataset.test_patterns d) ∧
   shape (length (Dataset.test_labels d)) num_outputs
     (Dataset.test_targets d)) ∧
  ∃ s, Stimulus.waveforms 16 num_outputs (Dataset.train_patterns d)
         (Dataset.train_targets d) learning_step = Ok s.
Proof.
  intros Hno Hpos Hrun.
  pose proof (prepared_data_sizes num_outputs images labels d Hno Hpos Hrun)
    as Hsizes.
  split; [exact Hsizes |].
  destruct Hsizes as (_ & Hp & [_ Ht] & _).
  destruct (waveforms_spec 16 num_outputs (Dataset.train_patterns d)
              (Dataset.train_targets d) learning_step) as (s & Hs & _).
  - eapply Forall_impl; [exact Hp |]. intros p [-> _]. done.
  - eapply Forall_impl; [exact Ht |]. intros t ->. done.
  - by exists s.
Qed.

Lemma prepared_data_fit_the_network_witness :
  let images := replicate 3 (replicate 784 200%Q) in
  let labels := [1; 0; 1]%Z in
  ∃ d, Dataset.prepare_data 2 images labels = Dataset.Prepared d ∧
       Forall bit_pattern (Dataset.train_patterns d) ∧
       ∃ s, Stimulus.waveforms 16 2 (Dataset.train_patterns d)
              (Dataset.train_targets d) 0 = Ok s.
Proof.
  intros images labels.
  assert (∃ d, Dataset.prepare_data 2 images labels = Dataset.Prepared d)
    as [d Hrun].
  { eexists. vm_compute. reflexivity. }
  exists d. split; [exact Hrun |].
  destruct (prepared_data_fit_the_network 2 images labels d 0)
    as [(_ & Hbits & _) Hs]; [lia | repeat constructor; lia | exact Hrun |].
  split; [exact Hbits | exact Hs].
Defined.
